(** * Resumable PostgreSQL -> Cloudflare D1 migration: a shallow embedding

    The development embeds the scripts [migrate.js],
    [migrate-camera-locations.js] and [migrate-with-resume.js].

    Conventions of the embedding.
    - JavaScript numbers that hold integers (row ids, counts, sizes,
      milliseconds) are [Z].  They are IEEE 754 doubles: where the scripts
      compute on row ids the sum or difference is rounded by [double], which
      is the identity up to 2^53.  Counts, batch arithmetic and times stay
      far below 2^53 and are computed exactly.
      Environment variables that the scripts read through [parseInt] are
      taken already parsed (a [Z], or [None] when the variable is unset).
    - A JavaScript object used as a record of columns is a [gmap string value].
    - Asynchronous code is sequential state passing over a [World] that holds
      the destination database, the source database, the schedule of remote
      faults, the clock and a step budget for the loops that need not
      terminate.  [throw] is the [Throw] outcome, [try]/[catch] is
      [try_catch]. *)

From Stdlib Require Import ZArith List Lia Bool Ascii String.
From stdpp Require Import base option list strings gmap pretty sorting.

Local Open Scope Z_scope.

(** ** JavaScript values and errors *)

Inductive value : Type :=
  | VUndefined
  | VNull
  | VBool (b : bool)
  | VNum (z : Z)
  | VStr (s : string)
  | VDate (t : option Z).   (* a Date object: its time value, None = NaN *)

Record JsError : Type := MkError { message : string }.

(** A computation that either returns or throws. *)
Definition Err (A : Type) : Type := A + JsError.

Definition err_bind {A B} (m : Err A) (k : A -> Err B) : Err B :=
  match m with
  | inl a => k a
  | inr e => inr e
  end.

Fixpoint err_map {A B} (f : A -> Err B) (l : list A) : Err (list B) :=
  match l with
  | [] => inl []
  | x :: xs =>
      err_bind (f x) (fun y => err_bind (err_map f xs) (fun ys => inl (y :: ys)))
  end.

(** JavaScript truthiness, as used by [row.created_at ? ... : null]. *)
Definition truthy (v : value) : bool :=
  match v with
  | VUndefined | VNull => false
  | VBool b => b
  | VNum z => negb (z =? 0)
  | VStr s => negb (String.eqb s "")
  | VDate _ => true
  end.

(** [a === b].  Two values of different types are never strictly equal.
    Objects are equal by identity, which this embedding does not track: two
    [Date] objects are taken to be distinct. *)
Definition strict_equal (a b : value) : bool :=
  match a, b with
  | VUndefined, VUndefined | VNull, VNull => true
  | VBool x, VBool y => Bool.eqb x y
  | VNum x, VNum y => x =? y
  | VStr x, VStr y => String.eqb x y
  | _, _ => false
  end.

(** ** Numbers

    The nearest double of an integer [z], ties to the even significand
    (magnitudes below 2^1024, beyond which a double is [Infinity]).  A
    double has 53 significant bits: up to 2^53 every integer is one, and
    from there on the doubles between 2^(52+k) and 2^(53+k) are 2^k
    apart. *)
Definition double (z : Z) : Z :=
  let a := Z.abs z in
  if a <=? 2 ^ 53 then z
  else
    let gap := 2 ^ (Z.log2 a - 52) in
    let q := a / gap in
    let r := a mod gap in
    let up := (gap <? 2 * r) || ((gap =? 2 * r) && Z.odd q) in
    Z.sgn z * ((if up then q + 1 else q) * gap).

(** [a + b] and [a - b] on numbers that hold integers. *)
Definition js_add (a b : Z) : Z := double (a + b).
Definition js_sub (a b : Z) : Z := double (a - b).

(** [parseInt(v)] of what [pg] returns for an integer column or aggregate:
    a number, or the decimal string of a [bigint]; [null] gives NaN, here
    [None]. *)
Definition parseInt (v : option Z) : option Z := double <$> v.

(** [Number.MAX_SAFE_INTEGER] and [Number.isSafeInteger]. *)
Definition MAX_SAFE_INTEGER : Z := 2 ^ 53 - 1.
Definition safe_integer (z : Z) : Prop := - MAX_SAFE_INTEGER <= z <= MAX_SAFE_INTEGER.

(** [Math.floor(a / b)] on integers with [b <> 0]. *)
Definition Math_floor_div (a b : Z) : Z := a / b.

(** ** Batch sizing ([migrate.js], [migrate-camera-locations.js],
       [migrate-with-resume.js], lines 21-33 / 22-26) *)

(** [Math.floor(MAX_SQL_VARIABLES / COLUMNS_COUNT)], the expression the three
    scripts share for [MAX_BATCH_SIZE]. *)
Definition maxBatchRows (columnCount parameterCeiling : Z) : Z :=
  Math_floor_div parameterCeiling columnCount.

Module Migrate.
(* migrate.js *)
Definition COLUMNS_COUNT : Z := 5.
Definition MAX_SQL_VARIABLES : Z := 99.
Definition MAX_BATCH_SIZE : Z := maxBatchRows COLUMNS_COUNT MAX_SQL_VARIABLES.
(* parseInt(process.env.BATCH_SIZE || '19', 10) *)
Definition REQUESTED_BATCH_SIZE (env_BATCH_SIZE : option Z) : Z :=
  default 19 env_BATCH_SIZE.
Definition BATCH_SIZE (env_BATCH_SIZE : option Z) : Z :=
  Z.min (REQUESTED_BATCH_SIZE env_BATCH_SIZE) MAX_BATCH_SIZE.
(* if (REQUESTED_BATCH_SIZE > MAX_BATCH_SIZE) console.log(...): a note,
   the script goes on. *)
Definition clamp_note (env_BATCH_SIZE : option Z) : bool :=
  REQUESTED_BATCH_SIZE env_BATCH_SIZE >? MAX_BATCH_SIZE.
End Migrate.

Module MigrateCameraLocations.
(* migrate-camera-locations.js *)
Definition COLUMNS_COUNT : Z := 6.
Definition MAX_SQL_VARIABLES : Z := 99.
Definition MAX_BATCH_SIZE : Z := maxBatchRows COLUMNS_COUNT MAX_SQL_VARIABLES.
(* parseInt(process.env.BATCH_SIZE || '16', 10) *)
Definition REQUESTED_BATCH_SIZE (env_BATCH_SIZE : option Z) : Z :=
  default 16 env_BATCH_SIZE.
Definition BATCH_SIZE (env_BATCH_SIZE : option Z) : Z :=
  Z.min (REQUESTED_BATCH_SIZE env_BATCH_SIZE) MAX_BATCH_SIZE.
Definition clamp_note (env_BATCH_SIZE : option Z) : bool :=
  REQUESTED_BATCH_SIZE env_BATCH_SIZE >? MAX_BATCH_SIZE.
End MigrateCameraLocations.

(** ** The Date object: [toISOString] and [Date.parse]

    Time values are milliseconds since the epoch.  Days are converted to
    proleptic Gregorian dates era by era (an era is 400 years, 146097 days,
    starting on 1 March). *)

Definition msPerDay : Z := 86400000.
Definition maxTime : Z := 8640000000000000.

(** [TimeClip] *)
Definition TimeClip (t : Z) : option Z :=
  if Z.abs t <=? maxTime then Some t else None.

Definition civil_from_days (z : Z) : Z * Z * Z :=
  let z := z + 719468 in
  let era := z / 146097 in
  let doe := z - era * 146097 in
  let yoe := (doe - doe / 1460 + doe / 36524 - doe / 146096) / 365 in
  let y := yoe + era * 400 in
  let doy := doe - (365 * yoe + yoe / 4 - yoe / 100) in
  let mp := (5 * doy + 2) / 153 in
  let d := doy - (153 * mp + 2) / 5 + 1 in
  let m := if mp <? 10 then mp + 3 else mp - 9 in
  (if m <=? 2 then y + 1 else y, m, d).

Definition days_from_civil (y m d : Z) : Z :=
  let y := if m <=? 2 then y - 1 else y in
  let era := y / 400 in
  let yoe := y - era * 400 in
  let doy := (153 * (if 2 <? m then m - 3 else m + 9) + 2) / 5 + d - 1 in
  let doe := yoe * 365 + yoe / 4 - yoe / 100 + doy in
  era * 146097 + doe - 719468.

Definition digit_char (d : Z) : ascii := ascii_of_nat (48 + Z.to_nat d).

(** [k] decimal digits of [n], most significant first, zero padded. *)
Fixpoint digits (k : nat) (n : Z) : string :=
  match k with
  | O => EmptyString
  | S k' => String (digit_char (n / 10 ^ Z.of_nat k')) (digits k' (n mod 10 ^ Z.of_nat k'))
  end.

Definition year_string (y : Z) : string :=
  if (0 <=? y) && (y <=? 9999) then digits 4 y
  else if y <? 0 then String "-" (digits 6 (- y))
  else String "+" (digits 6 y).

(** [Date.prototype.toISOString] on a finite time value:
    [YYYY-MM-DDTHH:mm:ss.sssZ], with a signed six-digit year outside
    0..9999. *)
Definition iso_string (t : Z) : string :=
  let day := t / msPerDay in
  let ms := t mod msPerDay in
  let '(y, m, d) := civil_from_days day in
  year_string y +:+ "-" +:+ digits 2 m +:+ "-" +:+ digits 2 d +:+ "T"
    +:+ digits 2 (ms / 3600000) +:+ ":" +:+ digits 2 (ms / 60000 mod 60)
    +:+ ":" +:+ digits 2 (ms / 1000 mod 60) +:+ "." +:+ digits 3 (ms mod 1000)
    +:+ "Z".

Definition toISOString (t : option Z) : Err string :=
  match t with
  | Some t => inl (iso_string t)
  | None => inr (MkError "Invalid time value")
  end.

Definition digit_value (c : ascii) : option Z :=
  let n := Z.of_nat (nat_of_ascii c) in
  if (48 <=? n) && (n <=? 57) then Some (n - 48) else None.

(** Read exactly [k] decimal digits. *)
Fixpoint read_digits (k : nat) (s : string) : option (Z * string) :=
  match k with
  | O => Some (0, s)
  | S k' =>
      match s with
      | EmptyString => None
      | String c rest =>
          match digit_value c, read_digits k' rest with
          | Some d, Some (v, rest') => Some (d * 10 ^ Z.of_nat k' + v, rest')
          | _, _ => None
          end
      end
  end.

Definition read_char (c : ascii) (s : string) : option string :=
  match s with
  | String c' rest => if Ascii.eqb c c' then Some rest else None
  | EmptyString => None
  end.

Definition read_year (s : string) : option (Z * string) :=
  match s with
  | String "-" rest => '(y, r) ← read_digits 6 rest; Some (- y, r)
  | String "+" rest => read_digits 6 rest
  | _ => read_digits 4 s
  end.

(** The fields of a string of the shape [toISOString] produces, as a time
    value. *)
Definition read_iso (s : string) : option Z :=
  '(y, s) ← read_year s; s ← read_char "-" s;
  '(m, s) ← read_digits 2 s; s ← read_char "-" s;
  '(d, s) ← read_digits 2 s; s ← read_char "T" s;
  '(hh, s) ← read_digits 2 s; s ← read_char ":" s;
  '(mm, s) ← read_digits 2 s; s ← read_char ":" s;
  '(ss, s) ← read_digits 2 s; s ← read_char "." s;
  '(ms, s) ← read_digits 3 s; s ← read_char "Z" s;
  match s with
  | EmptyString =>
      Some (days_from_civil y m d * msPerDay + hh * 3600000 + mm * 60000 + ss * 1000 + ms)
  | _ => None
  end.

(** What [Date.parse] does with a string that is not in the form
    [toISOString] produces is left to the implementation; it is a parameter
    of the development. *)
Class Platform : Type := { legacy_parse : string -> option Z }.

(** The platform whose [Date.parse] accepts the [toISOString] form only. *)
Definition strict_platform : Platform := {| legacy_parse := fun _ => None |}.

Section Platform.
Context `{Platform}.

(** [Date.parse]: a string that is exactly the [toISOString] form of a time
    value in range denotes that time value; any other string goes to the
    implementation's parser. *)
Definition Date_parse (s : string) : option Z :=
  match read_iso s with
  | Some t =>
      if (Z.abs t <=? maxTime) && String.eqb (iso_string t) s then Some t
      else legacy_parse s
  | None => legacy_parse s
  end.

(** [new Date(v)]: the time value of the new object, which the constructor
    always passes through [TimeClip]. *)
Definition new_Date (v : value) : option Z :=
  tv ← match v with
       | VDate t => t
       | VStr s => Date_parse s
       | VNum z => Some z
       | VBool b => Some (if b then 1 else 0)
       | VNull => Some 0
       | VUndefined => None
       end;
  TimeClip tv.

(** [v ? new Date(v).toISOString() : null] *)
Definition timestamp_to_iso (v : value) : Err value :=
  if truthy v then err_bind (toISOString (new_Date v)) (fun s => inl (VStr s))
  else inl VNull.

(** Reading a property of an object: a missing key is [undefined]. *)
Definition get (row : gmap string value) (k : string) : value :=
  default VUndefined (row !! k).

(** [row => ({...row, created_at: ..., updated_at: ...})]
    ([migrate-camera-locations.js] 129-133, [migrate-with-resume.js]
    282-286). *)
Definition transform (row : gmap string value) : Err (gmap string value) :=
  err_bind (timestamp_to_iso (get row "created_at")) (fun c =>
  err_bind (timestamp_to_iso (get row "updated_at")) (fun u =>
  inl (<["updated_at" := u]> (<["created_at" := c]> row)))).


(** [rows.map(transform)]: the first row whose timestamp cannot be printed
    throws. *)
Definition transform_rows (rows : list (gmap string value)) :
    Err (list (gmap string value)) :=
  err_map transform rows.

(** ** The destination: Cloudflare D1 behind its HTTP query API *)

Inductive Status : Type := pending | in_progress | completed | failed.

#[global] Instance Status_eq_dec : EqDecision Status.
Proof. solve_decision. Defined.

(** A row of [migration_checkpoints] ([schema.sql]). *)
Record Checkpoint : Type := MkCheckpoint {
  cp_id : Z;
  cp_table_name : string;
  cp_start_id : Z;
  cp_end_id : Z;
  cp_records_processed : Z;
  cp_status : Status;
  cp_error_message : option string;
  cp_started_at : option string;
  cp_completed_at : option string;
  cp_created_at : Z
}.

Inductive TimestampField : Type := started_at | completed_at.

(** The statements the resumable script sends, one constructor per SQL text,
    with the bound parameters as arguments. *)
Inductive Sql : Type :=
  | SelectProbe (table : string)
      (* SELECT COUNT( * ) FROM <table> LIMIT 1 *)
  | CreateCheckpointsTable
  | CreateTargetTable (table : string)
  | CreateIndex (name table : string)
  | CountCheckpoints (tableName : string)
  | DeleteCheckpoints (tableName : string)
  | InsertCheckpoint (tableName : string) (startId endId : Z)
  | UpdateCheckpoint (st : Status) (recordsProcessed : Z)
      (errorMessage : option string) (field : TimestampField) (now : string)
      (checkpointId : Z)
  | SelectPendingCheckpoints (tableName : string)
  | SelectLastCompleted (tableName : string)
  | InsertRows (table : string) (tuples arity : nat) (params : list value)
      (* INSERT INTO <table> (...) VALUES (?, ..), (?, ..), ... *)
  | SelectCount (table : string).
      (* SELECT COUNT( * ) as count FROM <table> *)

(** A row of a result set. *)
Inductive D1Row : Type :=
  | RowCount (count : Z)         (* a column named count *)
  | RowUnnamed (n : Z)           (* COUNT( * ) without an alias *)
  | RowCheckpoint (c : Checkpoint).

(** The database.  [d1_history] is a ghost record of every status write an
    UPDATE performed: checkpoint id, status before, status after. *)
Record D1 : Type := MkD1 {
  d1_checkpoints : option (list Checkpoint);   (* None: no such table *)
  d1_seq : Z;                                  (* last AUTOINCREMENT id *)
  d1_tables : gmap string (list (list value)); (* the destination tables *)
  d1_indexes : list string;
  d1_history : list (Z * Status * Status)
}.

Definition checkpoints_name : string := "migration_checkpoints".

(** D1 refuses a statement with more than 100 bound parameters. *)
Definition D1_MAX_PARAMS : nat := 100.

Definition table_count (d : D1) (table : string) : option Z :=
  if String.eqb table checkpoints_name
  then (fun l => Z.of_nat (length l)) <$> d1_checkpoints d
  else (fun l => Z.of_nat (length l)) <$> d1_tables d !! table.

(** In SQLite an index lives and dies with its table: while
    [migration_checkpoints] is missing, so are its two indexes. *)
Definition checkpoint_indexes_consistent (d : D1) : Prop :=
  d1_checkpoints d = None ->
  ("idx_checkpoint_table_status" ∉ d1_indexes d) /\
  ("idx_checkpoint_table_range" ∉ d1_indexes d).

Definition no_such_table (table : string) : string :=
  "no such table: " +:+ table.

Definition set_checkpoints (d : D1) (cps : option (list Checkpoint)) : D1 :=
  MkD1 cps (d1_seq d) (d1_tables d) (d1_indexes d) (d1_history d).

Definition is_eligible (c : Checkpoint) : bool :=
  match cp_status c with
  | pending | failed => true
  | _ => false
  end.

Definition is_completed (c : Checkpoint) : bool :=
  match cp_status c with
  | completed => true
  | _ => false
  end.

Definition for_table (tableName : string) (c : Checkpoint) : bool :=
  String.eqb (cp_table_name c) tableName.

Definition start_id_le (a b : Checkpoint) : Prop := cp_start_id a <= cp_start_id b.
Definition end_id_ge (a b : Checkpoint) : Prop := cp_end_id b <= cp_end_id a.

#[global] Instance start_id_le_dec a b : Decision (start_id_le a b).
Proof. unfold start_id_le. apply _. Defined.
#[global] Instance end_id_ge_dec a b : Decision (end_id_ge a b).
Proof. unfold end_id_ge. apply _. Defined.

(** [ORDER BY start_id] *)
Definition order_by_start_id (l : list Checkpoint) : list Checkpoint :=
  merge_sort start_id_le l.

(** [ORDER BY end_id DESC] *)
Definition order_by_end_id_desc (l : list Checkpoint) : list Checkpoint :=
  merge_sort end_id_ge l.

(** [SET status = ?, records_processed = ?, error_message = ?, <field> = ?] *)
Definition update_row (st : Status) (recordsProcessed : Z)
    (errorMessage : option string) (field : TimestampField) (now : string)
    (c : Checkpoint) : Checkpoint :=
  MkCheckpoint (cp_id c) (cp_table_name c) (cp_start_id c) (cp_end_id c)
    recordsProcessed st errorMessage
    (match field with started_at => Some now | completed_at => cp_started_at c end)
    (match field with completed_at => Some now | started_at => cp_completed_at c end)
    (cp_created_at c).

(** [UPDATE migration_checkpoints SET ... WHERE id = ?] on the rows. *)
Definition update_rows (st : Status) (recordsProcessed : Z)
    (errorMessage : option string) (field : TimestampField) (now : string)
    (checkpointId : Z) (cps : list Checkpoint) : list Checkpoint :=
  (fun c => if cp_id c =? checkpointId
            then update_row st recordsProcessed errorMessage field now c
            else c) <$> cps.

(** The status writes that UPDATE performs, for [d1_history]. *)
Definition status_writes (st : Status) (checkpointId : Z) (cps : list Checkpoint) :
    list (Z * Status * Status) :=
  (fun c => (cp_id c, cp_status c, st)) <$> filter (fun c => cp_id c =? checkpointId) cps.

(** Split the flattened parameters into tuples of [arity] values. *)
Fixpoint chunk (tuples arity : nat) (params : list value) : list (list value) :=
  match tuples with
  | O => []
  | S n => take arity params :: chunk n arity (drop arity params)
  end.

Definition has_table (d : D1) (table : string) : bool :=
  match table_count d table with Some _ => true | None => false end.

(** One statement against the database at database time [now]: the new
    database and either the result set or the error text. *)
Definition d1_exec (now : Z) (d : D1) (q : Sql) : D1 * (list D1Row + string) :=
  match q with
  | SelectProbe table =>
      match table_count d table with
      | Some n => (d, inl [RowUnnamed n])
      | None => (d, inr (no_such_table table))
      end
  | SelectCount table =>
      match table_count d table with
      | Some n => (d, inl [RowCount n])
      | None => (d, inr (no_such_table table))
      end
  | CreateCheckpointsTable =>
      match d1_checkpoints d with
      | Some _ => (d, inr ("table " +:+ checkpoints_name +:+ " already exists"))
      | None => (MkD1 (Some []) 0 (d1_tables d) (d1_indexes d) (d1_history d), inl [])
      end
  | CreateTargetTable table =>
      if has_table d table
      then (d, inr ("table " +:+ table +:+ " already exists"))
      else (MkD1 (d1_checkpoints d) (d1_seq d) (<[table := []]> (d1_tables d))
              (d1_indexes d) (d1_history d), inl [])
  | CreateIndex name table =>
      if negb (has_table d table) then (d, inr (no_such_table ("main." +:+ table)))
      else if bool_decide (name ∈ d1_indexes d)
      then (d, inr ("index " +:+ name +:+ " already exists"))
      else (MkD1 (d1_checkpoints d) (d1_seq d) (d1_tables d)
              (name :: d1_indexes d) (d1_history d), inl [])
  | CountCheckpoints tableName =>
      match d1_checkpoints d with
      | Some cps =>
          (d, inl [RowCount (Z.of_nat (length (filter (for_table tableName) cps)))])
      | None => (d, inr (no_such_table checkpoints_name))
      end
  | DeleteCheckpoints tableName =>
      match d1_checkpoints d with
      | Some cps =>
          (set_checkpoints d (Some (filter (fun c => negb (for_table tableName c)) cps)),
           inl [])
      | None => (d, inr (no_such_table checkpoints_name))
      end
  | InsertCheckpoint tableName startId endId =>
      match d1_checkpoints d with
      | Some cps =>
          let c := MkCheckpoint (d1_seq d + 1) tableName startId endId 0 pending
                     None None None now in
          (MkD1 (Some (cps ++ [c])) (d1_seq d + 1) (d1_tables d) (d1_indexes d)
             (d1_history d), inl [])
      | None => (d, inr (no_such_table checkpoints_name))
      end
  | UpdateCheckpoint st recordsProcessed errorMessage field now' checkpointId =>
      match d1_checkpoints d with
      | Some cps =>
          (MkD1 (Some (update_rows st recordsProcessed errorMessage field now'
                         checkpointId cps))
             (d1_seq d) (d1_tables d) (d1_indexes d)
             (d1_history d ++ status_writes st checkpointId cps), inl [])
      | None => (d, inr (no_such_table checkpoints_name))
      end
  | SelectPendingCheckpoints tableName =>
      match d1_checkpoints d with
      | Some cps =>
          (d, inl (RowCheckpoint <$>
                   order_by_start_id
                     (filter (fun c => for_table tableName c && is_eligible c) cps)))
      | None => (d, inr (no_such_table checkpoints_name))
      end
  | SelectLastCompleted tableName =>
      match d1_checkpoints d with
      | Some cps =>
          (d, inl (RowCheckpoint <$>
                   take 1 (order_by_end_id_desc
                     (filter (fun c => for_table tableName c && is_completed c) cps))))
      | None => (d, inr (no_such_table checkpoints_name))
      end
  | InsertRows table tuples arity params =>
      if (tuples =? 0)%nat then (d, inr "incomplete input: SQLITE_ERROR")
      else if (D1_MAX_PARAMS <? length params)%nat
      then (d, inr "too many SQL variables: SQLITE_ERROR")
      else
        match d1_tables d !! table with
        | Some rows =>
            (MkD1 (d1_checkpoints d) (d1_seq d)
               (<[table := rows ++ chunk tuples arity params]> (d1_tables d))
               (d1_indexes d) (d1_history d), inl [])
        | None => (d, inr (no_such_table table))
        end
  end.

(** ** The world the script runs in *)

(** What the script sees of one HTTP attempt that fails. *)
Inductive Fault : Type :=
  | NetworkError (msg : string)              (* fetch rejects *)
  | HttpError (status : Z) (text : string)   (* !response.ok *)
  | NonJsonBody (url : string)               (* response.json() throws; response.url *)
  | AppError (errors : string).              (* success: false; the JSON text of errors *)

(** A failed attempt.  The request has left the script when the failure
    shows, and the script cannot tell whether the database had executed the
    statement by then: [executed] says so. *)
Record Failure : Type := MkFailure { fault : Fault; executed : bool }.

Record World : Type := MkWorld {
  w_d1 : D1;
  w_faults : list (option Failure);    (* one entry per HTTP attempt to come *)
  w_requests : list Sql;               (* every attempt sent, oldest first *)
  w_pg_rows : list (gmap string value);(* the source table TABLE_NAME *)
  w_pg_faults : list (option string);  (* one entry per source call to come *)
  w_clock : Z;                         (* milliseconds since the epoch *)
  w_sleeps : list Z;                   (* every setTimeout delay, oldest first *)
  w_gas : nat                          (* iterations left for unbounded loops *)
}.

Inductive Outcome (A : Type) : Type :=
  | Ret (a : A)
  | Throw (e : JsError)
  | Diverge.                           (* the step budget ran out *)
#[global] Arguments Ret {A} a.
#[global] Arguments Throw {A} e.
#[global] Arguments Diverge {A}.

Definition M (A : Type) : Type := World -> World * Outcome A.

Definition ret {A} (a : A) : M A := fun w => (w, Ret a).
Definition throw {A} (e : JsError) : M A := fun w => (w, Throw e).

Definition bind {A B} (m : M A) (k : A -> M B) : M B :=
  fun w =>
    match m w with
    | (w', Ret a) => k a w'
    | (w', Throw e) => (w', Throw e)
    | (w', Diverge) => (w', Diverge)
    end.

Notation "x <- m ;; k" := (bind m (fun x => k))
  (at level 100, m at next level, right associativity).
Notation "m ;;; k" := (bind m (fun _ => k))
  (at level 100, right associativity).

(** [try { body } catch (error) { handler }] *)
Definition try_catch {A} (body : M A) (handler : JsError -> M A) : M A :=
  fun w =>
    match body w with
    | (w', Throw e) => handler e w'
    | r => r
    end.

Definition lift {A} (m : Err A) : M A :=
  match m with
  | inl a => ret a
  | inr e => throw e
  end.

(** One iteration of a loop that need not terminate. *)
Definition tick : M unit :=
  fun w =>
    match w_gas w with
    | O => (w, Diverge)
    | S g => (MkWorld (w_d1 w) (w_faults w) (w_requests w) (w_pg_rows w)
                (w_pg_faults w) (w_clock w) (w_sleeps w) g, Ret tt)
    end.

(** [await new Promise(resolve => setTimeout(resolve, delay))] *)
Definition sleep (delay : Z) : M unit :=
  fun w => (MkWorld (w_d1 w) (w_faults w) (w_requests w) (w_pg_rows w)
              (w_pg_faults w) (w_clock w + delay) (w_sleeps w ++ [delay]) (w_gas w),
            Ret tt).

(** [for (const x of l) await f(x)] *)
Fixpoint for_each {A} (f : A -> M unit) (l : list A) : M unit :=
  match l with
  | [] => ret tt
  | x :: xs => f x ;;; for_each f xs
  end.

(** [s.includes(sub)] *)
Fixpoint includes (s sub : string) : bool :=
  String.prefix sub s ||
  match s with
  | EmptyString => false
  | String _ rest => includes rest sub
  end.

(** ** The Destination Gateway ([migrate-with-resume.js] 40-86) *)

Definition TypeError (msg : string) : JsError := MkError msg.

(** The error the [try] block of [executeD1SQL] throws on a failed attempt.
    After [response.json()] has thrown, the body is used up, and the
    [response.text()] of the inner [catch] (line 66) is rejected by
    node-fetch with its own TypeError, which names the address that
    answered: the message built on line 67 is never thrown. *)
Definition fault_error (f : Fault) : JsError :=
  match f with
  | NetworkError msg => MkError msg
  | HttpError status text =>
      MkError ("D1 API HTTP " +:+ pretty status +:+ ": " +:+ String.substring 0 200 text)
  | NonJsonBody url => TypeError ("body used already for: " +:+ url)
  | AppError errors => MkError ("D1 API Error: " +:+ errors)
  end.

(** One pass through the [try] block of [executeD1SQL]: the request goes
    out; a failure of the schedule makes it throw, whether or not the
    database has executed the statement; otherwise the database executes
    the statement and an SQL error comes back as [success: false]. *)
Definition d1_attempt (sql : Sql) : M (list D1Row) :=
  fun w =>
    let w1 d := MkWorld d (tail (w_faults w)) (w_requests w ++ [sql]) (w_pg_rows w)
                  (w_pg_faults w) (w_clock w) (w_sleeps w) (w_gas w) in
    match head (w_faults w) with
    | Some (Some failure) =>
        (w1 (if executed failure then (d1_exec (w_clock w) (w_d1 w) sql).1 else w_d1 w),
         Throw (fault_error (fault failure)))
    | Some None | None =>
        match d1_exec (w_clock w) (w_d1 w) sql with
        | (d', inl rows) => (w1 d', Ret rows)
        | (d', inr errors) => (w1 d', Throw (MkError ("D1 API Error: " +:+ errors)))
        end
    end.

(** [Math.min(1000 * Math.pow(2, attempt - 1), 10000)] *)
Definition backoff_delay (attempt : Z) : Z :=
  Z.min (1000 * 2 ^ (attempt - 1)) 10000.

(** The loop [for (let attempt = 1; attempt <= retries; attempt++)], entered
    at [attempt] with [n] iterations left.  Falling out of the loop returns
    [undefined], here [None]. *)
Fixpoint executeD1SQL_from (n : nat) (sql : Sql) (retries attempt : Z) :
    M (option (list D1Row)) :=
  match n with
  | O => ret None
  | S n' =>
      try_catch (result <- d1_attempt sql ;; ret (Some result))
        (fun error =>
           if attempt =? retries then throw error
           else
             let delay := backoff_delay attempt in
             sleep delay ;;;
             executeD1SQL_from n' sql retries (attempt + 1))
  end.

Definition executeD1SQL_retries (sql : Sql) (retries : Z) : M (option (list D1Row)) :=
  executeD1SQL_from (Z.to_nat retries) sql retries 1.

(** [executeD1SQL(sql, params)] with the default [retries = 3]. *)
Definition executeD1SQL (sql : Sql) : M (option (list D1Row)) :=
  executeD1SQL_retries sql 3.

(** [result.result[0].results] *)
Definition results_of (result : option (list D1Row)) : M (list D1Row) :=
  match result with
  | Some rows => ret rows
  | None => throw (TypeError "Cannot read properties of undefined (reading 'result')")
  end.

(** [result.result[0].results[0].count]; [None] is [undefined]. *)
Definition first_count (result : option (list D1Row)) : M (option Z) :=
  rows <- results_of result ;;
  match rows with
  | RowCount n :: _ => ret (Some n)
  | _ :: _ => ret None
  | [] => throw (TypeError "Cannot read properties of undefined (reading 'count')")
  end.

(** ** Configuration ([migrate-with-resume.js] 16-28) *)

Record Config : Type := MkConfig {
  TABLE_NAME : string;            (* process.env.TABLE_NAME || 'coordinate_speed_new' *)
  env_BATCH_SIZE : option Z;      (* process.env.BATCH_SIZE, parsed; None when unset *)
  CHECKPOINT_SIZE : Z;            (* parseInt(process.env.CHECKPOINT_SIZE || '100000') *)
  RESUME_MODE : bool              (* process.env.RESUME_MODE !== 'false' *)
}.

Definition COLUMNS_COUNT (cfg : Config) : Z :=
  if String.eqb (TABLE_NAME cfg) "coordinate_speed_new" then 5 else 6.
Definition MAX_SQL_VARIABLES : Z := 100.
Definition MAX_BATCH_SIZE (cfg : Config) : Z :=
  maxBatchRows (COLUMNS_COUNT cfg) MAX_SQL_VARIABLES.
(** [Math.min(parseInt(process.env.BATCH_SIZE || MAX_BATCH_SIZE.toString(), 10),
    MAX_BATCH_SIZE)] *)
Definition BATCH_SIZE (cfg : Config) : Z :=
  Z.min (default (MAX_BATCH_SIZE cfg) (env_BATCH_SIZE cfg)) (MAX_BATCH_SIZE cfg).

(** ** The Checkpoint Store ([migrate-with-resume.js] 88-164) *)

Definition createCheckpoint (tableName : string) (startId endId : Z) : M unit :=
  executeD1SQL (InsertCheckpoint tableName startId endId) ;;; ret tt.

(** [new Date().toISOString()] *)
Definition now_iso : M string := fun w => (w, Ret (iso_string (w_clock w))).

Definition updateCheckpointStatus (checkpointId : Z) (st : Status)
    (recordsProcessed : Z) (errorMessage : option string) : M unit :=
  now <- now_iso ;;
  let field := match st with in_progress => started_at | _ => completed_at end in
  executeD1SQL (UpdateCheckpoint st recordsProcessed errorMessage field now checkpointId) ;;;
  ret tt.

Definition checkpoint_rows (rows : list D1Row) : list Checkpoint :=
  omap (fun r => match r with RowCheckpoint c => Some c | _ => None end) rows.

Definition getPendingCheckpoints (tableName : string) : M (list Checkpoint) :=
  result <- executeD1SQL (SelectPendingCheckpoints tableName) ;;
  rows <- results_of result ;;
  ret (checkpoint_rows rows).

(** [result.result[0].results[0] || null] *)
Definition getLastCompletedCheckpoint (tableName : string) : M (option Checkpoint) :=
  result <- executeD1SQL (SelectLastCompleted tableName) ;;
  rows <- results_of result ;;
  ret (head (checkpoint_rows rows)).

Definition ensureCheckpointsTableExists : M unit :=
  try_catch (executeD1SQL (SelectProbe checkpoints_name) ;;; ret tt)
    (fun error =>
       if includes (message error) "no such table" then
         executeD1SQL CreateCheckpointsTable ;;;
         executeD1SQL (CreateIndex "idx_checkpoint_table_status" checkpoints_name) ;;;
         executeD1SQL (CreateIndex "idx_checkpoint_table_range" checkpoints_name) ;;;
         ret tt
       else throw error).

(** ** The Checkpoint Planner ([migrate-with-resume.js] 166-208) *)

(** The loop [while (currentStart <= maxId)] that fills [checkpoints]:
    [currentEnd = Math.min(currentStart + CHECKPOINT_SIZE - 1, maxId)] and
    [currentStart = currentEnd + 1], on doubles. *)
Fixpoint plan_loop (fuel : nat) (size currentStart maxId : Z)
    (checkpoints : list (Z * Z)) : M (list (Z * Z)) :=
  if currentStart <=? maxId then
    match fuel with
    | O => fun w => (w, Diverge)
    | S fuel' =>
        tick ;;;
        let currentEnd := Z.min (js_sub (js_add currentStart size) 1) maxId in
        plan_loop fuel' size (js_add currentEnd 1) maxId
          (checkpoints ++ [(currentStart, currentEnd)])
    end
  else ret checkpoints.

(** [minId] and [maxId] come from [parseInt]; [None] is NaN, for which
    [currentStart <= maxId] is false at once. *)
Definition plan_checkpoints (size : Z) (minId maxId : option Z) : M (list (Z * Z)) :=
  match minId, maxId with
  | Some minId, Some maxId => fun w => plan_loop (w_gas w) size minId maxId [] w
  | _, _ => ret []
  end.

Definition initializeCheckpoints (cfg : Config) (tableName : string)
    (totalRecords : Z) (minId maxId : option Z) : M unit :=
  ensureCheckpointsTableExists ;;;
  existing <- executeD1SQL (CountCheckpoints tableName) ;;
  existingCount <- first_count existing ;;
  let positive := match existingCount with Some n => 0 <? n | None => false end in
  if positive && RESUME_MODE cfg then ret tt
  else
    (if positive && negb (RESUME_MODE cfg)
     then executeD1SQL (DeleteCheckpoints tableName) ;;; ret tt
     else ret tt) ;;;
    checkpoints <- plan_checkpoints (CHECKPOINT_SIZE cfg) minId maxId ;;
    for_each (fun c => createCheckpoint tableName (fst c) (snd c)) checkpoints.

(** ** Batch insert ([migrate-with-resume.js] 210-236) *)

Definition coordinate_columns : list string :=
  ["latitude"; "longitude"; "api_speed_limit"; "bearing"; "display_name"].
Definition camera_columns : list string :=
  ["location_id"; "longitude"; "latitude"; "altitude"; "created_at"; "updated_at"].

(** [rows.flatMap(row => [row.c1, ..., row.cn])] *)
Definition flat_params (columns : list string) (rows : list (gmap string value)) :
    list value :=
  rows ≫= (fun row => get row <$> columns).

Definition executeBatchInsert (tableName : string) (rows : list (gmap string value)) :
    M unit :=
  if String.eqb tableName "coordinate_speed_new" then
    executeD1SQL (InsertRows "coordinate_speed_new" (length rows) 5
                    (flat_params coordinate_columns rows)) ;;; ret tt
  else if String.eqb tableName "camera_locations" then
    executeD1SQL (InsertRows "camera_locations" (length rows) 6
                    (flat_params camera_columns rows)) ;;; ret tt
  else ret tt.

(** ** The source: PostgreSQL through [pgClient] *)

(** One call on the client: the schedule may make it throw. *)
Definition pg_call : M unit :=
  fun w =>
    let w' := MkWorld (w_d1 w) (w_faults w) (w_requests w) (w_pg_rows w)
                (tail (w_pg_faults w)) (w_clock w) (w_sleeps w) (w_gas w) in
    match head (w_pg_faults w) with
    | Some (Some msg) => (w', Throw (MkError msg))
    | _ => (w', Ret tt)
    end.

Definition row_id (row : gmap string value) : option Z :=
  match row !! "id" with
  | Some (VNum z) => Some z
  | _ => None
  end.

Definition row_id_le (a b : gmap string value) : Prop :=
  default 0 (row_id a) <= default 0 (row_id b).

#[global] Instance row_id_le_dec a b : Decision (row_id_le a b).
Proof. unfold row_id_le. apply _. Defined.

Definition in_range (startId endId : Z) (row : gmap string value) : bool :=
  match row_id row with
  | Some z => (startId <=? z) && (z <=? endId)
  | None => false
  end.

(** [SELECT <columns>]: a result row has exactly the selected columns. *)
Definition select_columns (columns : list string) (row : gmap string value) :
    gmap string value :=
  list_to_map ((fun c => (c, default VNull (row !! c))) <$> columns).

(** [SELECT <columns> FROM <TABLE_NAME> WHERE id >= $1 AND id <= $2 ORDER BY id] *)
Definition pg_query_range (columns : list string) (startId endId : Z) :
    M (list (gmap string value)) :=
  pg_call ;;;
  fun w =>
    (w, Ret (select_columns columns <$>
             merge_sort row_id_le (filter (in_range startId endId) (w_pg_rows w)))).

Definition ids_of (rows : list (gmap string value)) : list Z := omap row_id rows.

Definition list_min (l : list Z) : option Z :=
  match l with
  | [] => None
  | x :: xs => Some (foldr Z.min x xs)
  end.
Definition list_max (l : list Z) : option Z :=
  match l with
  | [] => None
  | x :: xs => Some (foldr Z.max x xs)
  end.

(** [SELECT COUNT( * ) as total_records, MIN(id) as min_id, MAX(id) as max_id]:
    the three integers of the answer.  [pg] hands [COUNT( * )], a [bigint],
    over as a string of decimal digits. *)
Definition pg_query_stats : M (Z * option Z * option Z) :=
  pg_call ;;;
  fun w =>
    (w, Ret (Z.of_nat (length (w_pg_rows w)),
             list_min (ids_of (w_pg_rows w)), list_max (ids_of (w_pg_rows w)))).

(** ** The Checkpoint Processor ([migrate-with-resume.js] 238-328) *)

(** The value of [Math.ceil(length / BATCH_SIZE)]. *)
Inductive Count : Type := Finite (z : Z) | Infinite.

Definition Math_ceil_div (a b : Z) : Count :=
  if b =? 0 then Infinite else Finite (- ((- a) / b)).

Definition lt_count (i : Z) (c : Count) : bool :=
  match c with
  | Finite z => i <? z
  | Infinite => true
  end.

Definition count_pred (c : Count) : Count :=
  match c with
  | Finite z => Finite (z - 1)
  | Infinite => Infinite
  end.

(** [l.slice(start, end)] *)
Definition slice {A} (l : list A) (start end_ : Z) : list A :=
  let len := Z.of_nat (length l) in
  let norm k := if k <? 0 then Z.max (len + k) 0 else Z.min k len in
  take (Z.to_nat (norm end_ - norm start)) (drop (Z.to_nat (norm start)) l).

Definition fetch_columns (cfg : Config) : list string :=
  if String.eqb (TABLE_NAME cfg) "coordinate_speed_new"
  then "id" :: coordinate_columns
  else "id" :: camera_columns.

(** The loop [for (let i = 0; i < batches; i++)] of [processCheckpoint]. *)
Fixpoint batch_loop (fuel : nat) (cfg : Config)
    (processedRows : list (gmap string value)) (batches : Count)
    (i recordsProcessed : Z) : M Z :=
  if lt_count i batches then
    match fuel with
    | O => fun w => (w, Diverge)
    | S fuel' =>
        tick ;;;
        let start := i * BATCH_SIZE cfg in
        let end_ := Z.min (start + BATCH_SIZE cfg) (Z.of_nat (length processedRows)) in
        let batch := slice processedRows start end_ in
        executeBatchInsert (TABLE_NAME cfg) batch ;;;
        let recordsProcessed := recordsProcessed + Z.of_nat (length batch) in
        (if (i + 1) mod 100 =? 0
         then try_catch pg_call (fun pingError => ret tt)
         else ret tt) ;;;
        (if lt_count i (count_pred batches) then sleep 200 else ret tt) ;;;
        batch_loop fuel' cfg processedRows batches (i + 1) recordsProcessed
    end
  else ret recordsProcessed.

Definition insert_batches (cfg : Config) (processedRows : list (gmap string value)) :
    M Z :=
  let batches := Math_ceil_div (Z.of_nat (length processedRows)) (BATCH_SIZE cfg) in
  fun w => batch_loop (w_gas w) cfg processedRows batches 0 0 w.

(** The [try] block of [processCheckpoint]. *)
Definition processCheckpoint_try (cfg : Config) (checkpoint : Checkpoint) : M Z :=
  let checkpointId := cp_id checkpoint in
  let startId := cp_start_id checkpoint in
  let endId := cp_end_id checkpoint in
  updateCheckpointStatus checkpointId in_progress 0 None ;;;
  try_catch pg_call (fun connError => pg_call) ;;;
  rows <- pg_query_range (fetch_columns cfg) startId endId ;;
  if (length rows =? 0)%nat then
    updateCheckpointStatus checkpointId completed 0 None ;;;
    ret 0
  else
    processedRows <-
      (if String.eqb (TABLE_NAME cfg) "camera_locations"
       then lift (transform_rows rows)
       else ret rows) ;;
    recordsProcessed <- insert_batches cfg processedRows ;;
    updateCheckpointStatus checkpointId completed recordsProcessed None ;;;
    ret recordsProcessed.

(** The [catch (error)] block of [processCheckpoint]. *)
Definition processCheckpoint_catch (checkpoint : Checkpoint) (error : JsError) : M Z :=
  updateCheckpointStatus (cp_id checkpoint) failed 0 (Some (message error)) ;;;
  throw error.

Definition processCheckpoint (cfg : Config) (checkpoint : Checkpoint) : M Z :=
  try_catch (processCheckpoint_try cfg checkpoint) (processCheckpoint_catch checkpoint).

(** ** The run ([migrate-with-resume.js] 330-499) *)

Definition ensureTargetTableExists (tableName : string) : M unit :=
  try_catch (executeD1SQL (SelectProbe tableName) ;;; ret tt)
    (fun error =>
       if includes (message error) "no such table" then
         if String.eqb tableName "coordinate_speed_new" then
           executeD1SQL (CreateTargetTable "coordinate_speed_new") ;;;
           executeD1SQL (CreateIndex "idx_coordinate_latitude_longitude" "coordinate_speed_new") ;;;
           executeD1SQL (CreateIndex "idx_coordinate_display_name" "coordinate_speed_new") ;;;
           ret tt
         else if String.eqb tableName "camera_locations" then
           executeD1SQL (CreateTargetTable "camera_locations") ;;;
           executeD1SQL (CreateIndex "idx_camera_location_id" "camera_locations") ;;;
           executeD1SQL (CreateIndex "idx_camera_latitude_longitude" "camera_locations") ;;;
           executeD1SQL (CreateIndex "idx_camera_created_at" "camera_locations") ;;;
           ret tt
         else ret tt
       else throw error).

(** The loop [for (let i = 0; i < pendingCheckpoints.length; i++)]. *)
Fixpoint process_all (cfg : Config) (pendingCheckpoints : list Checkpoint)
    (totalProcessed : Z) : M Z :=
  match pendingCheckpoints with
  | [] => ret totalProcessed
  | checkpoint :: rest =>
      processed <- processCheckpoint cfg checkpoint ;;
      process_all cfg rest (totalProcessed + processed)
  end.

(** What a run that ends normally has printed. *)
Inductive Report : Type :=
  | NoRecords
  | AlreadyCompleted (verified : bool)
  | Migrated (totalProcessed : Z) (verified : bool).

(** [d1Count === parseInt(total_records)] after
    [SELECT COUNT( * ) as count FROM <TABLE_NAME>] *)
Definition verify_count (cfg : Config) (total_records : Z) : M bool :=
  verifyResult <- executeD1SQL (SelectCount (TABLE_NAME cfg)) ;;
  d1Count <- first_count verifyResult ;;
  ret (match d1Count with Some n => n =? total_records | None => false end).

(** The [try] block of [migrateData].  [total_records] is a string there,
    which [total_records === 0] compares with a number; [parseInt] of it is
    the count itself. *)
Definition migrateData_try (cfg : Config) : M Report :=
  ensureTargetTableExists (TABLE_NAME cfg) ;;;
  pg_call ;;;
  stats <- pg_query_stats ;;
  let '(total_records, min_id, max_id) := stats in
  if strict_equal (VStr (pretty total_records)) (VNum 0) then ret NoRecords
  else
    initializeCheckpoints cfg (TABLE_NAME cfg) total_records
      (parseInt min_id) (parseInt max_id) ;;;
    pendingCheckpoints <- getPendingCheckpoints (TABLE_NAME cfg) ;;
    lastCompleted <- getLastCompletedCheckpoint (TABLE_NAME cfg) ;;
    if (length pendingCheckpoints =? 0)%nat then
      verified <- verify_count cfg total_records ;;
      ret (AlreadyCompleted verified)
    else
      totalProcessed <- process_all cfg pendingCheckpoints 0 ;;
      verified <- verify_count cfg total_records ;;
      ret (Migrated totalProcessed verified).

(** [migrateData()]: the exit code of the process, [None] when it never
    exits.  The [catch] block calls [process.exit(1)]. *)
Definition migrateData (cfg : Config) (w : World) : World * option Z :=
  match migrateData_try cfg w with
  | (w', Ret _) => (w', Some 0)
  | (w', Throw _) => (w', Some 1)
  | (w', Diverge) => (w', None)
  end.

(** * Vocabulary of the statements *)

(** The parts of the world the gateway never touches. *)
Definition same_source (w w' : World) : Prop :=
  w_pg_rows w' = w_pg_rows w /\ w_pg_faults w' = w_pg_faults w /\ w_gas w' = w_gas w.

Fixpoint backoffs (attempt : Z) (k : nat) : list Z :=
  match k with
  | O => []
  | S k' => backoff_delay attempt :: backoffs (attempt + 1) k'
  end.

(** A fault-free remote: the first attempt decides. *)
Definition healthy (w : World) : Prop := w_faults w = [].

(** No answer is lost: every failure of the schedule shows before the
    database has executed the statement. *)
Definition answered (a : option Failure) : bool :=
  match a with
  | Some failure => negb (executed failure)
  | None => true
  end.

Definition no_lost_answer (w : World) : Prop :=
  Forall (fun a => answered a = true) (w_faults w).

(** The databases that failed attempts at [sql] can leave behind: each
    attempt had either not reached the database or made it execute the
    statement.  [retried sql d j d'] : from [d], [j] executions of [sql]
    give [d']. *)
Inductive retried (sql : Sql) (d : D1) : nat -> D1 -> Prop :=
  | retried_none : retried sql d 0 d
  | retried_more j now d' :
      retried sql d j d' -> retried sql d (S j) (d1_exec now d' sql).1.

(** *** The Planner's partition *)
(** The [i]-th window of width [size] from [start], cut at [maxId]. *)
Definition window (size start maxId : Z) (i : nat) : Z * Z :=
  (start + Z.of_nat i * size, Z.min (start + (Z.of_nat i + 1) * size - 1) maxId).

Definition window_count (size start maxId : Z) : nat :=
  Z.to_nat ((maxId - start + size) / size).

(** What [createCheckpoint] leaves in the table for one window. *)
Definition planned_row (tableName : string) (r : Z * Z) (c : Checkpoint) : Prop :=
  cp_table_name c = tableName /\ cp_start_id c = r.1 /\ cp_end_id c = r.2 /\
  cp_status c = pending /\ cp_records_processed c = 0 /\ cp_error_message c = None.

(** *** Frames: what each step of the Processor leaves alone *)
(** The checkpoint table and the record of its status writes are the same. *)
Definition cs_same (w w' : World) : Prop :=
  d1_checkpoints (w_d1 w') = d1_checkpoints (w_d1 w) /\
  d1_history (w_d1 w') = d1_history (w_d1 w).

(** The number of rows of the destination table [table]. *)
Definition dest_rows (table : string) (w : World) : Z :=
  Z.of_nat (length (default [] (d1_tables (w_d1 w) !! table))).

Definition preserves {A} (R : World -> World -> Prop) (m : M A) : Prop :=
  forall w w' o, m w = (w', o) -> R w w'.

(** The destination database is untouched. *)
Definition d1_same (w w' : World) : Prop := w_d1 w' = w_d1 w.

(** *** Status writes *)
(** The bound parameters of the UPDATE of [updateCheckpointStatus]; the
    timestamp column follows from the status. *)
Record StatusWrite : Type := MkStatusWrite {
  sw_status : Status;
  sw_records : Z;
  sw_error : option string;
  sw_now : string
}.

Definition sw_field (x : StatusWrite) : TimestampField :=
  match sw_status x with in_progress => started_at | _ => completed_at end.

Definition write_row (x : StatusWrite) (c : Checkpoint) : Checkpoint :=
  update_row (sw_status x) (sw_records x) (sw_error x) (sw_field x) (sw_now x) c.

Definition write_rows (id : Z) (x : StatusWrite) (cps : list Checkpoint) :
    list Checkpoint :=
  update_rows (sw_status x) (sw_records x) (sw_error x) (sw_field x) (sw_now x) id cps.

Definition write_sql (id : Z) (x : StatusWrite) : Sql :=
  UpdateCheckpoint (sw_status x) (sw_records x) (sw_error x) (sw_field x) (sw_now x) id.

(** The rows of the table after the UPDATEs [xs] on checkpoint [id],
    executed in this order. *)
Definition rows_after (id : Z) (xs : list StatusWrite) (cps : list Checkpoint) :
    list Checkpoint :=
  foldl (fun cps x => write_rows id x cps) cps xs.

(** The status writes these UPDATEs perform. *)
Fixpoint writes_of (id : Z) (xs : list StatusWrite) (cps : list Checkpoint) :
    list (Z * Status * Status) :=
  match xs with
  | [] => []
  | x :: xs' => status_writes (sw_status x) id cps ++ writes_of id xs' (write_rows id x cps)
  end.

(** The database [d'] is [d] after the UPDATEs [xs] on checkpoint [id], as
    far as the checkpoint table and the record of its status writes go. *)
Definition wrote_db (id : Z) (xs : list StatusWrite) (d d' : D1) : Prop :=
  d1_checkpoints d' = rows_after id xs <$> d1_checkpoints d /\
  d1_history d' = d1_history d ++ writes_of id xs (default [] (d1_checkpoints d)).

Definition wrote (id : Z) (xs : list StatusWrite) (w w' : World) : Prop :=
  wrote_db id xs (w_d1 w) (w_d1 w').

(** The three writes of [processCheckpoint]. *)
Definition claiming (now : string) : StatusWrite := MkStatusWrite in_progress 0 None now.
Definition completing (n : Z) (now : string) : StatusWrite :=
  MkStatusWrite completed n None now.
Definition failing (msg now : string) : StatusWrite :=
  MkStatusWrite failed 0 (Some msg) now.

(** The UPDATEs that processing one checkpoint can have had executed:
    [j1] times the claiming write, [j2] times the completing write and [j3]
    times the failing write.  A write is executed more than once when its
    answer is lost and the gateway sends it again. *)
Definition writes_shape (j1 j2 j3 : nat) (n : Z) (msg t1 t2 t3 : string) :
    list StatusWrite :=
  replicate j1 (claiming t1) ++ replicate j2 (completing n t2)
    ++ replicate j3 (failing msg t3).

(** Every step of the status sequence [s :: ss] is allowed by [P]. *)
Fixpoint chain (P : Status -> Status -> bool) (s : Status) (ss : list Status) : bool :=
  match ss with
  | [] => true
  | t :: ss' => P s t && chain P t ss'
  end.

(** The schedule of [w'] is what is left of the schedule of [w]. *)
Definition later (w w' : World) : Prop :=
  exists k, w_faults w' = drop k (w_faults w).

(** *** The outcomes of processing one checkpoint *)
(** The part of the [try] block between the two status writes. *)
Definition fetch_and_insert (cfg : Config) (checkpoint : Checkpoint) :
    M (Z * bool) :=
  bind (try_catch pg_call (fun connError => pg_call)) (fun _ =>
  bind (pg_query_range (fetch_columns cfg) (cp_start_id checkpoint) (cp_end_id checkpoint))
    (fun rows =>
  if (length rows =? 0)%nat then ret (0, true)
  else
    bind (if String.eqb (TABLE_NAME cfg) "camera_locations"
          then lift (transform_rows rows)
          else ret rows) (fun processedRows =>
    bind (insert_batches cfg processedRows) (fun recordsProcessed =>
    ret (recordsProcessed, false))))).

Definition supported (table : string) : bool :=
  String.eqb table "coordinate_speed_new" || String.eqb table "camera_locations".

(** *** What processing one checkpoint does to the checkpoint table *)
(** How row [r] of the table relates to the same row [r'] after
    [processCheckpoint] on checkpoint [id] ended with outcome [o]. *)
Definition row_effect (id : Z) (o : Outcome Z) (r r' : Checkpoint) : Prop :=
  cp_id r' = cp_id r /\ cp_table_name r' = cp_table_name r /\
  cp_start_id r' = cp_start_id r /\ cp_end_id r' = cp_end_id r /\
  (cp_id r <> id -> r' = r) /\
  (cp_id r = id ->
   match o with
   | Ret n =>
       cp_status r' = completed /\ cp_records_processed r' = n /\
       cp_error_message r' = None
   | Throw e =>
       r' = r \/
       (cp_status r' = in_progress /\ cp_records_processed r' = 0) \/
       (cp_status r' = failed /\ cp_records_processed r' = 0) \/
       cp_status r' = completed
   | Diverge => cp_status r' = in_progress /\ cp_records_processed r' = 0
   end).

(** The same when no answer is lost and [processCheckpoint] throws [e]: the
    row is untouched, or claimed, or failed with the message of [e]. *)
Definition row_effect_answered (id : Z) (e : JsError) (r r' : Checkpoint) : Prop :=
  cp_id r = id ->
  r' = r \/
  (cp_status r' = in_progress /\ cp_records_processed r' = 0) \/
  (cp_status r' = failed /\ cp_records_processed r' = 0 /\
   cp_error_message r' = Some (message e)).

End Platform.

(** *** Dates: a day number and its civil date *)
Definition era_day_ok (doe : Z) : bool :=
  let '(y, m, d) := civil_from_days (doe - 719468) in
  (days_from_civil y m d =? doe - 719468)
  && (1 <=? m) && (m <=? 12) && (1 <=? d) && (d <=? 31)
  && (0 <=? (if m <=? 2 then y - 1 else y)) && ((if m <=? 2 then y - 1 else y) <? 400).

Fixpoint all_from (n : nat) (z : Z) (p : Z -> bool) : bool :=
  match n with
  | O => true
  | S n' => p z && all_from n' (z + 1) p
  end.

Definition sample_row : gmap string value :=
  <["id" := VNum 7]> (<["location_id" := VStr "cam-7"]>
  (<["created_at" := VDate (Some 1737244800123)]> (<["updated_at" := VNull]> ∅))).

(** An attempt that is answered with status 503 before the database has
    seen the statement. *)
Definition unavailable : option Failure :=
  Some (MkFailure (HttpError 503 "unavailable") false).

Definition planned_checkpoint : Checkpoint :=
  MkCheckpoint 1 "camera_locations" 1 20 20 completed None None None 0.

Definition planned_world : World :=
  MkWorld (MkD1 (Some [planned_checkpoint]) 1 ∅ [] [])
    [Some (MkFailure (HttpError 500 "busy") false)] [] [] [] 0 [] 0.

(** The claim that a checkpoint's [records_processed] is the number of rows
    inserted while it was processed, at one input. *)
Definition records_processed_is_inserted `{Platform} (cfg : Config)
    (checkpoint : Checkpoint) (w : World) : Prop :=
  let w' := (processCheckpoint cfg checkpoint w).1 in
  forall r', r' ∈ default [] (d1_checkpoints (w_d1 w')) ->
    cp_id r' = cp_id checkpoint ->
    cp_records_processed r'
      = dest_rows (TABLE_NAME cfg) w' - dest_rows (TABLE_NAME cfg) w.

Definition camera_row (i : Z) : gmap string value :=
  <["id" := VNum i]> (<["location_id" := VStr "L"]> (<["longitude" := VNum 1]>
  (<["latitude" := VNum 2]> (<["altitude" := VNull]>
  (<["created_at" := VDate (Some (1737244800123 + i))]> (<["updated_at" := VNull]> ∅)))))).

Definition camera_cfg : Config := MkConfig "camera_locations" None 20 true.

Definition checkpoint_1_20 : Checkpoint :=
  MkCheckpoint 1 "camera_locations" 1 20 0 pending None None None 0.

(** Twenty source rows, one pending checkpoint, and a remote that fails the
    three attempts of the second insert. *)
Definition partial_failure_world : World :=
  MkWorld (MkD1 (Some [checkpoint_1_20]) 1 {["camera_locations" := []]} [] [])
    [None; None; unavailable; unavailable;
     unavailable]
    [] (camera_row <$> seqZ 1 20) [] 1737244800000 [] 100.

(** The statements that only read. *)
Definition reads (q : Sql) : bool :=
  match q with
  | SelectProbe _ | SelectCount _ | CountCheckpoints _
  | SelectPendingCheckpoints _ | SelectLastCompleted _ => true
  | _ => false
  end.

(** The statements that write destination rows. *)
Definition is_insert (q : Sql) : bool :=
  match q with InsertRows _ _ _ _ => true | _ => false end.

(** The status moves the specification lists. *)
Definition claimed_edge (before after : Status) : bool :=
  match before, after with
  | pending, in_progress | failed, in_progress
  | in_progress, completed | in_progress, failed => true
  | _, _ => false
  end.

(** The status writes the Processor performs: the listed moves, and the
    failure write that lands although the claiming write did not. *)
Definition observed_write (before after : Status) : bool :=
  claimed_edge before after ||
  match before, after with
  | pending, failed | failed, failed => true
  | _, _ => false
  end.

(** The status writes the database can see when answers are lost: a write
    that is sent again repeats its status, and the failure write can follow
    a completing write whose answer never arrived. *)
Definition possible_write (before after : Status) : bool :=
  observed_write before after ||
  match before, after with
  | in_progress, in_progress | completed, completed | completed, failed => true
  | _, _ => false
  end.

(** One invocation of the Processor: list the eligible checkpoints, process
    them in order. *)
Definition processor_run `{Platform} (cfg : Config) : M Z :=
  bind (getPendingCheckpoints (TABLE_NAME cfg)) (fun pendingCheckpoints =>
  process_all cfg pendingCheckpoints 0).

(** A later invocation meets the database the earlier one left. *)
Definition with_d1 (env : World) (d : D1) : World :=
  MkWorld d (w_faults env) (w_requests env) (w_pg_rows env) (w_pg_faults env)
    (w_clock env) (w_sleeps env) (w_gas env).

Fixpoint processor_runs `{Platform} (runs : list (Config * World)) (d : D1) : D1 :=
  match runs with
  | [] => d
  | (cfg, env) :: rest =>
      processor_runs rest (w_d1 (processor_run cfg (with_d1 env d)).1)
  end.


(** The remote stays down after the first insert: the second insert and the
    write that records the failure both exhaust their attempts. *)
Definition outage_world : World :=
  MkWorld (MkD1 (Some [checkpoint_1_20]) 1 {["camera_locations" := []]} [] [])
    [None; None;
     unavailable; unavailable;
     unavailable; unavailable;
     unavailable; unavailable]
    [] (camera_row <$> seqZ 1 20) [] 1737244800000 [] 100.

(** The remote answers the listing, is down for the three attempts of the
    claiming write, and is back for the write that records the failure. *)
Definition claim_outage_world : World :=
  MkWorld (MkD1 (Some [checkpoint_1_20]) 1 {["camera_locations" := []]} [] [])
    [None; unavailable; unavailable;
     unavailable]
    [] (camera_row <$> seqZ 1 20) [] 1737244800000 [] 100.

Section Frames.
Context `{Platform}.

(** The destination tables are untouched. *)
Definition tables_same (w w' : World) : Prop :=
  d1_tables (w_d1 w') = d1_tables (w_d1 w) /\
  filter is_insert (w_requests w') = filter is_insert (w_requests w).

(** The statements that leave the destination tables alone. *)
Definition keeps_tables (q : Sql) : bool :=
  match q with
  | CreateTargetTable _ | InsertRows _ _ _ _ => false
  | _ => true
  end.





(** *** Status moves over whole runs *)
Definition write_observed (x : Z * Status * Status) : Prop :=
  observed_write x.1.2 x.2 = true.

Definition write_possible (x : Z * Status * Status) : Prop :=
  possible_write x.1.2 x.2 = true.

(** Row [r] of the table before a run and the same row [r'] after it. *)
Definition row_kept (ids : list Z) (r r' : Checkpoint) : Prop :=
  cp_id r' = cp_id r /\ (cp_status r = completed -> r' = r) /\ (cp_id r ∉ ids -> r' = r).

End Frames.

(** The tuple counts of the inserts sent so far, oldest first. *)
Definition batches_sent (w : World) : list nat :=
  omap (fun q => match q with InsertRows _ n _ _ => Some n | _ => None end) (w_requests w).

(** The inserts sent while [checkpoint] is processed from [w]. *)
Definition batches_of `{Platform} (cfg : Config) (checkpoint : Checkpoint) (w : World) :
    list nat :=
  drop (length (batches_sent w)) (batches_sent (processCheckpoint cfg checkpoint w).1).

(** [camera_locations] with 35 rows, ids 1 to 35; an empty destination. *)
Definition scenario_world : World :=
  MkWorld (MkD1 None 0 ∅ [] []) [] [] (camera_row <$> seqZ 1 35) [] 1737244800000 [] 1000.

(** The scenario after the destination table was ensured and the Planner ran. *)
Definition scenario_planned : World :=
  (bind (ensureTargetTableExists "camera_locations") (fun _ =>
   initializeCheckpoints camera_cfg "camera_locations" 35 (Some 1) (Some 35))
     scenario_world).1.

Definition range_of (c : Checkpoint) : Z * Z := (cp_start_id c, cp_end_id c).

Definition scenario_checkpoints : list Checkpoint :=
  default [] (d1_checkpoints (w_d1 scenario_planned)).

Definition scenario_first : Checkpoint :=
  default checkpoint_1_20 (scenario_checkpoints !! 0%nat).

Definition scenario_second : Checkpoint :=
  default checkpoint_1_20 (scenario_checkpoints !! 1%nat).

Definition custom_cfg : Config := MkConfig "my_custom_table" None 20 true.




(** * Vocabulary of the further properties *)

(** Total time slept, in milliseconds. *)
Definition total_delay (delays : list Z) : Z := foldr Z.add 0 delays.

(** The indexes [ensureTargetTableExists] creates with a table, in the order
    of creation ([migrate-with-resume.js] 349-350, 363-365). *)
Definition target_indexes (tableName : string) : list string :=
  if String.eqb tableName "coordinate_speed_new"
  then ["idx_coordinate_latitude_longitude"; "idx_coordinate_display_name"]
  else if String.eqb tableName "camera_locations"
  then ["idx_camera_location_id"; "idx_camera_latitude_longitude"; "idx_camera_created_at"]
  else [].

(** While a destination table is missing, so are its indexes. *)
Definition target_indexes_consistent (d : D1) (tableName : string) : Prop :=
  has_table d tableName = false ->
  forall name, name ∈ target_indexes tableName -> name ∉ d1_indexes d.

(** An insert whose parameters are its tuples flattened, at most 100 of
    them (the limit [MAX_SQL_VARIABLES] is there for). *)
Definition insert_within_limit (q : Sql) : Prop :=
  match q with
  | InsertRows _ tuples arity params =>
      length params = (tuples * arity)%nat /\ (length params <= 100)%nat
  | _ => True
  end.

(** Every statement sent between [w] and [w'] is within the limit. *)
Definition sends_within_limit (w w' : World) : Prop :=
  exists new, w_requests w' = w_requests w ++ new /\ Forall insert_within_limit new.

(** The columns a batch insert binds, in the order of the statement
    ([migrate-with-resume.js] 214-221, 225-233). *)
Definition insert_columns (tableName : string) : list string :=
  if String.eqb tableName "coordinate_speed_new" then coordinate_columns
  else camera_columns.

(** The destination rows a batch insert appends for [rows]. *)
Definition tuples_of (columns : list string) (rows : list (gmap string value)) :
    list (list value) :=
  (fun row => get row <$> columns) <$> rows.

(** The page [processCheckpoint] fetches for a checkpoint. *)
Definition fetched_rows (cfg : Config) (checkpoint : Checkpoint) (w : World) :
    list (gmap string value) :=
  select_columns (fetch_columns cfg) <$>
    merge_sort row_id_le
      (filter (in_range (cp_start_id checkpoint) (cp_end_id checkpoint)) (w_pg_rows w)).

(** The page after the timestamp step ([migrate-with-resume.js] 280-287). *)
Definition processed_rows `{Platform} (cfg : Config) (rows : list (gmap string value)) :
    Err (list (gmap string value)) :=
  if String.eqb (TABLE_NAME cfg) "camera_locations" then transform_rows rows else inl rows.

(** The database with [rows] appended to [table]. *)
Definition with_appended (d : D1) (table : string) (rows : list (list value)) : D1 :=
  MkD1 (d1_checkpoints d) (d1_seq d)
    (<[table := default [] (d1_tables d !! table) ++ rows]> (d1_tables d))
    (d1_indexes d) (d1_history d).

(** [column] of [row] holds a value. *)
Definition not_null (row : gmap string value) (column : string) : Prop :=
  match row !! column with
  | Some VNull | Some VUndefined | None => False
  | Some _ => True
  end.

(** The rows respect the NOT NULL columns of both destination tables
    ([migrate-with-resume.js] 340-341, 355-356).  The database of this
    development checks that the table exists and that a statement binds at
    most 100 parameters, but no column constraint: statements about copied
    rows are made for rows that no constraint would refuse. *)
Definition rows_insertable (rows : list (gmap string value)) : Prop :=
  Forall (fun row => not_null row "latitude" /\ not_null row "longitude") rows.

(** The database after a batch insert of [rows] for the configured table:
    a table the batch insert does not know is left alone. *)
Definition appended (cfg : Config) (d : D1) (rows : list (gmap string value)) : D1 :=
  if supported (TABLE_NAME cfg)
  then with_appended d (TABLE_NAME cfg) (tuples_of (insert_columns (TABLE_NAME cfg)) rows)
  else d.

(** The destination table is there, when the batch insert is to write it. *)
Definition table_ready (cfg : Config) (d : D1) : Prop :=
  supported (TABLE_NAME cfg) = true -> is_Some (d1_tables d !! TABLE_NAME cfg).

Definition coordinate_cfg : Config := MkConfig "coordinate_speed_new" None 20 true.

Definition coordinate_row (i : Z) : gmap string value :=
  <["id" := VNum i]> (<["latitude" := VNum 10]> (<["longitude" := VNum 106]>
  (<["api_speed_limit" := VNum 50]> (<["bearing" := VNull]>
  (<["display_name" := VStr "QL1A"]> ∅))))).

Definition checkpoint_1_7 : Checkpoint :=
  MkCheckpoint 1 "coordinate_speed_new" 1 7 0 pending None None None 0.

(** Seven source rows, one pending checkpoint, an empty destination table
    and a remote that answers. *)
Definition coordinate_world : World :=
  MkWorld (MkD1 (Some [checkpoint_1_7]) 1 {["coordinate_speed_new" := []]} [] [])
    [] [] (coordinate_row <$> seqZ 1 7) [] 1737244800000 [] 100.

(** [id INTEGER PRIMARY KEY AUTOINCREMENT]: the ids of the checkpoint rows
    are distinct and none is above the last id given out. *)
Definition ids_fresh (d : D1) : Prop :=
  NoDup (cp_id <$> default [] (d1_checkpoints d)) /\
  forall c, c ∈ default [] (d1_checkpoints d) -> cp_id c <= d1_seq d.

Definition keeps_ids (w w' : World) : Prop :=
  ids_fresh (w_d1 w) -> ids_fresh (w_d1 w').

(** The timestamp column a status write sets
    ([migrate-with-resume.js] 99). *)
Definition stamp_field (st : Status) : TimestampField :=
  match st with in_progress => started_at | _ => completed_at end.

(** What a status write on checkpoint [id] at time [now] makes of row [r]. *)
Definition written_row (id : Z) (st : Status) (recordsProcessed : Z)
    (errorMessage : option string) (now : string) (r r' : Checkpoint) : Prop :=
  (cp_id r <> id -> r' = r) /\
  (cp_id r = id ->
   cp_id r' = cp_id r /\ cp_table_name r' = cp_table_name r /\
   cp_start_id r' = cp_start_id r /\ cp_end_id r' = cp_end_id r /\
   cp_created_at r' = cp_created_at r /\
   cp_status r' = st /\ cp_records_processed r' = recordsProcessed /\
   cp_error_message r' = errorMessage /\
   match st with
   | in_progress =>
       cp_started_at r' = Some now /\ cp_completed_at r' = cp_completed_at r
   | _ =>
       cp_completed_at r' = Some now /\ cp_started_at r' = cp_started_at r
   end).

(** Between [w] and [w'] the script only read: the destination database, the
    source and the clock are as they were, nothing was inserted, and the
    remote is still healthy. *)
Definition only_read (w w' : World) : Prop :=
  healthy w' /\ w_d1 w' = w_d1 w /\ w_pg_rows w' = w_pg_rows w /\
  w_pg_faults w' = w_pg_faults w /\ w_gas w' = w_gas w /\ w_clock w' = w_clock w /\
  w_sleeps w' = w_sleeps w /\
  filter is_insert (w_requests w') = filter is_insert (w_requests w).

(** The count [verify_count] compares with the source count. *)
Definition destination_count (d : D1) (table : string) : option Z := table_count d table.

(** A database in which the only checkpoint is completed. *)
Definition resumed_world : World :=
  MkWorld (MkD1 (Some [planned_checkpoint]) 1 {["camera_locations" := []]} [] [])
    [] [] (camera_row <$> seqZ 1 20) [] 1737244800000 [] 100.

(** The source ids the planner can count over: the smallest id, and the
    largest id plus one checkpoint size, are safe integers. *)
Definition source_ids_safe (cfg : Config) (rows : list (gmap string value)) : Prop :=
  forall minId maxId,
    list_min (ids_of rows) = Some minId -> list_max (ids_of rows) = Some maxId ->
    safe_integer minId /\ safe_integer (maxId + CHECKPOINT_SIZE cfg).

(** What planning leaves alone: the source, the step budget and the
    destination tables. *)
Definition planning_frame (w w' : World) : Prop :=
  same_source w w' /\ d1_tables (w_d1 w') = d1_tables (w_d1 w).

(** The number of source rows whose id lies in a range. *)
Definition page_size (rows : list (gmap string value)) (r : Z * Z) : nat :=
  length (filter (in_range r.1 r.2) rows).

(** Every source row has an integer id between [minId] and [maxId]. *)
Definition ids_within (minId maxId : Z) (rows : list (gmap string value)) : Prop :=
  Forall (fun row => exists x, row_id row = Some x /\ minId <= x <= maxId) rows.

Definition range_of_checkpoint (c : Checkpoint) : Z * Z := (cp_start_id c, cp_end_id c).

(** Row [r] of the checkpoint table before the checkpoints with the ids
    [ids] were processed, and the same row [r'] after. *)
Definition processed_row (ids : list Z) (r r' : Checkpoint) : Prop :=
  cp_id r' = cp_id r /\ cp_table_name r' = cp_table_name r /\
  (cp_id r ∈ ids -> cp_status r' = completed) /\
  (cp_id r ∉ ids -> r' = r).

(** The timestamps of the source rows can all be printed (only
    [camera_locations] has any). *)
Definition timestamps_valid `{Platform} (cfg : Config) (rows : list (gmap string value)) :
    Prop :=
  TABLE_NAME cfg = "camera_locations" ->
  Forall (fun row => exists row', transform (select_columns (fetch_columns cfg) row) = inl row')
    rows.

(** Seven source rows and a destination database with nothing in it. *)
Definition fresh_world : World :=
  MkWorld (MkD1 None 0 ∅ [] []) [] [] (coordinate_row <$> seqZ 1 7) [] 1737244800000 []
    100.

(** The row of checkpoint [id] after a run of [processCheckpoint] that left
    it in status [st] with [n] rows counted and the message [err]; the other
    rows are as they were. *)
Definition left_as (id : Z) (st : Status) (n : Z) (err : option string)
    (r r' : Checkpoint) : Prop :=
  (cp_id r <> id -> r' = r) /\
  (cp_id r = id ->
   cp_id r' = cp_id r /\ cp_table_name r' = cp_table_name r /\
   cp_start_id r' = cp_start_id r /\ cp_end_id r' = cp_end_id r /\
   cp_status r' = st /\ cp_records_processed r' = n /\ cp_error_message r' = err).

(** Two source rows, the first with a [created_at] that is no date. *)
Definition poisoned_world : World :=
  MkWorld (MkD1 (Some [checkpoint_1_20]) 1 {["camera_locations" := []]} [] [])
    [] [] [<["created_at" := VStr "yesterday"]> (camera_row 1); camera_row 2] []
    1737244800000 [] 100.

Definition negative_cfg : Config := MkConfig "coordinate_speed_new" (Some (-5)) 20 true.

(** ** The scripts beside the resumable migration *)

(** The index of the first of the next [n] requests that is scheduled to
    fail. *)
Fixpoint first_failure {A} (n : nat) (schedule : list (option A)) : option nat :=
  match n with
  | O => None
  | S n' =>
      match schedule with
      | Some _ :: _ => Some O
      | _ => S <$> first_failure n' (tail schedule)
      end
  end.

(** *** The schema setup ([setup-d1-schema.js]) *)
Module SetupD1Schema.

(** A JavaScript string, as its UTF-16 code units. *)
Definition JsString : Type := list Z.

(** The code units of an ASCII text. *)
Definition units (s : string) : JsString :=
  (fun a => Z.of_N (N_of_ascii a)) <$> list_ascii_of_string s.

Definition semicolon : Z := 59.
Definition newline : Z := 10.

(** The code points [String.prototype.trim] strips: WhiteSpace (TAB, VT,
    FF, ZWNBSP and the space separators) and LineTerminator (LF, CR, LS,
    PS). *)
Definition is_space (u : Z) : bool :=
  (u =? 9) || (u =? 10) || (u =? 11) || (u =? 12) || (u =? 13) || (u =? 32) ||
  (u =? 160) || (u =? 5760) || ((8192 <=? u) && (u <=? 8202)) ||
  (u =? 8232) || (u =? 8233) || (u =? 8239) || (u =? 8287) || (u =? 12288) ||
  (u =? 65279).

(** [s.split(sep)] for a separator of one code unit. *)
Fixpoint split (sep : Z) (s : JsString) : list JsString :=
  match s with
  | [] => [[]]
  | u :: rest =>
      if u =? sep then [] :: split sep rest
      else
        match split sep rest with
        | piece :: pieces => (u :: piece) :: pieces
        | [] => [[u]]
        end
  end.

Fixpoint trimStart (s : JsString) : JsString :=
  match s with
  | u :: rest => if is_space u then trimStart rest else s
  | [] => []
  end.

Definition trimEnd (s : JsString) : JsString := rev (trimStart (rev s)).

(** [s.trim()] *)
Definition trim (s : JsString) : JsString := trimEnd (trimStart s).

(** [s.startsWith(p)] *)
Fixpoint startsWith (s p : JsString) {struct p} : bool :=
  match p, s with
  | [], _ => true
  | _ :: _, [] => false
  | a :: p', b :: s' => (a =? b) && startsWith s' p'
  end.

(** [s => s.length > 0 && !s.startsWith('--')] *)
Definition is_statement (s : JsString) : bool :=
  (0 <? Z.of_nat (length s)) && negb (startsWith s (units "--")).

(** [schema.split(';').map(s => s.trim()).filter(...)]
    ([setup-d1-schema.js] 55-58). *)
Definition statements (schema : JsString) : list JsString :=
  filter is_statement (trim <$> split semicolon schema).

(** The remote, seen from this script: for each request to come, whether
    it fails and with which message (a rejected [fetch], a body that is no
    JSON, or [success: false]); a request beyond the schedule succeeds.
    [sent] lists the statements sent so far, oldest first. *)
Record Remote : Type := MkRemote {
  failures : list (option string);
  sent : list JsString
}.

(** [executeSQL(sql)] ([setup-d1-schema.js] 26-47): one request, no second
    attempt. *)
Definition executeSQL (sql : JsString) (r : Remote) : Remote * Outcome unit :=
  let r' := MkRemote (tail (failures r)) (sent r ++ [sql]) in
  match head (failures r) with
  | Some (Some msg) => (r', Throw (MkError msg))
  | _ => (r', Ret tt)
  end.

(** The loop [for (let i = 0; i < statements.length; i++)]; the inner
    [catch] logs and rethrows. *)
Fixpoint execute_all (stmts : list JsString) (r : Remote) : Remote * Outcome unit :=
  match stmts with
  | [] => (r, Ret tt)
  | stmt :: rest =>
      match executeSQL stmt r with
      | (r', Ret _) => execute_all rest r'
      | (r', o) => (r', o)
      end
  end.

(** [setupSchema()]: the remote afterwards and the exit code.  [schema] is
    the content of [schema.sql], [None] when [readFileSync] throws. *)
Definition setupSchema (schema : option JsString) (r : Remote) : Remote * Z :=
  match schema with
  | None => (r, 1)
  | Some text =>
      match execute_all (statements text) r with
      | (r', Ret _) => (r', 0)
      | (r', _) => (r', 1)
      end
  end.

End SetupD1Schema.

(** A piece of [schema.sql]: a statement, then a comment line followed by
    the first CREATE INDEX, then the second CREATE INDEX. *)
Definition schema_table : SetupD1Schema.JsString :=
  SetupD1Schema.units
    "CREATE TABLE coordinate_speed_new (id INTEGER PRIMARY KEY AUTOINCREMENT)".

Definition schema_comment_and_index : SetupD1Schema.JsString :=
  SetupD1Schema.units " Create indexes for better query performance"
  ++ [SetupD1Schema.newline]
  ++ SetupD1Schema.units
       "CREATE INDEX idx_coordinate_latitude_longitude ON coordinate_speed_new(latitude, longitude)".

Definition schema_rest : SetupD1Schema.JsString :=
  [SetupD1Schema.newline]
  ++ SetupD1Schema.units
       "CREATE INDEX idx_coordinate_display_name ON coordinate_speed_new(display_name)"
  ++ [SetupD1Schema.semicolon; SetupD1Schema.newline].

(** *** The traditional migrations ([migrate.js],
        [migrate-camera-locations.js]) *)
Module Traditional.

(** The two scripts differ in the table, its columns, the default batch
    size and the timestamp step. *)
Inductive Script : Type := migrate_js | migrate_camera_locations_js.

Definition table (s : Script) : string :=
  match s with
  | migrate_js => "coordinate_speed_new"
  | migrate_camera_locations_js => "camera_locations"
  end.

Definition columns (s : Script) : list string :=
  match s with
  | migrate_js => coordinate_columns
  | migrate_camera_locations_js => camera_columns
  end.

Definition BATCH_SIZE (s : Script) (env_BATCH_SIZE : option Z) : Z :=
  match s with
  | migrate_js => Migrate.BATCH_SIZE env_BATCH_SIZE
  | migrate_camera_locations_js => MigrateCameraLocations.BATCH_SIZE env_BATCH_SIZE
  end.

(** The statements the two scripts send. *)
Inductive Statement : Type :=
  | DeleteAll (table : string)
      (* DELETE FROM <table> *)
  | InsertInto (table : string) (tuples arity : nat) (params : list value)
      (* INSERT INTO <table> (...) VALUES (?, ..), (?, ..), ... *)
  | CountAll (table : string).
      (* SELECT COUNT( * ) as count FROM <table> *)

Definition execute (d : D1) (q : Statement) : D1 * (list D1Row + string) :=
  match q with
  | DeleteAll table =>
      match d1_tables d !! table with
      | Some _ =>
          (MkD1 (d1_checkpoints d) (d1_seq d) (<[table := []]> (d1_tables d))
             (d1_indexes d) (d1_history d), inl [])
      | None => (d, inr (no_such_table table))
      end
  | InsertInto table tuples arity params =>
      d1_exec 0 d (InsertRows table tuples arity params)
  | CountAll table => d1_exec 0 d (SelectCount table)
  end.

(** What can go wrong with one request, as this gateway sees it: it never
    looks at the HTTP status, only at the body.  A request whose answer is
    lost or unreadable may have been executed by the database all the same;
    [executed] tells. *)
Inductive Failure : Type :=
  | Rejected (msg : string) (executed : bool)     (* fetch rejects *)
  | Unreadable (msg : string) (executed : bool)   (* response.json() throws *)
  | Refused (errors : string).    (* success is falsy; the JSON text of errors *)

(** Whether the database had executed the statement of the failed request.
    A refusal is the answer of the database, which executed nothing. *)
Definition was_executed (f : Failure) : bool :=
  match f with
  | Rejected _ b | Unreadable _ b => b
  | Refused _ => false
  end.

(** What the gateway throws. *)
Definition failure_error (f : Failure) : JsError :=
  match f with
  | Rejected msg _ | Unreadable msg _ => MkError msg
  | Refused errors => MkError ("D1 API Error: " +:+ errors)
  end.

Record World : Type := MkWorld {
  t_d1 : D1;
  t_failures : list (option Failure);   (* one entry per request to come *)
  t_requests : list Statement;          (* every request sent, oldest first *)
  t_pg_rows : list (gmap string value); (* the source table *)
  t_pg_faults : list (option string);   (* one entry per source call to come *)
  t_sleeps : list Z;                    (* every setTimeout delay, oldest first *)
  t_gas : nat                           (* iterations left for unbounded loops *)
}.

Definition M (A : Type) : Type := World -> World * Outcome A.

Definition ret {A} (a : A) : M A := fun w => (w, Ret a).
Definition throw {A} (e : JsError) : M A := fun w => (w, Throw e).

Definition bind {A B} (m : M A) (k : A -> M B) : M B :=
  fun w =>
    match m w with
    | (w', Ret a) => k a w'
    | (w', Throw e) => (w', Throw e)
    | (w', Diverge) => (w', Diverge)
    end.

Notation "x <~ m ;; k" := (bind m (fun x => k))
  (at level 100, m at next level, right associativity).
Notation "m ;;~ k" := (bind m (fun _ => k))
  (at level 100, right associativity).

Definition try_catch {A} (body : M A) (handler : JsError -> M A) : M A :=
  fun w =>
    match body w with
    | (w', Throw e) => handler e w'
    | r => r
    end.

Definition lift {A} (m : Err A) : M A :=
  match m with
  | inl a => ret a
  | inr e => throw e
  end.

Definition tick : M unit :=
  fun w =>
    match t_gas w with
    | O => (w, Diverge)
    | S g => (MkWorld (t_d1 w) (t_failures w) (t_requests w) (t_pg_rows w)
                (t_pg_faults w) (t_sleeps w) g, Ret tt)
    end.

Definition sleep (delay : Z) : M unit :=
  fun w => (MkWorld (t_d1 w) (t_failures w) (t_requests w) (t_pg_rows w)
              (t_pg_faults w) (t_sleeps w ++ [delay]) (t_gas w), Ret tt).

(** One call on [pgClient]: the schedule may make it throw. *)
Definition pg_call : M unit :=
  fun w =>
    let w' := MkWorld (t_d1 w) (t_failures w) (t_requests w) (t_pg_rows w)
                (tail (t_pg_faults w)) (t_sleeps w) (t_gas w) in
    match head (t_pg_faults w) with
    | Some (Some msg) => (w', Throw (MkError msg))
    | _ => (w', Ret tt)
    end.

(** [executeD1SQL(sql, params)] ([migrate.js] and
    [migrate-camera-locations.js] 45-67): one request, no second attempt. *)
Definition executeD1SQL (sql : Statement) : M (list D1Row) :=
  fun w =>
    let w1 d := MkWorld d (tail (t_failures w)) (t_requests w ++ [sql]) (t_pg_rows w)
                  (t_pg_faults w) (t_sleeps w) (t_gas w) in
    match head (t_failures w) with
    | Some (Some f) =>
        (w1 (if was_executed f then (execute (t_d1 w) sql).1 else t_d1 w),
         Throw (failure_error f))
    | Some None | None =>
        match execute (t_d1 w) sql with
        | (d', inl rows) => (w1 d', Ret rows)
        | (d', inr errors) => (w1 d', Throw (MkError ("D1 API Error: " +:+ errors)))
        end
    end.

(** [executeBatchInsert(rows)] (lines 69-88). *)
Definition executeBatchInsert (s : Script) (rows : list (gmap string value)) : M unit :=
  executeD1SQL (InsertInto (table s) (length rows) (length (columns s))
                  (flat_params (columns s) rows)) ;;~
  ret tt.

(** The loop [for (let i = 0; i < batches; i++)] (lines 148-167); its inner
    [catch] logs and rethrows. *)
Fixpoint insert_loop (fuel : nat) (s : Script) (size : Z)
    (processedRows : list (gmap string value)) (batches : Count) (i : Z) : M unit :=
  if lt_count i batches then
    match fuel with
    | O => fun w => (w, Diverge)
    | S fuel' =>
        tick ;;~
        let start := i * size in
        let end_ := Z.min (start + size) (Z.of_nat (length processedRows)) in
        let batch := slice processedRows start end_ in
        executeBatchInsert s batch ;;~
        (if lt_count i (count_pred batches) then sleep 100 else ret tt) ;;~
        insert_loop fuel' s size processedRows batches (i + 1)
    end
  else ret tt.

(** What a run that ends normally has printed. *)
Inductive Report : Type :=
  | NoRecords
  | Finished (verified : bool).

(** The rows of [SELECT <columns> FROM <table> ORDER BY id]. *)
Definition fetched (s : Script) (w : World) : list (gmap string value) :=
  select_columns (columns s) <$> merge_sort row_id_le (t_pg_rows w).

(** The timestamp step, which only [migrate-camera-locations.js] has
    (lines 129-133). *)
Definition processed `{Platform} (s : Script) (rows : list (gmap string value)) :
    Err (list (gmap string value)) :=
  match s with
  | migrate_js => inl rows
  | migrate_camera_locations_js => transform_rows rows
  end.

(** The [try] block of [migrateData] (lines 95-183). *)
Definition migrateData_try `{Platform} (s : Script) (env_BATCH_SIZE : option Z) :
    M Report :=
  pg_call ;;~
  pg_call ;;~
  fun w =>
    let totalRecords := Z.of_nat (length (t_pg_rows w)) in
    (if totalRecords =? 0 then ret NoRecords
     else
       pg_call ;;~
       processedRows <~ lift (processed s (fetched s w)) ;;
       try_catch (executeD1SQL (DeleteAll (table s)) ;;~ ret tt) (fun error => ret tt) ;;~
       let batches :=
         Math_ceil_div (Z.of_nat (length processedRows)) (BATCH_SIZE s env_BATCH_SIZE) in
       (fun w' => insert_loop (t_gas w') s (BATCH_SIZE s env_BATCH_SIZE) processedRows
                    batches 0 w') ;;~
       verifyResult <~ executeD1SQL (CountAll (table s)) ;;
       match verifyResult with
       | RowCount d1Count :: _ => ret (Finished (d1Count =? totalRecords))
       | _ :: _ => ret (Finished false)
       | [] => throw (TypeError "Cannot read properties of undefined (reading 'count')")
       end) w.

(** [migrateData()]: the exit code, [None] while the run goes on.  The
    [catch] block calls [process.exit(1)]; the closing [pgClient.end()] of
    [finally] is taken to succeed. *)
Definition migrateData `{Platform} (s : Script) (env_BATCH_SIZE : option Z) (w : World) :
    World * option Z :=
  match migrateData_try s env_BATCH_SIZE w with
  | (w', Ret _) => (w', Some 0)
  | (w', Throw _) => (w', Some 1)
  | (w', Diverge) => (w', None)
  end.

End Traditional.

(** The part of a page of [rows] that the first [j] batches of [size] rows
    hold. *)
Definition first_batches (size : Z) (j : nat) (rows : list (gmap string value)) :
    list (gmap string value) :=
  take (j * Z.to_nat size) rows.

(** Whether the database executes the next request: it does, unless the
    request fails before the database has executed it. *)
Definition next_is_executed (failures : list (option Traditional.Failure)) : bool :=
  match head failures with
  | Some (Some f) => Traditional.was_executed f
  | _ => true
  end.

(** Whether the request at position [j] of the schedule fails after the
    database has executed it. *)
Definition executed_at (failures : list (option Traditional.Failure)) (j : nat) : bool :=
  match failures !! j with
  | Some (Some f) => Traditional.was_executed f
  | _ => false
  end.

(** The number of batches the destination holds when insert [j+1] is the
    first to fail. *)
Definition batches_held (failures : list (option Traditional.Failure)) (j : nat) : nat :=
  if executed_at failures j then S j else j.

(** Seven source rows and a destination table that holds one row from an
    earlier run; [failures] is the schedule of the remote. *)
Definition traditional_world (failures : list (option Traditional.Failure)) :
    Traditional.World :=
  Traditional.MkWorld
    (MkD1 None 0 {["coordinate_speed_new" := [[VNum 0; VNum 0; VNull; VNull; VNull]]]} [] [])
    failures [] (coordinate_row <$> seqZ 1 7) [] [] 100.

(** The DELETE goes through, the first INSERT does not. *)
Definition interrupted_world : Traditional.World :=
  traditional_world [None; Some (Traditional.Rejected "socket hang up" false)].

(** The same source and a database without the destination table. *)
Definition bare_world : Traditional.World :=
  Traditional.MkWorld (MkD1 None 0 ∅ [] []) [] [] (coordinate_row <$> seqZ 1 7) [] [] 100.

(** Two camera rows, the first with a [created_at] that is no date, and a
    destination table with one row. *)
Definition poisoned_source : Traditional.World :=
  Traditional.MkWorld
    (MkD1 None 0 {["camera_locations" := [[VStr "cam-0"; VNum 0; VNum 0; VNull; VNull; VNull]]]}
       [] [])
    [] [] [<["created_at" := VStr "yesterday"]> (camera_row 1); camera_row 2] [] [] 100.

(** *** The cleanup ([cleanup-d1.js]) *)
Module CleanupD1.

(** The statements the script sends. *)
Inductive Statement : Type :=
  | CountRows (table : string)
      (* SELECT COUNT( * ) as count FROM <TABLE_NAME> *)
  | CountCheckpointsOf (tableName : string)
      (* SELECT COUNT( * ) as count FROM migration_checkpoints WHERE table_name = ? *)
  | CountCompletedOf (tableName : string)
      (* ... WHERE table_name = ? AND status = 'completed' *)
  | DeleteRows (table : string)
      (* DELETE FROM <TABLE_NAME> *)
  | DeleteCheckpointsOf (tableName : string).
      (* DELETE FROM migration_checkpoints WHERE table_name = ? *)

Definition execute (d : D1) (q : Statement) : D1 * (list D1Row + string) :=
  match q with
  | CountRows table => d1_exec 0 d (SelectCount table)
  | CountCheckpointsOf tableName => d1_exec 0 d (CountCheckpoints tableName)
  | CountCompletedOf tableName =>
      match d1_checkpoints d with
      | Some cps =>
          (d, inl [RowCount (Z.of_nat (length
                     (filter (fun c => for_table tableName c && is_completed c) cps)))])
      | None => (d, inr (no_such_table checkpoints_name))
      end
  | DeleteRows table =>
      if String.eqb table checkpoints_name then
        match d1_checkpoints d with
        | Some _ => (set_checkpoints d (Some []), inl [])
        | None => (d, inr (no_such_table table))
        end
      else
        match d1_tables d !! table with
        | Some _ =>
            (MkD1 (d1_checkpoints d) (d1_seq d) (<[table := []]> (d1_tables d))
               (d1_indexes d) (d1_history d), inl [])
        | None => (d, inr (no_such_table table))
        end
  | DeleteCheckpointsOf tableName => d1_exec 0 d (DeleteCheckpoints tableName)
  end.

Record World : Type := MkWorld {
  c_d1 : D1;
  c_faults : list (option Failure); (* one entry per HTTP attempt to come *)
  c_requests : list Statement;      (* every attempt sent, oldest first *)
  c_sleeps : list Z                 (* every setTimeout delay, oldest first *)
}.

Definition M (A : Type) : Type := World -> World * Outcome A.

Definition ret {A} (a : A) : M A := fun w => (w, Ret a).
Definition throw {A} (e : JsError) : M A := fun w => (w, Throw e).

Definition bind {A B} (m : M A) (k : A -> M B) : M B :=
  fun w =>
    match m w with
    | (w', Ret a) => k a w'
    | (w', Throw e) => (w', Throw e)
    | (w', Diverge) => (w', Diverge)
    end.

Notation "x <~ m ;; k" := (bind m (fun x => k))
  (at level 100, m at next level, right associativity).
Notation "m ;;~ k" := (bind m (fun _ => k))
  (at level 100, right associativity).

Definition try_catch {A} (body : M A) (handler : JsError -> M A) : M A :=
  fun w =>
    match body w with
    | (w', Throw e) => handler e w'
    | r => r
    end.

Definition sleep (delay : Z) : M unit :=
  fun w => (MkWorld (c_d1 w) (c_faults w) (c_requests w) (c_sleeps w ++ [delay]), Ret tt).

(** One pass through the [try] block of [executeD1SQL]
    ([cleanup-d1.js] 31-61), the same as that of the resumable migration:
    a failure of the schedule makes it throw [fault_error], whether or not
    the database has executed the statement. *)
Definition d1_attempt (sql : Statement) : M (list D1Row) :=
  fun w =>
    let w1 d := MkWorld d (tail (c_faults w)) (c_requests w ++ [sql]) (c_sleeps w) in
    match head (c_faults w) with
    | Some (Some failure) =>
        (w1 (if executed failure then (execute (c_d1 w) sql).1 else c_d1 w),
         Throw (fault_error (fault failure)))
    | Some None | None =>
        match execute (c_d1 w) sql with
        | (d', inl rows) => (w1 d', Ret rows)
        | (d', inr errors) => (w1 d', Throw (MkError ("D1 API Error: " +:+ errors)))
        end
    end.

(** The loop [for (let attempt = 1; attempt <= retries; attempt++)]
    ([cleanup-d1.js] 30-72), entered at [attempt] with [n] iterations
    left. *)
Fixpoint executeD1SQL_from (n : nat) (sql : Statement) (retries attempt : Z) :
    M (option (list D1Row)) :=
  match n with
  | O => ret None
  | S n' =>
      try_catch (result <~ d1_attempt sql ;; ret (Some result))
        (fun error =>
           if attempt =? retries then throw error
           else
             let delay := backoff_delay attempt in
             sleep delay ;;~
             executeD1SQL_from n' sql retries (attempt + 1))
  end.

(** [executeD1SQL(sql, params)] with the default [retries = 3]. *)
Definition executeD1SQL (sql : Statement) : M (option (list D1Row)) :=
  executeD1SQL_from 3 sql 3 1.

(** [result.result[0].results[0].count] *)
Definition count_of (result : option (list D1Row)) : M (option Z) :=
  match result with
  | Some (RowCount n :: _) => ret (Some n)
  | Some (_ :: _) => ret None
  | Some [] => throw (TypeError "Cannot read properties of undefined (reading 'count')")
  | None => throw (TypeError "Cannot read properties of undefined (reading 'result')")
  end.

(** [try { body } catch (error) { if (error.message.includes('no such
    table')) { ... } else { throw error; } }] *)
Definition unless_missing (body : M unit) : M unit :=
  try_catch body
    (fun error => if includes (message error) "no such table" then ret tt else throw error).

(** The [try] block of [cleanupD1] (lines 76-180). *)
Definition cleanupD1_try (TABLE_NAME : string) : M unit :=
  unless_missing
    (countResult <~ executeD1SQL (CountRows TABLE_NAME) ;;
     currentCount <~ count_of countResult ;;
     ret tt) ;;~
  unless_missing
    (checkpointCountResult <~ executeD1SQL (CountCheckpointsOf TABLE_NAME) ;;
     checkpointCount <~ count_of checkpointCountResult ;;
     completedResult <~ executeD1SQL (CountCompletedOf TABLE_NAME) ;;
     completedCount <~ count_of completedResult ;;
     ret tt) ;;~
  unless_missing (executeD1SQL (DeleteRows TABLE_NAME) ;;~ ret tt) ;;~
  unless_missing (executeD1SQL (DeleteCheckpointsOf TABLE_NAME) ;;~ ret tt) ;;~
  unless_missing
    (verifyCountResult <~ executeD1SQL (CountRows TABLE_NAME) ;;
     finalCount <~ count_of verifyCountResult ;;
     ret tt) ;;~
  unless_missing
    (verifyCheckpointResult <~ executeD1SQL (CountCheckpointsOf TABLE_NAME) ;;
     finalCheckpointCount <~ count_of verifyCheckpointResult ;;
     ret tt).

(** [cleanupD1()]: the exit code; the [catch] block calls
    [process.exit(1)]. *)
Definition cleanupD1 (TABLE_NAME : string) (w : World) : World * Z :=
  match cleanupD1_try TABLE_NAME w with
  | (w', Ret _) => (w', 0)
  | (w', _) => (w', 1)
  end.

End CleanupD1.

(** The database with the rows of [table] and the checkpoints of [table]
    deleted, where the tables exist. *)
Definition cleaned (table : string) (d : D1) : D1 :=
  (CleanupD1.execute (CleanupD1.execute d (CleanupD1.DeleteRows table)).1
     (CleanupD1.DeleteCheckpointsOf table)).1.

(** What the cleanup of [table] leaves alone in the database. *)
Definition untouched_by_cleanup (table : string) (d d' : D1) : Prop :=
  (forall other, other <> table -> d1_tables d' !! other = d1_tables d !! other) /\
  (is_Some (d1_tables d' !! table) <-> is_Some (d1_tables d !! table)) /\
  (table <> checkpoints_name ->
     filter (fun c => negb (for_table table c)) <$> d1_checkpoints d'
     = filter (fun c => negb (for_table table c)) <$> d1_checkpoints d) /\
  (is_Some (d1_checkpoints d') <-> is_Some (d1_checkpoints d)) /\
  d1_seq d' = d1_seq d /\ d1_indexes d' = d1_indexes d.

(** No fault of the schedule produces a message that mentions a missing
    table. *)
Definition plain_faults (faults : list (option Failure)) : Prop :=
  forall f, Some f ∈ faults ->
    includes (message (fault_error (fault f))) "no such table" = false.

(** The database [d] refuses the statement [q]. *)
Definition refused (d : D1) (q : CleanupD1.Statement) : Prop :=
  exists err, (CleanupD1.execute d q).2 = inr err.

(** Every run of [m] relates the world before to the world after by
    [R]. *)
Definition c_preserves {A} (R : CleanupD1.World -> CleanupD1.World -> Prop)
    (m : CleanupD1.M A) : Prop :=
  forall w w' o, m w = (w', o) -> R w w'.

(** The statements about [table]. *)
Definition about (table : string) (q : CleanupD1.Statement) : Prop :=
  match q with
  | CleanupD1.CountRows t | CleanupD1.CountCheckpointsOf t | CleanupD1.CountCompletedOf t
  | CleanupD1.DeleteRows t | CleanupD1.DeleteCheckpointsOf t => t = table
  end.

Definition c_untouched (table : string) (w w' : CleanupD1.World) : Prop :=
  untouched_by_cleanup table (CleanupD1.c_d1 w) (CleanupD1.c_d1 w').

(** A block on a remote that answers: it ends normally, and the database
    is changed as [change] says. *)
Definition quiet_block (m : CleanupD1.M unit) (change : D1 -> D1) : Prop :=
  forall w, CleanupD1.c_faults w = [] ->
    exists w', CleanupD1.unless_missing m w = (w', Ret tt) /\
      CleanupD1.c_faults w' = [] /\
      CleanupD1.c_d1 w' = change (CleanupD1.c_d1 w).

(** One destination row, one checkpoint of the table and one of another
    table, on a remote that answers. *)
Definition cleanup_world : CleanupD1.World :=
  CleanupD1.MkWorld
    (MkD1 (Some [MkCheckpoint 1 "coordinate_speed_new" 1 7 7 completed None None None 0;
                 MkCheckpoint 2 "camera_locations" 1 20 0 pending None None None 0])
       2 {["coordinate_speed_new" := [[VNum 0; VNum 0; VNull; VNull; VNull]]]} [] [])
    [] [] [].

(** The same database behind a remote whose first two attempts fail. *)
Definition flaky_cleanup_world : CleanupD1.World :=
  CleanupD1.MkWorld (CleanupD1.c_d1 cleanup_world)
    [Some (MkFailure (NetworkError "socket hang up") true);
     Some (MkFailure (HttpError 503 "unavailable") false)] [] [].

(** The statements a run for [table] may send: it creates no table but its
    own, and that one only under a name the script knows. *)
Definition sendable (table : string) (q : Sql) : Prop :=
  match q with
  | CreateTargetTable t => t = table /\ supported table = true
  | _ => True
  end.

(** Between [d] and [d'] no row of a data table, no table and no index was
    removed: every data table kept its rows as a prefix, only the data table
    [table] may have appeared, the old indexes are still there, and the
    checkpoint table, if it existed, still exists.  The rows of the
    checkpoint table are no part of this: a run updates and deletes them. *)
Definition never_removes (table : string) (d d' : D1) : Prop :=
  (forall t rows, d1_tables d !! t = Some rows ->
     exists more, d1_tables d' !! t = Some (rows ++ more)) /\
  (forall t, d1_tables d !! t = None -> is_Some (d1_tables d' !! t) ->
     t = table /\ supported table = true) /\
  (exists new, d1_indexes d' = new ++ d1_indexes d) /\
  (is_Some (d1_checkpoints d) -> is_Some (d1_checkpoints d')).

(** The relation [R] holds between the database before and after. *)
Definition kept_by (R : D1 -> D1 -> Prop) (w w' : World) : Prop := R (w_d1 w) (w_d1 w').

(** The checkpoints of [table] a resumed run works through, in its
    order. *)
Definition left_to_do (table : string) (cps : list Checkpoint) : list Checkpoint :=
  order_by_start_id (filter (fun c => for_table table c && is_eligible c) cps).

(** Seven source rows; the checkpoint of the first four is completed and
    its rows are in the destination, the checkpoint of the last three has
    failed. *)
Definition half_done_world : World :=
  MkWorld
    (MkD1 (Some [MkCheckpoint 1 "coordinate_speed_new" 1 4 4 completed None None None 0;
                 MkCheckpoint 2 "coordinate_speed_new" 5 7 0 failed (Some "fetch failed")
                   None None 0])
       2
       {["coordinate_speed_new" :=
           tuples_of coordinate_columns (coordinate_row <$> seqZ 1 4)]} [] [])
    [] [] (coordinate_row <$> seqZ 1 7) [] 1737244800000 [] 100.

Definition zero_cfg : Config := MkConfig "coordinate_speed_new" (Some 0) 20 true.

(** An attempt whose statement the database executes, but whose answer
    never arrives. *)
Definition lost_answer : option Failure :=
  Some (MkFailure (NetworkError "socket hang up") true).

(** Twenty source rows and one pending checkpoint; the answer to the first
    insert is lost. *)
Definition lost_insert_world : World :=
  MkWorld (MkD1 (Some [checkpoint_1_20]) 1 {["camera_locations" := []]} [] [])
    [None; lost_answer]
    [] (camera_row <$> seqZ 1 20) [] 1737244800000 [] 100.

(** The same, with the answers to the three attempts of the completing write
    lost. *)
Definition lost_completion_world : World :=
  MkWorld (MkD1 (Some [checkpoint_1_20]) 1 {["camera_locations" := []]} [] [])
    [None; None; None; lost_answer; lost_answer; lost_answer]
    [] (camera_row <$> seqZ 1 20) [] 1737244800000 [] 100.

(** * Facts *)

Section GatewayFacts.
Context `{Platform}.

(** *** Monad plumbing *)
Lemma bind_ret_run {A B} (m : M A) (k : A -> M B) w w' a :
  m w = (w', Ret a) -> bind m k w = k a w'.
Proof. intros E. unfold bind. rewrite E. reflexivity. Qed.

Lemma bind_throw_run {A B} (m : M A) (k : A -> M B) w w' e :
  m w = (w', Throw e) -> bind m k w = (w', Throw e).
Proof. intros E. unfold bind. rewrite E. reflexivity. Qed.

Lemma bind_diverge_run {A B} (m : M A) (k : A -> M B) w w' :
  m w = (w', Diverge) -> bind m k w = (w', Diverge).
Proof. intros E. unfold bind. rewrite E. reflexivity. Qed.

Lemma same_source_refl w : same_source w w.
Proof. repeat split. Qed.

Lemma same_source_trans w1 w2 w3 :
  same_source w1 w2 -> same_source w2 w3 -> same_source w1 w3.
Proof. unfold same_source. intros (?&?&?) (?&?&?). repeat split; congruence. Qed.

(** *** The database *)
Lemma d1_exec_error_same now d q d' e :
  d1_exec now d q = (d', inr e) -> d' = d.
Proof.
  destruct q; cbn [d1_exec]; intros E;
    repeat match type of E with
           | context [match ?x with _ => _ end] => destruct x eqn:?
           | context [if ?x then _ else _] => destruct x eqn:?
           end; congruence.
Qed.

(** *** One attempt *)
Lemma no_lost_answer_tail w w' :
  w_faults w' = tail (w_faults w) -> no_lost_answer w -> no_lost_answer w'.
Proof.
  unfold no_lost_answer. intros -> Hall.
  destruct (w_faults w); [exact Hall|]. apply Forall_cons in Hall as [_ Hall]. exact Hall.
Qed.

Lemma no_lost_answer_drop k w w' :
  w_faults w' = drop k (w_faults w) -> no_lost_answer w -> no_lost_answer w'.
Proof. unfold no_lost_answer. intros ->. apply Forall_drop. Qed.

Lemma healthy_no_lost_answer w : healthy w -> no_lost_answer w.
Proof. unfold healthy, no_lost_answer. intros ->. constructor. Qed.

Lemma retried_trans sql d1 d2 d3 j1 j2 :
  retried sql d1 j1 d2 -> retried sql d2 j2 d3 -> retried sql d1 (j2 + j1) d3.
Proof.
  intros H12 H23. induction H23 as [|j now d' _ IH]; [exact H12|].
  cbn [Nat.add]. apply retried_more. exact IH.
Qed.

Lemma retried_once sql now d : retried sql d 1 (d1_exec now d sql).1.
Proof. apply retried_more, retried_none. Qed.

Lemma retried_zero sql d d0 : retried sql d 0 d0 -> d0 = d.
Proof. inversion 1. reflexivity. Qed.

(** A statement that leaves the database [d] as it is, whenever it is
    executed, leaves it so however often it is retried. *)
Lemma retried_fixed sql d j d0 :
  (forall now, (d1_exec now d sql).1 = d) -> retried sql d j d0 -> d0 = d.
Proof.
  intros Hfix Hr. induction Hr as [|j now d' _ IH]; [reflexivity|].
  rewrite IH. apply Hfix.
Qed.

(** What every execution of [sql] keeps, its retries keep. *)
Lemma retried_keeps (R : D1 -> D1 -> Prop) sql d j d0 :
  (forall x, R x x) -> (forall x y z, R x y -> R y z -> R x z) ->
  (forall now x, R x (d1_exec now x sql).1) ->
  retried sql d j d0 -> R d d0.
Proof.
  intros Hrefl Htrans Hexec Hr. induction Hr as [|j now d' _ IH]; [apply Hrefl|].
  eapply Htrans; [exact IH|apply Hexec].
Qed.

Lemma d1_attempt_spec sql w w' o :
  d1_attempt sql w = (w', o) ->
  w_requests w' = w_requests w ++ [sql] /\
  w_faults w' = tail (w_faults w) /\
  w_clock w' = w_clock w /\ w_sleeps w' = w_sleeps w /\
  same_source w w' /\
  match o with
  | Ret rows => d1_exec (w_clock w) (w_d1 w) sql = (w_d1 w', inl rows)
  | Throw e =>
      exists j : nat, (j <= 1)%nat /\ retried sql (w_d1 w) j (w_d1 w') /\
        (no_lost_answer w -> j = 0%nat)
  | Diverge => False
  end.
Proof.
  unfold d1_attempt, same_source, no_lost_answer. intros E.
  destruct (w_faults w) as [|[[f ex]|] fs] eqn:Ef; cbn [head] in E.
  2:{ inversion E; subst; cbn. repeat split; try reflexivity.
      destruct ex.
      - exists 1%nat. split; [lia|]. split; [apply retried_once|].
        intros Hall. apply Forall_cons in Hall as [Hex _]. discriminate.
      - exists 0%nat. split; [lia|]. split; [apply retried_none|reflexivity]. }
  all: destruct (d1_exec (w_clock w) (w_d1 w) sql) as [d' [rows|err]] eqn:Ex;
    inversion E; subst; cbn; repeat split; try reflexivity; try exact Ex.
  all: exists 0%nat; split; [lia|]; split; [|reflexivity];
    rewrite (d1_exec_error_same _ _ _ _ _ Ex); apply retried_none.
Qed.

Lemma executeD1SQL_from_spec n : forall sql retries attempt w w' o,
  retries = attempt + Z.of_nat n - 1 -> (1 <= n)%nat ->
  executeD1SQL_from n sql retries attempt w = (w', o) ->
  exists (k j : nat) (d0 : D1),
    (1 <= k <= n)%nat /\
    w_requests w' = w_requests w ++ replicate k sql /\
    w_faults w' = drop k (w_faults w) /\
    w_sleeps w' = w_sleeps w ++ backoffs attempt (k - 1) /\
    same_source w w' /\
    retried sql (w_d1 w) j d0 /\
    (no_lost_answer w -> j = 0%nat) /\
    match o with
    | Ret r => (j < k)%nat /\ exists rows, r = Some rows /\
                 d1_exec (w_clock w') d0 sql = (w_d1 w', inl rows)
    | Throw e => (j <= k)%nat /\ k = n /\ w_d1 w' = d0 /\
                 exists wl, d1_attempt sql wl = (w', Throw e)
    | Diverge => False
    end.
Proof.
  induction n as [|n IH]; intros sql retries attempt w w' o Hr Hn E; [lia|].
  cbn [executeD1SQL_from] in E. unfold try_catch in E.
  destruct (d1_attempt sql w) as [w1 o1] eqn:E1.
  pose proof (d1_attempt_spec _ _ _ _ E1) as (Hq & Hf & Hc & Hs & Hsrc & Ho).
  unfold bind in E. rewrite E1 in E.
  destruct o1 as [rows|e|]; [| |contradiction].
  - unfold ret in E. injection E as <- <-. exists 1%nat, 0%nat, (w_d1 w).
    split; [lia|]. split; [exact Hq|].
    split; [rewrite Hf; destruct (w_faults w); reflexivity|].
    split; [cbn; rewrite app_nil_r; exact Hs|]. split; [exact Hsrc|].
    split; [apply retried_none|]. split; [reflexivity|]. split; [lia|].
    exists rows. split; [reflexivity|]. rewrite Hc. exact Ho.
  - destruct Ho as (j1 & Hj1 & Hre & Hclean).
    destruct (attempt =? retries) eqn:Ea.
    + apply Z.eqb_eq in Ea. unfold throw in E. injection E as <- <-.
      assert (n = 0%nat) by lia. subst n. exists 1%nat, j1, (w_d1 w1).
      split; [lia|]. split; [exact Hq|].
      split; [rewrite Hf; destruct (w_faults w); reflexivity|].
      split; [cbn; rewrite app_nil_r; exact Hs|]. split; [exact Hsrc|].
      split; [exact Hre|]. split; [exact Hclean|]. split; [exact Hj1|].
      split; [reflexivity|]. split; [reflexivity|]. exists w. exact E1.
    + apply Z.eqb_neq in Ea.
      unfold sleep in E. cbn in E.
      match type of E with executeD1SQL_from n sql retries (attempt + 1) ?w2 = _ =>
        specialize (IH sql retries (attempt + 1) w2 w' o ltac:(lia) ltac:(lia) E)
          as (k & j & d0 & Hk & Hq' & Hf' & Hs' & Hsrc' & Hre' & Hclean' & Ho')
      end.
      cbn in Hq', Hf', Hs', Hsrc', Hre', Hclean', Ho'. exists (S k), (j + j1)%nat, d0.
      split; [lia|].
      split; [rewrite Hq', Hq, <- app_assoc; reflexivity|].
      split; [rewrite Hf', Hf; destruct (w_faults w); cbn; [rewrite drop_nil|]; reflexivity|].
      split.
      { rewrite Hs', Hs. replace (S k - 1)%nat with (S (k - 1)) by lia.
        cbn [backoffs]. rewrite <- app_assoc. reflexivity. }
      split.
      { destruct Hsrc as (?&?&?), Hsrc' as (?&?&?). cbn in *.
        repeat split; congruence. }
      split; [eapply retried_trans; eassumption|].
      split.
      { intros Hnl. rewrite (Hclean Hnl). rewrite Hclean'; [reflexivity|].
        unfold no_lost_answer. cbn. eapply (no_lost_answer_tail w w1); eassumption. }
      destruct o as [r|e'|]; [| |contradiction].
      * destruct Ho' as (Hjk & rows & -> & Hex). split; [lia|].
        exists rows. split; [reflexivity|]. exact Hex.
      * destruct Ho' as (Hjk & -> & Hd & wl & Hwl). split; [lia|]. split; [reflexivity|].
        split; [exact Hd|]. exists wl. exact Hwl.
Qed.

Lemma executeD1SQL_spec sql w w' o :
  executeD1SQL sql w = (w', o) ->
  exists (k j : nat) (d0 : D1),
    (1 <= k <= 3)%nat /\
    w_requests w' = w_requests w ++ replicate k sql /\
    w_faults w' = drop k (w_faults w) /\
    w_sleeps w' = w_sleeps w ++ backoffs 1 (k - 1) /\
    same_source w w' /\
    retried sql (w_d1 w) j d0 /\
    (no_lost_answer w -> j = 0%nat) /\
    match o with
    | Ret r => (j < k)%nat /\ exists rows, r = Some rows /\
                 d1_exec (w_clock w') d0 sql = (w_d1 w', inl rows)
    | Throw e => (j <= k)%nat /\ k = 3%nat /\ w_d1 w' = d0 /\
                 exists wl, d1_attempt sql wl = (w', Throw e)
    | Diverge => False
    end.
Proof.
  intros E. eapply (executeD1SQL_from_spec 3 sql 3 1); [lia|lia|exact E].
Qed.

(** C6: the largest batch is the floor of the parameter ceiling over the
    column count (19 rows for 5 columns and 16 for 6 under a ceiling of 99),
    and in each of the three scripts the effective batch size is the minimum
    of the requested size and that maximum, so that a request above the
    maximum yields the maximum itself and no error. *)
Theorem batch_size_is_clamped_floor :
  maxBatchRows 5 99 = 19 /\ maxBatchRows 6 99 = 16 /\
  (forall (columnCount : positive) (parameterCeiling : Z),
     Z.pos columnCount * maxBatchRows (Z.pos columnCount) parameterCeiling
       <= parameterCeiling
       < Z.pos columnCount * (maxBatchRows (Z.pos columnCount) parameterCeiling + 1)) /\
  Migrate.MAX_BATCH_SIZE = 19 /\ MigrateCameraLocations.MAX_BATCH_SIZE = 16 /\
  (forall requested : Z,
     Migrate.BATCH_SIZE (Some requested) = Z.min requested Migrate.MAX_BATCH_SIZE /\
     MigrateCameraLocations.BATCH_SIZE (Some requested)
       = Z.min requested MigrateCameraLocations.MAX_BATCH_SIZE) /\
  (forall (table : string) (requested size : Z) (resume : bool),
     BATCH_SIZE (MkConfig table (Some requested) size resume)
       = Z.min requested (MAX_BATCH_SIZE (MkConfig table (Some requested) size resume))) /\
  (forall over : positive,
     Migrate.BATCH_SIZE (Some (Migrate.MAX_BATCH_SIZE + Z.pos over))
       = Migrate.MAX_BATCH_SIZE /\
     MigrateCameraLocations.BATCH_SIZE (Some (MigrateCameraLocations.MAX_BATCH_SIZE + Z.pos over))
       = MigrateCameraLocations.MAX_BATCH_SIZE) /\
  (forall (table : string) (size : Z) (resume : bool) (over : positive),
     let cfg requested := MkConfig table (Some requested) size resume in
     BATCH_SIZE (cfg (MAX_BATCH_SIZE (cfg 0) + Z.pos over)) = MAX_BATCH_SIZE (cfg 0)).
Proof.
  split; [reflexivity|]. split; [reflexivity|].
  split.
  { intros c p. unfold maxBatchRows, Math_floor_div.
    pose proof (Pos2Z.is_pos c) as Hc.
    pose proof (Z.div_mod p (Z.pos c) ltac:(lia)) as Hdm.
    pose proof (Z.mod_pos_bound p (Z.pos c) Hc) as Hb.
    rewrite Z.mul_add_distr_l, Z.mul_1_r.
    generalize dependent (p mod Z.pos c). generalize (Z.pos c * (p / Z.pos c)).
    intros; lia. }
  split; [reflexivity|]. split; [reflexivity|].
  split; [intros r; split; reflexivity|].
  split; [intros; reflexivity|].
  split.
  { intros over. unfold Migrate.BATCH_SIZE, MigrateCameraLocations.BATCH_SIZE,
      Migrate.REQUESTED_BATCH_SIZE, MigrateCameraLocations.REQUESTED_BATCH_SIZE.
    cbv [from_option id]. change Migrate.MAX_BATCH_SIZE with 19.
    change MigrateCameraLocations.MAX_BATCH_SIZE with 16.
    pose proof (Pos2Z.is_pos over). split; lia. }
  intros table size resume over cfg. unfold BATCH_SIZE, MAX_BATCH_SIZE, COLUMNS_COUNT.
  cbv [cfg TABLE_NAME env_BATCH_SIZE from_option id].
  pose proof (Pos2Z.is_pos over). destruct (String.eqb table _); cbn; lia.
Qed.


End GatewayFacts.

Lemma all_from_spec n p : forall z0,
  all_from n z0 p = true -> forall z, z0 <= z < z0 + Z.of_nat n -> p z = true.
Proof.
  induction n as [|n IH]; intros z0 Hall z Hz; [lia|].
  cbn [all_from] in Hall. apply andb_true_iff in Hall as [Hn Hrest].
  destruct (Z.eq_dec z z0) as [->|Hne]; [exact Hn|].
  apply (IH (z0 + 1)); [exact Hrest|lia].
Qed.

Lemma era_days_checked : all_from (Z.to_nat 146097) 0 era_day_ok = true.
Proof. vm_compute. reflexivity. Qed.

Lemma era_day_ok_all doe : 0 <= doe < 146097 -> era_day_ok doe = true.
Proof.
  intros Hd. apply (all_from_spec _ _ 0 era_days_checked). lia.
Qed.

(** Shifting a day number by whole eras shifts the year by 400 per era. *)
Lemma civil_from_days_era z :
  let era := (z + 719468) / 146097 in
  let doe := (z + 719468) mod 146097 in
  civil_from_days z =
    let '(y, m, d) := civil_from_days (doe - 719468) in (y + era * 400, m, d).
Proof.
  cbv zeta. unfold civil_from_days.
  set (Z0 := z + 719468).
  replace ((Z0 mod 146097 - 719468 + 719468)) with (Z0 mod 146097) by lia.
  pose proof (Z.mod_pos_bound Z0 146097 ltac:(lia)) as Hb.
  rewrite (Z.div_small (Z0 mod 146097) 146097) by lia.
  rewrite Z.mul_0_l, Z.sub_0_r, Z.add_0_r.
  replace (Z0 - Z0 / 146097 * 146097) with (Z0 mod 146097)
    by (rewrite Z.mod_eq by lia; lia).
  set (doe := Z0 mod 146097).
  set (yoe := (doe - doe / 1460 + doe / 36524 - doe / 146096) / 365).
  set (doy := doe - (365 * yoe + yoe / 4 - yoe / 100)).
  set (mp := (5 * doy + 2) / 153).
  destruct ((if mp <? 10 then mp + 3 else mp - 9) <=? 2); f_equal; f_equal; lia.
Qed.

Lemma days_from_civil_era y m d era :
  0 <= (if m <=? 2 then y - 1 else y) < 400 ->
  days_from_civil (y + era * 400) m d = days_from_civil y m d + era * 146097.
Proof.
  intros Hy. unfold days_from_civil.
  set (y0 := if m <=? 2 then y - 1 else y) in *.
  replace (if m <=? 2 then y + era * 400 - 1 else y + era * 400) with (y0 + era * 400)
    by (subst y0; destruct (m <=? 2); lia).
  rewrite Z.div_add by lia. rewrite (Z.div_small y0 400) by lia.
  replace (y0 + era * 400 - (0 + era) * 400) with y0 by lia.
  replace (y0 - 0 * 400) with y0 by lia. lia.
Qed.

Lemma civil_round_trip z :
  let '(y, m, d) := civil_from_days z in
  days_from_civil y m d = z /\ 1 <= m <= 12 /\ 1 <= d <= 31 /\
  ((z + 719468) / 146097) * 400 <= y <= ((z + 719468) / 146097) * 400 + 400.
Proof.
  rewrite civil_from_days_era. cbv zeta.
  set (era := (z + 719468) / 146097). set (doe := (z + 719468) mod 146097).
  pose proof (Z.mod_pos_bound (z + 719468) 146097 ltac:(lia)) as Hb. fold doe in Hb.
  pose proof (era_day_ok_all doe Hb) as Hok. unfold era_day_ok in Hok.
  destruct (civil_from_days (doe - 719468)) as [[y m] d].
  repeat (apply andb_true_iff in Hok as [Hok ?]).
  apply Z.eqb_eq in Hok.
  rewrite days_from_civil_era by (destruct (m <=? 2); lia).
  rewrite Hok.
  assert (z + 719468 = era * 146097 + doe).
  { subst era doe. rewrite Z.mul_comm. apply Z.div_mod. lia. }
  destruct (m <=? 2); lia.
Qed.

(** *** Dates: printing and reading back *)
Lemma digit_cases d : 0 <= d <= 9 ->
  d = 0 \/ d = 1 \/ d = 2 \/ d = 3 \/ d = 4 \/ d = 5 \/ d = 6 \/ d = 7 \/ d = 8 \/ d = 9.
Proof. lia. Qed.

Lemma digit_value_char d : 0 <= d <= 9 -> digit_value (digit_char d) = Some d.
Proof.
  intros Hd. destruct (digit_cases d Hd) as [->|[->|[->|[->|[->|[->|[->|[->|[->| ->]]]]]]]]];
    reflexivity.
Qed.

Lemma digit_char_not_sign d : 0 <= d <= 9 ->
  digit_char d <> "-"%char /\ digit_char d <> "+"%char.
Proof.
  intros Hd. destruct (digit_cases d Hd) as [->|[->|[->|[->|[->|[->|[->|[->|[->| ->]]]]]]]]];
    split; discriminate.
Qed.

Lemma append_String c s r : String c s +:+ r = String c (s +:+ r).
Proof. reflexivity. Qed.

Lemma append_Empty r : "" +:+ r = r.
Proof. reflexivity. Qed.

Lemma read_digits_digits k : forall n rest,
  0 <= n < 10 ^ Z.of_nat k ->
  read_digits k (digits k n +:+ rest) = Some (n, rest).
Proof.
  induction k as [|k IH]; intros n rest Hn.
  - cbn in *. assert (n = 0) by lia. subst. reflexivity.
  - cbn [digits read_digits]. rewrite append_String.
    assert (Hp : 0 < 10 ^ Z.of_nat k) by (apply Z.pow_pos_nonneg; lia).
    assert (Hpow : 10 ^ Z.of_nat (S k) = 10 * 10 ^ Z.of_nat k).
    { rewrite Nat2Z.inj_succ, Z.pow_succ_r by lia. reflexivity. }
    assert (Hq : 0 <= n / 10 ^ Z.of_nat k <= 9).
    { split; [apply Z.div_pos; lia|].
      assert (n / 10 ^ Z.of_nat k < 10); [|lia].
      apply Z.div_lt_upper_bound; lia. }
    rewrite (digit_value_char _ Hq).
    rewrite (IH (n mod 10 ^ Z.of_nat k) rest) by (apply Z.mod_pos_bound; lia).
    f_equal. f_equal. rewrite (Z.div_mod n (10 ^ Z.of_nat k)) at 3 by lia. lia.
Qed.

Lemma read_year_year_string y rest :
  -1000000 < y < 1000000 ->
  read_year (year_string y +:+ rest) = Some (y, rest).
Proof.
  intros Hy. unfold year_string.
  destruct ((0 <=? y) && (y <=? 9999)) eqn:E4.
  - apply andb_true_iff in E4 as [H0 H9]. apply Z.leb_le in H0, H9.
    pose proof (read_digits_digits 4 y rest ltac:(cbn; lia)) as Hr.
    unfold read_year. cbn [digits String.append] in *.
    assert (Hq : 0 <= y / 10 ^ Z.of_nat 3 <= 9).
    { split; [apply Z.div_pos; cbn; lia|].
      assert (y / 10 ^ Z.of_nat 3 < 10); [|lia]. apply Z.div_lt_upper_bound; cbn; lia. }
    destruct (digit_char_not_sign _ Hq) as [Hm Hp].
    destruct (digit_char (y / 10 ^ Z.of_nat 3)) as [[] [] [] [] [] [] [] []];
      try exact Hr; congruence.
  - destruct (y <? 0) eqn:Eneg.
    + apply Z.ltb_lt in Eneg. rewrite append_String. unfold read_year. cbv iota.
      rewrite (read_digits_digits 6 (- y) rest) by (cbn; lia).
      cbn. f_equal. f_equal. lia.
    + rewrite append_String. unfold read_year. cbv iota.
      apply Z.ltb_ge in Eneg. apply andb_false_iff in E4.
      rewrite (read_digits_digits 6 y rest); [reflexivity|].
      cbn. destruct E4 as [E4|E4]; [apply Z.leb_gt in E4|apply Z.leb_gt in E4]; lia.
Qed.

Lemma year_in_range t :
  Z.abs t <= maxTime ->
  let '(y, m, d) := civil_from_days (t / msPerDay) in -1000000 < y < 1000000.
Proof.
  intros Ht. pose proof (civil_round_trip (t / msPerDay)) as Hc.
  destruct (civil_from_days (t / msPerDay)) as [[y m] d].
  destruct Hc as (_ & _ & _ & Hy).
  unfold maxTime, msPerDay in *.
  assert (-100000000 <= t / 86400000 <= 100000000).
  { split; [apply Z.div_le_lower_bound; lia|apply Z.div_le_upper_bound; lia]. }
  assert (-1000 <= (t / 86400000 + 719468) / 146097 <= 1000).
  { split; [apply Z.div_le_lower_bound; lia|apply Z.div_le_upper_bound; lia]. }
  lia.
Qed.

Ltac ten_pow :=
  match goal with
  | |- context [10 ^ Z.of_nat ?k] =>
      let v := eval vm_compute in (10 ^ Z.of_nat k) in
      change (10 ^ Z.of_nat k) with v
  end.

Lemma read_iso_iso_string t : Z.abs t <= maxTime -> read_iso (iso_string t) = Some t.
Proof.
  intros Ht. unfold iso_string, read_iso.
  pose proof (civil_round_trip (t / msPerDay)) as Hc.
  pose proof (year_in_range t Ht) as Hy.
  destruct (civil_from_days (t / msPerDay)) as [[y m] d].
  destruct Hc as (Hdays & Hm & Hd & _).
  pose proof (Z.mod_pos_bound t msPerDay ltac:(unfold msPerDay; lia)) as Hms.
  set (ms := t mod msPerDay) in *. unfold msPerDay in Hms.
  rewrite read_year_year_string by exact Hy. rewrite ?append_String, ?append_Empty; cbn [mbind option_bind read_char Ascii.eqb Bool.eqb].
  rewrite read_digits_digits by (ten_pow; lia). rewrite ?append_String, ?append_Empty; cbn [mbind option_bind read_char Ascii.eqb Bool.eqb].
  rewrite read_digits_digits by (ten_pow; lia). rewrite ?append_String, ?append_Empty; cbn [mbind option_bind read_char Ascii.eqb Bool.eqb].
  rewrite read_digits_digits
    by (ten_pow; split; [apply Z.div_pos; lia|apply Z.div_lt_upper_bound; lia]).
  rewrite ?append_String, ?append_Empty; cbn [mbind option_bind read_char Ascii.eqb Bool.eqb].
  rewrite read_digits_digits by (ten_pow; clearbody ms; Z.div_mod_to_equations; lia).
  rewrite ?append_String, ?append_Empty; cbn [mbind option_bind read_char Ascii.eqb Bool.eqb].
  rewrite read_digits_digits by (ten_pow; clearbody ms; Z.div_mod_to_equations; lia).
  rewrite ?append_String, ?append_Empty; cbn [mbind option_bind read_char Ascii.eqb Bool.eqb].
  rewrite read_digits_digits by (ten_pow; clearbody ms; Z.div_mod_to_equations; lia).
  rewrite ?append_String, ?append_Empty; cbn [mbind option_bind read_char Ascii.eqb Bool.eqb].
  f_equal. rewrite Hdays.
  pose proof (Z.div_mod t msPerDay ltac:(unfold msPerDay; lia)) as Hsplit. fold ms in Hsplit.
  assert (ms = ms / 3600000 * 3600000 + ms / 60000 mod 60 * 60000
               + ms / 1000 mod 60 * 1000 + ms mod 1000).
  { clearbody ms. clear -Hms. Z.div_mod_to_equations. lia. }
  clearbody ms. unfold msPerDay in *. lia.
Qed.

Section TransformFacts.
Context `{Platform}.

(** *** The row transform *)
Lemma iso_string_nonempty t : String.eqb (iso_string t) "" = false.
Proof.
  unfold iso_string. destruct (civil_from_days (t / msPerDay)) as [[y m] d].
  unfold year_string.
  destruct ((0 <=? y) && (y <=? 9999)); [|destruct (y <? 0)];
    cbn [digits]; rewrite append_String; reflexivity.
Qed.

Lemma Date_parse_iso_string t :
  Z.abs t <= maxTime -> Date_parse (iso_string t) = Some t.
Proof.
  intros Ht. unfold Date_parse. rewrite (read_iso_iso_string t Ht).
  apply Z.leb_le in Ht. rewrite Ht, String.eqb_refl. reflexivity.
Qed.

Lemma new_Date_in_range v t : new_Date v = Some t -> Z.abs t <= maxTime.
Proof.
  unfold new_Date, TimeClip. intros E.
  destruct (match v with VDate t0 => t0 | VStr s => Date_parse s | VNum z => Some z
                    | VBool b => Some (if b then 1 else 0) | VNull => Some 0
                    | VUndefined => None end) as [tv|]; [|discriminate].
  cbn in E. destruct (Z.abs tv <=? maxTime) eqn:Eb; [|discriminate].
  injection E as <-. apply Z.leb_le. exact Eb.
Qed.

Lemma timestamp_to_iso_canonical t :
  Z.abs t <= maxTime ->
  timestamp_to_iso (VStr (iso_string t)) = inl (VStr (iso_string t)).
Proof.
  intros Ht. unfold timestamp_to_iso, truthy. rewrite iso_string_nonempty. cbn [negb].
  unfold new_Date. rewrite (Date_parse_iso_string t Ht). cbn [mbind option_bind].
  unfold TimeClip. apply Z.leb_le in Ht. rewrite Ht. reflexivity.
Qed.

Lemma timestamp_to_iso_fixed v v' :
  timestamp_to_iso v = inl v' -> timestamp_to_iso v' = inl v'.
Proof.
  unfold timestamp_to_iso at 1. destruct (truthy v).
  - destruct (new_Date v) as [t|] eqn:En; [|discriminate].
    cbn. intros E. injection E as <-.
    apply timestamp_to_iso_canonical. eapply new_Date_in_range. exact En.
  - intros E. injection E as <-. reflexivity.
Qed.

Lemma transform_fixed row row' : transform row = inl row' -> transform row' = inl row'.
Proof.
  unfold transform at 1.
  destruct (timestamp_to_iso (get row "created_at")) as [c|e] eqn:Ec; [|discriminate].
  destruct (timestamp_to_iso (get row "updated_at")) as [u|e] eqn:Eu; [|discriminate].
  cbn [err_bind]. intros E. injection E as <-.
  unfold transform, get.
  rewrite lookup_insert_ne by discriminate. rewrite !lookup_insert_eq. cbn [default from_option id].
  rewrite (timestamp_to_iso_fixed _ _ Ec), (timestamp_to_iso_fixed _ _ Eu). cbn [err_bind].
  f_equal. apply map_eq. intros k.
  destruct (decide (k = "updated_at")) as [->|Hu]; [rewrite !lookup_insert_eq; reflexivity|].
  destruct (decide (k = "created_at")) as [->|Hc].
  { rewrite !(lookup_insert_ne _ "updated_at") by congruence.
    rewrite !lookup_insert_eq. reflexivity. }
  repeat (rewrite lookup_insert_ne by congruence). reflexivity.
Qed.

Lemma transform_other_fields row row' k :
  transform row = inl row' -> k <> "created_at" -> k <> "updated_at" ->
  row' !! k = row !! k.
Proof.
  unfold transform.
  destruct (timestamp_to_iso (get row "created_at")) as [c|e]; [|discriminate].
  destruct (timestamp_to_iso (get row "updated_at")) as [u|e]; [|discriminate].
  cbn [err_bind]. intros E Hc Hu. injection E as <-.
  rewrite !lookup_insert_ne by congruence. reflexivity.
Qed.

Lemma transform_rows_fixed rows : forall rows',
  transform_rows rows = inl rows' -> transform_rows rows' = inl rows'.
Proof.
  unfold transform_rows. induction rows as [|r rows IH]; intros rows' E.
  - injection E as <-. reflexivity.
  - cbn [err_map] in E. destruct (transform r) as [r'|e] eqn:Er; [|discriminate].
    cbn [err_bind] in E. destruct (err_map transform rows) as [rs'|e] eqn:Ers; [|discriminate].
    cbn [err_bind] in E. injection E as <-.
    cbn [err_map]. rewrite (transform_fixed _ _ Er). cbn [err_bind].
    rewrite (IH rs' eq_refl). reflexivity.
Qed.

(** C7: transforming a transformed row changes nothing, also for a whole
    page of rows; a canonical ISO-8601 timestamp string is mapped to itself,
    a null (or absent) timestamp to null, and every field other than
    [created_at] and [updated_at] passes through unchanged. *)
Theorem transform_idempotent (row : gmap string value) :
  err_bind (transform row) transform = transform row /\
  (forall row', transform row = inl row' ->
     transform row' = inl row' /\
     forall k, k <> "created_at" -> k <> "updated_at" -> row' !! k = row !! k) /\
  (forall t, Z.abs t <= maxTime ->
     timestamp_to_iso (VStr (iso_string t)) = inl (VStr (iso_string t))) /\
  timestamp_to_iso VNull = inl VNull /\
  timestamp_to_iso VUndefined = inl VNull /\
  (forall rows, err_bind (transform_rows rows) transform_rows = transform_rows rows).
Proof.
  split.
  { destruct (transform row) as [row'|e] eqn:E; [|reflexivity].
    cbn [err_bind]. exact (transform_fixed _ _ E). }
  split.
  { intros row' E. split; [exact (transform_fixed _ _ E)|].
    intros k Hc Hu. eapply transform_other_fields; eassumption. }
  split; [intros t Ht; apply timestamp_to_iso_canonical; exact Ht|].
  split; [reflexivity|]. split; [reflexivity|].
  intros rows. destruct (transform_rows rows) as [rows'|e] eqn:E; [|reflexivity].
  cbn [err_bind]. exact (transform_rows_fixed _ _ E).
Qed.

End TransformFacts.

Lemma transform_idempotent_witness :
  @transform strict_platform sample_row
    = inl (<["updated_at" := VNull]>
           (<["created_at" := VStr "2025-01-19T00:00:00.123Z"]> sample_row)) /\
  Z.abs 1737244800123 <= maxTime /\
  @transform strict_platform
    (<["updated_at" := VNull]> (<["created_at" := VStr "2025-01-19T00:00:00.123Z"]> sample_row))
    = inl (<["updated_at" := VNull]>
           (<["created_at" := VStr "2025-01-19T00:00:00.123Z"]> sample_row)) /\
  @timestamp_to_iso strict_platform (VStr (iso_string 1737244800123))
    = inl (VStr (iso_string 1737244800123)).
Proof.
  assert (E : @transform strict_platform sample_row
    = inl (<["updated_at" := VNull]>
           (<["created_at" := VStr "2025-01-19T00:00:00.123Z"]> sample_row))) by reflexivity.
  assert (Ht : Z.abs 1737244800123 <= maxTime) by (vm_compute; discriminate).
  split; [exact E|]. split; [exact Ht|].
  destruct (@transform_idempotent strict_platform sample_row) as (_ & Hfix & Hcanon & _).
  split; [exact (proj1 (Hfix _ E))|exact (Hcanon _ Ht)].
Defined.

Section ResumeFacts.
Context `{Platform}.

(** *** The gateway, seen from its callers *)
Lemma executeD1SQL_d1 sql w w' o :
  executeD1SQL sql w = (w', o) ->
  same_source w w' /\
  (no_lost_answer w -> no_lost_answer w') /\
  exists j d0, retried sql (w_d1 w) j d0 /\ (no_lost_answer w -> j = 0%nat) /\
    match o with
    | Ret r => exists rows now, r = Some rows /\
                 d1_exec now d0 sql = (w_d1 w', inl rows)
    | Throw e => w_d1 w' = d0
    | Diverge => False
    end.
Proof.
  intros E.
  destruct (executeD1SQL_spec _ _ _ _ E)
    as (k & j & d0 & _ & _ & Hf & _ & Hsrc & Hre & Hnl & Ho).
  split; [exact Hsrc|]. split; [apply (no_lost_answer_drop k); exact Hf|].
  exists j, d0. split; [exact Hre|]. split; [exact Hnl|].
  destruct o as [r|e|]; [| |exact Ho].
  - destruct Ho as (_ & rows & -> & Hex). eauto.
  - destruct Ho as (_ & _ & Hd & _). exact Hd.
Qed.


(** A statement that does not change the database it meets: a read, or a
    statement the database refuses. *)
Lemma executeD1SQL_fixed sql w w' o :
  executeD1SQL sql w = (w', o) ->
  (forall now, (d1_exec now (w_d1 w) sql).1 = w_d1 w) ->
  same_source w w' /\ w_d1 w' = w_d1 w /\
  match o with
  | Ret r => exists rows now, r = Some rows /\
               d1_exec now (w_d1 w) sql = (w_d1 w', inl rows)
  | Throw e => True
  | Diverge => False
  end.
Proof.
  intros E Hfix.
  destruct (executeD1SQL_d1 _ _ _ _ E) as (Hsrc & _ & j & d0 & Hre & _ & Ho).
  apply retried_fixed in Hre; [|exact Hfix]. subst d0.
  split; [exact Hsrc|]. destruct o as [r|e|]; [| |contradiction].
  - destruct Ho as (rows & now & -> & Hex). split; [|eauto].
    rewrite <- (Hfix now), Hex. reflexivity.
  - split; [exact Ho|exact I].
Qed.

Lemma d1_exec_reads now d q :
  reads q = true -> (d1_exec now d q).1 = d.
Proof.
  destruct q; try discriminate; intros _; cbn [d1_exec];
    repeat match goal with
           | |- context [match ?x with _ => _ end] => destruct x
           end; reflexivity.
Qed.

Lemma executeD1SQL_reads sql w w' o :
  executeD1SQL sql w = (w', o) ->
  reads sql = true ->
  same_source w w' /\ w_d1 w' = w_d1 w /\
  match o with
  | Ret r => exists rows now, r = Some rows /\
               d1_exec now (w_d1 w) sql = (w_d1 w', inl rows)
  | Throw e => True
  | Diverge => False
  end.
Proof.
  intros E Hr. apply executeD1SQL_fixed; [exact E|]. intros now. apply d1_exec_reads. exact Hr.
Qed.

Lemma executeD1SQL_healthy_ok sql w d' rows :
  healthy w -> d1_exec (w_clock w) (w_d1 w) sql = (d', inl rows) ->
  exists w', executeD1SQL sql w = (w', Ret (Some rows)) /\
    healthy w' /\ w_d1 w' = d' /\ w_clock w' = w_clock w /\ same_source w w' /\
    w_requests w' = w_requests w ++ [sql].
Proof.
  intros Hh Hex. unfold executeD1SQL, executeD1SQL_retries.
  change (Z.to_nat 3) with 3%nat. cbn [executeD1SQL_from].
  unfold try_catch, bind, d1_attempt. rewrite Hh. cbn [head tail]. rewrite Hex.
  unfold ret. eexists. split; [reflexivity|]. cbn. repeat split.
Qed.

Lemma d1_exec_error_any_time now now' d q d' e :
  d1_exec now d q = (d', inr e) -> d1_exec now' d q = (d, inr e).
Proof.
  destruct q; cbn [d1_exec]; intros E;
    repeat match type of E with
           | context [match ?x with _ => _ end] => destruct x eqn:?
           | context [if ?x then _ else _] => destruct x eqn:?
           end; congruence.
Qed.

Lemma executeD1SQL_healthy_error sql w err :
  healthy w -> d1_exec (w_clock w) (w_d1 w) sql = (w_d1 w, inr err) ->
  exists w', executeD1SQL sql w = (w', Throw (MkError ("D1 API Error: " +:+ err))) /\
    healthy w' /\ w_d1 w' = w_d1 w /\ same_source w w'.
Proof.
  intros Hh Hex. unfold executeD1SQL, executeD1SQL_retries.
  change (Z.to_nat 3) with 3%nat. cbn [executeD1SQL_from].
  pose proof (fun now' => d1_exec_error_any_time _ now' _ _ _ _ Hex) as Hany.
  unfold try_catch, bind, d1_attempt, sleep. rewrite Hh. cbn [head tail]. rewrite Hex.
  cbn -[String.append d1_exec]. rewrite Hany.
  cbn -[String.append d1_exec]. change (1 + 1 =? 3) with false.
  cbn -[String.append d1_exec]. rewrite Hany.
  unfold throw. eexists. split; [reflexivity|]. cbn. repeat split.
Qed.

(** *** The Planner on an already planned table *)
Lemma ensureCheckpointsTableExists_existing w w' o cps :
  d1_checkpoints (w_d1 w) = Some cps ->
  ensureCheckpointsTableExists w = (w', o) ->
  w_d1 w' = w_d1 w /\ same_source w w' /\ o <> Diverge.
Proof.
  intros Hcps E. unfold ensureCheckpointsTableExists, try_catch, bind in E.
  destruct (executeD1SQL (SelectProbe checkpoints_name) w) as [w1 o1] eqn:E1.
  destruct (executeD1SQL_reads _ _ _ _ E1 eq_refl) as (Hs1 & Hd1 & Ho1).
  destruct o1 as [r|e|]; [| |contradiction].
  - unfold ret in E. injection E as <- <-.
    split; [exact Hd1|]. split; [exact Hs1|discriminate].
  - destruct (includes (message e) "no such table").
    + destruct (executeD1SQL CreateCheckpointsTable w1) as [w2 o2] eqn:E2.
      destruct (executeD1SQL_fixed _ _ _ _ E2
                  ltac:(intros now; cbn; rewrite Hd1, Hcps; reflexivity))
        as (Hs2 & Hd2 & Ho2).
      destruct o2 as [r|e2|]; [| |contradiction].
      * destruct Ho2 as (rows & now & -> & Hex). cbn in Hex.
        rewrite Hd1, Hcps in Hex. discriminate.
      * injection E as <- <-. split; [congruence|].
        split; [eapply same_source_trans; eassumption|discriminate].
    + unfold throw in E. injection E as <- <-.
      split; [exact Hd1|]. split; [exact Hs1|discriminate].
Qed.

(** C8: with [RESUME_MODE] set and at least one checkpoint of the table
    present, [initializeCheckpoints] leaves the destination database as it
    was: no checkpoint is created, deleted or modified; it terminates, and
    returns normally whenever the gateway answers. *)
Theorem resume_planning_is_noop (cfg : Config) (tableName : string)
    (totalRecords : Z) (minId maxId : option Z) (w : World) (cps : list Checkpoint) :
  RESUME_MODE cfg = true ->
  d1_checkpoints (w_d1 w) = Some cps ->
  (0 < length (filter (for_table tableName) cps))%nat ->
  w_d1 (initializeCheckpoints cfg tableName totalRecords minId maxId w).1 = w_d1 w /\
  d1_checkpoints (w_d1 (initializeCheckpoints cfg tableName totalRecords minId maxId w).1)
    = Some cps /\
  (initializeCheckpoints cfg tableName totalRecords minId maxId w).2 <> Diverge /\
  (healthy w ->
   (initializeCheckpoints cfg tableName totalRecords minId maxId w).2 = Ret tt).
Proof.
  intros Hresume Hcps Hpos.
  destruct (initializeCheckpoints cfg tableName totalRecords minId maxId w)
    as [w' o] eqn:E. cbn [fst snd].
  assert (Hmain : w_d1 w' = w_d1 w /\ o <> Diverge /\ (healthy w -> o = Ret tt)).
  2:{ destruct Hmain as (Hd & Hnd & Hh). split; [exact Hd|]. split; [congruence|].
      split; assumption. }
  unfold initializeCheckpoints in E. unfold bind at 1 in E.
  destruct (ensureCheckpointsTableExists w) as [w1 o1] eqn:E1.
  destruct (ensureCheckpointsTableExists_existing _ _ _ _ Hcps E1) as (Hd1 & Hs1 & Hn1).
  assert (Hh1 : healthy w -> healthy w1 /\ o1 = Ret tt).
  { intros Hh. unfold ensureCheckpointsTableExists, try_catch, bind in E1.
    destruct (executeD1SQL_healthy_ok (SelectProbe checkpoints_name) w (w_d1 w)
                [RowUnnamed (Z.of_nat (length cps))] Hh) as (wp & Ep & Hhp & _).
    { cbn. rewrite Hcps. reflexivity. }
    rewrite Ep in E1. unfold ret in E1. injection E1 as <- <-. split; [exact Hhp|reflexivity]. }
  destruct o1 as [[]|e1|]; [| |congruence].
  2:{ injection E as <- <-. split; [exact Hd1|]. split; [discriminate|].
      intros Hh. destruct (Hh1 Hh) as [_ ?]. discriminate. }
  unfold bind at 1 in E.
  destruct (executeD1SQL (CountCheckpoints tableName) w1) as [w2 o2] eqn:E2.
  destruct (executeD1SQL_reads _ _ _ _ E2 eq_refl) as (Hs2 & Hd2' & Ho2).
  assert (Hh2 : healthy w -> exists r, o2 = Ret r).
  { intros Hh. destruct (Hh1 Hh) as [Hhw1 _].
    destruct (executeD1SQL_healthy_ok (CountCheckpoints tableName) w1 (w_d1 w1)
                [RowCount (Z.of_nat (length (filter (for_table tableName) cps)))] Hhw1)
      as (wp & Ep & _).
    { cbn. rewrite Hd1, Hcps. reflexivity. }
    rewrite Ep in E2. injection E2 as _ <-. eauto. }
  destruct o2 as [r|e2|]; [| |contradiction].
  2:{ injection E as <- <-. split; [congruence|]. split; [discriminate|].
      intros Hh. destruct (Hh2 Hh) as [? ?]. discriminate. }
  destruct Ho2 as (rows & now & -> & Hex). cbn in Hex. rewrite Hd1, Hcps in Hex.
  injection Hex as Hd2 <-.
  unfold bind at 1 in E. unfold first_count, results_of, bind, ret in E.
  assert (Hlt : (0 <? Z.of_nat (length (filter (for_table tableName) cps))) = true)
    by (apply Z.ltb_lt; lia).
  rewrite Hlt, Hresume in E. cbn in E. injection E as <- <-.
  split; [congruence|]. split; [discriminate|]. reflexivity.
Qed.

End ResumeFacts.

Lemma resume_planning_is_noop_witness :
  RESUME_MODE (MkConfig "camera_locations" None 20 true) = true /\
  d1_checkpoints (w_d1 planned_world) = Some [planned_checkpoint] /\
  (0 < length (filter (for_table "camera_locations") [planned_checkpoint]))%nat /\
  w_d1 (@initializeCheckpoints (MkConfig "camera_locations" None 20 true)
          "camera_locations" 35 (Some 1) (Some 35) planned_world).1 = w_d1 planned_world.
Proof.
  assert (H1 : RESUME_MODE (MkConfig "camera_locations" None 20 true) = true) by reflexivity.
  assert (H2 : d1_checkpoints (w_d1 planned_world) = Some [planned_checkpoint]) by reflexivity.
  assert (H3 : (0 < length (filter (for_table "camera_locations") [planned_checkpoint]))%nat)
    by (vm_compute; lia).
  split; [exact H1|]. split; [exact H2|]. split; [exact H3|].
  exact (proj1 (resume_planning_is_noop _ "camera_locations" 35 (Some 1) (Some 35)
                  planned_world _ H1 H2 H3)).
Defined.

Section CheckpointFacts.
Context `{Platform}.

Lemma window_count_zero size start maxId :
  1 <= size -> maxId < start -> start <= maxId + 1 -> window_count size start maxId = 0%nat.
Proof.
  intros Hs Hlt Hle. unfold window_count.
  rewrite Z.div_small by lia. reflexivity.
Qed.

Lemma window_count_succ size start maxId :
  1 <= size -> start <= maxId ->
  window_count size start maxId
    = S (window_count size (Z.min (start + size - 1) maxId + 1) maxId).
Proof.
  intros Hs Hle. unfold window_count.
  destruct (Z.le_gt_cases (start + size - 1) maxId) as [Hfit|Hcut].
  - rewrite Z.min_l by lia.
    replace (maxId - start + size) with ((maxId - (start + size - 1 + 1) + size) + 1 * size) by lia.
    rewrite Z.div_add by lia.
    rewrite Z2Nat.inj_add; [|apply Z.div_pos; lia|lia].
    change (Z.to_nat 1) with 1%nat. lia.
  - rewrite Z.min_r by lia.
    replace (maxId - (maxId + 1) + size) with (size - 1) by lia.
    rewrite (Z.div_small (size - 1)) by lia.
    replace (maxId - start + size) with ((maxId - start) + 1 * size) by lia.
    rewrite Z.div_add by lia. rewrite Z.div_small by lia. reflexivity.
Qed.

Lemma double_exact z : - 2 ^ 53 <= z <= 2 ^ 53 -> double z = z.
Proof.
  intros Hz. unfold double.
  destruct (Z.abs z <=? 2 ^ 53) eqn:E; [reflexivity|].
  apply Z.leb_gt in E. lia.
Qed.

Lemma safe_integer_bounds z : safe_integer z -> - 2 ^ 53 <= z <= 2 ^ 53.
Proof. unfold safe_integer, MAX_SAFE_INTEGER. lia. Qed.

Lemma plan_loop_run size maxId : 1 <= size -> maxId + size <= 2 ^ 53 ->
  forall n fuel currentStart checkpoints w,
    - 2 ^ 53 <= currentStart ->
    currentStart <= maxId + 1 ->
    n = window_count size currentStart maxId ->
    (n <= fuel)%nat -> (n <= w_gas w)%nat ->
    exists w',
      plan_loop fuel size currentStart maxId checkpoints w
        = (w', Ret (checkpoints ++ (window size currentStart maxId <$> seq 0 n))) /\
      w_d1 w' = w_d1 w /\ w_faults w' = w_faults w /\ w_clock w' = w_clock w.
Proof.
  intros Hs Hsafe. induction n as [|n IH]; intros fuel cur acc w Hlow Hcur Hn Hfuel Hgas.
  - assert (maxId < cur).
    { destruct (Z.le_gt_cases cur maxId) as [Hle|]; [|lia].
      rewrite (window_count_succ _ _ _ Hs Hle) in Hn. discriminate. }
    exists w. destruct fuel; cbn [plan_loop];
      (destruct (cur <=? maxId) eqn:E; [apply Z.leb_le in E; lia|]);
      cbn; rewrite app_nil_r; repeat split.
  - assert (Hle : cur <= maxId).
    { destruct (Z.le_gt_cases cur maxId) as [|Hgt]; [assumption|].
      rewrite window_count_zero in Hn by lia. discriminate. }
    rewrite (window_count_succ _ _ _ Hs Hle) in Hn. injection Hn as Hn.
    destruct fuel as [|fuel]; [lia|]. cbn [plan_loop].
    apply Z.leb_le in Hle as Hleb. rewrite Hleb.
    unfold js_add, js_sub. rewrite (double_exact (cur + size)) by lia.
    rewrite (double_exact (cur + size - 1)) by lia.
    rewrite (double_exact (Z.min (cur + size - 1) maxId + 1)) by lia.
    unfold bind at 1. unfold tick at 1.
    destruct (w_gas w) as [|g] eqn:Eg; [lia|].
    match goal with |- context [plan_loop fuel size ?c maxId ?a ?w1] =>
      assert (Hl1 : - 2 ^ 53 <= c) by lia;
      assert (Hc1 : c <= maxId + 1) by lia;
      assert (Hfu : (n <= fuel)%nat) by lia;
      assert (Hg1 : (n <= w_gas w1)%nat) by (cbn; lia);
      destruct (IH fuel c a w1 Hl1 Hc1 Hn Hfu Hg1) as (w' & Erun & Hd & Hf & Hc)
    end.
    exists w'. cbn in Hd, Hf, Hc. refine (conj _ (conj Hd (conj Hf Hc))).
    rewrite Erun. f_equal. f_equal. rewrite <- app_assoc. f_equal.
    assert (Hw0 : window size cur maxId 0 = (cur, Z.min (cur + size - 1) maxId)).
    { unfold window. change (Z.of_nat 0) with 0.
      rewrite Z.mul_0_l, Z.add_0_r, Z.add_0_l, Z.mul_1_l. reflexivity. }
    assert (Hrest : window size (Z.min (cur + size - 1) maxId + 1) maxId <$> seq 0 n
                    = window size cur maxId <$> seq 1 n).
    { rewrite <- seq_shift, <- list_fmap_compose.
      destruct (Z.le_gt_cases (cur + size - 1) maxId) as [Hfit|Hcut].
      - rewrite Z.min_l by lia. apply list_fmap_ext. intros _ x _.
        unfold window, compose. rewrite Nat2Z.inj_succ.
        replace (cur + size - 1 + 1 + Z.of_nat x * size)
          with (cur + Z.succ (Z.of_nat x) * size) by lia.
        replace (cur + size - 1 + 1 + (Z.of_nat x + 1) * size)
          with (cur + (Z.succ (Z.of_nat x) + 1) * size) by lia.
        reflexivity.
      - assert (Hz : n = 0%nat).
        { rewrite Hn. apply window_count_zero; lia. }
        rewrite Hz. reflexivity. }
    cbn [seq fmap list_fmap app]. rewrite Hw0. f_equal. exact Hrest.
Qed.

Lemma ensureCheckpointsTableExists_healthy w :
  healthy w -> checkpoint_indexes_consistent (w_d1 w) ->
  exists w1, ensureCheckpointsTableExists w = (w1, Ret tt) /\
    healthy w1 /\ w_gas w1 = w_gas w /\
    d1_checkpoints (w_d1 w1) = Some (default [] (d1_checkpoints (w_d1 w))).
Proof.
  intros Hh Hix. unfold ensureCheckpointsTableExists, try_catch, bind.
  destruct (d1_checkpoints (w_d1 w)) as [cps|] eqn:Hcps.
  - destruct (executeD1SQL_healthy_ok (SelectProbe checkpoints_name) w (w_d1 w)
                [RowUnnamed (Z.of_nat (length cps))] Hh) as (w1 & E1 & Hh1 & Hd1 & _ & Hs1 & _).
    { cbn. rewrite Hcps. reflexivity. }
    rewrite E1. exists w1. unfold ret. split; [reflexivity|]. split; [exact Hh1|].
    split; [apply Hs1|]. rewrite Hd1, Hcps. reflexivity.
  - destruct (Hix Hcps) as [Hi1 Hi2].
    destruct (executeD1SQL_healthy_error (SelectProbe checkpoints_name) w
                (no_such_table checkpoints_name) Hh) as (w1 & E1 & Hh1 & Hd1 & Hs1).
    { cbn. rewrite Hcps. reflexivity. }
    rewrite E1.
    change (includes (message (MkError ("D1 API Error: " +:+ no_such_table checkpoints_name)))
              "no such table") with true. cbv iota.
    destruct (executeD1SQL_healthy_ok CreateCheckpointsTable w1
                (MkD1 (Some []) 0 (d1_tables (w_d1 w)) (d1_indexes (w_d1 w))
                   (d1_history (w_d1 w))) [] Hh1) as (w2 & E2 & Hh2 & Hd2 & _ & Hs2 & _).
    { cbn. rewrite Hd1, Hcps. reflexivity. }
    rewrite E2.
    destruct (executeD1SQL_healthy_ok
                (CreateIndex "idx_checkpoint_table_status" checkpoints_name) w2
                (MkD1 (Some []) 0 (d1_tables (w_d1 w))
                   ("idx_checkpoint_table_status" :: d1_indexes (w_d1 w))
                   (d1_history (w_d1 w))) [] Hh2) as (w3 & E3 & Hh3 & Hd3 & _ & Hs3 & _).
    { rewrite Hd2. cbn. rewrite bool_decide_eq_false_2 by exact Hi1. reflexivity. }
    rewrite E3.
    destruct (executeD1SQL_healthy_ok
                (CreateIndex "idx_checkpoint_table_range" checkpoints_name) w3
                (MkD1 (Some []) 0 (d1_tables (w_d1 w))
                   ("idx_checkpoint_table_range" :: "idx_checkpoint_table_status"
                      :: d1_indexes (w_d1 w))
                   (d1_history (w_d1 w))) [] Hh3) as (w4 & E4 & Hh4 & Hd4 & _ & Hs4 & _).
    { rewrite Hd3. cbn. rewrite bool_decide_eq_false_2; [reflexivity|].
      rewrite not_elem_of_cons. split; [discriminate|exact Hi2]. }
    rewrite E4. exists w4. unfold ret. split; [reflexivity|]. split; [exact Hh4|].
    split.
    + destruct Hs1 as (_&_&?), Hs2 as (_&_&?), Hs3 as (_&_&?), Hs4 as (_&_&?). congruence.
    + rewrite Hd4. reflexivity.
Qed.

Lemma create_checkpoints_healthy tableName : forall ranges w cps,
  healthy w -> d1_checkpoints (w_d1 w) = Some cps ->
  exists w' news,
    for_each (fun c => createCheckpoint tableName c.1 c.2) ranges w = (w', Ret tt) /\
    healthy w' /\
    d1_checkpoints (w_d1 w') = Some (cps ++ news) /\
    Forall2 (planned_row tableName) ranges news.
Proof.
  induction ranges as [|r ranges IH]; intros w cps Hh Hcps.
  - exists w, []. cbn. rewrite app_nil_r. repeat split; try assumption. constructor.
  - cbn [for_each]. unfold bind at 1. unfold createCheckpoint at 1. unfold bind at 1.
    destruct (executeD1SQL_healthy_ok (InsertCheckpoint tableName r.1 r.2) w
                (MkD1 (Some (cps ++ [MkCheckpoint (d1_seq (w_d1 w) + 1) tableName r.1 r.2 0
                                        pending None None None (w_clock w)]))
                   (d1_seq (w_d1 w) + 1) (d1_tables (w_d1 w)) (d1_indexes (w_d1 w))
                   (d1_history (w_d1 w))) [] Hh) as (w1 & E1 & Hh1 & Hd1 & _).
    { cbn. rewrite Hcps. reflexivity. }
    rewrite E1. unfold ret at 1.
    destruct (IH w1 _ Hh1 ltac:(rewrite Hd1; reflexivity)) as (w' & news & E & Hh' & Hd' & Hall).
    rewrite E. eexists w', (_ :: news). split; [reflexivity|]. split; [exact Hh'|].
    split; [rewrite Hd', <- app_assoc; reflexivity|].
    constructor; [|exact Hall]. repeat split.
Qed.

Lemma window_count_bounds size minId maxId :
  1 <= size -> minId <= maxId ->
  let n := Z.of_nat (window_count size minId maxId) in
  1 <= n /\ (n - 1) * size < maxId - minId + 1 <= n * size /\
  n = - ((- (maxId - minId + 1)) / size) /\ n <= maxId - minId + 1.
Proof.
  intros Hs Hm. cbv zeta. unfold window_count.
  assert (Hq : 0 <= (maxId - minId + size) / size) by (apply Z.div_pos; lia).
  rewrite Z2Nat.id by exact Hq.
  pose proof (Z.div_mod (maxId - minId + size) size ltac:(lia)) as Hdm.
  pose proof (Z.mod_pos_bound (maxId - minId + size) size ltac:(lia)) as Hb.
  set (q := (maxId - minId + size) / size) in *.
  set (r := (maxId - minId + size) mod size) in *.
  assert (H1 : 1 <= q) by nia.
  split; [exact H1|]. split; [nia|]. split; [|nia].
  symmetry. apply Z.opp_inj. rewrite Z.opp_involutive.
  symmetry. apply (Z.div_unique _ _ _ (size - 1 - r)); [lia|nia].
Qed.



Lemma filter_for_table_deleted tableName (l : list Checkpoint) :
  filter (for_table tableName) (filter (fun c => negb (for_table tableName c)) l) = [].
Proof.
  induction l as [|c l IH]; [reflexivity|].
  destruct (for_table tableName c) eqn:E.
  - rewrite filter_cons_False; [exact IH|]. rewrite E. cbn. tauto.
  - rewrite filter_cons_True by (rewrite E; exact I).
    rewrite filter_cons_False; [exact IH|]. rewrite E. cbn. tauto.
Qed.


Lemma cs_same_refl w : cs_same w w.
Proof. split; reflexivity. Qed.

Lemma cs_same_trans w1 w2 w3 : cs_same w1 w2 -> cs_same w2 w3 -> cs_same w1 w3.
Proof. unfold cs_same. intros [? ?] [? ?]. split; congruence. Qed.

Lemma cs_same_of_d1 w w' : w_d1 w' = w_d1 w -> cs_same w w'.
Proof. intros E. unfold cs_same. rewrite E. split; reflexivity. Qed.

Lemma preserves_ret {A} (R : World -> World -> Prop) (a : A) :
  (forall w, R w w) -> preserves R (ret a).
Proof. intros Hr w w' o E. unfold ret in E. injection E as <- _. apply Hr. Qed.

Lemma preserves_throw {A} (R : World -> World -> Prop) e :
  (forall w, R w w) -> preserves R (@throw A e).
Proof. intros Hr w w' o E. unfold throw in E. injection E as <- _. apply Hr. Qed.

Lemma preserves_bind {A B} (R : World -> World -> Prop) (m : M A) (k : A -> M B) :
  (forall w1 w2 w3, R w1 w2 -> R w2 w3 -> R w1 w3) ->
  preserves R m -> (forall a, preserves R (k a)) -> preserves R (bind m k).
Proof.
  intros Ht Hm Hk w w' o E. unfold bind in E.
  destruct (m w) as [w1 [a|e|]] eqn:E1.
  - eapply Ht; [eapply Hm; exact E1|eapply Hk; exact E].
  - injection E as <- _. eapply Hm; exact E1.
  - injection E as <- _. eapply Hm; exact E1.
Qed.

Lemma preserves_try_catch {A} (R : World -> World -> Prop) (m : M A) (h : JsError -> M A) :
  (forall w1 w2 w3, R w1 w2 -> R w2 w3 -> R w1 w3) ->
  preserves R m -> (forall e, preserves R (h e)) -> preserves R (try_catch m h).
Proof.
  intros Ht Hm Hh w w' o E. unfold try_catch in E.
  destruct (m w) as [w1 [a|e|]] eqn:E1.
  - injection E as <- _. eapply Hm; exact E1.
  - eapply Ht; [eapply Hm; exact E1|eapply Hh; exact E].
  - injection E as <- _. eapply Hm; exact E1.
Qed.

Lemma preserves_weaken {A} (R R' : World -> World -> Prop) (m : M A) :
  (forall w w', R w w' -> R' w w') -> preserves R m -> preserves R' m.
Proof. intros Hw Hm w w' o E. apply Hw. eapply Hm. exact E. Qed.

Lemma preserves_and {A} (R R' : World -> World -> Prop) (m : M A) :
  preserves R m -> preserves R' m -> preserves (fun w w' => R w w' /\ R' w w') m.
Proof. intros Hm Hm' w w' o E. split; [eapply Hm|eapply Hm']; exact E. Qed.

Lemma d1_same_trans w1 w2 w3 : d1_same w1 w2 -> d1_same w2 w3 -> d1_same w1 w3.
Proof. unfold d1_same. congruence. Qed.

Lemma preserves_tick : preserves d1_same tick.
Proof.
  intros w w' o E. unfold tick in E. destruct (w_gas w); injection E as <- _; reflexivity.
Qed.

Lemma preserves_sleep delay : preserves d1_same (sleep delay).
Proof. intros w w' o E. unfold sleep in E. injection E as <- _. reflexivity. Qed.

Lemma preserves_pg_call : preserves d1_same pg_call.
Proof.
  intros w w' o E. unfold pg_call in E.
  destruct (head (w_pg_faults w)) as [[msg|]|]; injection E as <- _; reflexivity.
Qed.

Lemma preserves_pg_query_range columns startId endId :
  preserves d1_same (pg_query_range columns startId endId).
Proof.
  apply preserves_bind; [exact d1_same_trans|exact preserves_pg_call|].
  intros _ w w' o E. injection E as <- _. reflexivity.
Qed.

Lemma preserves_lift {A} (m : Err A) : preserves d1_same (lift m).
Proof.
  destruct m; [apply preserves_ret|apply preserves_throw]; intros w; reflexivity.
Qed.

Lemma preserves_executeD1SQL_read sql :
  (forall now d, (d1_exec now d sql).1 = d) -> preserves d1_same (executeD1SQL sql).
Proof.
  intros Hro w w' o E.
  destruct (executeD1SQL_fixed _ _ _ _ E ltac:(intros now; apply Hro)) as (_ & Hd & _).
  exact Hd.
Qed.

(** What every execution of a statement keeps, a call of the gateway with
    it keeps. *)
Lemma preserves_executeD1SQL (R : D1 -> D1 -> Prop) sql :
  (forall x, R x x) -> (forall x y z, R x y -> R y z -> R x z) ->
  (forall now x, R x (d1_exec now x sql).1) ->
  preserves (fun w w' => R (w_d1 w) (w_d1 w')) (executeD1SQL sql).
Proof.
  intros Hrefl Htrans Hexec w w' o E.
  destruct (executeD1SQL_d1 _ _ _ _ E) as (_ & _ & j & d0 & Hre & _ & Ho).
  pose proof (retried_keeps R _ _ _ _ Hrefl Htrans Hexec Hre) as H0.
  destruct o as [r|e|]; [| |contradiction].
  - destruct Ho as (rows & now & _ & Hex). eapply Htrans; [exact H0|].
    replace (w_d1 w') with (d1_exec now d0 sql).1 by (rewrite Hex; reflexivity).
    apply Hexec.
  - rewrite Ho. exact H0.
Qed.

(** *** The schedule only shrinks *)
Lemma later_refl w : later w w.
Proof. exists 0%nat. reflexivity. Qed.

Lemma later_trans w1 w2 w3 : later w1 w2 -> later w2 w3 -> later w1 w3.
Proof.
  intros [k1 H1] [k2 H2]. exists (k1 + k2)%nat. rewrite H2, H1. apply drop_drop.
Qed.

Lemma later_of_faults w w' : w_faults w' = w_faults w -> later w w'.
Proof. intros E. exists 0%nat. rewrite E. reflexivity. Qed.

Lemma later_no_lost_answer w w' : later w w' -> no_lost_answer w -> no_lost_answer w'.
Proof. intros [k Hk]. apply (no_lost_answer_drop k). exact Hk. Qed.

Lemma later_tick : preserves later tick.
Proof.
  intros w w' o E. unfold tick in E.
  destruct (w_gas w); injection E as <- _; apply later_of_faults; reflexivity.
Qed.

Lemma later_sleep delay : preserves later (sleep delay).
Proof. intros w w' o E. unfold sleep in E. injection E as <- _. apply later_of_faults. reflexivity. Qed.

Lemma later_pg_call : preserves later pg_call.
Proof.
  intros w w' o E. unfold pg_call in E.
  destruct (head (w_pg_faults w)) as [[msg|]|]; injection E as <- _;
    apply later_of_faults; reflexivity.
Qed.

Lemma later_pg_query_range columns startId endId :
  preserves later (pg_query_range columns startId endId).
Proof.
  apply preserves_bind; [exact later_trans|exact later_pg_call|].
  intros _ w w' o E. injection E as <- _. apply later_refl.
Qed.

Lemma later_lift {A} (m : Err A) : preserves later (lift m).
Proof.
  destruct m; [apply preserves_ret|apply preserves_throw]; exact later_refl.
Qed.

Lemma later_executeD1SQL sql : preserves later (executeD1SQL sql).
Proof.
  intros w w' o E.
  destruct (executeD1SQL_spec _ _ _ _ E) as (k & _ & _ & _ & _ & Hf & _).
  exists k. exact Hf.
Qed.

Lemma later_executeBatchInsert tableName rows :
  preserves later (executeBatchInsert tableName rows).
Proof.
  unfold executeBatchInsert.
  destruct (String.eqb tableName "coordinate_speed_new");
    [|destruct (String.eqb tableName "camera_locations")].
  - apply preserves_bind; [exact later_trans|apply later_executeD1SQL|].
    intros _. apply preserves_ret. exact later_refl.
  - apply preserves_bind; [exact later_trans|apply later_executeD1SQL|].
    intros _. apply preserves_ret. exact later_refl.
  - apply preserves_ret. exact later_refl.
Qed.

Lemma later_batch_loop cfg rows batches : forall fuel i acc,
  preserves later (batch_loop fuel cfg rows batches i acc).
Proof.
  induction fuel as [|fuel IH]; intros i acc; cbn [batch_loop];
    destruct (lt_count i batches).
  - intros w w' o E. injection E as <- _. apply later_refl.
  - apply preserves_ret. exact later_refl.
  - apply preserves_bind; [exact later_trans|exact later_tick|intros _].
    apply preserves_bind; [exact later_trans|apply later_executeBatchInsert|intros _].
    apply preserves_bind; [exact later_trans| |intros _].
    { destruct ((i + 1) mod 100 =? 0).
      - apply preserves_try_catch; [exact later_trans|exact later_pg_call|intros _].
        apply preserves_ret. exact later_refl.
      - apply preserves_ret. exact later_refl. }
    apply preserves_bind; [exact later_trans| |intros _].
    { destruct (lt_count i (count_pred batches)).
      - apply later_sleep.
      - apply preserves_ret. exact later_refl. }
    apply IH.
  - apply preserves_ret. exact later_refl.
Qed.

Lemma later_updateCheckpointStatus id st rp err :
  preserves later (updateCheckpointStatus id st rp err).
Proof.
  unfold updateCheckpointStatus.
  apply preserves_bind; [exact later_trans| |intros now].
  { intros w w' o E. unfold now_iso in E. injection E as <- _. apply later_refl. }
  apply preserves_bind; [exact later_trans|apply later_executeD1SQL|intros _].
  apply preserves_ret. exact later_refl.
Qed.

Lemma later_fetch_and_insert cfg checkpoint :
  preserves later (fetch_and_insert cfg checkpoint).
Proof.
  unfold fetch_and_insert.
  apply preserves_bind; [exact later_trans| |intros _].
  { apply preserves_try_catch; [exact later_trans|exact later_pg_call|].
    intros _. exact later_pg_call. }
  apply preserves_bind; [exact later_trans|apply later_pg_query_range|intros rows].
  destruct (length rows =? 0)%nat; [apply preserves_ret; exact later_refl|].
  apply preserves_bind; [exact later_trans| |intros rs].
  { destruct (String.eqb (TABLE_NAME cfg) "camera_locations").
    - apply later_lift.
    - apply preserves_ret. exact later_refl. }
  apply preserves_bind; [exact later_trans| |intros n].
  { intros w w' o E. unfold insert_batches in E. eapply later_batch_loop. exact E. }
  apply preserves_ret. exact later_refl.
Qed.

(** An insert changes the destination tables only. *)
Lemma preserves_executeBatchInsert tableName rows :
  preserves cs_same (executeBatchInsert tableName rows).
Proof.
  assert (Hins : forall t n a ps, preserves cs_same (executeD1SQL (InsertRows t n a ps))).
  { intros t n a ps.
    apply (preserves_executeD1SQL
             (fun d d' => d1_checkpoints d' = d1_checkpoints d /\ d1_history d' = d1_history d)).
    - intros x. split; reflexivity.
    - intros x y z [? ?] [? ?]. split; congruence.
    - intros now x. cbn [d1_exec].
      repeat match goal with
             | |- context [if ?c then _ else _] => destruct c
             | |- context [match ?c with _ => _ end] => destruct c
             end; split; reflexivity. }
  unfold executeBatchInsert.
  destruct (String.eqb tableName "coordinate_speed_new");
    [|destruct (String.eqb tableName "camera_locations")].
  - apply preserves_bind; [exact cs_same_trans|apply Hins|].
    intros _. apply preserves_ret. exact cs_same_refl.
  - apply preserves_bind; [exact cs_same_trans|apply Hins|].
    intros _. apply preserves_ret. exact cs_same_refl.
  - apply preserves_ret. exact cs_same_refl.
Qed.

Lemma preserves_batch_loop cfg rows batches : forall fuel i acc,
  preserves cs_same (batch_loop fuel cfg rows batches i acc).
Proof.
  induction fuel as [|fuel IH]; intros i acc; cbn [batch_loop];
    destruct (lt_count i batches).
  - intros w w' o E. injection E as <- _. apply cs_same_refl.
  - apply preserves_ret. exact cs_same_refl.
  - apply preserves_bind; [exact cs_same_trans| |intros _].
    { eapply preserves_weaken; [exact cs_same_of_d1|exact preserves_tick]. }
    apply preserves_bind; [exact cs_same_trans|apply preserves_executeBatchInsert|intros _].
    apply preserves_bind; [exact cs_same_trans| |intros _].
    { destruct ((i + 1) mod 100 =? 0).
      - apply preserves_try_catch; [exact cs_same_trans| |intros _].
        + eapply preserves_weaken; [exact cs_same_of_d1|exact preserves_pg_call].
        + apply preserves_ret. exact cs_same_refl.
      - apply preserves_ret. exact cs_same_refl. }
    apply preserves_bind; [exact cs_same_trans| |intros _].
    { destruct (lt_count i (count_pred batches)).
      - eapply preserves_weaken; [exact cs_same_of_d1|apply preserves_sleep].
      - apply preserves_ret. exact cs_same_refl. }
    apply IH.
  - apply preserves_ret. exact cs_same_refl.
Qed.

Lemma preserves_insert_batches cfg rows : preserves cs_same (insert_batches cfg rows).
Proof.
  intros w w' o E. unfold insert_batches in E.
  eapply preserves_batch_loop. exact E.
Qed.

Lemma preserves_fetch_and_insert cfg checkpoint :
  preserves cs_same (fetch_and_insert cfg checkpoint).
Proof.
  unfold fetch_and_insert.
  apply preserves_bind; [exact cs_same_trans| |intros _].
  { eapply preserves_weaken; [exact cs_same_of_d1|].
    apply preserves_try_catch; [exact d1_same_trans|exact preserves_pg_call|].
    intros _. exact preserves_pg_call. }
  apply preserves_bind; [exact cs_same_trans| |intros rows].
  { eapply preserves_weaken; [exact cs_same_of_d1|apply preserves_pg_query_range]. }
  destruct (length rows =? 0)%nat; [apply preserves_ret; exact cs_same_refl|].
  apply preserves_bind; [exact cs_same_trans| |intros rs].
  { destruct (String.eqb (TABLE_NAME cfg) "camera_locations").
    - eapply preserves_weaken; [exact cs_same_of_d1|apply preserves_lift].
    - apply preserves_ret. exact cs_same_refl. }
  apply preserves_bind; [exact cs_same_trans|apply preserves_insert_batches|intros n].
  apply preserves_ret. exact cs_same_refl.
Qed.

Lemma processCheckpoint_try_split cfg checkpoint w :
  processCheckpoint_try cfg checkpoint w =
    bind (updateCheckpointStatus (cp_id checkpoint) in_progress 0 None) (fun _ =>
    bind (fetch_and_insert cfg checkpoint) (fun r =>
    bind (updateCheckpointStatus (cp_id checkpoint) completed r.1 None) (fun _ =>
    ret r.1))) w.
Proof.
  unfold processCheckpoint_try, fetch_and_insert, bind.
  destruct (updateCheckpointStatus (cp_id checkpoint) in_progress 0 None w) as [w1 [[]|e|]];
    try reflexivity.
  destruct (try_catch pg_call (fun _ => pg_call) w1) as [w2 [[]|e|]]; try reflexivity.
  destruct (pg_query_range _ _ _ w2) as [w3 [rows|e|]]; try reflexivity.
  destruct (length rows =? 0)%nat; [reflexivity|].
  destruct (if String.eqb (TABLE_NAME cfg) "camera_locations" then _ else _) as [w4 [rs|e|]];
    try reflexivity.
  destruct (insert_batches cfg rs w4) as [w5 [n|e|]]; reflexivity.
Qed.

(** *** Status writes and the rows they leave *)
Lemma elem_of_status_writes st id cps x :
  x ∈ status_writes st id cps ->
  exists r, r ∈ cps /\ cp_id r = id /\ x = (id, cp_status r, st).
Proof.
  unfold status_writes. intros Hx. apply list_elem_of_fmap in Hx as (r & -> & Hr).
  apply list_elem_of_filter in Hr as [Hhit Hr].
  apply Is_true_eq_true in Hhit. apply Z.eqb_eq in Hhit.
  exists r. rewrite Hhit. auto.
Qed.

Lemma elem_of_update_rows st rp err field now id cps r' :
  r' ∈ update_rows st rp err field now id cps ->
  exists r, r ∈ cps /\
    r' = if cp_id r =? id then update_row st rp err field now r else r.
Proof.
  unfold update_rows. intros Hx. apply list_elem_of_fmap in Hx as (r & -> & Hr). eauto.
Qed.

Lemma Forall2_same {A} (P : A -> A -> Prop) (l : list A) :
  (forall x, x ∈ l -> P x x) -> Forall2 P l l.
Proof.
  intros HP. induction l as [|x l IH]; constructor.
  - apply HP. left.
  - apply IH. intros y Hy. apply HP. right. exact Hy.
Qed.

Lemma Forall2_fmap_elem {A B} (g : A -> B) (P : A -> B -> Prop) (l : list A) :
  (forall x, x ∈ l -> P x (g x)) -> Forall2 P l (g <$> l).
Proof.
  intros HP. induction l as [|x l IH]; constructor.
  - apply HP. left.
  - apply IH. intros y Hy. apply HP. right. exact Hy.
Qed.

Lemma Forall2_update_rows st rp err field now id cps (P : Checkpoint -> Checkpoint -> Prop) :
  (forall r, r ∈ cps ->
     P r (if cp_id r =? id then update_row st rp err field now r else r)) ->
  Forall2 P cps (update_rows st rp err field now id cps).
Proof.
  intros HP. unfold update_rows. induction cps as [|r cps IH]; constructor.
  - apply HP. left.
  - apply IH. intros r0 Hr0. apply HP. right. exact Hr0.
Qed.

Lemma Forall2_update_rows2 st rp err field now st2 rp2 err2 field2 now2 id cps
    (P : Checkpoint -> Checkpoint -> Prop) :
  (forall r, r ∈ cps ->
     P r (if cp_id r =? id
          then update_row st2 rp2 err2 field2 now2 (update_row st rp err field now r)
          else r)) ->
  Forall2 P cps
    (update_rows st2 rp2 err2 field2 now2 id (update_rows st rp err field now id cps)).
Proof.
  intros HP. unfold update_rows. induction cps as [|r cps IH]; constructor.
  - specialize (HP r ltac:(left)). destruct (cp_id r =? id) eqn:E; cbn [cp_id update_row].
    + rewrite E. exact HP.
    + rewrite E. exact HP.
  - apply IH. intros r0 Hr0. apply HP. right. exact Hr0.
Qed.

(** The row [r] after the UPDATEs [xs] have hit it. *)
Lemma write_row_id x r : cp_id (write_row x r) = cp_id r.
Proof. reflexivity. Qed.

Lemma written_fixed xs : forall r,
  let r' := foldl (fun r x => write_row x r) r xs in
  cp_id r' = cp_id r /\ cp_table_name r' = cp_table_name r /\
  cp_start_id r' = cp_start_id r /\ cp_end_id r' = cp_end_id r.
Proof.
  induction xs as [|x xs IH]; intros r; cbn [foldl]; [repeat split|].
  destruct (IH (write_row x r)) as (H1 & H2 & H3 & H4). cbv zeta.
  rewrite H1, H2, H3, H4. repeat split.
Qed.

Lemma written_last xs x r :
  last xs = Some x ->
  let r' := foldl (fun r x => write_row x r) r xs in
  cp_status r' = sw_status x /\ cp_records_processed r' = sw_records x /\
  cp_error_message r' = sw_error x.
Proof.
  destruct xs as [|y xs] using rev_ind; [discriminate|].
  rewrite last_snoc. intros [= ->]. cbv zeta. rewrite foldl_snoc. repeat split.
Qed.

Lemma rows_after_fmap id xs : forall cps,
  rows_after id xs cps
    = (fun r => if cp_id r =? id then foldl (fun r x => write_row x r) r xs else r) <$> cps.
Proof.
  unfold rows_after. induction xs as [|x xs IH]; intros cps; cbn [foldl].
  - symmetry. etransitivity; [|apply list_fmap_id]. apply list_fmap_ext.
    intros _ r _. destruct (cp_id r =? id); reflexivity.
  - rewrite IH. unfold write_rows, update_rows. rewrite <- list_fmap_compose.
    apply list_fmap_ext. intros _ r _. unfold compose. fold (write_row x r).
    destruct (cp_id r =? id) eqn:E; [|rewrite E; reflexivity].
    rewrite write_row_id, E. reflexivity.
Qed.

Lemma rows_after_app id xs ys cps :
  rows_after id (xs ++ ys) cps = rows_after id ys (rows_after id xs cps).
Proof. unfold rows_after. apply foldl_app. Qed.

Lemma rows_after_empty id xs : rows_after id xs [] = [].
Proof. rewrite rows_after_fmap. reflexivity. Qed.

Lemma writes_of_app id xs : forall ys cps,
  writes_of id (xs ++ ys) cps = writes_of id xs cps ++ writes_of id ys (rows_after id xs cps).
Proof.
  induction xs as [|x xs IH]; intros ys cps; [reflexivity|].
  cbn [app writes_of]. rewrite IH, <- app_assoc. reflexivity.
Qed.

Lemma writes_of_empty id xs : writes_of id xs [] = [].
Proof. induction xs as [|x xs IH]; [reflexivity|]. cbn. exact IH. Qed.

Lemma rows_after_Forall2 id xs cps (P : Checkpoint -> Checkpoint -> Prop) :
  (forall r, r ∈ cps ->
     P r (if cp_id r =? id then foldl (fun r x => write_row x r) r xs else r)) ->
  Forall2 P cps (rows_after id xs cps).
Proof. intros HP. rewrite rows_after_fmap. apply Forall2_fmap_elem. exact HP. Qed.

(** Every status write of the UPDATEs [xs] is a step of the status sequence
    of a row they hit. *)
Lemma writes_of_chain (P : Status -> Status -> bool) id xs : forall cps,
  (forall r, r ∈ cps -> cp_id r = id -> chain P (cp_status r) (sw_status <$> xs) = true) ->
  Forall (fun e => P e.1.2 e.2 = true) (writes_of id xs cps).
Proof.
  induction xs as [|x xs IH]; intros cps Hch; [constructor|].
  cbn [writes_of]. apply Forall_app. split.
  - apply Forall_forall. intros e He.
    apply elem_of_status_writes in He as (r & Hr & Hid & ->). cbn.
    specialize (Hch r Hr Hid). cbn in Hch. apply andb_true_iff in Hch. tauto.
  - apply IH. intros r' Hr' Hid'.
    apply elem_of_update_rows in Hr' as (r & Hr & ->).
    destruct (cp_id r =? id) eqn:E.
    + apply Z.eqb_eq in E. specialize (Hch r Hr E). cbn in Hch.
      apply andb_true_iff in Hch. cbn. tauto.
    + apply Z.eqb_neq in E. contradiction.
Qed.

Lemma chain_failed j : chain possible_write failed (replicate j failed) = true.
Proof. induction j as [|j IH]; [reflexivity|]. cbn. exact IH. Qed.

Lemma chain_completed j2 j3 :
  chain possible_write completed (replicate j2 completed ++ replicate j3 failed) = true.
Proof.
  induction j2 as [|j2 IH]; [|cbn; exact IH].
  destruct j3 as [|j3]; [reflexivity|]. cbn. apply chain_failed.
Qed.

Lemma chain_in_progress j1 j2 j3 :
  chain possible_write in_progress
    (replicate j1 in_progress ++ replicate j2 completed ++ replicate j3 failed) = true.
Proof.
  induction j1 as [|j1 IH]; [|cbn; exact IH].
  destruct j2 as [|j2]; [|cbn; apply chain_completed].
  destruct j3 as [|j3]; [reflexivity|]. cbn. apply chain_failed.
Qed.

Lemma shape_statuses j1 j2 j3 n msg t1 t2 t3 :
  sw_status <$> writes_shape j1 j2 j3 n msg t1 t2 t3
    = replicate j1 in_progress ++ replicate j2 completed ++ replicate j3 failed.
Proof. unfold writes_shape. rewrite !fmap_app, !fmap_replicate. reflexivity. Qed.

(** With lost answers: the steps of an eligible row are possible writes. *)
Lemma chain_shape_possible s j1 j2 j3 n msg t1 t2 t3 :
  s = pending \/ s = failed -> ((1 <= j2)%nat -> (1 <= j1)%nat) ->
  chain possible_write s (sw_status <$> writes_shape j1 j2 j3 n msg t1 t2 t3) = true.
Proof.
  intros Hs Hj. rewrite shape_statuses.
  destruct j1 as [|j1].
  - destruct j2 as [|j2]; [|lia]. destruct j3 as [|j3]; [reflexivity|].
    cbn [replicate app chain]. rewrite chain_failed. destruct Hs as [-> | ->]; reflexivity.
  - cbn [replicate app chain]. rewrite chain_in_progress.
    destruct Hs as [-> | ->]; reflexivity.
Qed.

(** Without: they are observed writes. *)
Lemma chain_shape_observed s j1 j2 j3 n msg t1 t2 t3 :
  s = pending \/ s = failed ->
  (j1 <= 1)%nat -> (j2 <= 1)%nat -> (j3 <= 1)%nat ->
  (j2 = 1%nat -> j1 = 1%nat /\ j3 = 0%nat) ->
  chain observed_write s (sw_status <$> writes_shape j1 j2 j3 n msg t1 t2 t3) = true.
Proof.
  intros Hs H1 H2 H3 H23. rewrite shape_statuses.
  destruct j1 as [|[|j1]]; [| |lia]; (destruct j2 as [|[|j2]]; [| |lia]);
    (destruct j3 as [|[|j3]]; [| |lia]); try (destruct (H23 eq_refl); discriminate);
    destruct Hs as [-> | ->]; reflexivity.
Qed.

(** *** One status write through the gateway *)
Lemma wrote_db_nil id d d' :
  wrote_db id [] d d' <->
  d1_checkpoints d' = d1_checkpoints d /\ d1_history d' = d1_history d.
Proof.
  unfold wrote_db, rows_after. cbn [foldl writes_of]. rewrite app_nil_r.
  destruct (d1_checkpoints d); cbn; tauto.
Qed.

Lemma wrote_db_app id xs ys d1 d2 d3 :
  wrote_db id xs d1 d2 -> wrote_db id ys d2 d3 -> wrote_db id (xs ++ ys) d1 d3.
Proof.
  unfold wrote_db. intros [Hc1 Hh1] [Hc2 Hh2]. split.
  - rewrite Hc2, Hc1. destruct (d1_checkpoints d1) as [cps|]; cbn; [|reflexivity].
    rewrite rows_after_app. reflexivity.
  - rewrite Hh2, Hh1, Hc1, writes_of_app, <- app_assoc.
    destruct (d1_checkpoints d1) as [cps|]; cbn; [reflexivity|].
    rewrite rows_after_empty. reflexivity.
Qed.

Lemma wrote_nil id w w' : wrote id [] w w' <-> cs_same w w'.
Proof. apply wrote_db_nil. Qed.

Lemma wrote_app id xs ys w1 w2 w3 :
  wrote id xs w1 w2 -> wrote id ys w2 w3 -> wrote id (xs ++ ys) w1 w3.
Proof. apply wrote_db_app. Qed.

Lemma wrote_cs_r id xs w1 w2 w3 : wrote id xs w1 w2 -> cs_same w2 w3 -> wrote id xs w1 w3.
Proof.
  intros H1 H2. rewrite <- (app_nil_r xs). eapply wrote_app; [exact H1|].
  apply wrote_nil. exact H2.
Qed.

Lemma d1_exec_write now d id x :
  wrote_db id [x] d (d1_exec now d (write_sql id x)).1 /\
  d1_tables (d1_exec now d (write_sql id x)).1 = d1_tables d.
Proof.
  unfold wrote_db, write_sql, rows_after. cbn [d1_exec foldl writes_of].
  destruct (d1_checkpoints d) as [cps|] eqn:Hc; cbn; rewrite ?Hc, ?app_nil_r; auto.
Qed.

Lemma retried_write id x d j d0 :
  retried (write_sql id x) d j d0 ->
  wrote_db id (replicate j x) d d0 /\ d1_tables d0 = d1_tables d.
Proof.
  induction 1 as [|j now d' _ [IHw IHt]].
  - split; [apply wrote_db_nil; auto|reflexivity].
  - destruct (d1_exec_write now d' id x) as [Hw Ht].
    rewrite replicate_S_end. split; [eapply wrote_db_app; eassumption|congruence].
Qed.

(** [updateCheckpointStatus]: the UPDATE is executed [j] times, at least
    once when the call returns; when no answer is lost, once when it returns
    and not at all when it throws. *)
Lemma updateCheckpointStatus_wrote id st rp err w w' o :
  updateCheckpointStatus id st rp err w = (w', o) ->
  same_source w w' /\ d1_tables (w_d1 w') = d1_tables (w_d1 w) /\
  exists j : nat,
    wrote id (replicate j (MkStatusWrite st rp err (iso_string (w_clock w)))) w w' /\
    match o with
    | Ret _ => (1 <= j)%nat /\ (no_lost_answer w -> j = 1%nat)
    | Throw _ => no_lost_answer w -> j = 0%nat
    | Diverge => False
    end.
Proof.
  unfold updateCheckpointStatus, bind, now_iso. intros E.
  set (x := MkStatusWrite st rp err (iso_string (w_clock w))).
  change (UpdateCheckpoint st rp err _ (iso_string (w_clock w)) id) with (write_sql id x) in E.
  destruct (executeD1SQL (write_sql id x) w) as [w1 o1] eqn:E1.
  destruct (executeD1SQL_d1 _ _ _ _ E1) as (Hs & _ & j & d0 & Hre & Hj & Ho).
  apply retried_write in Hre as [Hw0 Ht0].
  destruct o1 as [r|e|]; [| |contradiction].
  - unfold ret in E. injection E as <- <-. split; [exact Hs|].
    destruct Ho as (rows & now & _ & Hex).
    destruct (d1_exec_write now d0 id x) as [Hw1 Ht1]. rewrite Hex in Hw1, Ht1.
    cbn [fst] in Hw1, Ht1. split; [congruence|].
    exists (S j). split.
    + rewrite replicate_S_end. eapply wrote_db_app; eassumption.
    + split; [lia|]. intros Hnl. rewrite (Hj Hnl). reflexivity.
  - injection E as <- <-. split; [exact Hs|]. subst d0. split; [exact Ht0|].
    exists j. split; [exact Hw0|exact Hj].
Qed.

(** *** The status writes of one checkpoint *)
Lemma processCheckpoint_try_shape cfg checkpoint w w' o :
  processCheckpoint_try cfg checkpoint w = (w', o) ->
  exists (j1 j2 : nat) n t1 t2,
    wrote (cp_id checkpoint)
      (replicate j1 (claiming t1) ++ replicate j2 (completing n t2)) w w' /\
    ((1 <= j2)%nat -> (1 <= j1)%nat) /\
    match o with
    | Ret k => k = n /\ (1 <= j1)%nat /\ (1 <= j2)%nat
    | Throw e => True
    | Diverge => (1 <= j1)%nat /\ j2 = 0%nat
    end /\
    (no_lost_answer w ->
     (j1 <= 1)%nat /\ (j2 <= 1)%nat /\ (j2 = 1%nat -> exists k, o = Ret k)).
Proof.
  rewrite processCheckpoint_try_split. unfold bind at 1. intros E.
  destruct (updateCheckpointStatus (cp_id checkpoint) in_progress 0 None w)
    as [wa oa] eqn:Ea.
  pose proof (later_updateCheckpointStatus _ _ _ _ _ _ _ Ea) as Hla.
  destruct (updateCheckpointStatus_wrote _ _ _ _ _ _ _ Ea) as (_ & _ & j1 & Hw1 & Ho1).
  fold (claiming (iso_string (w_clock w))) in Hw1.
  destruct oa as [[]|e|]; [| |contradiction].
  2:{ injection E as <- <-. exists j1, 0%nat, 0, (iso_string (w_clock w)), EmptyString.
      cbn [replicate]. rewrite app_nil_r. split; [exact Hw1|]. split; [lia|].
      split; [exact I|]. intros Hnl. rewrite (Ho1 Hnl).
      split; [lia|]. split; [lia|discriminate]. }
  destruct Ho1 as [Hj1 Hc1].
  unfold bind at 1 in E.
  destruct (fetch_and_insert cfg checkpoint wa) as [wb ob] eqn:Eb.
  pose proof (preserves_fetch_and_insert _ _ _ _ _ Eb) as Hcs.
  pose proof (later_fetch_and_insert _ _ _ _ _ Eb) as Hlb.
  assert (Hstop : forall o0 : Outcome Z, (forall k, o0 <> Ret k) ->
            match o0 with Ret _ => False | Throw _ => True | Diverge => True end ->
            exists (j1 j2 : nat) n t1 t2,
              wrote (cp_id checkpoint)
                (replicate j1 (claiming t1) ++ replicate j2 (completing n t2)) w wb /\
              ((1 <= j2)%nat -> (1 <= j1)%nat) /\
              match o0 with
              | Ret k => k = n /\ (1 <= j1)%nat /\ (1 <= j2)%nat
              | Throw e => True
              | Diverge => (1 <= j1)%nat /\ j2 = 0%nat
              end /\
              (no_lost_answer w ->
               (j1 <= 1)%nat /\ (j2 <= 1)%nat /\ (j2 = 1%nat -> exists k, o0 = Ret k))).
  { intros o0 Hno Hcase. exists j1, 0%nat, 0, (iso_string (w_clock w)), EmptyString.
    cbn [replicate]. rewrite app_nil_r.
    split; [eapply wrote_cs_r; eassumption|]. split; [lia|].
    split; [destruct o0; [contradiction|exact I|split; [exact Hj1|reflexivity]]|].
    intros Hnl. rewrite (Hc1 Hnl). split; [lia|]. split; [lia|discriminate]. }
  destruct ob as [[n empty]|e|].
  2:{ injection E as <- <-. apply (Hstop (Throw e)); [discriminate|exact I]. }
  2:{ injection E as <- <-. apply (Hstop Diverge); [discriminate|exact I]. }
  unfold bind at 1 in E. cbn [fst] in E.
  destruct (updateCheckpointStatus (cp_id checkpoint) completed n None wb)
    as [wc oc] eqn:Ec.
  destruct (updateCheckpointStatus_wrote _ _ _ _ _ _ _ Ec) as (_ & _ & j2 & Hw2 & Ho2).
  fold (completing n (iso_string (w_clock wb))) in Hw2.
  assert (Hnlb : no_lost_answer w -> no_lost_answer wb).
  { intros Hnl. eapply later_no_lost_answer; [exact Hlb|].
    eapply later_no_lost_answer; [exact Hla|exact Hnl]. }
  assert (Hw : wrote (cp_id checkpoint)
                 (replicate j1 (claiming (iso_string (w_clock w)))
                  ++ replicate j2 (completing n (iso_string (w_clock wb)))) w wc).
  { eapply wrote_app; [eapply wrote_cs_r; eassumption|exact Hw2]. }
  exists j1, j2, n, (iso_string (w_clock w)), (iso_string (w_clock wb)).
  destruct oc as [[]|e|]; [| |contradiction].
  - unfold ret in E. injection E as <- <-. destruct Ho2 as [Hj2 Hc2].
    split; [exact Hw|]. split; [lia|].
    split; [split; [reflexivity|split; assumption]|].
    intros Hnl. rewrite (Hc1 Hnl), (Hc2 (Hnlb Hnl)). split; [lia|]. split; [lia|eauto].
  - injection E as <- <-. split; [exact Hw|]. split; [lia|]. split; [exact I|].
    intros Hnl. rewrite (Hc1 Hnl), (Ho2 (Hnlb Hnl)). split; [lia|]. split; [lia|discriminate].
Qed.

Lemma later_processCheckpoint_try cfg checkpoint :
  preserves later (processCheckpoint_try cfg checkpoint).
Proof.
  intros w w' o E. rewrite processCheckpoint_try_split in E. revert w w' o E.
  apply preserves_bind; [exact later_trans|apply later_updateCheckpointStatus|intros _].
  apply preserves_bind; [exact later_trans|apply later_fetch_and_insert|intros r].
  apply preserves_bind; [exact later_trans|apply later_updateCheckpointStatus|intros _].
  apply preserves_ret. exact later_refl.
Qed.

Lemma later_processCheckpoint cfg checkpoint :
  preserves later (processCheckpoint cfg checkpoint).
Proof.
  unfold processCheckpoint.
  apply preserves_try_catch; [exact later_trans|apply later_processCheckpoint_try|intros e].
  unfold processCheckpoint_catch.
  apply preserves_bind; [exact later_trans|apply later_updateCheckpointStatus|intros _].
  apply preserves_throw. exact later_refl.
Qed.

Lemma processCheckpoint_shape cfg checkpoint w w' o :
  processCheckpoint cfg checkpoint w = (w', o) ->
  exists (j1 j2 j3 : nat) n msg t1 t2 t3,
    wrote (cp_id checkpoint) (writes_shape j1 j2 j3 n msg t1 t2 t3) w w' /\
    ((1 <= j2)%nat -> (1 <= j1)%nat) /\
    match o with
    | Ret k => k = n /\ (1 <= j1)%nat /\ (1 <= j2)%nat /\ j3 = 0%nat
    | Throw e => True
    | Diverge => (1 <= j1)%nat /\ j2 = 0%nat /\ j3 = 0%nat
    end /\
    (no_lost_answer w ->
     (j1 <= 1)%nat /\ (j2 <= 1)%nat /\ (j3 <= 1)%nat /\
     (j2 = 1%nat -> j1 = 1%nat /\ j3 = 0%nat /\ exists k, o = Ret k) /\
     (j3 = 1%nat -> exists e, o = Throw e /\ msg = message e)).
Proof.
  unfold processCheckpoint, try_catch. intros E.
  destruct (processCheckpoint_try cfg checkpoint w) as [w1 o1] eqn:E1.
  pose proof (later_processCheckpoint_try _ _ _ _ _ E1) as Hl1.
  destruct (processCheckpoint_try_shape _ _ _ _ _ E1)
    as (j1 & j2 & n & t1 & t2 & Hw & Hj & Ho & Hc).
  unfold writes_shape.
  destruct o1 as [k|e|].
  - injection E as <- <-. destruct Ho as (-> & Hj1 & Hj2).
    exists j1, j2, 0%nat, n, EmptyString, t1, t2, EmptyString.
    cbn [replicate]. rewrite app_nil_r.
    split; [exact Hw|]. split; [exact Hj|]. split; [repeat split; assumption|].
    intros Hnl. destruct (Hc Hnl) as (H1 & H2 & H3).
    split; [exact H1|]. split; [exact H2|]. split; [lia|].
    split; [|discriminate]. intros ?. split; [lia|]. split; [reflexivity|eauto].
  - unfold processCheckpoint_catch, bind in E.
    destruct (updateCheckpointStatus (cp_id checkpoint) failed 0 (Some (message e)) w1)
      as [w2 o2] eqn:E2.
    destruct (updateCheckpointStatus_wrote _ _ _ _ _ _ _ E2) as (_ & _ & j3 & Hw3 & Ho3).
    fold (failing (message e) (iso_string (w_clock w1))) in Hw3.
    exists j1, j2, j3, n, (message e), t1, t2, (iso_string (w_clock w1)).
    assert (Hnl1 : no_lost_answer w -> no_lost_answer w1)
      by (apply later_no_lost_answer; exact Hl1).
    assert (Hw13 : wrote (cp_id checkpoint)
              (replicate j1 (claiming t1) ++ replicate j2 (completing n t2)
               ++ replicate j3 (failing (message e) (iso_string (w_clock w1)))) w w2).
    { rewrite app_assoc. eapply wrote_app; eassumption. }
    destruct o2 as [[]|e2|]; [| |contradiction].
    + unfold throw in E. injection E as <- <-.
      split; [exact Hw13|]. split; [exact Hj|]. split; [exact I|].
      intros Hnl. destruct (Hc Hnl) as (H1 & H2 & H3). destruct Ho3 as [_ Hj3].
      rewrite (Hj3 (Hnl1 Hnl)). split; [exact H1|]. split; [exact H2|]. split; [lia|].
      split; [intros H21; destruct (H3 H21); discriminate|eauto].
    + injection E as <- <-.
      split; [exact Hw13|]. split; [exact Hj|]. split; [exact I|].
      intros Hnl. destruct (Hc Hnl) as (H1 & H2 & H3).
      rewrite (Ho3 (Hnl1 Hnl)). split; [exact H1|]. split; [exact H2|]. split; [lia|].
      split; [intros H21; destruct (H3 H21); discriminate|discriminate].
  - injection E as <- <-. destruct Ho as (Hj1 & ->).
    exists j1, 0%nat, 0%nat, n, EmptyString, t1, t2, EmptyString.
    cbn [replicate] in *. rewrite app_nil_r in *.
    split; [exact Hw|]. split; [lia|]. split; [repeat split; assumption|].
    intros Hnl. destruct (Hc Hnl) as (H1 & _ & _).
    split; [exact H1|]. split; [lia|]. split; [lia|]. split; discriminate.
Qed.

Lemma last_replicate {A} n (x : A) :
  last (replicate n x) = match n with O => None | S _ => Some x end.
Proof. destruct n; [reflexivity|]. rewrite replicate_S_end. apply last_snoc. Qed.

Lemma shape_last j1 j2 j3 n msg t1 t2 t3 :
  last (writes_shape j1 j2 j3 n msg t1 t2 t3)
    = match j3, j2, j1 with
      | S _, _, _ => Some (failing msg t3)
      | O, S _, _ => Some (completing n t2)
      | O, O, S _ => Some (claiming t1)
      | O, O, O => None
      end.
Proof.
  unfold writes_shape. rewrite !last_app, !last_replicate.
  destruct j3, j2, j1; reflexivity.
Qed.

Lemma processCheckpoint_effect cfg checkpoint w w' o cps :
  processCheckpoint cfg checkpoint w = (w', o) ->
  d1_checkpoints (w_d1 w) = Some cps ->
  exists cps' new,
    d1_checkpoints (w_d1 w') = Some cps' /\
    d1_history (w_d1 w') = d1_history (w_d1 w) ++ new /\
    Forall2 (row_effect (cp_id checkpoint) o) cps cps' /\
    ((forall r, r ∈ cps -> cp_id r = cp_id checkpoint -> is_eligible r = true) ->
     Forall (fun x => possible_write x.1.2 x.2 = true) new /\
     (no_lost_answer w -> Forall (fun x => observed_write x.1.2 x.2 = true) new)) /\
    (no_lost_answer w -> forall e, o = Throw e ->
     Forall2 (row_effect_answered (cp_id checkpoint) e) cps cps').
Proof.
  intros E Hcps.
  destruct (processCheckpoint_shape _ _ _ _ _ E)
    as (j1 & j2 & j3 & n & msg & t1 & t2 & t3 & [Hc Hh] & Hj & Ho & Hnl).
  rewrite Hcps in Hc, Hh. cbn in Hc, Hh.
  set (xs := writes_shape j1 j2 j3 n msg t1 t2 t3) in *.
  pose proof (shape_last j1 j2 j3 n msg t1 t2 t3) as Hlast. fold xs in Hlast.
  exists (rows_after (cp_id checkpoint) xs cps), (writes_of (cp_id checkpoint) xs cps).
  split; [exact Hc|]. split; [exact Hh|]. split; [|split].
  - apply rows_after_Forall2. intros r _.
    destruct (cp_id r =? cp_id checkpoint) eqn:Ehit;
      [apply Z.eqb_eq in Ehit|apply Z.eqb_neq in Ehit].
    2:{ unfold row_effect. repeat split; try reflexivity; tauto. }
    destruct (written_fixed xs r) as (H1 & H2 & H3 & H4). cbv zeta in H1, H2, H3, H4.
    unfold row_effect. rewrite H1, H2, H3, H4.
    split; [reflexivity|]. split; [reflexivity|]. split; [reflexivity|].
    split; [reflexivity|]. split; [tauto|]. intros _.
    destruct o as [k|e|].
    + destruct Ho as (-> & Hj1 & Hj2 & ->). destruct j2 as [|j2]; [lia|].
      destruct (written_last xs _ r Hlast) as (Hs & Hr & He). auto.
    + destruct j3 as [|j3]; [destruct j2 as [|j2]; [destruct j1 as [|j1]|]|].
      * left. subst xs. reflexivity.
      * destruct (written_last xs _ r Hlast) as (Hs & Hr & He). auto.
      * destruct (written_last xs _ r Hlast) as (Hs & Hr & He). auto.
      * destruct (written_last xs _ r Hlast) as (Hs & Hr & He). auto.
    + destruct Ho as (Hj1 & -> & ->). destruct j1 as [|j1]; [lia|].
      destruct (written_last xs _ r Hlast) as (Hs & Hr & He). auto.
  - intros Helig.
    assert (Hst : forall r, r ∈ cps -> cp_id r = cp_id checkpoint ->
              cp_status r = pending \/ cp_status r = failed).
    { intros r Hr Hid. specialize (Helig r Hr Hid). unfold is_eligible in Helig.
      destruct (cp_status r); try discriminate; auto. }
    split.
    + apply writes_of_chain. intros r Hr Hid.
      apply chain_shape_possible; [apply Hst; assumption|exact Hj].
    + intros Hn. destruct (Hnl Hn) as (H1 & H2 & H3 & H21 & _).
      apply writes_of_chain. intros r Hr Hid.
      apply chain_shape_observed; try assumption; [apply Hst; assumption|].
      intros Hj2. destruct (H21 Hj2) as (? & ? & _). auto.
  - intros Hn e ->. destruct (Hnl Hn) as (H1 & H2 & H3 & H21 & H31).
    assert (j2 = 0%nat).
    { destruct j2 as [|[|j2]]; [reflexivity| |lia].
      destruct (H21 eq_refl) as (_ & _ & k & Hk). discriminate. }
    subst j2.
    apply rows_after_Forall2. intros r _ Hid.
    apply Z.eqb_eq in Hid as Hhit. rewrite Hhit.
    destruct j3 as [|[|j3]]; [destruct j1 as [|j1]| |lia].
    + left. subst xs. reflexivity.
    + destruct (written_last xs _ r Hlast) as (Hs & Hr & He). auto.
    + destruct (H31 eq_refl) as (e' & [= <-] & ->).
      destruct (written_last xs _ r Hlast) as (Hs & Hr & He). auto.
Qed.

(** *** Rows inserted while a checkpoint is processed *)
Lemma bind_ret_inv {A B} (m : M A) (k : A -> M B) w w' b :
  bind m k w = (w', Ret b) ->
  exists w1 a, m w = (w1, Ret a) /\ k a w1 = (w', Ret b).
Proof.
  unfold bind. destruct (m w) as [w1 [a|e|]]; intros E; [eauto|discriminate|discriminate].
Qed.

Lemma length_chunk tuples arity params : length (chunk tuples arity params) = tuples.
Proof.
  revert params. induction tuples as [|n IH]; intros params; [reflexivity|].
  cbn [chunk length]. rewrite IH. reflexivity.
Qed.

(** Executing an INSERT never takes a row away. *)
Lemma d1_exec_insert_grows now d t n a ps (table : string) :
  (length (default [] (d1_tables d !! table))
   <= length (default [] (d1_tables (d1_exec now d (InsertRows t n a ps)).1 !! table)))%nat.
Proof.
  cbn [d1_exec].
  destruct (n =? 0)%nat; [reflexivity|].
  destruct (D1_MAX_PARAMS <? length ps)%nat; [reflexivity|].
  destruct (d1_tables d !! t) as [old|] eqn:Eold; [|reflexivity]. cbn.
  destruct (decide (t = table)) as [->|Hne].
  - rewrite lookup_insert_eq, Eold. cbn. rewrite length_app. lia.
  - rewrite lookup_insert_ne by exact Hne. reflexivity.
Qed.

Lemma executeBatchInsert_ret_rows tableName rows w w' :
  supported tableName = true ->
  executeBatchInsert tableName rows w = (w', Ret tt) ->
  dest_rows tableName w + Z.of_nat (length rows) <= dest_rows tableName w' /\
  (no_lost_answer w ->
   dest_rows tableName w' = dest_rows tableName w + Z.of_nat (length rows)).
Proof.
  assert (Hins : forall a cols,
    bind (executeD1SQL (InsertRows tableName (length rows) a (flat_params cols rows)))
      (fun _ => ret tt) w = (w', Ret tt) ->
    dest_rows tableName w + Z.of_nat (length rows) <= dest_rows tableName w' /\
    (no_lost_answer w ->
     dest_rows tableName w' = dest_rows tableName w + Z.of_nat (length rows))).
  { intros a cols E. apply bind_ret_inv in E as (w1 & r & E1 & E2).
    assert (w1 = w') by (unfold ret in E2; congruence). subst w1.
    destruct (executeD1SQL_d1 _ _ _ _ E1) as (_ & _ & j & d0 & Hre & Hj & rs & now & _ & Hex).
    assert (Hmono : (length (default [] (d1_tables (w_d1 w) !! tableName))
                     <= length (default [] (d1_tables d0 !! tableName)))%nat).
    { refine (retried_keeps
               (fun d d' => (length (default [] (d1_tables d !! tableName))
                             <= length (default [] (d1_tables d' !! tableName)))%nat)
               _ _ _ _ _ _ _ Hre); cbv beta.
      - intros x. lia.
      - intros x y z ? ?. lia.
      - intros now0 x. apply d1_exec_insert_grows. }
    assert (Hlast : length (default [] (d1_tables (w_d1 w') !! tableName))
                    = (length (default [] (d1_tables d0 !! tableName)) + length rows)%nat).
    { cbn [d1_exec] in Hex.
      destruct (length rows =? 0)%nat; [discriminate|].
      destruct (D1_MAX_PARAMS <? length (flat_params cols rows))%nat; [discriminate|].
      destruct (d1_tables d0 !! tableName) as [old|] eqn:Eold; [|discriminate].
      injection Hex as Hd _. rewrite <- Hd. cbn.
      rewrite lookup_insert_eq. cbn. rewrite length_app, length_chunk. reflexivity. }
    unfold dest_rows. split; [lia|].
    intros Hnl. rewrite (Hj Hnl) in Hre. apply retried_zero in Hre. subst d0. lia. }
  intros Hsup E. unfold executeBatchInsert in E.
  destruct (String.eqb tableName "coordinate_speed_new") eqn:E1.
  - apply String.eqb_eq in E1. subst tableName. eapply Hins. exact E.
  - destruct (String.eqb tableName "camera_locations") eqn:E2.
    + apply String.eqb_eq in E2. subst tableName. eapply Hins. exact E.
    + unfold supported in Hsup. rewrite E1, E2 in Hsup. discriminate.
Qed.

Ltac ret_inv E :=
  unfold ret in E; apply pair_equal_spec in E as [? E];
  apply (f_equal (fun o => match o with Ret a => Some a | _ => None end)) in E;
  cbv beta iota in E; first [injection E as ? | clear E]; subst.

Lemma d1_same_dest_rows table w w' : d1_same w w' -> dest_rows table w' = dest_rows table w.
Proof. unfold d1_same, dest_rows. intros ->. reflexivity. Qed.

Lemma batch_loop_ret_rows cfg rows batches : forall fuel i acc w w' n,
  supported (TABLE_NAME cfg) = true ->
  batch_loop fuel cfg rows batches i acc w = (w', Ret n) ->
  n - acc <= dest_rows (TABLE_NAME cfg) w' - dest_rows (TABLE_NAME cfg) w /\
  (no_lost_answer w ->
   dest_rows (TABLE_NAME cfg) w' - dest_rows (TABLE_NAME cfg) w = n - acc).
Proof.
  induction fuel as [|fuel IH]; intros i acc w w' n Hsup E; cbn [batch_loop] in E;
    destruct (lt_count i batches).
  - discriminate.
  - ret_inv E. lia.
  - apply bind_ret_inv in E as (w1 & [] & E1 & E).
    apply bind_ret_inv in E as (w2 & [] & E2 & E).
    apply bind_ret_inv in E as (w3 & [] & E3 & E).
    apply bind_ret_inv in E as (w4 & [] & E4 & E).
    pose proof (later_tick _ _ _ E1) as L1.
    pose proof (later_executeBatchInsert _ _ _ _ _ E2) as L2.
    assert (L3 : later w2 w3).
    { destruct ((i + 1) mod 100 =? 0).
      - eapply (preserves_try_catch later); [exact later_trans|exact later_pg_call| |exact E3].
        intros ?. apply preserves_ret. exact later_refl.
      - ret_inv E3. apply later_refl. }
    assert (L4 : later w3 w4).
    { destruct (lt_count i (count_pred batches)).
      - eapply later_sleep. exact E4.
      - ret_inv E4. apply later_refl. }
    apply IH in E as [Hge Heq]; [|exact Hsup].
    pose proof (d1_same_dest_rows (TABLE_NAME cfg) _ _ (preserves_tick _ _ _ E1)) as H1.
    pose proof (executeBatchInsert_ret_rows _ _ _ _ Hsup E2) as [H2 H2e].
    assert (H3 : dest_rows (TABLE_NAME cfg) w3 = dest_rows (TABLE_NAME cfg) w2).
    { apply d1_same_dest_rows. destruct ((i + 1) mod 100 =? 0).
      - eapply (preserves_try_catch d1_same); [exact d1_same_trans|exact preserves_pg_call| |exact E3].
        intros ?. apply preserves_ret. intros ?; reflexivity.
      - ret_inv E3. reflexivity. }
    assert (H4 : dest_rows (TABLE_NAME cfg) w4 = dest_rows (TABLE_NAME cfg) w3).
    { apply d1_same_dest_rows. destruct (lt_count i (count_pred batches)).
      - eapply preserves_sleep. exact E4.
      - ret_inv E4. reflexivity. }
    split; [lia|]. intros Hnl.
    assert (Hn1 : no_lost_answer w1) by (eapply later_no_lost_answer; eassumption).
    assert (Hn4 : no_lost_answer w4).
    { eapply later_no_lost_answer; [exact L4|].
      eapply later_no_lost_answer; [exact L3|].
      eapply later_no_lost_answer; [exact L2|exact Hn1]. }
    specialize (H2e Hn1). specialize (Heq Hn4). lia.
  - ret_inv E. lia.
Qed.

Lemma updateCheckpointStatus_dest_rows table id st rp err w w' o :
  updateCheckpointStatus id st rp err w = (w', o) ->
  dest_rows table w' = dest_rows table w.
Proof.
  intros E. destruct (updateCheckpointStatus_wrote _ _ _ _ _ _ _ E) as (_ & Ht & _).
  unfold dest_rows. rewrite Ht. reflexivity.
Qed.

Lemma fetch_and_insert_ret_rows cfg checkpoint w w' n empty :
  supported (TABLE_NAME cfg) = true ->
  fetch_and_insert cfg checkpoint w = (w', Ret (n, empty)) ->
  dest_rows (TABLE_NAME cfg) w + n <= dest_rows (TABLE_NAME cfg) w' /\
  (no_lost_answer w -> dest_rows (TABLE_NAME cfg) w' = dest_rows (TABLE_NAME cfg) w + n).
Proof.
  intros Hsup E. unfold fetch_and_insert in E.
  apply bind_ret_inv in E as (w1 & [] & E1 & E).
  apply bind_ret_inv in E as (w2 & rows & E2 & E).
  assert (L1 : later w w1).
  { eapply (preserves_try_catch later); [exact later_trans|exact later_pg_call| |exact E1].
    intros ?. exact later_pg_call. }
  pose proof (later_pg_query_range _ _ _ _ _ _ E2) as L2.
  assert (H1 : dest_rows (TABLE_NAME cfg) w1 = dest_rows (TABLE_NAME cfg) w).
  { apply d1_same_dest_rows.
    eapply (preserves_try_catch d1_same); [exact d1_same_trans|exact preserves_pg_call| |exact E1].
    intros ?. exact preserves_pg_call. }
  assert (H2 : dest_rows (TABLE_NAME cfg) w2 = dest_rows (TABLE_NAME cfg) w1).
  { apply d1_same_dest_rows. eapply preserves_pg_query_range. exact E2. }
  destruct (length rows =? 0)%nat.
  - ret_inv E. lia.
  - apply bind_ret_inv in E as (w3 & rs & E3 & E).
    apply bind_ret_inv in E as (w4 & m & E4 & E).
    ret_inv E.
    assert (L3 : later w2 w3).
    { destruct (String.eqb (TABLE_NAME cfg) "camera_locations").
      - eapply later_lift. exact E3.
      - ret_inv E3. apply later_refl. }
    assert (H3 : dest_rows (TABLE_NAME cfg) w3 = dest_rows (TABLE_NAME cfg) w2).
    { apply d1_same_dest_rows. destruct (String.eqb (TABLE_NAME cfg) "camera_locations").
      - eapply preserves_lift. exact E3.
      - ret_inv E3. reflexivity. }
    unfold insert_batches in E4. apply batch_loop_ret_rows in E4 as [Hge Heq]; [|exact Hsup].
    split; [lia|]. intros Hnl.
    assert (Hn3 : no_lost_answer w3).
    { eapply later_no_lost_answer; [exact L3|].
      eapply later_no_lost_answer; [exact L2|].
      eapply later_no_lost_answer; [exact L1|exact Hnl]. }
    specialize (Heq Hn3). lia.
Qed.

Lemma processCheckpoint_ret_rows cfg checkpoint w w' n :
  supported (TABLE_NAME cfg) = true ->
  processCheckpoint cfg checkpoint w = (w', Ret n) ->
  dest_rows (TABLE_NAME cfg) w + n <= dest_rows (TABLE_NAME cfg) w' /\
  (no_lost_answer w -> dest_rows (TABLE_NAME cfg) w' = dest_rows (TABLE_NAME cfg) w + n).
Proof.
  intros Hsup E. unfold processCheckpoint, try_catch in E.
  destruct (processCheckpoint_try cfg checkpoint w) as [w1 o1] eqn:E1.
  destruct o1 as [m|e|]; [injection E as <- <-| |discriminate].
  2:{ unfold processCheckpoint_catch in E. unfold bind in E.
      destruct (updateCheckpointStatus _ _ _ _ w1) as [w2 [[]|e2|]]; discriminate. }
  rewrite processCheckpoint_try_split in E1.
  apply bind_ret_inv in E1 as (wa & [] & Ea & E1).
  apply bind_ret_inv in E1 as (wb & [k empty] & Eb & E1).
  apply bind_ret_inv in E1 as (wc & [] & Ec & E1).
  ret_inv E1. cbn [fst].
  rewrite (updateCheckpointStatus_dest_rows _ _ _ _ _ _ _ _ Ec).
  destruct (fetch_and_insert_ret_rows _ _ _ _ _ _ Hsup Eb) as [Hge Heq].
  rewrite (updateCheckpointStatus_dest_rows _ _ _ _ _ _ _ _ Ea) in Hge, Heq.
  split; [exact Hge|]. intros Hnl. apply Heq.
  eapply later_no_lost_answer; [|exact Hnl].
  eapply later_updateCheckpointStatus. exact Ea.
Qed.

(** C2, as amended: processing a checkpoint leaves every other checkpoint
    row as it was.  When [processCheckpoint] returns [n], the checkpoint is
    completed with [records_processed = n]; for the two tables the batch
    insert knows, the destination has gained at least [n] rows, and exactly
    [n] when no answer of the remote was lost (an insert that is executed
    but reported as failed is sent again, and its rows are there twice).
    When it throws and the checkpoint is left failed, [records_processed]
    is 0, whatever had been inserted before the error; when no answer was
    lost, the row is then untouched, or claimed, or failed with the message
    of the error thrown. *)
Theorem records_processed_on_outcome (cfg : Config) (checkpoint : Checkpoint)
    (w : World) (cps : list Checkpoint) :
  d1_checkpoints (w_d1 w) = Some cps ->
  exists cps',
    d1_checkpoints (w_d1 (processCheckpoint cfg checkpoint w).1) = Some cps' /\
    Forall2 (row_effect (cp_id checkpoint) (processCheckpoint cfg checkpoint w).2) cps cps' /\
    (forall n, supported (TABLE_NAME cfg) = true ->
       (processCheckpoint cfg checkpoint w).2 = Ret n ->
       dest_rows (TABLE_NAME cfg) w + n
         <= dest_rows (TABLE_NAME cfg) (processCheckpoint cfg checkpoint w).1 /\
       (no_lost_answer w ->
        dest_rows (TABLE_NAME cfg) (processCheckpoint cfg checkpoint w).1
          = dest_rows (TABLE_NAME cfg) w + n)) /\
    (forall r r' e, (processCheckpoint cfg checkpoint w).2 = Throw e ->
       r ∈ cps -> r' ∈ cps' -> cp_id r = cp_id checkpoint -> cp_id r' = cp_id checkpoint ->
       cp_status r' = failed -> r' ∉ cps -> cp_records_processed r' = 0) /\
    (no_lost_answer w -> forall e, (processCheckpoint cfg checkpoint w).2 = Throw e ->
       Forall2 (row_effect_answered (cp_id checkpoint) e) cps cps').
Proof.
  intros Hcps. destruct (processCheckpoint cfg checkpoint w) as [w' o] eqn:E. cbn [fst snd].
  destruct (processCheckpoint_effect _ _ _ _ _ _ E Hcps)
    as (cps' & new & Hc' & _ & Hrows & _ & Hans).
  exists cps'. split; [exact Hc'|]. split; [exact Hrows|]. split; [|split].
  - intros n Hsup ->. eapply processCheckpoint_ret_rows; eassumption.
  - intros r r' e -> Hr Hr' Hid Hid' Hst Hnew.
    apply list_elem_of_lookup_1 in Hr' as [i Hi].
    destruct (Forall2_lookup_r _ _ _ _ _ Hrows Hi) as (r0 & Hr0 & Heff).
    destruct Heff as (Hid0 & _ & _ & _ & Hother & Hmine).
    assert (Hid00 : cp_id r0 = cp_id checkpoint) by congruence.
    destruct (Hmine Hid00) as [->|[[Hs _]|[[_ Hz]|Hs]]].
    + exfalso. apply Hnew. eapply list_elem_of_lookup_2. exact Hr0.
    + congruence.
    + exact Hz.
    + congruence.
  - exact Hans.
Qed.

End CheckpointFacts.

(** C2, as stated, fails: the first batch of 16 rows is inserted, the second
    insert fails for good, and the checkpoint is marked failed with
    [records_processed = 0], not 16. *)
Lemma records_processed_zero_after_partial_insert :
  ~ @records_processed_is_inserted strict_platform camera_cfg checkpoint_1_20
      partial_failure_world.
Proof.
  intros Hclaim.
  specialize (Hclaim
    (MkCheckpoint 1 "camera_locations" 1 20 0 failed
       (Some "D1 API HTTP 503: unavailable") (Some "2025-01-19T00:00:00.000Z")
       (Some "2025-01-19T00:00:03.200Z") 0)).
  assert (Hin : MkCheckpoint 1 "camera_locations" 1 20 0 failed
       (Some "D1 API HTTP 503: unavailable") (Some "2025-01-19T00:00:00.000Z")
       (Some "2025-01-19T00:00:03.200Z") 0
     ∈ default [] (d1_checkpoints (w_d1
         (@processCheckpoint strict_platform camera_cfg checkpoint_1_20
            partial_failure_world).1))).
  { vm_compute. left. }
  specialize (Hclaim Hin eq_refl). vm_compute in Hclaim. discriminate.
Qed.

Lemma records_processed_on_outcome_witness :
  d1_checkpoints (w_d1 partial_failure_world) = Some [checkpoint_1_20] /\
  exists cps',
    d1_checkpoints (w_d1 (@processCheckpoint strict_platform camera_cfg checkpoint_1_20
                            partial_failure_world).1) = Some cps'.
Proof.
  split; [reflexivity|].
  destruct (@records_processed_on_outcome strict_platform camera_cfg checkpoint_1_20
              partial_failure_world [checkpoint_1_20] eq_refl) as (cps' & Hc & _).
  exists cps'. exact Hc.
Defined.

Section FailureFacts.
Context `{Platform}.

(** *** A table name the batch insert does not know *)
Lemma executeBatchInsert_unsupported tableName rows w :
  supported tableName = false -> executeBatchInsert tableName rows w = (w, Ret tt).
Proof.
  unfold supported, executeBatchInsert. intros Hs.
  apply orb_false_iff in Hs as [-> ->]. reflexivity.
Qed.












Lemma tables_same_updateCheckpointStatus id st rp err :
  preserves tables_same (updateCheckpointStatus id st rp err).
Proof.
  intros w w' o E.
  destruct (updateCheckpointStatus_wrote _ _ _ _ _ _ _ E) as (_ & Ht & _).
  split; [exact Ht|].
  unfold updateCheckpointStatus, bind, now_iso in E.
  match type of E with context [executeD1SQL ?q w] =>
    destruct (executeD1SQL q w) as [w1 o1] eqn:E1 end.
  destruct (executeD1SQL_spec _ _ _ _ E1) as (k & _ & _ & _ & Hq & _).
  assert (w' = w1) by (destruct o1; unfold ret in E; congruence). subst w1.
  rewrite Hq, filter_app.
  match goal with |- _ ++ ?l = _ => assert (Hnil : l = []) end.
  { clear. induction k; [reflexivity|]. cbn [replicate]. rewrite filter_cons_False; [exact IHk|].
    cbn. tauto. }
  rewrite Hnil, app_nil_r. reflexivity.
Qed.



Lemma length_slice {A} (l : list A) (s e : Z) :
  0 <= s <= e -> e <= Z.of_nat (length l) ->
  Z.of_nat (length (slice l s e)) = e - s.
Proof.
  intros Hs He. unfold slice.
  destruct (s <? 0) eqn:Es; [apply Z.ltb_lt in Es; lia|].
  destruct (e <? 0) eqn:Ee; [apply Z.ltb_lt in Ee; lia|].
  rewrite !Z.min_l by lia. rewrite length_take, length_drop. lia.
Qed.

Lemma ceil_div_bounds len size :
  1 <= size -> 0 <= len ->
  let bt := - ((- len) / size) in
  0 <= bt /\ (bt - 1) * size < len <= bt * size /\ bt <= len.
Proof.
  intros Hs Hl. cbv zeta.
  pose proof (Z.div_mod (- len) size ltac:(lia)) as Hdm.
  pose proof (Z.mod_pos_bound (- len) size ltac:(lia)) as Hb.
  set (q := (- len) / size) in *. set (r := (- len) mod size) in *. nia.
Qed.





(** *** Listing the eligible checkpoints *)
Lemma checkpoint_rows_fmap l : checkpoint_rows (RowCheckpoint <$> l) = l.
Proof.
  unfold checkpoint_rows. induction l as [|c l IH]; [reflexivity|].
  cbn. rewrite IH. reflexivity.
Qed.

Lemma getPendingCheckpoints_spec tableName w w' o :
  getPendingCheckpoints tableName w = (w', o) ->
  w_d1 w' = w_d1 w /\
  match o with
  | Ret l =>
      exists cps, d1_checkpoints (w_d1 w) = Some cps /\
        l = order_by_start_id (filter (fun c => for_table tableName c && is_eligible c) cps)
  | Throw _ => True
  | Diverge => False
  end.
Proof.
  unfold getPendingCheckpoints. unfold bind at 1. intros E.
  destruct (executeD1SQL (SelectPendingCheckpoints tableName) w) as [w1 o1] eqn:E1.
  destruct (executeD1SQL_reads _ _ _ _ E1 eq_refl) as (_ & Hd1 & Ho).
  destruct o1 as [r|e|]; [| |contradiction].
  - destruct Ho as (rows & now & -> & Hex). cbn [d1_exec] in Hex.
    destruct (d1_checkpoints (w_d1 w)) as [cps|] eqn:Hcps; [|discriminate].
    apply pair_equal_spec in Hex as [Hd Hrows]. injection Hrows as <-.
    unfold results_of, bind, ret in E. apply pair_equal_spec in E as [<- <-].
    split; [congruence|]. exists cps. split; [reflexivity|].
    apply checkpoint_rows_fmap.
  - apply pair_equal_spec in E as [<- <-]. split; [exact Hd1|exact I].
Qed.

Lemma getPendingCheckpoints_healthy tableName w cps :
  healthy w -> d1_checkpoints (w_d1 w) = Some cps ->
  exists w',
    getPendingCheckpoints tableName w
      = (w', Ret (order_by_start_id
                    (filter (fun c => for_table tableName c && is_eligible c) cps))).
Proof.
  intros Hh Hcps. unfold getPendingCheckpoints. unfold bind at 1.
  destruct (executeD1SQL_healthy_ok (SelectPendingCheckpoints tableName) w (w_d1 w)
              (RowCheckpoint <$> order_by_start_id
                 (filter (fun c => for_table tableName c && is_eligible c) cps)) Hh)
    as (w1 & E1 & _).
  { cbn. rewrite Hcps. reflexivity. }
  rewrite E1. unfold results_of, bind, ret. rewrite checkpoint_rows_fmap. eauto.
Qed.


Lemma filter_is_insert_replicate (l : list Sql) k q :
  is_insert q = false -> filter is_insert (l ++ replicate k q) = filter is_insert l.
Proof.
  intros Hq. rewrite filter_app.
  replace (filter is_insert (replicate k q)) with (@nil Sql); [apply app_nil_r|].
  induction k as [|k IH]; [reflexivity|].
  cbn [replicate]. rewrite filter_cons_False; [exact IH|].
  rewrite Hq. intros Hc. exact Hc.
Qed.

Lemma d1_exec_keeps_tables now d q :
  keeps_tables q = true -> d1_tables (d1_exec now d q).1 = d1_tables d.
Proof.
  destruct q; try discriminate; intros _; cbn [d1_exec];
    repeat match goal with
           | |- context [if ?c then _ else _] => destruct c
           | |- context [match ?c with _ => _ end] => destruct c
           end; reflexivity.
Qed.

Lemma tables_same_executeD1SQL q :
  keeps_tables q = true -> preserves tables_same (executeD1SQL q).
Proof.
  intros Hq w w' o E. split.
  - refine (preserves_executeD1SQL (fun d d' => d1_tables d' = d1_tables d) q
              _ _ _ w w' o E); cbv beta.
    + reflexivity.
    + intros x y z ? ?. congruence.
    + intros now x. apply d1_exec_keeps_tables. exact Hq.
  - destruct (executeD1SQL_spec _ _ _ _ E) as (k & _ & _ & _ & Hreq & _).
    rewrite Hreq. apply filter_is_insert_replicate. destruct q; try discriminate; reflexivity.
Qed.










End FailureFacts.


Section RunFacts.
Context `{Platform}.

Lemma later_getPendingCheckpoints tableName :
  preserves later (getPendingCheckpoints tableName).
Proof.
  unfold getPendingCheckpoints, results_of.
  apply preserves_bind; [exact later_trans|apply later_executeD1SQL|intros r].
  apply preserves_bind; [exact later_trans| |intros rows; apply preserves_ret; exact later_refl].
  destruct r; [apply preserves_ret|apply preserves_throw]; exact later_refl.
Qed.

Lemma process_all_effect cfg : forall l acc w w' o cps,
  process_all cfg l acc w = (w', o) ->
  d1_checkpoints (w_d1 w) = Some cps ->
  NoDup (cp_id <$> l) ->
  (forall c r, c ∈ l -> r ∈ cps -> cp_id r = cp_id c -> is_eligible r = true) ->
  exists cps' new,
    d1_checkpoints (w_d1 w') = Some cps' /\
    d1_history (w_d1 w') = d1_history (w_d1 w) ++ new /\
    Forall write_possible new /\
    (no_lost_answer w -> Forall write_observed new) /\
    Forall2 (row_kept (cp_id <$> l)) cps cps'.
Proof.
  induction l as [|c l IH]; intros acc w w' o cps E Hcps Hnd Helig.
  - cbn in E. apply pair_equal_spec in E as [<- _].
    exists cps, []. rewrite app_nil_r. split; [exact Hcps|]. split; [reflexivity|].
    split; [constructor|]. split; [constructor|].
    apply Forall2_same. intros r _. repeat split; auto.
  - cbn [process_all] in E. unfold bind at 1 in E.
    destruct (processCheckpoint cfg c w) as [w1 o1] eqn:E1.
    pose proof (later_processCheckpoint _ _ _ _ _ E1) as Hl1.
    destruct (processCheckpoint_effect _ _ _ _ _ _ E1 Hcps)
      as (cps1 & new1 & Hc1 & Hh1 & Hrows1 & Hw1 & _).
    cbn [fmap list_fmap] in Hnd. apply NoDup_cons in Hnd as [Hc_notin Hnd].
    destruct (Hw1 (fun r Hr Hid => Helig c r ltac:(left) Hr Hid)) as [Hpos1 Hobs1].
    assert (Hkept1 : Forall2 (row_kept [cp_id c]) cps cps1).
    { apply Forall2_lookup. intros i.
      pose proof (proj1 (Forall2_lookup _ _ _) Hrows1 i) as Hi.
      destruct (cps !! i) as [r|] eqn:Er; inversion Hi as [? r' Heff|]; subst; constructor.
      destruct Heff as (Hid & _ & _ & _ & Hother & _).
      assert (Hin : r ∈ cps) by (eapply list_elem_of_lookup_2; exact Er).
      split; [exact Hid|]. split.
      - intros Hdone. apply Hother. intros Hidc.
        specialize (Helig c r ltac:(left) Hin Hidc). unfold is_eligible in Helig.
        rewrite Hdone in Helig. discriminate.
      - intros Hni. apply Hother. intros Hidc. apply Hni. rewrite Hidc. left. }
    destruct o1 as [n|e|].
    + assert (Helig1 : forall c' r', c' ∈ l -> r' ∈ cps1 -> cp_id r' = cp_id c' ->
                is_eligible r' = true).
      { intros c' r' Hc' Hr' Hid'. apply list_elem_of_lookup_1 in Hr' as [i Hi].
        destruct (Forall2_lookup_r _ _ _ _ _ Hkept1 Hi) as (r & Hr & Hidr & _ & Hsame).
        assert (Hne : cp_id r ∉ [cp_id c]).
        { rewrite list_elem_of_singleton. intros Heq. apply Hc_notin.
          rewrite <- Heq, <- Hidr, Hid'. apply list_elem_of_fmap. eauto. }
        rewrite (Hsame Hne) in *. eapply (Helig c' r); [right; exact Hc'| |exact Hid'].
        eapply list_elem_of_lookup_2. exact Hr. }
      destruct (IH _ _ _ _ _ E Hc1 Hnd Helig1)
        as (cps' & new & Hc' & Hh' & Hpos & Hobs & Hkept).
      exists cps', (new1 ++ new). split; [exact Hc'|].
      split; [rewrite Hh', Hh1, <- app_assoc; reflexivity|].
      split; [apply Forall_app; split; assumption|].
      split.
      { intros Hnl. apply Forall_app. split; [exact (Hobs1 Hnl)|].
        apply Hobs. eapply later_no_lost_answer; eassumption. }
      apply Forall2_lookup. intros i.
      pose proof (proj1 (Forall2_lookup _ _ _) Hkept1 i) as Hi1.
      pose proof (proj1 (Forall2_lookup _ _ _) Hkept i) as Hi2.
      destruct Hi1 as [r r1 (Hid1 & Hd1 & Hs1)|]; inversion Hi2 as [? r2 (Hid2 & Hd2 & Hs2)|];
        subst; constructor.
      split; [congruence|]. split.
      * intros Hdone. assert (r1 = r) by (apply Hd1; exact Hdone). subst r1.
        apply Hd2. exact Hdone.
      * intros Hni. cbn [fmap list_fmap] in Hni. rewrite not_elem_of_cons in Hni.
        destruct Hni as [Hne Hnl].
        assert (r1 = r) by (apply Hs1; rewrite list_elem_of_singleton; exact Hne). subst r1.
        apply Hs2. exact Hnl.
    + apply pair_equal_spec in E as [<- _].
      exists cps1, new1. split; [exact Hc1|]. split; [exact Hh1|]. split; [exact Hpos1|].
      split; [exact Hobs1|].
      eapply Forall2_impl; [exact Hkept1|]. intros r r' (Hid & Hd & Hs).
      split; [exact Hid|]. split; [exact Hd|]. intros Hni. apply Hs.
      rewrite list_elem_of_singleton. intros Heq. apply Hni. rewrite Heq. left.
    + apply pair_equal_spec in E as [<- _].
      exists cps1, new1. split; [exact Hc1|]. split; [exact Hh1|]. split; [exact Hpos1|].
      split; [exact Hobs1|].
      eapply Forall2_impl; [exact Hkept1|]. intros r r' (Hid & Hd & Hs).
      split; [exact Hid|]. split; [exact Hd|]. intros Hni. apply Hs.
      rewrite list_elem_of_singleton. intros Heq. apply Hni. rewrite Heq. left.
Qed.

Lemma NoDup_fmap_eq {A B} (f : A -> B) (l : list A) x y :
  NoDup (f <$> l) -> x ∈ l -> y ∈ l -> f x = f y -> x = y.
Proof.
  induction l as [|a l IH]; intros Hnd Hx Hy Hf; [inversion Hx|].
  cbn [fmap list_fmap] in Hnd. apply NoDup_cons in Hnd as [Hni Hnd].
  apply elem_of_cons in Hx as [->|Hx]; apply elem_of_cons in Hy as [->|Hy].
  - reflexivity.
  - exfalso. apply Hni. rewrite Hf. apply list_elem_of_fmap. eauto.
  - exfalso. apply Hni. rewrite <- Hf. apply list_elem_of_fmap. eauto.
  - apply IH; assumption.
Qed.

Lemma row_ids_kept (P : Checkpoint -> Checkpoint -> Prop) cps cps' :
  Forall2 (fun r r' => cp_id r' = cp_id r /\ P r r') cps cps' ->
  cp_id <$> cps' = cp_id <$> cps.
Proof.
  induction 1 as [|r r' cps cps' [Hid _] _ IH]; [reflexivity|].
  cbn [fmap list_fmap]. f_equal; [exact Hid|exact IH].
Qed.

Lemma processor_run_effect cfg w :
  NoDup (cp_id <$> default [] (d1_checkpoints (w_d1 w))) ->
  exists new,
    d1_history (w_d1 (processor_run cfg w).1) = d1_history (w_d1 w) ++ new /\
    Forall write_possible new /\
    (no_lost_answer w -> Forall write_observed new) /\
    Forall2 (fun r r' => cp_id r' = cp_id r /\ (cp_status r = completed -> r' = r))
      (default [] (d1_checkpoints (w_d1 w)))
      (default [] (d1_checkpoints (w_d1 (processor_run cfg w).1))).
Proof.
  intros Hnd. unfold processor_run, bind.
  destruct (getPendingCheckpoints (TABLE_NAME cfg) w) as [w1 o1] eqn:E1.
  pose proof (later_getPendingCheckpoints _ _ _ _ E1) as Hl1.
  destruct (getPendingCheckpoints_spec _ _ _ _ E1) as (Hd1 & Ho1).
  assert (Hstay : forall w2, w_d1 w2 = w_d1 w ->
    exists new,
      d1_history (w_d1 w2) = d1_history (w_d1 w) ++ new /\ Forall write_possible new /\
      (no_lost_answer w -> Forall write_observed new) /\
      Forall2 (fun r r' => cp_id r' = cp_id r /\ (cp_status r = completed -> r' = r))
        (default [] (d1_checkpoints (w_d1 w))) (default [] (d1_checkpoints (w_d1 w2)))).
  { intros w2 ->. exists []. rewrite app_nil_r. split; [reflexivity|]. split; [constructor|].
    split; [constructor|]. apply Forall2_same. intros r _. split; auto. }
  destruct o1 as [l|e|]; [|apply Hstay; exact Hd1|contradiction].
  destruct Ho1 as (cps & Hcps & Hl). rewrite Hcps in *. cbn [default from_option id] in *.
  destruct (process_all cfg l 0 w1) as [w2 o2] eqn:E2. cbn [fst].
  assert (Hperm : l ≡ₚ filter (fun c => for_table (TABLE_NAME cfg) c && is_eligible c) cps).
  { rewrite Hl. unfold order_by_start_id. apply merge_sort_Permutation. }
  assert (Hin : forall c, c ∈ l -> c ∈ cps /\ is_eligible c = true).
  { intros c Hc. rewrite Hperm in Hc. apply list_elem_of_filter in Hc as [HP Hc].
    split; [exact Hc|]. apply Is_true_eq_true in HP. apply andb_true_iff in HP. tauto. }
  destruct (process_all_effect cfg l 0 w1 w2 o2 cps E2 ltac:(congruence))
    as (cps' & new & Hc' & Hh' & Hpos & Hobs & Hkept).
  - rewrite Hperm. apply (sublist_NoDup _ (cp_id <$> cps)); [exact Hnd|].
    apply fmap_sublist. apply sublist_filter.
  - intros c r Hc Hr Hid. destruct (Hin c Hc) as [Hcc Hel].
    rewrite (NoDup_fmap_eq cp_id cps r c Hnd Hr Hcc Hid). exact Hel.
  - exists new. rewrite Hc', Hh', Hd1. cbn [default from_option id].
    split; [reflexivity|]. split; [exact Hpos|].
    split; [intros Hnl; apply Hobs; eapply later_no_lost_answer; eassumption|].
    eapply Forall2_impl; [exact Hkept|]. intros r r' (Hid & Hd & _). split; assumption.
Qed.

(** C9, as amended: over any sequence of Processor runs on a database whose
    checkpoint ids are distinct, [getPendingCheckpoints] only ever lists
    pending and failed checkpoints, and a checkpoint that was completed
    before the runs is never changed.  When no answer of the remote is lost,
    every status write is one of pending -> in_progress,
    failed -> in_progress, in_progress -> completed, in_progress -> failed,
    pending -> failed or failed -> failed.  When answers are lost, a write
    that the database has executed is sent again and repeats its status
    (in_progress -> in_progress, completed -> completed), and the failure
    write can follow a completing write that was executed without the
    script knowing (completed -> failed); there is no other status write. *)
Theorem status_writes_over_runs (runs : list (Config * World)) (d : D1) :
  NoDup (cp_id <$> default [] (d1_checkpoints d)) ->
  (exists new,
     d1_history (processor_runs runs d) = d1_history d ++ new /\
     Forall (fun x => possible_write x.1.2 x.2 = true) new /\
     (Forall (fun run => no_lost_answer run.2) runs ->
      Forall (fun x => observed_write x.1.2 x.2 = true) new)) /\
  Forall2 (fun r r' => cp_id r' = cp_id r /\ (cp_status r = completed -> r' = r))
    (default [] (d1_checkpoints d))
    (default [] (d1_checkpoints (processor_runs runs d))) /\
  (forall tableName w l, (getPendingCheckpoints tableName w).2 = Ret l ->
     Forall (fun c => cp_status c = pending \/ cp_status c = failed) l).
Proof.
  intros Hnd. split; [|split].
  - revert d Hnd. induction runs as [|[cfg env] runs IH]; intros d Hnd.
    + exists []. cbn. rewrite app_nil_r. split; [reflexivity|]. split; constructor.
    + cbn [processor_runs].
      destruct (processor_run_effect cfg (with_d1 env d) Hnd)
        as (new1 & Hh1 & Hpos1 & Hobs1 & Hrows1).
      cbn [with_d1 w_d1] in Hh1, Hrows1.
      destruct (IH (w_d1 (processor_run cfg (with_d1 env d)).1)) as (new & Hh & Hpos & Hobs).
      { rewrite (row_ids_kept _ _ _ Hrows1). exact Hnd. }
      exists (new1 ++ new). rewrite Hh, Hh1, <- app_assoc. split; [reflexivity|].
      split; [apply Forall_app; split; assumption|].
      intros Hall. apply Forall_cons in Hall as [Hnl Hall]. cbn [snd] in Hnl.
      apply Forall_app. split; [apply Hobs1; exact Hnl|apply Hobs; exact Hall].
  - revert d Hnd. induction runs as [|[cfg env] runs IH]; intros d Hnd.
    + cbn. apply Forall2_same. intros r _. split; auto.
    + cbn [processor_runs].
      destruct (processor_run_effect cfg (with_d1 env d) Hnd)
        as (new1 & Hh1 & _ & _ & Hrows1).
      cbn [with_d1 w_d1] in Hh1, Hrows1.
      specialize (IH (w_d1 (processor_run cfg (with_d1 env d)).1)
                    ltac:(rewrite (row_ids_kept _ _ _ Hrows1); exact Hnd)).
      apply Forall2_lookup. intros i.
      pose proof (proj1 (Forall2_lookup _ _ _) Hrows1 i) as Hi1.
      pose proof (proj1 (Forall2_lookup _ _ _) IH i) as Hi2.
      destruct Hi1 as [r r1 (Hid1 & Hd1)|]; inversion Hi2 as [? r2 (Hid2 & Hd2)|];
        subst; constructor.
      split; [congruence|]. intros Hdone.
      assert (r1 = r) by (apply Hd1; exact Hdone). subst r1. apply Hd2. exact Hdone.
  - intros tableName w l Hret.
    destruct (getPendingCheckpoints tableName w) as [w' o] eqn:E. cbn [snd] in Hret. subst o.
    destruct (getPendingCheckpoints_spec _ _ _ _ E) as (_ & cps & _ & ->).
    apply Forall_forall. intros c Hc. unfold order_by_start_id in Hc.
    rewrite merge_sort_Permutation in Hc. apply list_elem_of_filter in Hc as [HP _].
    apply Is_true_eq_true in HP. apply andb_true_iff in HP as [_ HP].
    unfold is_eligible in HP. destruct (cp_status c); try discriminate; auto.
Qed.

End RunFacts.

(** C9, as stated, fails: when the write that claims a pending checkpoint
    fails for good and the write of the [catch] block lands, the checkpoint
    goes from pending straight to failed. *)
Lemma pending_moves_to_failed :
  ~ Forall (fun x : Z * Status * Status => claimed_edge x.1.2 x.2 = true)
      (d1_history (w_d1 (@processor_run strict_platform camera_cfg claim_outage_world).1)).
Proof.
  intros Hall.
  assert (Hh : d1_history (w_d1 (@processor_run strict_platform camera_cfg
                                   claim_outage_world).1) = [(1, pending, failed)])
    by (vm_compute; reflexivity).
  rewrite Hh in Hall. apply Forall_cons in Hall as [Hbad _]. discriminate.
Qed.

Lemma status_writes_over_runs_witness :
  NoDup (cp_id <$> default [] (d1_checkpoints (w_d1 claim_outage_world))) /\
  exists new,
    d1_history (@processor_runs strict_platform [(camera_cfg, claim_outage_world)]
                  (w_d1 claim_outage_world))
      = d1_history (w_d1 claim_outage_world) ++ new /\
    Forall (fun x => possible_write x.1.2 x.2 = true) new.
Proof.
  assert (Hnd : NoDup (cp_id <$> default [] (d1_checkpoints (w_d1 claim_outage_world)))).
  { cbn. apply NoDup_singleton. }
  split; [exact Hnd|].
  destruct (@status_writes_over_runs strict_platform
              [(camera_cfg, claim_outage_world)] (w_d1 claim_outage_world) Hnd)
    as ((new & Hh & Hpos & _) & _).
  exists new. split; assumption.
Defined.

Section ScenarioFacts.
Context `{Platform}.

(** C3, as amended: with 35 rows of [camera_locations], ids 1 to 35, and a
    checkpoint size of 20, planning yields the checkpoints [1,20] and
    [21,35]; the batch size is 16; checkpoint [1,20] is inserted as batches
    of 16 and 4 rows, and checkpoint [21,35], which holds 15 rows, as one
    batch of 15. *)
Theorem scenario_35_rows_checkpoint_20 :
  range_of <$> scenario_checkpoints = [(1, 20); (21, 35)] /\
  maxBatchRows 6 99 = 16 /\ MigrateCameraLocations.BATCH_SIZE None = 16 /\
  BATCH_SIZE camera_cfg = 16 /\
  batches_of camera_cfg scenario_first scenario_planned = [16; 4]%nat /\
  batches_of camera_cfg scenario_second
    (processCheckpoint camera_cfg scenario_first scenario_planned).1 = [15%nat] /\
  batches_sent (migrateData camera_cfg scenario_world).1 = [16; 4; 15]%nat /\
  (migrateData camera_cfg scenario_world).2 = Some 0 /\
  (fun c => (range_of c, cp_status c, cp_records_processed c))
    <$> default [] (d1_checkpoints (w_d1 (migrateData camera_cfg scenario_world).1))
  = [((1, 20), completed, 20); ((21, 35), completed, 15)].
Proof.
  repeat split; vm_compute; reflexivity.
Qed.

End ScenarioFacts.

(** C3, as stated, fails: the second checkpoint is not inserted as batches
    of 16 and 3 rows. *)
Lemma second_checkpoint_is_one_batch :
  @batches_of strict_platform camera_cfg scenario_second
    (@processCheckpoint strict_platform camera_cfg scenario_first scenario_planned).1
  <> [16; 3]%nat.
Proof. vm_compute. discriminate. Qed.



(** * Further properties *)

Section RetryFacts.
Context `{Platform}.

(** *** The gateway for any number of retries *)
Lemma backoff_delay_bounds attempt :
  1 <= attempt ->
  1000 <= backoff_delay attempt <= 10000 /\
  backoff_delay attempt <= backoff_delay (attempt + 1) /\
  (5 <= attempt -> backoff_delay attempt = 10000).
Proof.
  intros Ha. unfold backoff_delay.
  assert (Hp : 0 < 2 ^ (attempt - 1)) by (apply Z.pow_pos_nonneg; lia).
  assert (Hs : 2 ^ (attempt + 1 - 1) = 2 * 2 ^ (attempt - 1)).
  { replace (attempt + 1 - 1) with (Z.succ (attempt - 1)) by lia.
    apply Z.pow_succ_r. lia. }
  rewrite Hs. split; [lia|]. split; [lia|].
  intros H5.
  assert (H16 : 2 ^ 4 <= 2 ^ (attempt - 1)) by (apply Z.pow_le_mono_r; lia).
  change (2 ^ 4) with 16 in H16. lia.
Qed.

Lemma backoffs_seqZ k : forall attempt,
  backoffs attempt k = backoff_delay <$> seqZ attempt (Z.of_nat k).
Proof.
  induction k as [|k IH]; intros attempt; [reflexivity|].
  cbn [backoffs]. rewrite (seqZ_cons attempt (Z.of_nat (S k))) by lia.
  rewrite fmap_cons, IH. do 3 f_equal; lia.
Qed.

Lemma backoffs_bounded k : forall attempt,
  1 <= attempt ->
  Forall (fun d => 1000 <= d <= 10000) (backoffs attempt k) /\
  total_delay (backoffs attempt k) <= 10000 * Z.of_nat k.
Proof.
  induction k as [|k IH]; intros attempt Ha.
  - split; [constructor|]. cbn. lia.
  - destruct (IH (attempt + 1) ltac:(lia)) as [Hall Hsum].
    destruct (backoff_delay_bounds attempt Ha) as [Hb _].
    cbn [backoffs]. split; [constructor; assumption|].
    unfold total_delay in *. cbn [foldr]. lia.
Qed.

(** X1: the retry loop of [executeD1SQL] for any positive retry budget.
    It sends the same statement between one and [retries] times and nothing
    else; before the attempt after attempt [a] it sleeps
    [min (1000 * 2^(a-1)) 10000] ms, so every pause lies between one and ten
    seconds; a run that returns has a response; a run that throws has used
    the whole budget.  A failed attempt may have been executed by the
    database before its answer was lost: after a throw the database is the
    one the statement leaves when executed [j] times, for some [j] of at
    most the number of attempts, and it is as it was when every failure
    came before execution.  With a budget of zero or less the loop body never
    runs and the call returns [undefined] without sending anything. *)
Theorem executeD1SQL_any_retries (sql : Sql) (retries : Z) (w : World) :
  1 <= retries ->
  (exists k : nat,
     (1 <= k)%nat /\ Z.of_nat k <= retries /\
     w_requests (executeD1SQL_retries sql retries w).1 = w_requests w ++ replicate k sql /\
     (exists delays,
        w_sleeps (executeD1SQL_retries sql retries w).1 = w_sleeps w ++ delays /\
        delays = backoff_delay <$> seqZ 1 (Z.of_nat k - 1) /\
        Forall (fun d => 1000 <= d <= 10000) delays /\
        total_delay delays <= 10000 * (Z.of_nat k - 1)) /\
     match (executeD1SQL_retries sql retries w).2 with
     | Ret result => is_Some result
     | Throw _ => Z.of_nat k = retries /\
                  (exists j : nat, (j <= k)%nat /\
                     retried sql (w_d1 w) j (w_d1 (executeD1SQL_retries sql retries w).1)) /\
                  (no_lost_answer w ->
                   w_d1 (executeD1SQL_retries sql retries w).1 = w_d1 w)
     | Diverge => False
     end) /\
  (forall none : Z, none <= 0 -> executeD1SQL_retries sql none w = (w, Ret None)).
Proof.
  intros Hr. split.
  - destruct (executeD1SQL_retries sql retries w) as [w' o] eqn:E.
    unfold executeD1SQL_retries in E.
    apply (executeD1SQL_from_spec (Z.to_nat retries)) in E; [|lia|lia].
    destruct E as (k & j & d0 & Hk & Hreq & _ & Hsl & _ & Hre & Hclean & Ho).
    exists k. cbn [fst snd].
    split; [lia|]. split; [lia|]. split; [exact Hreq|]. split.
    + exists (backoffs 1 (k - 1)). split; [exact Hsl|].
      destruct (backoffs_bounded (k - 1) 1 ltac:(lia)) as [Hall Hsum].
      split; [|split].
      * rewrite backoffs_seqZ. do 2 f_equal. lia.
      * exact Hall.
      * replace (Z.of_nat k - 1) with (Z.of_nat (k - 1)) by lia. exact Hsum.
    + destruct o as [r|e|].
      * destruct Ho as (_ & rows & -> & _). eexists; reflexivity.
      * destruct Ho as (Hjk & -> & Hd & _). subst d0. split; [lia|]. split.
        -- exists j. split; [exact Hjk|exact Hre].
        -- intros Hnl. specialize (Hclean Hnl). subst j.
           apply retried_zero in Hre. exact Hre.
      * exact Ho.
  - intros none Hn. unfold executeD1SQL_retries.
    replace (Z.to_nat none) with 0%nat by lia. reflexivity.
Qed.

End RetryFacts.

Lemma executeD1SQL_any_retries_witness :
  1 <= 6 /\
  forall none : Z, none <= 0 ->
    executeD1SQL_retries (SelectCount "camera_locations") none outage_world
      = (outage_world, Ret None).
Proof.
  assert (H6 : 1 <= 6) by lia.
  split; [exact H6|].
  exact (proj2 (executeD1SQL_any_retries (SelectCount "camera_locations") 6 outage_world H6)).
Defined.

Section SchemaFacts.
Context `{Platform}.

(** *** The destination table is created when it is missing *)
Lemma no_such_table_included table :
  includes (message (MkError ("D1 API Error: " +:+ no_such_table table))) "no such table"
    = true.
Proof. vm_compute. reflexivity. Qed.

Lemma executeD1SQL_inserts sql w :
  is_insert sql = false ->
  filter is_insert (w_requests (executeD1SQL sql w).1) = filter is_insert (w_requests w).
Proof.
  intros Hq. destruct (executeD1SQL sql w) as [w' o] eqn:E.
  apply executeD1SQL_spec in E as (k & _ & _ & _ & Hreq & _). cbn [fst].
  rewrite Hreq. apply filter_is_insert_replicate. exact Hq.
Qed.

(** A statement the database refuses, on a healthy remote: it is sent three
    times, 1000 and 2000 ms apart. *)
Lemma executeD1SQL_healthy_refused sql w err :
  healthy w -> d1_exec (w_clock w) (w_d1 w) sql = (w_d1 w, inr err) ->
  exists w', executeD1SQL sql w = (w', Throw (MkError ("D1 API Error: " +:+ err))) /\
    healthy w' /\ w_d1 w' = w_d1 w /\ same_source w w' /\
    w_clock w' = w_clock w + 3000 /\ w_sleeps w' = w_sleeps w ++ [1000; 2000] /\
    w_requests w' = w_requests w ++ [sql; sql; sql].
Proof.
  intros Hh Hex. unfold executeD1SQL, executeD1SQL_retries.
  change (Z.to_nat 3) with 3%nat. cbn [executeD1SQL_from].
  pose proof (fun now' => d1_exec_error_any_time _ now' _ _ _ _ Hex) as Hany.
  unfold try_catch, bind, d1_attempt, sleep. rewrite Hh. cbn [head tail]. rewrite Hex.
  cbn -[String.append d1_exec]. rewrite Hany.
  cbn -[String.append d1_exec]. change (1 + 1 =? 3) with false.
  cbn -[String.append d1_exec]. rewrite Hany.
  unfold throw. eexists. split; [reflexivity|]. cbn -[Z.add].
  repeat split; rewrite <- ?app_assoc; try reflexivity.
  change (backoff_delay 1) with 1000. change (backoff_delay (1 + 1)) with 2000. lia.
Qed.

Lemma executeD1SQL_healthy_answered sql w d' rows :
  healthy w -> d1_exec (w_clock w) (w_d1 w) sql = (d', inl rows) ->
  exists w', executeD1SQL sql w = (w', Ret (Some rows)) /\
    healthy w' /\ w_d1 w' = d' /\ w_clock w' = w_clock w /\ same_source w w' /\
    w_requests w' = w_requests w ++ [sql] /\ w_sleeps w' = w_sleeps w.
Proof.
  intros Hh Hex. unfold executeD1SQL, executeD1SQL_retries.
  change (Z.to_nat 3) with 3%nat. cbn [executeD1SQL_from].
  unfold try_catch, bind, d1_attempt. rewrite Hh. cbn [head tail]. rewrite Hex.
  unfold ret. eexists. split; [reflexivity|]. cbn. repeat split.
Qed.

Lemma create_index_healthy name table w :
  healthy w -> has_table (w_d1 w) table = true -> name ∉ d1_indexes (w_d1 w) ->
  exists w', executeD1SQL (CreateIndex name table) w = (w', Ret (Some [])) /\
    healthy w' /\ same_source w w' /\ w_sleeps w' = w_sleeps w /\
    w_requests w' = w_requests w ++ [CreateIndex name table] /\
    w_d1 w' = MkD1 (d1_checkpoints (w_d1 w)) (d1_seq (w_d1 w)) (d1_tables (w_d1 w))
                (name :: d1_indexes (w_d1 w)) (d1_history (w_d1 w)).
Proof.
  intros Hh Hhas Hni.
  destruct (executeD1SQL_healthy_answered (CreateIndex name table) w
              (MkD1 (d1_checkpoints (w_d1 w)) (d1_seq (w_d1 w)) (d1_tables (w_d1 w))
                 (name :: d1_indexes (w_d1 w)) (d1_history (w_d1 w))) [] Hh)
    as (w1 & E1 & Hh1 & Hd1 & _ & Hs1 & Hr1 & Hsl1).
  { cbn [d1_exec]. rewrite Hhas. cbn [negb].
    rewrite bool_decide_eq_false_2 by exact Hni. reflexivity. }
  exists w1. repeat split; try assumption; apply Hs1.
Qed.

Lemma create_table_healthy table w :
  healthy w -> has_table (w_d1 w) table = false ->
  exists w', executeD1SQL (CreateTargetTable table) w = (w', Ret (Some [])) /\
    healthy w' /\ same_source w w' /\ w_sleeps w' = w_sleeps w /\
    w_requests w' = w_requests w ++ [CreateTargetTable table] /\
    w_d1 w' = MkD1 (d1_checkpoints (w_d1 w)) (d1_seq (w_d1 w))
                (<[table := []]> (d1_tables (w_d1 w)))
                (d1_indexes (w_d1 w)) (d1_history (w_d1 w)).
Proof.
  intros Hh Hhas.
  destruct (executeD1SQL_healthy_answered (CreateTargetTable table) w
              (MkD1 (d1_checkpoints (w_d1 w)) (d1_seq (w_d1 w))
                 (<[table := []]> (d1_tables (w_d1 w)))
                 (d1_indexes (w_d1 w)) (d1_history (w_d1 w))) [] Hh)
    as (w1 & E1 & Hh1 & Hd1 & _ & Hs1 & Hr1 & Hsl1).
  { cbn [d1_exec]. rewrite Hhas. reflexivity. }
  exists w1. repeat split; try assumption; apply Hs1.
Qed.

Lemma has_table_created cps seq tables idx hist table :
  String.eqb table checkpoints_name = false ->
  has_table (MkD1 cps seq (<[table := []]> tables) idx hist) table = true.
Proof.
  intros Hne. unfold has_table, table_count. rewrite Hne. cbn [d1_tables].
  rewrite lookup_insert_eq. reflexivity.
Qed.

Lemma has_table_indexed cps seq tables idx idx' hist table :
  has_table (MkD1 cps seq tables idx' hist) table
    = has_table (MkD1 cps seq tables idx hist) table.
Proof. reflexivity. Qed.

Ltac same_source_chain :=
  repeat match goal with
         | Hs : same_source _ _ |- _ => destruct Hs as (? & ? & ?)
         end;
  unfold same_source; repeat split; congruence.

Lemma ensureTargetTableExists_run (tableName : string) (w : World) :
  healthy w ->
  target_indexes_consistent (w_d1 w) tableName ->
  exists w',
    ensureTargetTableExists tableName w = (w', Ret tt) /\
    healthy w' /\ same_source w w' /\
    d1_checkpoints (w_d1 w') = d1_checkpoints (w_d1 w) /\
    d1_seq (w_d1 w') = d1_seq (w_d1 w) /\
    d1_history (w_d1 w') = d1_history (w_d1 w) /\
    filter is_insert (w_requests w') = filter is_insert (w_requests w) /\
    if has_table (w_d1 w) tableName
    then w_d1 w' = w_d1 w /\ w_sleeps w' = w_sleeps w
    else
      w_sleeps w' = w_sleeps w ++ [1000; 2000] /\
      if supported tableName
      then d1_tables (w_d1 w') = <[tableName := []]> (d1_tables (w_d1 w)) /\
           d1_indexes (w_d1 w') = rev (target_indexes tableName) ++ d1_indexes (w_d1 w)
      else w_d1 w' = w_d1 w.
Proof.
  intros Hh Hix. unfold ensureTargetTableExists, try_catch. unfold bind at 1.
  destruct (has_table (w_d1 w) tableName) eqn:Hhas.
  - unfold has_table in Hhas.
    destruct (table_count (w_d1 w) tableName) as [n|] eqn:Hn; [|discriminate].
    destruct (executeD1SQL_healthy_answered (SelectProbe tableName) w (w_d1 w)
                [RowUnnamed n] Hh) as (w1 & E1 & Hh1 & Hd1 & _ & Hs1 & Hr1 & Hsl1).
    { cbn. rewrite Hn. reflexivity. }
    rewrite E1. exists w1. unfold ret. split; [reflexivity|].
    rewrite Hd1, Hr1, filter_app. cbn. rewrite app_nil_r. repeat split; try assumption.
    apply Hs1. apply Hs1. apply Hs1.
  - destruct (executeD1SQL_healthy_refused (SelectProbe tableName) w
                (no_such_table tableName) Hh)
      as (w1 & E1 & Hh1 & Hd1 & Hs1 & _ & Hsl1 & Hr1).
    { unfold has_table in Hhas. cbn [d1_exec].
      destruct (table_count (w_d1 w) tableName); [discriminate|reflexivity]. }
    rewrite E1, no_such_table_included.
    assert (Hhas1 : has_table (w_d1 w1) tableName = false) by (rewrite Hd1; exact Hhas).
    assert (Hins1 : filter is_insert (w_requests w1) = filter is_insert (w_requests w)).
    { rewrite Hr1, filter_app. cbn. apply app_nil_r. }
    specialize (Hix Hhas). unfold supported, target_indexes in *.
    destruct (String.eqb tableName "coordinate_speed_new") eqn:Ec.
    + apply String.eqb_eq in Ec. subst tableName. cbn [orb].
      destruct (create_table_healthy "coordinate_speed_new" w1 Hh1 Hhas1)
        as (w2 & E2 & Hh2 & Hs2 & Hsl2 & Hr2 & Hd2).
      rewrite (bind_ret_run _ _ _ _ _ E2).
      destruct (create_index_healthy "idx_coordinate_latitude_longitude"
                  "coordinate_speed_new" w2 Hh2)
        as (w3 & E3 & Hh3 & Hs3 & Hsl3 & Hr3 & Hd3).
      { rewrite Hd2. apply has_table_created. reflexivity. }
      { rewrite Hd2, Hd1. cbn [d1_indexes]. apply Hix. set_solver. }
      rewrite (bind_ret_run _ _ _ _ _ E3).
      destruct (create_index_healthy "idx_coordinate_display_name"
                  "coordinate_speed_new" w3 Hh3)
        as (w4 & E4 & Hh4 & Hs4 & Hsl4 & Hr4 & Hd4).
      { rewrite Hd3, Hd2. apply has_table_created. reflexivity. }
      { rewrite Hd3, Hd2, Hd1. cbn [d1_indexes]. rewrite not_elem_of_cons.
        split; [discriminate|]. apply Hix. set_solver. }
      rewrite (bind_ret_run _ _ _ _ _ E4).
      exists w4. unfold ret. split; [reflexivity|]. split; [exact Hh4|].
      split; [same_source_chain|].
      rewrite Hd4, Hd3, Hd2, Hd1. cbn [d1_checkpoints d1_seq d1_history d1_tables d1_indexes].
      repeat split; try congruence.
      rewrite Hr4, Hr3, Hr2, !filter_app. cbn. rewrite !app_nil_r. exact Hins1.
    + destruct (String.eqb tableName "camera_locations") eqn:Em; cbn [orb].
      * apply String.eqb_eq in Em. subst tableName.
        destruct (create_table_healthy "camera_locations" w1 Hh1 Hhas1)
          as (w2 & E2 & Hh2 & Hs2 & Hsl2 & Hr2 & Hd2).
        rewrite (bind_ret_run _ _ _ _ _ E2).
        destruct (create_index_healthy "idx_camera_location_id" "camera_locations" w2 Hh2)
          as (w3 & E3 & Hh3 & Hs3 & Hsl3 & Hr3 & Hd3).
        { rewrite Hd2. apply has_table_created. reflexivity. }
        { rewrite Hd2, Hd1. cbn [d1_indexes]. apply Hix. set_solver. }
        rewrite (bind_ret_run _ _ _ _ _ E3).
        destruct (create_index_healthy "idx_camera_latitude_longitude"
                    "camera_locations" w3 Hh3)
          as (w4 & E4 & Hh4 & Hs4 & Hsl4 & Hr4 & Hd4).
        { rewrite Hd3, Hd2. apply has_table_created. reflexivity. }
        { rewrite Hd3, Hd2, Hd1. cbn [d1_indexes]. rewrite not_elem_of_cons.
          split; [discriminate|]. apply Hix. set_solver. }
        rewrite (bind_ret_run _ _ _ _ _ E4).
        destruct (create_index_healthy "idx_camera_created_at" "camera_locations" w4 Hh4)
          as (w5 & E5 & Hh5 & Hs5 & Hsl5 & Hr5 & Hd5).
        { rewrite Hd4, Hd3, Hd2. apply has_table_created. reflexivity. }
        { rewrite Hd4, Hd3, Hd2, Hd1. cbn [d1_indexes]. rewrite !not_elem_of_cons.
          split; [discriminate|]. split; [discriminate|]. apply Hix. set_solver. }
        rewrite (bind_ret_run _ _ _ _ _ E5).
        exists w5. unfold ret. split; [reflexivity|]. split; [exact Hh5|].
        split; [same_source_chain|].
        rewrite Hd5, Hd4, Hd3, Hd2, Hd1.
        cbn [d1_checkpoints d1_seq d1_history d1_tables d1_indexes].
        repeat split; try congruence.
        rewrite Hr5, Hr4, Hr3, Hr2, !filter_app. cbn. rewrite !app_nil_r. exact Hins1.
      * exists w1. unfold ret. split; [reflexivity|]. split; [exact Hh1|].
        split; [exact Hs1|]. rewrite Hd1. repeat split; assumption.
Qed.

(** X2: [ensureTargetTableExists] against a healthy database.  It always
    returns, sends no insert and leaves the checkpoint table alone.  When
    the probe finds the table, nothing is changed.  When the table is
    missing, the failed probe has been retried (pauses of 1 s and 2 s); for
    [coordinate_speed_new] and [camera_locations] the table is then created
    empty together with its indexes, for any other name nothing is created
    and the call still returns. *)
Theorem ensureTargetTableExists_healthy (tableName : string) (w : World) :
  healthy w ->
  target_indexes_consistent (w_d1 w) tableName ->
  exists w',
    ensureTargetTableExists tableName w = (w', Ret tt) /\
    d1_checkpoints (w_d1 w') = d1_checkpoints (w_d1 w) /\
    filter is_insert (w_requests w') = filter is_insert (w_requests w) /\
    (has_table (w_d1 w) tableName = true ->
       w_d1 w' = w_d1 w /\ w_sleeps w' = w_sleeps w) /\
    (has_table (w_d1 w) tableName = false ->
       w_sleeps w' = w_sleeps w ++ [1000; 2000] /\
       (supported tableName = true ->
          d1_tables (w_d1 w') = <[tableName := []]> (d1_tables (w_d1 w)) /\
          d1_indexes (w_d1 w') = rev (target_indexes tableName) ++ d1_indexes (w_d1 w)) /\
       (supported tableName = false -> w_d1 w' = w_d1 w)).
Proof.
  intros Hh Hix.
  destruct (ensureTargetTableExists_run tableName w Hh Hix)
    as (w' & E & _ & _ & Hc & _ & _ & Hr & Hcase).
  exists w'. split; [exact E|]. split; [exact Hc|]. split; [exact Hr|].
  destruct (has_table (w_d1 w) tableName).
  - split; [intros _; exact Hcase|discriminate].
  - split; [discriminate|]. intros _. destruct Hcase as [Hsl Hcase].
    split; [exact Hsl|]. destruct (supported tableName).
    + split; [intros _; exact Hcase|discriminate].
    + split; [discriminate|intros _; exact Hcase].
Qed.

End SchemaFacts.

Lemma ensureTargetTableExists_healthy_witness :
  healthy scenario_world /\
  target_indexes_consistent (w_d1 scenario_world) "camera_locations" /\
  exists w', ensureTargetTableExists "camera_locations" scenario_world = (w', Ret tt) /\
    d1_tables (w_d1 w') = <["camera_locations" := []]> (d1_tables (w_d1 scenario_world)).
Proof.
  assert (H1 : healthy scenario_world) by reflexivity.
  assert (H2 : target_indexes_consistent (w_d1 scenario_world) "camera_locations").
  { intros _ name _. apply not_elem_of_nil. }
  split; [exact H1|]. split; [exact H2|].
  destruct (ensureTargetTableExists_healthy "camera_locations" scenario_world H1 H2)
    as (w' & E & _ & _ & _ & Hmissing).
  exists w'. split; [exact E|].
  exact (proj1 (proj1 (proj2 (Hmissing eq_refl)) eq_refl)).
Defined.

Section LimitFacts.
Context `{Platform}.

Lemma sends_refl w : sends_within_limit w w.
Proof. exists []. split; [symmetry; apply app_nil_r|constructor]. Qed.

Lemma sends_trans w1 w2 w3 :
  sends_within_limit w1 w2 -> sends_within_limit w2 w3 -> sends_within_limit w1 w3.
Proof.
  intros (n1 & E1 & H1) (n2 & E2 & H2). exists (n1 ++ n2).
  split; [rewrite E2, E1, app_assoc; reflexivity|apply Forall_app; split; assumption].
Qed.

Lemma sends_of_requests w w' : w_requests w' = w_requests w -> sends_within_limit w w'.
Proof. intros E. exists []. split; [rewrite app_nil_r; exact E|constructor]. Qed.

Lemma sends_executeD1SQL sql :
  insert_within_limit sql -> preserves sends_within_limit (executeD1SQL sql).
Proof.
  intros Hq w w' o E. apply executeD1SQL_spec in E as (k & _ & _ & _ & Hreq & _).
  exists (replicate k sql). split; [exact Hreq|].
  apply Forall_replicate. exact Hq.
Qed.

Lemma sends_tick : preserves sends_within_limit tick.
Proof.
  intros w w' o E. unfold tick in E. apply sends_of_requests.
  destruct (w_gas w); injection E as <- _; reflexivity.
Qed.

Lemma sends_sleep delay : preserves sends_within_limit (sleep delay).
Proof. intros w w' o E. injection E as <- _. apply sends_of_requests. reflexivity. Qed.

Lemma sends_pg_call : preserves sends_within_limit pg_call.
Proof.
  intros w w' o E. unfold pg_call in E. apply sends_of_requests.
  destruct (head (w_pg_faults w)) as [[msg|]|]; injection E as <- _; reflexivity.
Qed.

Lemma sends_lift {A} (m : Err A) : preserves sends_within_limit (lift m).
Proof.
  intros w w' o E. apply sends_of_requests.
  destruct m; injection E as <- _; reflexivity.
Qed.

Lemma sends_pg_query_range columns startId endId :
  preserves sends_within_limit (pg_query_range columns startId endId).
Proof.
  unfold pg_query_range. apply preserves_bind; [exact sends_trans|exact sends_pg_call|].
  intros _ w w' o E. injection E as <- _. apply sends_refl.
Qed.

Lemma length_flat_params columns rows :
  length (flat_params columns rows) = (length rows * length columns)%nat.
Proof.
  unfold flat_params. induction rows as [|row rows IH]; [reflexivity|].
  cbn [mbind list_bind length]. rewrite length_app, length_fmap.
  change (length (mbind (fun row0 => get row0 <$> columns) rows)) with
    (length (rows ≫= (fun row0 => get row0 <$> columns))) in *.
  rewrite IH. lia.
Qed.

Lemma sends_executeBatchInsert cfg rows :
  Z.of_nat (length rows) <= Z.max (BATCH_SIZE cfg) 0 ->
  preserves sends_within_limit (executeBatchInsert (TABLE_NAME cfg) rows).
Proof.
  intros Hlen. unfold executeBatchInsert.
  assert (Hb : BATCH_SIZE cfg <= MAX_BATCH_SIZE cfg) by (unfold BATCH_SIZE; lia).
  unfold MAX_BATCH_SIZE, COLUMNS_COUNT, maxBatchRows, Math_floor_div, MAX_SQL_VARIABLES in Hb.
  destruct (String.eqb (TABLE_NAME cfg) "coordinate_speed_new").
  - change (100 / 5) with 20 in Hb.
    apply preserves_bind; [exact sends_trans| |intros; apply preserves_ret; exact sends_refl].
    apply sends_executeD1SQL. cbn [insert_within_limit].
    rewrite length_flat_params. cbn [coordinate_columns length]. lia.
  - change (100 / 6) with 16 in Hb.
    destruct (String.eqb (TABLE_NAME cfg) "camera_locations").
    + apply preserves_bind; [exact sends_trans| |intros; apply preserves_ret; exact sends_refl].
      apply sends_executeD1SQL. cbn [insert_within_limit].
      rewrite length_flat_params. cbn [camera_columns length]. lia.
    + apply preserves_ret. exact sends_refl.
Qed.

Lemma length_slice_le {A} (l : list A) (s e size : Z) :
  0 <= s -> 0 <= e -> 0 <= size -> e <= s + size ->
  Z.of_nat (length (slice l s e)) <= size.
Proof.
  intros Hs He0 Hsize He. unfold slice. cbv zeta. rewrite length_take, length_drop.
  destruct (s <? 0) eqn:Es; [apply Z.ltb_lt in Es; lia|].
  destruct (e <? 0) eqn:Ee; [apply Z.ltb_lt in Ee|apply Z.ltb_ge in Ee]; lia.
Qed.

(** A negative batch size makes [Math.ceil(length / BATCH_SIZE)] at most 0. *)
Lemma no_batches_negative len size (i : Z) :
  0 <= len -> size < 0 -> 0 <= i -> lt_count i (Math_ceil_div len size) = false.
Proof.
  intros Hlen Hsize Hi. unfold Math_ceil_div.
  destruct (size =? 0) eqn:E0; [apply Z.eqb_eq in E0; lia|].
  cbn [lt_count]. apply Z.ltb_ge.
  assert (0 <= (- len) / size).
  { replace size with (- (- size)) by lia. rewrite Z.div_opp_opp by lia.
    apply Z.div_pos; lia. }
  lia.
Qed.

Lemma sends_batch_loop cfg rows batches :
  (BATCH_SIZE cfg < 0 -> forall i, 0 <= i -> lt_count i batches = false) ->
  forall fuel i acc, 0 <= i ->
    preserves sends_within_limit (batch_loop fuel cfg rows batches i acc).
Proof.
  intros Hneg. induction fuel as [|fuel IH]; intros i acc Hi; cbn [batch_loop].
  - destruct (lt_count i batches).
    + intros w w' o E. injection E as <- _. apply sends_refl.
    + apply preserves_ret. exact sends_refl.
  - destruct (lt_count i batches) eqn:Elt; [|apply preserves_ret; exact sends_refl].
    assert (Hb : 0 <= BATCH_SIZE cfg).
    { destruct (Z_lt_le_dec (BATCH_SIZE cfg) 0) as [Hlt|Hge]; [|exact Hge].
      rewrite (Hneg Hlt i Hi) in Elt. discriminate. }
    apply preserves_bind; [exact sends_trans|exact sends_tick|]. intros _.
    apply preserves_bind; [exact sends_trans| |].
    { apply sends_executeBatchInsert.
      pose proof (length_slice_le rows (i * BATCH_SIZE cfg)
                    (Z.min (i * BATCH_SIZE cfg + BATCH_SIZE cfg) (Z.of_nat (length rows)))
                    (BATCH_SIZE cfg)) as Hsl.
      assert (0 <= i * BATCH_SIZE cfg) by (apply Z.mul_nonneg_nonneg; lia).
      specialize (Hsl ltac:(lia) ltac:(lia) Hb ltac:(lia)). lia. }
    intros _. apply preserves_bind; [exact sends_trans| |].
    { destruct ((i + 1) mod 100 =? 0); [|apply preserves_ret; exact sends_refl].
      apply preserves_try_catch; [exact sends_trans|exact sends_pg_call|].
      intros e. apply preserves_ret. exact sends_refl. }
    intros _. apply preserves_bind; [exact sends_trans| |].
    { destruct (lt_count i (count_pred batches));
        [exact (sends_sleep 200)|apply preserves_ret; exact sends_refl]. }
    intros _. apply IH. lia.
Qed.

Lemma sends_insert_batches cfg rows :
  preserves sends_within_limit (insert_batches cfg rows).
Proof.
  intros w w' o E. unfold insert_batches in E.
  refine (sends_batch_loop cfg rows _ _ (w_gas w) 0 0 ltac:(lia) w w' o E).
  intros Hneg i Hi. apply no_batches_negative; [lia|exact Hneg|exact Hi].
Qed.

Lemma sends_updateCheckpointStatus id st rp err :
  preserves sends_within_limit (updateCheckpointStatus id st rp err).
Proof.
  unfold updateCheckpointStatus. intros w w' o E. unfold bind at 1, now_iso in E.
  revert E. apply preserves_bind; [exact sends_trans| |intros; apply preserves_ret; exact sends_refl].
  apply sends_executeD1SQL. exact I.
Qed.

Lemma sends_fetch_and_insert cfg checkpoint :
  preserves sends_within_limit (fetch_and_insert cfg checkpoint).
Proof.
  unfold fetch_and_insert.
  apply preserves_bind; [exact sends_trans| |].
  { apply preserves_try_catch; [exact sends_trans|exact sends_pg_call|].
    intros _. exact sends_pg_call. }
  intros _. apply preserves_bind; [exact sends_trans|apply sends_pg_query_range|].
  intros rows. destruct (length rows =? 0)%nat; [apply preserves_ret; exact sends_refl|].
  apply preserves_bind; [exact sends_trans| |].
  { destruct (String.eqb (TABLE_NAME cfg) "camera_locations");
      [apply sends_lift|apply preserves_ret; exact sends_refl]. }
  intros processedRows.
  apply preserves_bind; [exact sends_trans|apply sends_insert_batches|].
  intros n. apply preserves_ret. exact sends_refl.
Qed.

Lemma sends_processCheckpoint cfg checkpoint :
  preserves sends_within_limit (processCheckpoint cfg checkpoint).
Proof.
  unfold processCheckpoint. apply preserves_try_catch; [exact sends_trans| |].
  - intros w w' o E. rewrite processCheckpoint_try_split in E. revert E.
    apply preserves_bind; [exact sends_trans|apply sends_updateCheckpointStatus|].
    intros _. apply preserves_bind; [exact sends_trans|apply sends_fetch_and_insert|].
    intros r. apply preserves_bind; [exact sends_trans|apply sends_updateCheckpointStatus|].
    intros _. apply preserves_ret. exact sends_refl.
  - intros e. unfold processCheckpoint_catch.
    apply preserves_bind; [exact sends_trans|apply sends_updateCheckpointStatus|].
    intros _. apply preserves_throw. exact sends_refl.
Qed.

(** A run is built from pieces that each keep within the limit. *)
Ltac sends_step :=
  first
    [ apply preserves_ret; exact sends_refl
    | apply preserves_throw; exact sends_refl
    | apply sends_executeD1SQL; exact I
    | exact sends_pg_call
    | exact sends_tick
    | apply sends_sleep
    | apply sends_lift
    | apply sends_pg_query_range
    | apply sends_updateCheckpointStatus
    | apply sends_processCheckpoint
    | apply preserves_bind; [exact sends_trans| |intros ?]
    | apply preserves_try_catch; [exact sends_trans| |intros ?]
    | match goal with
      | |- preserves _ (if ?c then _ else _) => destruct c
      | |- preserves _ (match ?c with _ => _ end) => destruct c
      end ].

Lemma sends_for_each {A} (f : A -> M unit) l :
  (forall x, preserves sends_within_limit (f x)) ->
  preserves sends_within_limit (for_each f l).
Proof.
  intros Hf. induction l as [|x l IH]; cbn [for_each]; [sends_step|].
  apply preserves_bind; [exact sends_trans|apply Hf|intros _; exact IH].
Qed.

Lemma sends_plan_loop size maxId : forall fuel currentStart checkpoints,
  preserves sends_within_limit (plan_loop fuel size currentStart maxId checkpoints).
Proof.
  induction fuel as [|fuel IH]; intros currentStart checkpoints; cbn [plan_loop].
  - destruct (currentStart <=? maxId); [|sends_step].
    intros w w' o E. injection E as <- _. apply sends_refl.
  - destruct (currentStart <=? maxId); [|sends_step].
    apply preserves_bind; [exact sends_trans|exact sends_tick|intros _; apply IH].
Qed.

Lemma sends_initializeCheckpoints cfg tableName totalRecords minId maxId :
  preserves sends_within_limit
    (initializeCheckpoints cfg tableName totalRecords minId maxId).
Proof.
  unfold initializeCheckpoints, ensureCheckpointsTableExists, first_count, results_of,
    createCheckpoint.
  repeat sends_step.
  all: try (apply sends_for_each; intros c; repeat sends_step).
  all: unfold plan_checkpoints; repeat sends_step.
  all: intros w w' o E; exact (sends_plan_loop _ _ _ _ _ w w' o E).
Qed.

Lemma sends_process_all cfg : forall l acc,
  preserves sends_within_limit (process_all cfg l acc).
Proof.
  induction l as [|c l IH]; intros acc; cbn [process_all]; [sends_step|].
  apply preserves_bind; [exact sends_trans|apply sends_processCheckpoint|].
  intros n. apply IH.
Qed.

Lemma sends_migrateData_try cfg : preserves sends_within_limit (migrateData_try cfg).
Proof.
  unfold migrateData_try, ensureTargetTableExists, pg_query_stats, getPendingCheckpoints,
    getLastCompletedCheckpoint, verify_count, first_count, results_of.
  repeat first [apply sends_initializeCheckpoints | apply sends_process_all | sends_step].
  all: intros w w' o E; injection E as <- _; apply sends_refl.
Qed.

(** X3: no insert statement sent by a run, or by the processing of one
    checkpoint, binds more than 100 parameters, whatever the configuration,
    the faults and the data: each carries exactly (rows x columns)
    parameters, and the effective batch size times the column count is at
    most [MAX_SQL_VARIABLES]. *)
Theorem no_insert_exceeds_parameter_limit (cfg : Config) (w : World) :
  (exists new,
     w_requests (migrateData cfg w).1 = w_requests w ++ new /\
     Forall insert_within_limit new) /\
  (forall checkpoint, exists new,
     w_requests (processCheckpoint cfg checkpoint w).1 = w_requests w ++ new /\
     Forall insert_within_limit new) /\
  BATCH_SIZE cfg * COLUMNS_COUNT cfg <= MAX_SQL_VARIABLES.
Proof.
  split; [|split].
  - unfold migrateData. destruct (migrateData_try cfg w) as [w' o] eqn:E.
    apply sends_migrateData_try in E. destruct o; exact E.
  - intros checkpoint. destruct (processCheckpoint cfg checkpoint w) as [w' o] eqn:E.
    apply sends_processCheckpoint in E. exact E.
  - assert (Hb : BATCH_SIZE cfg <= MAX_BATCH_SIZE cfg) by (unfold BATCH_SIZE; lia).
    unfold MAX_BATCH_SIZE, COLUMNS_COUNT, maxBatchRows, Math_floor_div, MAX_SQL_VARIABLES in *.
    destruct (String.eqb (TABLE_NAME cfg) "coordinate_speed_new");
      [change (100 / 5) with 20 in Hb|change (100 / 6) with 16 in Hb]; lia.
Qed.

End LimitFacts.

Section CopyFacts.
Context `{Platform}.

(** *** A healthy checkpoint copies its page *)
Lemma chunk_flat_params columns rows :
  chunk (length rows) (length columns) (flat_params columns rows) = tuples_of columns rows.
Proof.
  unfold flat_params, tuples_of. induction rows as [|row rows IH]; [reflexivity|].
  cbn [length chunk fmap list_fmap mbind list_bind].
  rewrite take_app_length', drop_app_length' by (rewrite length_fmap; reflexivity).
  f_equal. exact IH.
Qed.

Lemma insert_rows_healthy table columns rows w old :
  healthy w -> d1_tables (w_d1 w) !! table = Some old ->
  (1 <= length rows)%nat -> (length rows * length columns <= 100)%nat ->
  exists w',
    executeD1SQL (InsertRows table (length rows) (length columns)
                    (flat_params columns rows)) w = (w', Ret (Some [])) /\
    healthy w' /\ same_source w w' /\ w_clock w' = w_clock w /\
    w_d1 w' = with_appended (w_d1 w) table (tuples_of columns rows).
Proof.
  intros Hh Hold Hrows Hmax.
  destruct (executeD1SQL_healthy_answered
              (InsertRows table (length rows) (length columns) (flat_params columns rows)) w
              (with_appended (w_d1 w) table (tuples_of columns rows)) [] Hh)
    as (w1 & E1 & Hh1 & Hd1 & Hc1 & Hs1 & _).
  { cbn [d1_exec]. destruct (length rows =? 0)%nat eqn:E0; [apply Nat.eqb_eq in E0; lia|].
    rewrite length_flat_params.
    destruct (D1_MAX_PARAMS <? length rows * length columns)%nat eqn:Em.
    { apply Nat.ltb_lt in Em. unfold D1_MAX_PARAMS in Em. lia. }
    rewrite Hold, chunk_flat_params. unfold with_appended. rewrite Hold. reflexivity. }
  exists w1. repeat split; try assumption; apply Hs1.
Qed.

Lemma batch_fits cfg :
  supported (TABLE_NAME cfg) = true ->
  BATCH_SIZE cfg * Z.of_nat (length (insert_columns (TABLE_NAME cfg))) <= 100.
Proof.
  intros Hs.
  assert (Hb : BATCH_SIZE cfg <= MAX_BATCH_SIZE cfg) by (unfold BATCH_SIZE; lia).
  unfold MAX_BATCH_SIZE, COLUMNS_COUNT, maxBatchRows, Math_floor_div, MAX_SQL_VARIABLES,
    insert_columns in *.
  destruct (String.eqb (TABLE_NAME cfg) "coordinate_speed_new");
    [change (100 / 5) with 20 in Hb|change (100 / 6) with 16 in Hb]; cbn; lia.
Qed.

Lemma executeBatchInsert_supported cfg rows w old :
  supported (TABLE_NAME cfg) = true ->
  healthy w -> d1_tables (w_d1 w) !! TABLE_NAME cfg = Some old ->
  (1 <= length rows)%nat -> Z.of_nat (length rows) <= BATCH_SIZE cfg ->
  exists w',
    executeBatchInsert (TABLE_NAME cfg) rows w = (w', Ret tt) /\
    healthy w' /\ same_source w w' /\ w_clock w' = w_clock w /\
    w_d1 w' = with_appended (w_d1 w) (TABLE_NAME cfg)
                (tuples_of (insert_columns (TABLE_NAME cfg)) rows).
Proof.
  intros Hs Hh Hold Hrows Hmax. pose proof (batch_fits cfg Hs) as Hfit.
  unfold executeBatchInsert, insert_columns in *. unfold supported in Hs.
  destruct (String.eqb (TABLE_NAME cfg) "coordinate_speed_new") eqn:Ec.
  - apply String.eqb_eq in Ec. rewrite Ec in *.
    destruct (insert_rows_healthy "coordinate_speed_new" coordinate_columns rows w old
                Hh Hold Hrows) as (w1 & E1 & Hrest).
    { cbn [coordinate_columns length] in *. nia. }
    change 5%nat with (length coordinate_columns).
    rewrite (bind_ret_run _ _ _ _ _ E1). exists w1. split; [reflexivity|exact Hrest].
  - cbn [orb] in Hs. rewrite Hs. apply String.eqb_eq in Hs. rewrite Hs in *.
    destruct (insert_rows_healthy "camera_locations" camera_columns rows w old
                Hh Hold Hrows) as (w1 & E1 & Hrest).
    { cbn [camera_columns length] in *. nia. }
    change 6%nat with (length camera_columns).
    rewrite (bind_ret_run _ _ _ _ _ E1). exists w1. split; [reflexivity|exact Hrest].
Qed.

Lemma executeBatchInsert_healthy cfg rows w :
  healthy w -> table_ready cfg (w_d1 w) ->
  (1 <= length rows)%nat -> Z.of_nat (length rows) <= BATCH_SIZE cfg ->
  exists w',
    executeBatchInsert (TABLE_NAME cfg) rows w = (w', Ret tt) /\
    healthy w' /\ same_source w w' /\ w_clock w' = w_clock w /\
    w_d1 w' = appended cfg (w_d1 w) rows.
Proof.
  intros Hh Hready Hrows Hmax. unfold appended, table_ready in *.
  destruct (supported (TABLE_NAME cfg)) eqn:Hs.
  - destruct (Hready eq_refl) as [old Hold].
    exact (executeBatchInsert_supported cfg rows w old Hs Hh Hold Hrows Hmax).
  - rewrite (executeBatchInsert_unsupported _ rows w Hs). exists w.
    split; [reflexivity|]. split; [exact Hh|]. split; [apply same_source_refl|].
    split; reflexivity.
Qed.

Lemma with_appended_nil d table old :
  d1_tables d !! table = Some old -> with_appended d table [] = d.
Proof.
  intros Hold. unfold with_appended. rewrite Hold. cbn [default from_option id].
  rewrite app_nil_r, insert_id by exact Hold. destruct d; reflexivity.
Qed.

Lemma with_appended_app d table a b :
  with_appended (with_appended d table a) table b = with_appended d table (a ++ b).
Proof.
  unfold with_appended. cbn [d1_checkpoints d1_seq d1_tables d1_indexes d1_history].
  rewrite lookup_insert_eq, insert_insert_eq. cbn. rewrite app_assoc. reflexivity.
Qed.

Lemma with_appended_lookup d table rows old :
  d1_tables d !! table = Some old ->
  d1_tables (with_appended d table rows) !! table = Some (old ++ rows).
Proof.
  intros Hold. unfold with_appended. cbn [d1_tables]. rewrite lookup_insert_eq, Hold.
  reflexivity.
Qed.

Lemma slice_take_drop {A} (l : list A) (s e : Z) :
  0 <= s <= e -> e <= Z.of_nat (length l) ->
  slice l s e = take (Z.to_nat (e - s)) (drop (Z.to_nat s) l).
Proof.
  intros Hs He. unfold slice.
  destruct (s <? 0) eqn:Es; [apply Z.ltb_lt in Es; lia|].
  destruct (e <? 0) eqn:Ee; [apply Z.ltb_lt in Ee; lia|].
  rewrite !Z.min_l by lia. reflexivity.
Qed.

Lemma drop_slice {A} (l : list A) (s e e' : Z) :
  0 <= s <= e -> e = Z.min e' (Z.of_nat (length l)) ->
  drop (Z.to_nat s) l = slice l s e ++ drop (Z.to_nat e') l.
Proof.
  intros Hs He. rewrite slice_take_drop by lia.
  assert (Hd : drop (Z.to_nat e') l = drop (Z.to_nat e) l).
  { destruct (Z_le_gt_dec e' (Z.of_nat (length l))) as [Hle|Hgt].
    - f_equal. lia.
    - rewrite !drop_ge by lia. reflexivity. }
  rewrite Hd. rewrite <- (take_drop (Z.to_nat (e - s)) (drop (Z.to_nat s) l)) at 1.
  f_equal. rewrite drop_drop. f_equal. lia.
Qed.

Lemma tuples_of_app columns a b :
  tuples_of columns (a ++ b) = tuples_of columns a ++ tuples_of columns b.
Proof. unfold tuples_of. apply fmap_app. Qed.

Lemma appended_nil cfg d : table_ready cfg d -> appended cfg d [] = d.
Proof.
  unfold appended, table_ready. intros Hready.
  destruct (supported (TABLE_NAME cfg)); [|reflexivity].
  destruct (Hready eq_refl) as [old Hold]. exact (with_appended_nil _ _ old Hold).
Qed.

Lemma appended_app cfg d a b :
  appended cfg (appended cfg d a) b = appended cfg d (a ++ b).
Proof.
  unfold appended. destruct (supported (TABLE_NAME cfg)); [|reflexivity].
  rewrite with_appended_app, tuples_of_app. reflexivity.
Qed.

Lemma table_ready_appended cfg d rows :
  table_ready cfg d -> table_ready cfg (appended cfg d rows).
Proof.
  unfold appended, table_ready. intros Hready Hs. rewrite Hs.
  destruct (Hready Hs) as [old Hold]. rewrite (with_appended_lookup _ _ _ old Hold). eauto.
Qed.

Lemma table_ready_tables cfg d d' :
  d1_tables d' = d1_tables d -> table_ready cfg d -> table_ready cfg d'.
Proof. unfold table_ready. intros -> Hready. exact Hready. Qed.

Lemma appended_tables cfg d d' rows :
  d1_tables d' = d1_tables d ->
  d1_tables (appended cfg d' rows) = d1_tables (appended cfg d rows).
Proof.
  intros Ht. unfold appended, with_appended.
  destruct (supported (TABLE_NAME cfg)); [|exact Ht].
  cbn [d1_tables]. rewrite Ht. reflexivity.
Qed.

Lemma batch_loop_healthy cfg rows :
  1 <= BATCH_SIZE cfg ->
  let len := Z.of_nat (length rows) in
  let bt := - ((- len) / BATCH_SIZE cfg) in
  forall k fuel i w,
    0 <= i <= bt -> k = Z.to_nat (bt - i) -> (k <= fuel)%nat -> (k <= w_gas w)%nat ->
    healthy w -> w_pg_faults w = [] ->
    table_ready cfg (w_d1 w) ->
    exists w',
      batch_loop fuel cfg rows (Finite bt) i (Z.min (i * BATCH_SIZE cfg) len) w
        = (w', Ret len) /\
      healthy w' /\ w_pg_faults w' = [] /\ w_pg_rows w' = w_pg_rows w /\
      w_gas w' = (w_gas w - k)%nat /\
      w_d1 w' = appended cfg (w_d1 w) (drop (Z.to_nat (i * BATCH_SIZE cfg)) rows).
Proof.
  intros Hb len bt.
  destruct (ceil_div_bounds len (BATCH_SIZE cfg) Hb ltac:(subst len; lia)) as (Hbt0 & Hbt & _).
  fold bt in Hbt0, Hbt.
  induction k as [|k IH]; intros fuel i w Hi Hk Hfuel Hgas Hh Hpg Hready.
  - assert (i = bt) by lia. subst i.
    exists w. split.
    { destruct fuel; cbn [batch_loop lt_count]; rewrite Z.ltb_irrefl;
        unfold ret; rewrite Z.min_r by lia; reflexivity. }
    split; [exact Hh|]. split; [exact Hpg|]. split; [reflexivity|]. split; [lia|].
    rewrite drop_ge by lia. symmetry. apply appended_nil. exact Hready.
  - assert (Hlt : i < bt) by lia.
    destruct fuel as [|fuel]; [lia|]. cbn [batch_loop lt_count].
    apply Z.ltb_lt in Hlt as Hltb. rewrite Hltb.
    unfold bind at 1. unfold tick at 1. destruct (w_gas w) as [|g] eqn:Eg; [lia|].
    assert (Hi1 : (i + 1) * BATCH_SIZE cfg <= bt * BATCH_SIZE cfg)
      by (apply Z.mul_le_mono_nonneg_r; lia).
    assert (Hi0 : 0 <= i * BATCH_SIZE cfg) by (apply Z.mul_nonneg_nonneg; lia).
    assert (Hil : i * BATCH_SIZE cfg <= (bt - 1) * BATCH_SIZE cfg)
      by (apply Z.mul_le_mono_nonneg_r; lia).
    set (batch := slice rows (i * BATCH_SIZE cfg)
                    (Z.min (i * BATCH_SIZE cfg + BATCH_SIZE cfg) (Z.of_nat (length rows)))).
    assert (Hbl : Z.of_nat (length batch)
                  = Z.min (i * BATCH_SIZE cfg + BATCH_SIZE cfg) len - i * BATCH_SIZE cfg).
    { subst batch. apply length_slice; lia. }
    unfold bind at 1.
    match goal with |- context [executeBatchInsert _ _ ?w0] => set (wt := w0) end.
    destruct (executeBatchInsert_healthy cfg batch wt Hh Hready)
      as (w1 & E1 & Hh1 & Hs1 & Hc1 & Hd1); [lia|lia|].
    rewrite E1.
    rewrite Hbl.
    replace (Z.min (i * BATCH_SIZE cfg) len
             + (Z.min (i * BATCH_SIZE cfg + BATCH_SIZE cfg) len - i * BATCH_SIZE cfg))
      with (Z.min ((i + 1) * BATCH_SIZE cfg) len) by lia.
    destruct Hs1 as (Hrows1 & Hpg1 & Hgas1).
    unfold bind at 1.
    match goal with |- context [(if (i + 1) mod 100 =? 0 then ?a else ?b) w1] =>
      assert (Hping : exists w2, (if (i + 1) mod 100 =? 0 then a else b) w1 = (w2, Ret tt)
                /\ w_gas w2 = g /\ w_faults w2 = w_faults w1 /\ w_d1 w2 = w_d1 w1
                /\ w_pg_faults w2 = [] /\ w_pg_rows w2 = w_pg_rows w)
    end.
    { destruct ((i + 1) mod 100 =? 0).
      - unfold try_catch, pg_call. rewrite Hpg1. subst wt. cbn [w_pg_faults]. rewrite Hpg.
        cbn [head tail]. eexists. split; [reflexivity|]. cbn.
        repeat split; try reflexivity; try assumption.
      - exists w1. split; [reflexivity|]. subst wt. cbn in *.
        repeat split; try assumption. congruence. }
    destruct Hping as (w2 & -> & Hg2 & Hf2 & Hd2 & Hpg2 & Hrows2).
    unfold bind at 1.
    assert (Hsleep : exists w3,
              (if lt_count i (count_pred (Finite bt)) then sleep 200 else ret tt) w2
                = (w3, Ret tt) /\ w_gas w3 = g /\ w_faults w3 = w_faults w1
                /\ w_d1 w3 = w_d1 w1 /\ w_pg_faults w3 = [] /\ w_pg_rows w3 = w_pg_rows w).
    { destruct (lt_count i (count_pred (Finite bt))); eexists; (split; [reflexivity|]);
        cbn; repeat split; assumption. }
    destruct Hsleep as (w3 & -> & Hg3 & Hf3 & Hd3 & Hpg3 & Hrows3).
    destruct (IH fuel (i + 1) w3)
      as (w' & E' & Hh' & Hpg' & Hrows' & Hgas' & Hd'); try lia.
    { unfold healthy in *. congruence. }
    { exact Hpg3. }
    { rewrite Hd3, Hd1. apply table_ready_appended. exact Hready. }
    exists w'. split; [exact E'|]. split; [exact Hh'|]. split; [exact Hpg'|].
    split; [congruence|]. split; [lia|].
    rewrite Hd', Hd3, Hd1, appended_app. subst wt. cbn [w_d1].
    f_equal. symmetry. apply drop_slice; lia.
Qed.

Lemma length_err_map {A B} (f : A -> Err B) (l : list A) : forall l',
  err_map f l = inl l' -> length l' = length l.
Proof.
  induction l as [|x l IH]; intros l' E; cbn [err_map] in E.
  - injection E as <-. reflexivity.
  - destruct (f x) as [y|e]; [|discriminate]. cbn [err_bind] in E.
    destruct (err_map f l) as [ys|e]; [|discriminate]. cbn [err_bind] in E.
    injection E as <-. cbn [length]. rewrite (IH ys eq_refl). reflexivity.
Qed.

Lemma length_processed_rows cfg rows rows' :
  processed_rows cfg rows = inl rows' -> length rows' = length rows.
Proof.
  unfold processed_rows, transform_rows.
  destruct (String.eqb (TABLE_NAME cfg) "camera_locations").
  - apply length_err_map.
  - intros E. injection E as <-. reflexivity.
Qed.

Lemma updateCheckpointStatus_healthy_run id st rp err w cps :
  healthy w -> d1_checkpoints (w_d1 w) = Some cps ->
  exists w',
    updateCheckpointStatus id st rp err w = (w', Ret tt) /\
    healthy w' /\ same_source w w' /\ w_clock w' = w_clock w /\
    w_d1 w' = MkD1 (Some (update_rows st rp err
                            (match st with in_progress => started_at | _ => completed_at end)
                            (iso_string (w_clock w)) id cps))
                (d1_seq (w_d1 w)) (d1_tables (w_d1 w)) (d1_indexes (w_d1 w))
                (d1_history (w_d1 w) ++ status_writes st id cps).
Proof.
  intros Hh Hcps. unfold updateCheckpointStatus, bind, now_iso.
  match goal with |- context [executeD1SQL ?q w] =>
    destruct (executeD1SQL_healthy_answered q w
                (d1_exec (w_clock w) (w_d1 w) q).1 [] Hh)
      as (w1 & E1 & Hh1 & Hd1 & Hc1 & Hs1 & _)
  end.
  { cbn. rewrite Hcps. reflexivity. }
  rewrite E1. exists w1. split; [reflexivity|]. split; [exact Hh1|]. split; [exact Hs1|].
  split; [exact Hc1|]. rewrite Hd1. cbn. rewrite Hcps. reflexivity.
Qed.

Lemma fetch_and_insert_healthy cfg checkpoint w rows' :
  1 <= BATCH_SIZE cfg ->
  healthy w -> w_pg_faults w = [] ->
  table_ready cfg (w_d1 w) ->
  processed_rows cfg (fetched_rows cfg checkpoint w) = inl rows' ->
  (length rows' <= w_gas w)%nat ->
  exists w' empty,
    fetch_and_insert cfg checkpoint w = (w', Ret (Z.of_nat (length rows'), empty)) /\
    healthy w' /\ w_pg_faults w' = [] /\ w_pg_rows w' = w_pg_rows w /\
    (w_gas w - length rows' <= w_gas w')%nat /\
    w_d1 w' = appended cfg (w_d1 w) rows'.
Proof.
  intros Hb Hh Hpg Hready Hproc Hgas. unfold fetch_and_insert.
  unfold bind at 1. unfold try_catch, pg_call at 1. rewrite Hpg. cbn [head tail].
  unfold bind at 1. unfold pg_query_range, bind at 1. unfold pg_call at 1.
  cbn [w_pg_faults head tail]. cbn [w_pg_rows].
  pose proof (length_processed_rows _ _ _ Hproc) as Hlen.
  unfold fetched_rows in Hproc, Hlen.
  set (rows := select_columns (fetch_columns cfg) <$> merge_sort row_id_le
                 (filter (in_range (cp_start_id checkpoint) (cp_end_id checkpoint))
                    (w_pg_rows w))) in *.
  cbn [w_d1 w_faults w_requests w_clock w_sleeps w_gas w_pg_rows w_pg_faults].
  destruct (length rows =? 0)%nat eqn:E0.
  - apply Nat.eqb_eq in E0. rewrite E0 in Hlen.
    destruct rows' as [|r rs]; [|discriminate].
    eexists _, _. split; [reflexivity|]. cbn.
    repeat split; try assumption; try lia.
    symmetry. apply appended_nil. exact Hready.
  - apply Nat.eqb_neq in E0.
    assert (Hstep : (if String.eqb (TABLE_NAME cfg) "camera_locations"
                     then lift (transform_rows rows) else ret rows)
                    = @ret (list (gmap string value)) rows').
    { unfold processed_rows in Hproc.
      destruct (String.eqb (TABLE_NAME cfg) "camera_locations");
        [rewrite Hproc; reflexivity|injection Hproc as Hr; rewrite Hr; reflexivity]. }
    rewrite Hstep. unfold bind at 1. unfold ret at 1.
    unfold bind at 1. unfold insert_batches, Math_ceil_div.
    destruct (BATCH_SIZE cfg =? 0) eqn:EB; [apply Z.eqb_eq in EB; lia|].
    destruct (ceil_div_bounds (Z.of_nat (length rows')) (BATCH_SIZE cfg) Hb ltac:(lia))
      as (Hbt0 & _ & Hbtl).
    cbn [w_gas].
    match goal with |- context [batch_loop ?f _ _ _ _ _ ?w1] =>
      destruct (batch_loop_healthy cfg rows' Hb
                  (Z.to_nat (- (- Z.of_nat (length rows') / BATCH_SIZE cfg))) f 0 w1)
        as (w' & Erun & Hh' & Hpg' & Hrows' & Hgas' & Hd');
        [lia|rewrite Z.sub_0_r; reflexivity|lia|cbn; lia|exact Hh|reflexivity
        |exact Hready|]
    end.
    rewrite Z.mul_0_l, Z.min_l in Erun by lia.
    rewrite Erun. unfold ret. eexists _, _. split; [reflexivity|].
    split; [exact Hh'|]. split; [exact Hpg'|]. split; [exact Hrows'|].
    split; [rewrite Hgas'; cbn [w_gas]; lia|].
    rewrite Hd'. reflexivity.
Qed.

Lemma processCheckpoint_healthy (cfg : Config) (checkpoint : Checkpoint)
    (w : World) (cps : list Checkpoint) (rows' : list (gmap string value)) :
  1 <= BATCH_SIZE cfg ->
  healthy w -> w_pg_faults w = [] ->
  d1_checkpoints (w_d1 w) = Some cps ->
  table_ready cfg (w_d1 w) ->
  processed_rows cfg (fetched_rows cfg checkpoint w) = inl rows' ->
  (length rows' <= w_gas w)%nat ->
  exists w' now2,
    processCheckpoint cfg checkpoint w = (w', Ret (Z.of_nat (length rows'))) /\
    length rows' = length (fetched_rows cfg checkpoint w) /\
    healthy w' /\ w_pg_faults w' = [] /\ w_pg_rows w' = w_pg_rows w /\
    (w_gas w - length rows' <= w_gas w')%nat /\
    d1_seq (w_d1 w') = d1_seq (w_d1 w) /\ d1_indexes (w_d1 w') = d1_indexes (w_d1 w) /\
    d1_tables (w_d1 w') = d1_tables (appended cfg (w_d1 w) rows') /\
    d1_checkpoints (w_d1 w')
      = Some (update_rows completed (Z.of_nat (length rows')) None completed_at now2
                (cp_id checkpoint)
                (update_rows in_progress 0 None started_at (iso_string (w_clock w))
                   (cp_id checkpoint) cps)).
Proof.
  intros Hb Hh Hpg Hcps Hready Hproc Hgas.
  unfold processCheckpoint, try_catch. rewrite processCheckpoint_try_split.
  destruct (updateCheckpointStatus_healthy_run (cp_id checkpoint) in_progress 0 None w cps
              Hh Hcps) as (wa & Ea & Hha & (Hrows_a & Hpg_a & Hgas_a) & Hca & Hda).
  rewrite (bind_ret_run _ _ _ _ _ Ea).
  assert (Hta : d1_tables (w_d1 wa) = d1_tables (w_d1 w)) by (rewrite Hda; reflexivity).
  destruct (fetch_and_insert_healthy cfg checkpoint wa rows' Hb Hha)
    as (wb & empty & Eb & Hhb & Hpgb & Hrowsb & Hgasb & Hdb).
  { congruence. }
  { exact (table_ready_tables _ _ _ Hta Hready). }
  { unfold fetched_rows in *. rewrite Hrows_a. exact Hproc. }
  { lia. }
  rewrite (bind_ret_run _ _ _ _ _ Eb). cbn [fst].
  assert (Hcb : d1_checkpoints (w_d1 wb)
                = Some (update_rows in_progress 0 None started_at (iso_string (w_clock w))
                          (cp_id checkpoint) cps) /\
                d1_seq (w_d1 wb) = d1_seq (w_d1 w) /\
                d1_indexes (w_d1 wb) = d1_indexes (w_d1 w)).
  { rewrite Hdb. unfold appended, with_appended.
    destruct (supported (TABLE_NAME cfg)); rewrite Hda; repeat split. }
  destruct Hcb as (Hcb & Hseqb & Hixb).
  destruct (updateCheckpointStatus_healthy_run (cp_id checkpoint) completed
              (Z.of_nat (length rows')) None wb _ Hhb Hcb)
    as (wc & Ec & Hhc & (Hrows_c & Hpg_c & Hgas_c) & Hcc & Hdc).
  rewrite (bind_ret_run _ _ _ _ _ Ec). unfold ret.
  exists wc, (iso_string (w_clock wb)). split; [reflexivity|].
  split; [apply (length_processed_rows _ _ _ Hproc)|].
  split; [exact Hhc|]. split; [congruence|]. split; [congruence|]. split; [lia|].
  rewrite Hdc. cbn [d1_seq d1_indexes d1_tables d1_checkpoints].
  split; [exact Hseqb|]. split; [exact Hixb|]. split; [|reflexivity].
  rewrite Hdb. apply appended_tables. exact Hta.
Qed.

(** X4: processing one checkpoint of a supported table on a healthy run,
    for source rows that respect the NOT NULL columns of the destination.
    It returns the number of rows of its id range; the destination table
    is the old content followed by exactly those rows, in id order, each
    reduced to the inserted columns (timestamps printed for
    [camera_locations]); no other table changes; the checkpoint's own row
    ends [completed] with that count and no error message, with its range
    as before, and every other checkpoint row is untouched. *)
Theorem healthy_checkpoint_copies_its_page (cfg : Config) (checkpoint : Checkpoint)
    (w : World) (cps : list Checkpoint) (old : list (list value))
    (rows' : list (gmap string value)) :
  supported (TABLE_NAME cfg) = true -> 1 <= BATCH_SIZE cfg ->
  healthy w -> w_pg_faults w = [] ->
  d1_checkpoints (w_d1 w) = Some cps ->
  d1_tables (w_d1 w) !! TABLE_NAME cfg = Some old ->
  rows_insertable (w_pg_rows w) ->
  processed_rows cfg (fetched_rows cfg checkpoint w) = inl rows' ->
  (length rows' <= w_gas w)%nat ->
  exists w' cps',
    processCheckpoint cfg checkpoint w = (w', Ret (Z.of_nat (length rows'))) /\
    length rows' = length (fetched_rows cfg checkpoint w) /\
    d1_tables (w_d1 w') !! TABLE_NAME cfg
      = Some (old ++ tuples_of (insert_columns (TABLE_NAME cfg)) rows') /\
    (forall table, table <> TABLE_NAME cfg ->
       d1_tables (w_d1 w') !! table = d1_tables (w_d1 w) !! table) /\
    d1_checkpoints (w_d1 w') = Some cps' /\
    Forall2 (fun r r' =>
               (cp_id r <> cp_id checkpoint -> r' = r) /\
               (cp_id r = cp_id checkpoint ->
                cp_status r' = completed /\
                cp_records_processed r' = Z.of_nat (length rows') /\
                cp_error_message r' = None /\
                cp_start_id r' = cp_start_id r /\ cp_end_id r' = cp_end_id r))
      cps cps'.
Proof.
  intros Hs Hb Hh Hpg Hcps Hold _ Hproc Hgas.
  destruct (processCheckpoint_healthy cfg checkpoint w cps rows' Hb Hh Hpg Hcps
              ltac:(intros _; rewrite Hold; eauto) Hproc Hgas)
    as (w' & now2 & E & Hlen & _ & _ & _ & _ & _ & _ & Ht & Hc).
  unfold appended, with_appended in Ht. rewrite Hs, Hold in Ht. cbn [d1_tables] in Ht.
  exists w'. eexists. split; [exact E|]. split; [exact Hlen|].
  split; [rewrite Ht; apply lookup_insert_eq|].
  split; [intros table Hne; rewrite Ht; apply lookup_insert_ne; congruence|].
  split; [exact Hc|].
  apply Forall2_update_rows2. intros r _.
  destruct (cp_id r =? cp_id checkpoint) eqn:Ehit;
    [apply Z.eqb_eq in Ehit|apply Z.eqb_neq in Ehit].
  - split; [congruence|]. intros _. cbn. repeat split.
  - split; [reflexivity|]. intros Hc'. contradiction.
Qed.

End CopyFacts.

Lemma healthy_checkpoint_copies_its_page_witness :
  supported (TABLE_NAME coordinate_cfg) = true /\ 1 <= BATCH_SIZE coordinate_cfg /\
  healthy coordinate_world /\ w_pg_faults coordinate_world = [] /\
  rows_insertable (w_pg_rows coordinate_world) /\
  (length (fetched_rows coordinate_cfg checkpoint_1_7 coordinate_world)
     <= w_gas coordinate_world)%nat /\
  exists w',
    @processCheckpoint strict_platform coordinate_cfg checkpoint_1_7 coordinate_world
      = (w', Ret (Z.of_nat
                    (length (fetched_rows coordinate_cfg checkpoint_1_7 coordinate_world)))).
Proof.
  assert (H1 : supported (TABLE_NAME coordinate_cfg) = true) by reflexivity.
  assert (H2 : 1 <= BATCH_SIZE coordinate_cfg) by (vm_compute; discriminate).
  assert (H3 : healthy coordinate_world) by reflexivity.
  assert (H4 : w_pg_faults coordinate_world = []) by reflexivity.
  assert (H5 : d1_checkpoints (w_d1 coordinate_world) = Some [checkpoint_1_7])
    by reflexivity.
  assert (H6 : d1_tables (w_d1 coordinate_world) !! TABLE_NAME coordinate_cfg = Some [])
    by (vm_compute; reflexivity).
  assert (H6' : rows_insertable (w_pg_rows coordinate_world)).
  { apply Forall_forall. intros row Hin. cbn [w_pg_rows coordinate_world] in Hin.
    apply list_elem_of_fmap in Hin as (i & -> & _).
    unfold not_null, coordinate_row.
    rewrite !(lookup_insert_ne _ "id") by discriminate.
    rewrite lookup_insert_eq, lookup_insert_ne by discriminate.
    rewrite lookup_insert_eq. split; exact I. }
  assert (H7 : @processed_rows strict_platform coordinate_cfg
                 (fetched_rows coordinate_cfg checkpoint_1_7 coordinate_world)
               = inl (fetched_rows coordinate_cfg checkpoint_1_7 coordinate_world))
    by reflexivity.
  assert (H8 : (length (fetched_rows coordinate_cfg checkpoint_1_7 coordinate_world)
                <= w_gas coordinate_world)%nat) by (vm_compute; lia).
  split; [exact H1|]. split; [exact H2|]. split; [exact H3|]. split; [exact H4|].
  split; [exact H6'|]. split; [exact H8|].
  destruct (@healthy_checkpoint_copies_its_page strict_platform coordinate_cfg checkpoint_1_7
              coordinate_world [checkpoint_1_7] [] _ H1 H2 H3 H4 H5 H6 H6' H7 H8)
    as (w' & cps' & E & _).
  exists w'. exact E.
Defined.

Section KeyFacts.
Context `{Platform}.

(** *** Checkpoint ids stay distinct *)
Lemma cp_id_update_rows st rp err field now id cps :
  cp_id <$> update_rows st rp err field now id cps = cp_id <$> cps.
Proof.
  unfold update_rows. rewrite <- list_fmap_compose. apply list_fmap_ext.
  intros i c _. cbn. destruct (cp_id c =? id); reflexivity.
Qed.

Lemma ids_fresh_exec now d q d' r :
  d1_exec now d q = (d', r) -> ids_fresh d -> ids_fresh d'.
Proof.
  intros E Hw. destruct q; cbn [d1_exec] in E.
  - destruct (table_count d table); injection E as <- _; exact Hw.
  - destruct (d1_checkpoints d) eqn:Hc; injection E as <- _; [exact Hw|].
    split; cbn; [constructor|]. intros c Hin. apply elem_of_nil in Hin. contradiction.
  - destruct (has_table d table); injection E as <- _; [exact Hw|].
    destruct Hw as [Hnd Hle]. split; assumption.
  - destruct (negb (has_table d table)); [injection E as <- _; exact Hw|].
    destruct (bool_decide (name ∈ d1_indexes d)); injection E as <- _; [exact Hw|].
    destruct Hw as [Hnd Hle]. split; assumption.
  - destruct (d1_checkpoints d); injection E as <- _; exact Hw.
  - destruct (d1_checkpoints d) as [cps|] eqn:Hc; injection E as <- _; [|exact Hw].
    destruct Hw as [Hnd Hle]. rewrite Hc in Hnd, Hle. unfold set_checkpoints.
    cbn [from_option id] in Hnd, Hle. split; cbn [d1_checkpoints d1_seq from_option id].
    + apply (sublist_NoDup _ (cp_id <$> cps)); [exact Hnd|].
      apply fmap_sublist. apply sublist_filter.
    + intros c Hin. apply list_elem_of_filter in Hin as [_ Hin]. apply Hle. exact Hin.
  - destruct (d1_checkpoints d) as [cps|] eqn:Hc; injection E as <- _; [|exact Hw].
    destruct Hw as [Hnd Hle]. rewrite Hc in Hnd, Hle.
    cbn [from_option id] in Hnd, Hle. split; cbn [d1_checkpoints d1_seq from_option id].
    + rewrite fmap_app. cbn. apply NoDup_app. split; [exact Hnd|].
      split; [|apply NoDup_singleton].
      intros x Hx Hx'. apply list_elem_of_singleton in Hx'. subst x.
      apply list_elem_of_fmap in Hx as (c & Hc' & Hin). specialize (Hle c Hin). lia.
    + intros c Hin. apply elem_of_app in Hin as [Hin|Hin].
      * specialize (Hle c Hin). lia.
      * apply list_elem_of_singleton in Hin. subst c. cbn. lia.
  - destruct (d1_checkpoints d) as [cps|] eqn:Hc; injection E as <- _; [|exact Hw].
    destruct Hw as [Hnd Hle]. rewrite Hc in Hnd, Hle.
    cbn [from_option id] in Hnd, Hle. split; cbn [d1_checkpoints d1_seq from_option id].
    + rewrite cp_id_update_rows. exact Hnd.
    + intros c Hin. apply elem_of_update_rows in Hin as (r0 & Hin & ->).
      specialize (Hle r0 Hin). destruct (cp_id r0 =? checkpointId); exact Hle.
  - destruct (d1_checkpoints d); injection E as <- _; exact Hw.
  - destruct (d1_checkpoints d); injection E as <- _; exact Hw.
  - destruct (tuples =? 0)%nat; [injection E as <- _; exact Hw|].
    destruct (D1_MAX_PARAMS <? length params)%nat; [injection E as <- _; exact Hw|].
    destruct (d1_tables d !! table); injection E as <- _; [|exact Hw].
    destruct Hw as [Hnd Hle]. split; assumption.
  - destruct (table_count d table); injection E as <- _; exact Hw.
Qed.

Lemma keeps_ids_refl w : keeps_ids w w.
Proof. intros Hw. exact Hw. Qed.

Lemma keeps_ids_trans w1 w2 w3 : keeps_ids w1 w2 -> keeps_ids w2 w3 -> keeps_ids w1 w3.
Proof. intros H12 H23 Hw. apply H23, H12, Hw. Qed.

Lemma keeps_ids_of_d1 w w' : w_d1 w' = w_d1 w -> keeps_ids w w'.
Proof. intros E Hw. rewrite E. exact Hw. Qed.

Lemma keeps_ids_executeD1SQL sql : preserves keeps_ids (executeD1SQL sql).
Proof.
  apply (preserves_executeD1SQL (fun d d' => ids_fresh d -> ids_fresh d')).
  - intros x Hx. exact Hx.
  - intros x y z Hxy Hyz Hx. apply Hyz, Hxy, Hx.
  - intros now x Hx. destruct (d1_exec now x sql) as [d' r] eqn:E.
    exact (ids_fresh_exec _ _ _ _ _ E Hx).
Qed.

Ltac keeps_step :=
  first
    [ apply preserves_ret; exact keeps_ids_refl
    | apply preserves_throw; exact keeps_ids_refl
    | apply keeps_ids_executeD1SQL
    | apply (preserves_weaken d1_same); [exact keeps_ids_of_d1|];
      first [ exact preserves_pg_call | exact preserves_tick | apply preserves_sleep
            | apply preserves_lift | apply preserves_pg_query_range ]
    | apply preserves_bind; [exact keeps_ids_trans| |intros ?]
    | apply preserves_try_catch; [exact keeps_ids_trans| |intros ?]
    | match goal with
      | |- preserves _ (if ?c then _ else _) => destruct c
      | |- preserves _ (match ?c with _ => _ end) => destruct c
      end ].

Lemma keeps_ids_for_each {A} (f : A -> M unit) l :
  (forall x, preserves keeps_ids (f x)) -> preserves keeps_ids (for_each f l).
Proof.
  intros Hf. induction l as [|x l IH]; cbn [for_each]; [keeps_step|].
  apply preserves_bind; [exact keeps_ids_trans|apply Hf|intros _; exact IH].
Qed.

Lemma keeps_ids_plan_loop size maxId : forall fuel currentStart checkpoints,
  preserves keeps_ids (plan_loop fuel size currentStart maxId checkpoints).
Proof.
  induction fuel as [|fuel IH]; intros currentStart checkpoints; cbn [plan_loop].
  - destruct (currentStart <=? maxId); [|keeps_step].
    intros w w' o E. injection E as <- _. apply keeps_ids_refl.
  - destruct (currentStart <=? maxId); [|keeps_step].
    apply preserves_bind; [exact keeps_ids_trans|keeps_step|intros _; apply IH].
Qed.

Lemma keeps_ids_initializeCheckpoints cfg tableName totalRecords minId maxId :
  preserves keeps_ids (initializeCheckpoints cfg tableName totalRecords minId maxId).
Proof.
  unfold initializeCheckpoints, ensureCheckpointsTableExists, first_count, results_of,
    createCheckpoint.
  repeat keeps_step.
  all: try (apply keeps_ids_for_each; intros c; repeat keeps_step).
  all: unfold plan_checkpoints; repeat keeps_step.
  all: intros w w' o E; exact (keeps_ids_plan_loop _ _ _ _ _ w w' o E).
Qed.

Lemma keeps_ids_batch_loop cfg rows batches : forall fuel i acc,
  preserves keeps_ids (batch_loop fuel cfg rows batches i acc).
Proof.
  induction fuel as [|fuel IH]; intros i acc; cbn [batch_loop].
  - destruct (lt_count i batches); [|keeps_step].
    intros w w' o E. injection E as <- _. apply keeps_ids_refl.
  - destruct (lt_count i batches); [|keeps_step].
    unfold executeBatchInsert.
    repeat first [apply preserves_bind; [exact keeps_ids_trans| |intros _; apply IH]
                 | keeps_step].
Qed.

Lemma keeps_ids_processCheckpoint cfg checkpoint :
  preserves keeps_ids (processCheckpoint cfg checkpoint).
Proof.
  unfold processCheckpoint, processCheckpoint_catch. apply preserves_try_catch;
    [exact keeps_ids_trans| |intros e; unfold updateCheckpointStatus, now_iso; repeat keeps_step].
  - intros w w' o E. rewrite processCheckpoint_try_split in E. revert E.
    unfold updateCheckpointStatus, now_iso, fetch_and_insert, insert_batches.
    repeat keeps_step.
    all: try (intros w0 w1 o1 E1; injection E1 as <- _; apply keeps_ids_refl).
    all: intros w0 w1 o1 E1; exact (keeps_ids_batch_loop _ _ _ _ _ _ w0 w1 o1 E1).
  - intros w w' o E. injection E as <- _. apply keeps_ids_refl.
Qed.

Lemma keeps_ids_process_all cfg : forall l acc, preserves keeps_ids (process_all cfg l acc).
Proof.
  induction l as [|c l IH]; intros acc; cbn [process_all]; [keeps_step|].
  apply preserves_bind; [exact keeps_ids_trans|apply keeps_ids_processCheckpoint|].
  intros n. apply IH.
Qed.

Lemma keeps_ids_migrateData_try cfg : preserves keeps_ids (migrateData_try cfg).
Proof.
  unfold migrateData_try, ensureTargetTableExists, pg_query_stats, getPendingCheckpoints,
    getLastCompletedCheckpoint, verify_count, first_count, results_of.
  repeat first [apply keeps_ids_initializeCheckpoints | apply keeps_ids_process_all
               | keeps_step].
  all: intros w w' o E; injection E as <- _; apply keeps_ids_refl.
Qed.

(** X5: checkpoint ids are never reused.  If every stored id is below the
    autoincrement counter and the ids are distinct, the same holds after a
    whole run, after processing any checkpoint, after planning, and after
    any single statement, whatever the faults. *)
Theorem checkpoint_ids_stay_distinct (cfg : Config) (w : World) :
  ids_fresh (w_d1 w) ->
  ids_fresh (w_d1 (migrateData cfg w).1) /\
  NoDup (cp_id <$> default [] (d1_checkpoints (w_d1 (migrateData cfg w).1))) /\
  (forall checkpoint, ids_fresh (w_d1 (processCheckpoint cfg checkpoint w).1)) /\
  (forall tableName totalRecords minId maxId,
     ids_fresh (w_d1 (initializeCheckpoints cfg tableName totalRecords minId maxId w).1)) /\
  (forall now sql, ids_fresh (d1_exec now (w_d1 w) sql).1).
Proof.
  intros Hw.
  assert (Hrun : ids_fresh (w_d1 (migrateData cfg w).1)).
  { unfold migrateData. destruct (migrateData_try cfg w) as [w' o] eqn:E.
    apply keeps_ids_migrateData_try in E. destruct o; exact (E Hw). }
  split; [exact Hrun|]. split; [exact (proj1 Hrun)|]. split; [|split].
  - intros checkpoint. destruct (processCheckpoint cfg checkpoint w) as [w' o] eqn:E.
    exact (keeps_ids_processCheckpoint _ _ _ _ _ E Hw).
  - intros tableName totalRecords minId maxId.
    destruct (initializeCheckpoints cfg tableName totalRecords minId maxId w) as [w' o] eqn:E.
    exact (keeps_ids_initializeCheckpoints _ _ _ _ _ _ _ _ E Hw).
  - intros now sql. destruct (d1_exec now (w_d1 w) sql) as [d' r] eqn:E.
    exact (ids_fresh_exec _ _ _ _ _ E Hw).
Qed.

End KeyFacts.

Lemma checkpoint_ids_stay_distinct_witness :
  ids_fresh (w_d1 partial_failure_world) /\
  NoDup (cp_id <$> default []
           (d1_checkpoints (w_d1 (@migrateData strict_platform camera_cfg partial_failure_world).1))).
Proof.
  assert (Hw : ids_fresh (w_d1 partial_failure_world)).
  { split.
    - cbn. apply NoDup_singleton.
    - intros c Hc. cbn in Hc. apply list_elem_of_singleton in Hc. subst c. cbn. lia. }
  split; [exact Hw|].
  exact (proj1 (proj2 (@checkpoint_ids_stay_distinct strict_platform camera_cfg
                         partial_failure_world Hw))).
Defined.

Section StoreFacts.
Context `{Platform}.

(** *** What the Checkpoint Store reads *)
#[local] Instance start_id_le_total : Total start_id_le.
Proof. intros a b. unfold start_id_le. lia. Qed.

#[local] Instance start_id_le_trans : Transitive start_id_le.
Proof. intros a b c. unfold start_id_le. lia. Qed.

#[local] Instance end_id_ge_total : Total end_id_ge.
Proof. intros a b. unfold end_id_ge. lia. Qed.

#[local] Instance end_id_ge_trans : Transitive end_id_ge.
Proof. intros a b c. unfold end_id_ge. lia. Qed.

Lemma elem_of_listing tableName (P : Checkpoint -> bool) (R : relation Checkpoint)
    `{!forall a b, Decision (R a b)} cps c :
  c ∈ merge_sort R (filter (fun c => for_table tableName c && P c) cps) <->
  c ∈ cps /\ cp_table_name c = tableName /\ P c = true.
Proof.
  rewrite merge_sort_Permutation, list_elem_of_filter.
  unfold for_table. split.
  - intros [Hp Hin]. apply Is_true_true in Hp. apply andb_true_iff in Hp as [Ht Hp].
    apply String.eqb_eq in Ht. auto.
  - intros (Hin & Ht & Hp). split; [|exact Hin]. apply Is_true_true.
    rewrite Hp, andb_true_r. apply String.eqb_eq. exact Ht.
Qed.

(** X6: [getPendingCheckpoints] changes nothing in the database, and what
    it returns is exactly the checkpoints of the table whose status is
    [pending] or [failed], each once, in ascending order of [start_id]
    (so rows left [in_progress] by an interrupted run are never listed);
    on a healthy database with a checkpoint table it returns. *)
Theorem pending_listing_is_sorted_and_complete (tableName : string) (w : World) :
  w_d1 (getPendingCheckpoints tableName w).1 = w_d1 w /\
  match (getPendingCheckpoints tableName w).2 with
  | Ret l =>
      exists cps, d1_checkpoints (w_d1 w) = Some cps /\
        StronglySorted start_id_le l /\
        l ≡ₚ filter (fun c => for_table tableName c && is_eligible c) cps /\
        forall c, c ∈ l <->
          c ∈ cps /\ cp_table_name c = tableName /\
          (cp_status c = pending \/ cp_status c = failed)
  | Throw _ => True
  | Diverge => False
  end /\
  (forall cps, healthy w -> d1_checkpoints (w_d1 w) = Some cps ->
     exists l, (getPendingCheckpoints tableName w).2 = Ret l).
Proof.
  destruct (getPendingCheckpoints tableName w) as [w' o] eqn:E. cbn [fst snd].
  pose proof (getPendingCheckpoints_spec _ _ _ _ E) as [Hd Ho].
  split; [exact Hd|]. split.
  - destruct o as [l|e|]; [|exact I|exact Ho].
    destruct Ho as (cps & Hcps & ->). exists cps. split; [exact Hcps|].
    unfold order_by_start_id. split; [apply StronglySorted_merge_sort; apply _|].
    split; [apply merge_sort_Permutation|].
    intros c. rewrite elem_of_listing. unfold is_eligible.
    destruct (cp_status c); intuition congruence.
  - intros cps Hh Hcps.
    destruct (getPendingCheckpoints_healthy tableName w cps Hh Hcps) as (w1 & E1).
    rewrite E1 in E. injection E as _ <-. eauto.
Qed.

Lemma getLastCompletedCheckpoint_spec tableName w w' o :
  getLastCompletedCheckpoint tableName w = (w', o) ->
  w_d1 w' = w_d1 w /\
  match o with
  | Ret last =>
      exists cps, d1_checkpoints (w_d1 w) = Some cps /\
        last = head (order_by_end_id_desc
                       (filter (fun c => for_table tableName c && is_completed c) cps))
  | Throw _ => True
  | Diverge => False
  end.
Proof.
  unfold getLastCompletedCheckpoint. unfold bind at 1.
  destruct (executeD1SQL (SelectLastCompleted tableName) w) as [w1 o1] eqn:E1.
  apply executeD1SQL_reads in E1 as (_ & Hd1 & Ho1); [|reflexivity].
  destruct o1 as [r|e|]; [|intros E; injection E as <- <-; auto|contradiction].
  destruct Ho1 as (rows & now & -> & Hex). cbn [d1_exec] in Hex.
  destruct (d1_checkpoints (w_d1 w)) as [cps|] eqn:Hcps; [|discriminate].
  injection Hex as Hd <-. unfold results_of, bind, ret.
  intros E. injection E as <- <-. split; [congruence|].
  exists cps. split; [reflexivity|]. rewrite checkpoint_rows_fmap.
  destruct (order_by_end_id_desc _) as [|c l]; reflexivity.
Qed.

(** X7: [getLastCompletedCheckpoint] changes nothing in the database; it
    returns [null] only when the table has no completed checkpoint, and
    otherwise a completed checkpoint of the table whose [end_id] is the
    greatest among them; on a healthy database with a checkpoint table it
    returns. *)
Theorem last_completed_has_greatest_end (tableName : string) (w : World) :
  w_d1 (getLastCompletedCheckpoint tableName w).1 = w_d1 w /\
  match (getLastCompletedCheckpoint tableName w).2 with
  | Ret None =>
      forall c, c ∈ default [] (d1_checkpoints (w_d1 w)) ->
        cp_table_name c = tableName -> cp_status c <> completed
  | Ret (Some last) =>
      last ∈ default [] (d1_checkpoints (w_d1 w)) /\
      cp_table_name last = tableName /\ cp_status last = completed /\
      forall c, c ∈ default [] (d1_checkpoints (w_d1 w)) ->
        cp_table_name c = tableName -> cp_status c = completed ->
        cp_end_id c <= cp_end_id last
  | Throw _ => True
  | Diverge => False
  end /\
  (forall cps, healthy w -> d1_checkpoints (w_d1 w) = Some cps ->
     exists last, (getLastCompletedCheckpoint tableName w).2 = Ret last).
Proof.
  destruct (getLastCompletedCheckpoint tableName w) as [w' o] eqn:E. cbn [fst snd].
  pose proof (getLastCompletedCheckpoint_spec _ _ _ _ E) as [Hd Ho].
  split; [exact Hd|]. split.
  - destruct o as [last|e|]; [|exact I|exact Ho].
    destruct Ho as (cps & Hcps & ->). rewrite Hcps. cbn [default from_option id].
    unfold order_by_end_id_desc.
    pose proof (StronglySorted_merge_sort end_id_ge
                  (filter (fun c => for_table tableName c && is_completed c) cps)) as Hsorted.
    pose proof (elem_of_listing tableName is_completed end_id_ge cps) as Hin.
    assert (Hdone : forall c, is_completed c = true <-> cp_status c = completed).
    { intros c. unfold is_completed. destruct (cp_status c); split; congruence. }
    destruct (merge_sort end_id_ge _) as [|last l].
    + cbn [head]. intros c Hc Ht Hst.
      assert (Hnil : c ∈ @nil Checkpoint) by (apply Hin; rewrite Hdone; auto).
      apply elem_of_nil in Hnil. exact Hnil.
    + cbn [head]. destruct (proj1 (Hin last) ltac:(left)) as (Hl & Ht & Hst).
      split; [exact Hl|]. split; [exact Ht|]. split; [apply Hdone; exact Hst|].
      intros c Hc Htc Hstc.
      assert (Hcl : c ∈ last :: l) by (apply Hin; rewrite Hdone; auto).
      apply elem_of_cons in Hcl as [->|Hcl]; [lia|].
      apply StronglySorted_inv in Hsorted as [_ Hall].
      rewrite Forall_forall in Hall. exact (Hall c Hcl).
  - intros cps Hh Hcps.
    destruct (executeD1SQL_healthy_answered (SelectLastCompleted tableName) w (w_d1 w)
                (RowCheckpoint <$> take 1 (order_by_end_id_desc
                   (filter (fun c => for_table tableName c && is_completed c) cps))) Hh)
      as (w1 & E1 & _).
    { cbn. rewrite Hcps. reflexivity. }
    unfold getLastCompletedCheckpoint in E.
    rewrite (bind_ret_run _ _ _ _ _ E1) in E. unfold results_of, bind, ret in E.
    injection E as _ <-. eauto.
Qed.

End StoreFacts.

Section StatusFacts.
Context `{Platform}.

(** *** One status write *)
Lemma update_rows_absent st rp err field now id cps :
  id ∉ cp_id <$> cps -> update_rows st rp err field now id cps = cps.
Proof.
  intros Hni. unfold update_rows. rewrite <- (list_fmap_id cps) at 2.
  apply list_fmap_ext. intros i c Hc. cbn.
  destruct (cp_id c =? id) eqn:E; [|reflexivity].
  apply Z.eqb_eq in E. exfalso. apply Hni. apply list_elem_of_fmap.
  exists c. split; [congruence|]. eapply list_elem_of_lookup_2. exact Hc.
Qed.

Lemma status_writes_absent st id cps :
  id ∉ cp_id <$> cps -> status_writes st id cps = [].
Proof.
  intros Hni. unfold status_writes.
  replace (filter (fun c => cp_id c =? id) cps) with (@nil Checkpoint); [reflexivity|].
  symmetry. induction cps as [|c cps IH]; [reflexivity|].
  rewrite fmap_cons, not_elem_of_cons in Hni. destruct Hni as [Hne Hni].
  rewrite filter_cons_False.
  - apply IH. exact Hni.
  - intros Hc. apply Is_true_true in Hc. apply Z.eqb_eq in Hc. congruence.
Qed.

(** X8: [updateCheckpointStatus] on a healthy database sends one UPDATE
    and returns.  The row with the given id gets the status, the count and
    the error message; [in_progress] stamps [started_at], every other
    status (also [failed]) stamps [completed_at]; all other rows and all
    data tables are unchanged, and an id that is not in the table changes
    nothing at all. *)
Theorem status_write_effect (checkpointId : Z) (st : Status) (recordsProcessed : Z)
    (errorMessage : option string) (w : World) (cps : list Checkpoint) :
  healthy w -> d1_checkpoints (w_d1 w) = Some cps ->
  exists w' cps',
    updateCheckpointStatus checkpointId st recordsProcessed errorMessage w = (w', Ret tt) /\
    d1_checkpoints (w_d1 w') = Some cps' /\
    d1_tables (w_d1 w') = d1_tables (w_d1 w) /\
    w_requests w' = w_requests w ++
      [UpdateCheckpoint st recordsProcessed errorMessage (stamp_field st)
         (iso_string (w_clock w)) checkpointId] /\
    Forall2 (written_row checkpointId st recordsProcessed errorMessage
               (iso_string (w_clock w))) cps cps' /\
    (checkpointId ∉ cp_id <$> cps -> w_d1 w' = w_d1 w).
Proof.
  intros Hh Hcps.
  destruct (updateCheckpointStatus_healthy_run checkpointId st recordsProcessed errorMessage
              w cps Hh Hcps) as (w' & E & _ & _ & _ & Hd).
  exists w', (update_rows st recordsProcessed errorMessage (stamp_field st)
                (iso_string (w_clock w)) checkpointId cps).
  split; [exact E|]. rewrite Hd. cbn [d1_checkpoints d1_tables].
  split; [reflexivity|]. split; [reflexivity|]. split.
  { unfold updateCheckpointStatus, bind, now_iso in E.
    match type of E with context [executeD1SQL ?q w] =>
      destruct (executeD1SQL_healthy_answered q w (d1_exec (w_clock w) (w_d1 w) q).1 [] Hh)
        as (w1 & E1 & _ & _ & _ & _ & Hr1 & _)
    end.
    { cbn. rewrite Hcps. reflexivity. }
    rewrite E1 in E. injection E as <-. exact Hr1. }
  split.
  - apply Forall2_update_rows. intros r Hr. unfold written_row.
    destruct (cp_id r =? checkpointId) eqn:Ehit;
      [apply Z.eqb_eq in Ehit|apply Z.eqb_neq in Ehit].
    + split; [congruence|]. intros _. unfold stamp_field.
      destruct st; cbn; repeat split.
    + split; [reflexivity|]. intros Hc. contradiction.
  - intros Hni. rewrite update_rows_absent, status_writes_absent by exact Hni.
    rewrite app_nil_r, <- Hcps. destruct (w_d1 w); reflexivity.
Qed.

End StatusFacts.

Lemma status_write_effect_witness :
  healthy coordinate_world /\
  d1_checkpoints (w_d1 coordinate_world) = Some [checkpoint_1_7] /\
  exists w' cps',
    updateCheckpointStatus 1 failed 0 (Some "D1 API HTTP 503: unavailable") coordinate_world
      = (w', Ret tt) /\
    d1_checkpoints (w_d1 w') = Some cps'.
Proof.
  assert (H1 : healthy coordinate_world) by reflexivity.
  assert (H2 : d1_checkpoints (w_d1 coordinate_world) = Some [checkpoint_1_7])
    by reflexivity.
  split; [exact H1|]. split; [exact H2|].
  destruct (status_write_effect 1 failed 0 (Some "D1 API HTTP 503: unavailable")
              coordinate_world [checkpoint_1_7] H1 H2) as (w' & cps' & E & Hc & _).
  exists w', cps'. split; assumption.
Defined.

Section ResumeFacts.
Context `{Platform}.

(** *** A run that finds nothing to do *)
Lemma only_read_trans w1 w2 w3 : only_read w1 w2 -> only_read w2 w3 -> only_read w1 w3.
Proof.
  intros (?&?&?&?&?&?&?&?) (?&?&?&?&?&?&?&?). unfold only_read.
  repeat split; try assumption; congruence.
Qed.

Lemma healthy_read sql w rows :
  healthy w -> is_insert sql = false ->
  d1_exec (w_clock w) (w_d1 w) sql = (w_d1 w, inl rows) ->
  exists w', executeD1SQL sql w = (w', Ret (Some rows)) /\ only_read w w'.
Proof.
  intros Hh Hq Hex.
  destruct (executeD1SQL_healthy_answered sql w (w_d1 w) rows Hh Hex)
    as (w' & E & Hh' & Hd & Hc & (Hrows & Hpg & Hgas) & Hr & Hsl).
  exists w'. split; [exact E|]. unfold only_read.
  repeat split; try assumption.
  rewrite Hr, filter_app, filter_cons_False, filter_nil, app_nil_r;
    [reflexivity|]. rewrite Hq. intros Hc'. exact Hc'.
Qed.

Lemma pg_call_quiet w :
  w_pg_faults w = [] -> healthy w -> exists w', pg_call w = (w', Ret tt) /\ only_read w w'.
Proof.
  intros Hpg Hh. unfold pg_call. rewrite Hpg. cbn [head tail].
  eexists. split; [reflexivity|]. unfold only_read. cbn.
  repeat split; try assumption; try reflexivity. symmetry. exact Hpg.
Qed.

Lemma initializeCheckpoints_resume_healthy cfg tableName totalRecords minId maxId w cps :
  RESUME_MODE cfg = true -> healthy w ->
  d1_checkpoints (w_d1 w) = Some cps ->
  (0 < length (filter (for_table tableName) cps))%nat ->
  exists w',
    initializeCheckpoints cfg tableName totalRecords minId maxId w = (w', Ret tt) /\
    only_read w w'.
Proof.
  intros Hres Hh Hcps Hpos. unfold initializeCheckpoints, ensureCheckpointsTableExists.
  destruct (healthy_read (SelectProbe checkpoints_name) w
              [RowUnnamed (Z.of_nat (length cps))] Hh eq_refl)
    as (w1 & E1 & Hr1).
  { cbn. rewrite Hcps. reflexivity. }
  unfold bind at 1. unfold try_catch. rewrite (bind_ret_run _ _ _ _ _ E1). unfold ret at 1.
  destruct Hr1 as (Hh1 & Hd1 & Hrest1).
  destruct (healthy_read (CountCheckpoints tableName) w1
              [RowCount (Z.of_nat (length (filter (for_table tableName) cps)))] Hh1 eq_refl)
    as (w2 & E2 & Hr2).
  { cbn. rewrite Hd1, Hcps. reflexivity. }
  rewrite (bind_ret_run _ _ _ _ _ E2).
  unfold first_count, results_of. unfold bind at 1. unfold bind at 1. unfold ret at 1 2.
  cbv zeta.
  assert (Hz : (0 <? Z.of_nat (length (filter (for_table tableName) cps))) = true)
    by (apply Z.ltb_lt; lia).
  rewrite Hz, Hres. cbn [andb]. exists w2. split; [reflexivity|].
  apply (only_read_trans w w1 w2); [|exact Hr2]. unfold only_read. tauto.
Qed.

Lemma ensureTargetTableExists_existing tableName w :
  healthy w -> has_table (w_d1 w) tableName = true ->
  exists w', ensureTargetTableExists tableName w = (w', Ret tt) /\ only_read w w'.
Proof.
  intros Hh Hhas. unfold has_table in Hhas.
  destruct (table_count (w_d1 w) tableName) as [n|] eqn:Hn; [|discriminate].
  destruct (healthy_read (SelectProbe tableName) w [RowUnnamed n] Hh eq_refl)
    as (w1 & E1 & Hr1).
  { cbn. rewrite Hn. reflexivity. }
  unfold ensureTargetTableExists, try_catch. rewrite (bind_ret_run _ _ _ _ _ E1).
  exists w1. split; [reflexivity|exact Hr1].
Qed.

Lemma filter_none {A} (P : A -> bool) (l : list A) :
  (forall x, x ∈ l -> P x = false) -> filter P l = [].
Proof.
  induction l as [|x l IH]; intros Hall; [reflexivity|].
  rewrite filter_cons_False.
  - apply IH. intros y Hy. apply Hall. right. exact Hy.
  - rewrite (Hall x) by left. intros Hc. exact Hc.
Qed.

(** X9: a resumed run that finds checkpoints of the table, none of them
    [pending] or [failed], only reads, whether the source has rows or
    not: it reports that the migration was already completed, compares the destination count with the source
    count, exits with code 0 and writes nothing to the database.  This
    includes checkpoints stuck [in_progress], which are therefore never
    picked up again. *)
Theorem run_with_nothing_pending_only_reads (cfg : Config) (w : World)
    (cps : list Checkpoint) (count : Z) :
  RESUME_MODE cfg = true ->
  healthy w -> w_pg_faults w = [] ->
  d1_checkpoints (w_d1 w) = Some cps ->
  destination_count (w_d1 w) (TABLE_NAME cfg) = Some count ->
  (exists c, c ∈ cps /\ cp_table_name c = TABLE_NAME cfg) ->
  (forall c, c ∈ cps -> cp_table_name c = TABLE_NAME cfg ->
     cp_status c = completed \/ cp_status c = in_progress) ->
  exists w',
    migrateData_try cfg w
      = (w', Ret (AlreadyCompleted (count =? Z.of_nat (length (w_pg_rows w))))) /\
    migrateData cfg w = (w', Some 0) /\
    only_read w w'.
Proof.
  intros Hres Hh Hpg Hcps Hcount (c0 & Hc0 & Ht0) Hstuck.
  assert (Hrun : exists w',
            migrateData_try cfg w
              = (w', Ret (AlreadyCompleted (count =? Z.of_nat (length (w_pg_rows w)))))
            /\ only_read w w').
  2: { destruct Hrun as (w' & E & Hr). exists w'. split; [exact E|]. split; [|exact Hr].
       unfold migrateData. rewrite E. reflexivity. }
  unfold migrateData_try, destination_count in *.
  destruct (ensureTargetTableExists_existing (TABLE_NAME cfg) w Hh) as (w1 & E1 & Hr1).
  { unfold has_table. rewrite Hcount. reflexivity. }
  rewrite (bind_ret_run _ _ _ _ _ E1).
  pose proof Hr1 as (Hh1 & Hd1 & Hrows1 & Hpg1 & _).
  destruct (pg_call_quiet w1 ltac:(congruence) Hh1) as (w2 & E2 & Hr2).
  rewrite (bind_ret_run _ _ _ _ _ E2).
  pose proof (only_read_trans _ _ _ Hr1 Hr2) as Hr12.
  pose proof Hr12 as (Hh2 & Hd2 & Hrows2 & Hpg2 & _).
  destruct (pg_call_quiet w2 ltac:(congruence) Hh2) as (w3 & E3 & Hr3).
  pose proof (only_read_trans _ _ _ Hr12 Hr3) as Hr13.
  pose proof Hr13 as (Hh3 & Hd3 & Hrows3 & Hpg3 & _).
  unfold pg_query_stats. unfold bind at 1. unfold bind at 1. rewrite E3.
  rewrite Hrows3.
  cbn [strict_equal].
  assert (Hpos : (0 < length (filter (for_table (TABLE_NAME cfg)) cps))%nat).
  { assert (Hin : c0 ∈ filter (for_table (TABLE_NAME cfg)) cps).
    { apply list_elem_of_filter. split; [|exact Hc0]. apply Is_true_true.
      unfold for_table. apply String.eqb_eq. exact Ht0. }
    destruct (filter (for_table (TABLE_NAME cfg)) cps);
      [apply elem_of_nil in Hin; contradiction|cbn; lia]. }
  destruct (initializeCheckpoints_resume_healthy cfg (TABLE_NAME cfg)
              (Z.of_nat (length (w_pg_rows w))) (parseInt (list_min (ids_of (w_pg_rows w))))
              (parseInt (list_max (ids_of (w_pg_rows w)))) w3 cps Hres Hh3
              ltac:(congruence) Hpos)
    as (w4 & E4 & Hr4).
  rewrite (bind_ret_run _ _ _ _ _ E4).
  pose proof (only_read_trans _ _ _ Hr13 Hr4) as Hr14.
  pose proof Hr14 as (Hh4 & Hd4 & _).
  assert (Hnone : filter (fun c => for_table (TABLE_NAME cfg) c && is_eligible c) cps = []).
  { apply filter_none. intros c Hc. unfold for_table, is_eligible.
    destruct (String.eqb (cp_table_name c) (TABLE_NAME cfg)) eqn:Et; [|reflexivity].
    apply String.eqb_eq in Et. destruct (Hstuck c Hc Et) as [-> | ->]; reflexivity. }
  destruct (healthy_read (SelectPendingCheckpoints (TABLE_NAME cfg)) w4 [] Hh4 eq_refl)
    as (w5 & E5 & Hr5).
  { cbn. rewrite Hd4, Hcps, Hnone. reflexivity. }
  unfold getPendingCheckpoints. unfold bind at 1. rewrite (bind_ret_run _ _ _ _ _ E5).
  unfold results_of at 1. unfold bind at 1. unfold ret at 1 2.
  pose proof (only_read_trans _ _ _ Hr14 Hr5) as Hr15.
  pose proof Hr15 as (Hh5 & Hd5 & _).
  unfold getLastCompletedCheckpoint. unfold bind at 1. unfold bind at 1.
  match goal with |- context [executeD1SQL (SelectLastCompleted ?t) w5] =>
    destruct (healthy_read (SelectLastCompleted t) w5
                (RowCheckpoint <$> take 1 (order_by_end_id_desc
                   (filter (fun c => for_table t c && is_completed c) cps))) Hh5 eq_refl)
      as (w6 & E6 & Hr6)
  end.
  { cbn. rewrite Hd5, Hcps. reflexivity. }
  rewrite E6.
  unfold results_of at 1. unfold bind at 1. unfold ret at 1 2.
  pose proof (only_read_trans _ _ _ Hr15 Hr6) as Hr16.
  pose proof Hr16 as (Hh6 & Hd6 & _).
  cbn [checkpoint_rows omap list_omap length Nat.eqb].
  destruct (healthy_read (SelectCount (TABLE_NAME cfg)) w6 [RowCount count] Hh6 eq_refl)
    as (w7 & E7 & Hr7).
  { cbn. rewrite Hd6, Hcount. reflexivity. }
  unfold verify_count. unfold bind at 1. rewrite (bind_ret_run _ _ _ _ _ E7).
  unfold first_count, results_of, bind, ret.
  exists w7. split; [reflexivity|].
  exact (only_read_trans _ _ _ Hr16 Hr7).
Qed.

End ResumeFacts.

Lemma run_with_nothing_pending_only_reads_witness :
  RESUME_MODE camera_cfg = true /\ healthy resumed_world /\
  w_pg_faults resumed_world = [] /\
  exists w', @migrateData strict_platform camera_cfg resumed_world = (w', Some 0) /\
    w_d1 w' = w_d1 resumed_world.
Proof.
  assert (H1 : RESUME_MODE camera_cfg = true) by reflexivity.
  assert (H2 : healthy resumed_world) by reflexivity.
  assert (H3 : w_pg_faults resumed_world = []) by reflexivity.
  assert (H5 : d1_checkpoints (w_d1 resumed_world) = Some [planned_checkpoint])
    by reflexivity.
  assert (H6 : destination_count (w_d1 resumed_world) (TABLE_NAME camera_cfg) = Some 0)
    by (vm_compute; reflexivity).
  assert (H7 : exists c, c ∈ [planned_checkpoint] /\ cp_table_name c = TABLE_NAME camera_cfg).
  { exists planned_checkpoint. split; [left|reflexivity]. }
  assert (H8 : forall c, c ∈ [planned_checkpoint] -> cp_table_name c = TABLE_NAME camera_cfg ->
                 cp_status c = completed \/ cp_status c = in_progress).
  { intros c Hc _. apply list_elem_of_singleton in Hc. subst c. left. reflexivity. }
  split; [exact H1|]. split; [exact H2|]. split; [exact H3|].
  destruct (@run_with_nothing_pending_only_reads strict_platform camera_cfg resumed_world
              [planned_checkpoint] 0 H1 H2 H3 H5 H6 H7 H8) as (w' & _ & E & Hr).
  exists w'. split; [exact E|]. exact (proj1 (proj2 Hr)).
Defined.

Section PlanningFacts.
Context `{Platform}.

(** *** Planning on a healthy remote *)
Lemma planning_frame_refl w : planning_frame w w.
Proof. split; [apply same_source_refl|reflexivity]. Qed.

Lemma planning_frame_trans w1 w2 w3 :
  planning_frame w1 w2 -> planning_frame w2 w3 -> planning_frame w1 w3.
Proof.
  intros [Hs1 Ht1] [Hs2 Ht2]. split; [exact (same_source_trans _ _ _ Hs1 Hs2)|congruence].
Qed.

Lemma planning_frame_executeD1SQL sql :
  keeps_tables sql = true -> preserves planning_frame (executeD1SQL sql).
Proof.
  intros Hq w w' o E. split.
  - destruct (executeD1SQL_d1 _ _ _ _ E) as (Hs & _). exact Hs.
  - exact (proj1 (tables_same_executeD1SQL sql Hq w w' o E)).
Qed.

Lemma planning_frame_for_each tableName ranges :
  preserves planning_frame
    (for_each (fun c : Z * Z => createCheckpoint tableName c.1 c.2) ranges).
Proof.
  induction ranges as [|r ranges IH]; cbn [for_each].
  - apply preserves_ret. exact planning_frame_refl.
  - apply preserves_bind; [exact planning_frame_trans| |intros _; exact IH].
    unfold createCheckpoint.
    apply preserves_bind; [exact planning_frame_trans| |].
    + apply planning_frame_executeD1SQL. reflexivity.
    + intros _. apply preserves_ret. exact planning_frame_refl.
Qed.

Lemma planning_frame_ensure : preserves planning_frame ensureCheckpointsTableExists.
Proof.
  unfold ensureCheckpointsTableExists.
  apply preserves_try_catch; [exact planning_frame_trans| |].
  - apply preserves_bind; [exact planning_frame_trans| |].
    + apply planning_frame_executeD1SQL. reflexivity.
    + intros _. apply preserves_ret. exact planning_frame_refl.
  - intros e. destruct (includes (message e) "no such table");
      [|apply preserves_throw; exact planning_frame_refl].
    repeat (apply preserves_bind;
            [exact planning_frame_trans|apply planning_frame_executeD1SQL; reflexivity
            |intros _]).
    apply preserves_ret. exact planning_frame_refl.
Qed.

Lemma plan_loop_budget size maxId : forall fuel currentStart checkpoints w w' l,
  plan_loop fuel size currentStart maxId checkpoints w = (w', Ret l) ->
  w_pg_rows w' = w_pg_rows w /\ w_pg_faults w' = w_pg_faults w /\
  (w_gas w = w_gas w' + (length l - length checkpoints))%nat /\
  (length checkpoints <= length l)%nat.
Proof.
  induction fuel as [|fuel IH]; intros cur acc w w' l E; cbn [plan_loop] in E.
  - destruct (cur <=? maxId); [discriminate|].
    injection E as <- <-. repeat split; lia.
  - destruct (cur <=? maxId); [|injection E as <- <-; repeat split; lia].
    unfold bind at 1 in E. unfold tick at 1 in E.
    destruct (w_gas w) as [|g] eqn:Eg; [discriminate|].
    apply IH in E as (Hr & Hp & Hg & Hl). cbn in Hr, Hp, Hg.
    rewrite length_app in Hg, Hl. cbn [length] in Hg, Hl.
    repeat split; try assumption; lia.
Qed.

Lemma planning_healthy cfg tableName totalRecords minId maxId w :
  1 <= CHECKPOINT_SIZE cfg -> minId <= maxId ->
  safe_integer minId -> safe_integer (maxId + CHECKPOINT_SIZE cfg) ->
  healthy w -> checkpoint_indexes_consistent (w_d1 w) ->
  (window_count (CHECKPOINT_SIZE cfg) minId maxId <= w_gas w)%nat ->
  RESUME_MODE cfg = false \/
    filter (for_table tableName) (default [] (d1_checkpoints (w_d1 w))) = [] ->
  exists w' kept news,
    initializeCheckpoints cfg tableName totalRecords (Some minId) (Some maxId) w
      = (w', Ret tt) /\
    healthy w' /\
    d1_checkpoints (w_d1 w') = Some (kept ++ news) /\
    filter (for_table tableName) kept = [] /\
    Forall2 (planned_row tableName)
      (window (CHECKPOINT_SIZE cfg) minId maxId <$>
         seq 0 (window_count (CHECKPOINT_SIZE cfg) minId maxId)) news /\
    d1_tables (w_d1 w') = d1_tables (w_d1 w) /\
    w_pg_rows w' = w_pg_rows w /\ w_pg_faults w' = w_pg_faults w /\
    (w_gas w' = w_gas w - window_count (CHECKPOINT_SIZE cfg) minId maxId)%nat.
Proof.
  intros Hsize Hmm Hsmin Hsmax Hh Hix Hgas Hfresh.
  apply safe_integer_bounds in Hsmin, Hsmax.
  set (size := CHECKPOINT_SIZE cfg) in *.
  unfold initializeCheckpoints.
  destruct (ensureCheckpointsTableExists_healthy w Hh Hix) as (w1 & E1 & Hh1 & Hg1 & Hd1).
  pose proof (planning_frame_ensure _ _ _ E1) as [(Hr1 & Hp1 & _) Ht1].
  set (cps0 := default [] (d1_checkpoints (w_d1 w))) in *.
  unfold bind at 1. rewrite E1.
  destruct (executeD1SQL_healthy_answered (CountCheckpoints tableName) w1 (w_d1 w1)
              [RowCount (Z.of_nat (length (filter (for_table tableName) cps0)))] Hh1)
    as (w2 & E2 & Hh2 & Hd2 & _ & (Hr2 & Hp2 & Hg2) & _).
  { cbn. rewrite Hd1. reflexivity. }
  unfold bind at 1. rewrite E2.
  unfold bind at 1. unfold first_count, results_of. unfold bind at 1. unfold ret at 1 2.
  assert (Hclear : exists w3 cps1,
    (if (0 <? Z.of_nat (length (filter (for_table tableName) cps0))) && negb (RESUME_MODE cfg)
     then bind (executeD1SQL (DeleteCheckpoints tableName)) (fun _ => ret tt)
     else ret tt) w2 = (w3, Ret tt) /\
    healthy w3 /\ planning_frame w2 w3 /\ d1_checkpoints (w_d1 w3) = Some cps1 /\
    filter (for_table tableName) cps1 = [] /\
    ((0 <? Z.of_nat (length (filter (for_table tableName) cps0))) && RESUME_MODE cfg = false)).
  { destruct (0 <? Z.of_nat (length (filter (for_table tableName) cps0))) eqn:Epos.
    - apply Z.ltb_lt in Epos.
      destruct Hfresh as [Hres|Hnone]; [|rewrite Hnone in Epos; cbn in Epos; lia].
      rewrite Hres. cbn [negb andb].
      destruct (executeD1SQL_healthy_answered (DeleteCheckpoints tableName) w2
                  (set_checkpoints (w_d1 w2)
                     (Some (filter (fun c => negb (for_table tableName c)) cps0))) [] Hh2)
        as (w3 & E3 & Hh3 & Hd3 & _ & Hs3 & _).
      { cbn. rewrite Hd2, Hd1. reflexivity. }
      exists w3, (filter (fun c => negb (for_table tableName c)) cps0).
      unfold bind. rewrite E3. unfold ret.
      split; [reflexivity|]. split; [exact Hh3|].
      split; [split; [exact Hs3|rewrite Hd3; reflexivity]|].
      split; [rewrite Hd3; reflexivity|].
      split; [apply filter_for_table_deleted|reflexivity].
    - cbn [andb]. exists w2, cps0. unfold ret.
      split; [reflexivity|]. split; [exact Hh2|].
      split; [apply planning_frame_refl|].
      split; [rewrite Hd2, Hd1; reflexivity|].
      split; [|reflexivity].
      apply Z.ltb_ge in Epos. apply length_zero_iff_nil. lia. }
  destruct Hclear as (w3 & cps1 & E3 & Hh3 & [(Hr3 & Hp3 & Hg3) Ht3] & Hd3 & Hnone & Hbranch).
  rewrite Hbranch. unfold bind at 1. rewrite E3.
  set (n := window_count size minId maxId) in *.
  destruct (plan_loop_run size maxId Hsize ltac:(lia) n (w_gas w3) minId [] w3)
    as (w4 & E4 & Hd4 & Hf4 & _); [lia|lia|reflexivity|lia|lia|].
  pose proof (plan_loop_budget _ _ _ _ _ _ _ _ E4) as (Hr4 & Hp4 & Hg4 & _).
  rewrite app_nil_l, length_fmap, length_seq in Hg4. cbn [length] in Hg4.
  unfold bind at 1. unfold plan_checkpoints. cbv beta iota.
  change (CHECKPOINT_SIZE cfg) with size. rewrite E4. cbn [app].
  destruct (create_checkpoints_healthy tableName (window size minId maxId <$> seq 0 n) w4 cps1)
    as (w5 & news & E5 & Hh5 & Hd5 & Hall); [unfold healthy; congruence|congruence|].
  pose proof (planning_frame_for_each _ _ _ _ _ E5) as [(Hr5 & Hp5 & Hg5) Ht5].
  rewrite E5. exists w5, cps1, news. split; [reflexivity|]. split; [exact Hh5|].
  split; [exact Hd5|]. split; [exact Hnone|]. split; [exact Hall|].
  split; [rewrite Ht5, Hd4, Ht3, Hd2; exact Ht1|].
  split; [congruence|]. split; [congruence|]. lia.
Qed.

End PlanningFacts.

Section PartitionFacts.
Context `{Platform}.

(** *** The windows partition the source rows *)
Lemma sum_list_with_add {A} (f g : A -> nat) l :
  sum_list_with (fun x => (f x + g x)%nat) l
    = (sum_list_with f l + sum_list_with g l)%nat.
Proof. induction l as [|x l IH]; cbn; [reflexivity|]. rewrite IH. lia. Qed.

Lemma sum_list_with_ext {A} (f g : A -> nat) l :
  (forall x, x ∈ l -> f x = g x) -> sum_list_with f l = sum_list_with g l.
Proof.
  induction l as [|x l IH]; intros Hfg; cbn; [reflexivity|].
  rewrite (Hfg x) by left. rewrite IH; [reflexivity|].
  intros y Hy. apply Hfg. right. exact Hy.
Qed.

Lemma sum_list_with_zero {A} (f : A -> nat) l :
  (forall x, x ∈ l -> f x = 0%nat) -> sum_list_with f l = 0%nat.
Proof.
  induction l as [|x l IH]; intros Hf; cbn; [reflexivity|].
  rewrite (Hf x) by left. rewrite IH; [reflexivity|].
  intros y Hy. apply Hf. right. exact Hy.
Qed.

Lemma sum_list_with_map {A B} (f : B -> nat) (g : A -> B) l :
  sum_list_with f (g <$> l) = sum_list_with (fun x => f (g x)) l.
Proof. induction l as [|x l IH]; cbn; [reflexivity|]. rewrite IH. reflexivity. Qed.

Lemma sum_list_with_one {A} (f : A -> nat) l x0 :
  NoDup l -> x0 ∈ l -> f x0 = 1%nat -> (forall x, x ∈ l -> x <> x0 -> f x = 0%nat) ->
  sum_list_with f l = 1%nat.
Proof.
  induction l as [|x l IH]; intros Hnd Hin H1 H0.
  - apply elem_of_nil in Hin. contradiction.
  - apply NoDup_cons in Hnd as [Hx Hnd]. cbn.
    apply elem_of_cons in Hin as [->|Hin].
    + rewrite H1, sum_list_with_zero; [reflexivity|].
      intros y Hy. apply H0; [right; exact Hy|]. intros ->. contradiction.
    + rewrite (H0 x) by (first [left|intros ->; contradiction]).
      apply IH; try assumption. intros y Hy. apply H0. right. exact Hy.
Qed.

Lemma in_window size minId maxId (i : nat) x :
  1 <= size -> minId <= x <= maxId ->
  ((window size minId maxId i).1 <=? x) && (x <=? (window size minId maxId i).2) = true
  <-> i = Z.to_nat ((x - minId) / size).
Proof.
  intros Hs Hx. unfold window. cbn [fst snd].
  pose proof (Z.div_mod (x - minId) size ltac:(lia)) as Hdm.
  pose proof (Z.mod_pos_bound (x - minId) size ltac:(lia)) as Hb.
  assert (Hq : 0 <= (x - minId) / size) by (apply Z.div_pos; lia).
  rewrite andb_true_iff, Z.leb_le, Z.leb_le. split.
  - intros [Hlo Hhi].
    assert (Hi : Z.of_nat i = (x - minId) / size).
    { apply (Z.div_unique (x - minId) size (Z.of_nat i) (x - minId - size * Z.of_nat i));
        [left; lia|lia]. }
    lia.
  - intros ->. rewrite Z2Nat.id by exact Hq. nia.
Qed.

Lemma length_filter_cons {A} (P : A -> bool) x l :
  length (filter P (x :: l)) = ((if P x then 1 else 0) + length (filter P l))%nat.
Proof.
  destruct (P x) eqn:E.
  - rewrite filter_cons_True by (rewrite E; exact I). reflexivity.
  - rewrite filter_cons_False by (rewrite E; exact id). reflexivity.
Qed.

Lemma window_hits_once size minId maxId row x :
  1 <= size -> minId <= maxId -> row_id row = Some x -> minId <= x <= maxId ->
  sum_list_with (fun r : Z * Z => if in_range r.1 r.2 row then 1%nat else 0%nat)
    (window size minId maxId <$> seq 0 (window_count size minId maxId)) = 1%nat.
Proof.
  intros Hs Hmm Hid Hx.
  destruct (window_count_bounds size minId maxId Hs Hmm) as (_ & Hnb & _).
  set (n := window_count size minId maxId) in *.
  set (i0 := Z.to_nat ((x - minId) / size)).
  assert (Hq : 0 <= (x - minId) / size) by (apply Z.div_pos; lia).
  assert (Hi0 : (i0 < n)%nat).
  { subst i0. apply Nat2Z.inj_lt. rewrite Z2Nat.id by exact Hq.
    apply Z.div_lt_upper_bound; [lia|]. rewrite Z.mul_comm. lia. }
  rewrite sum_list_with_map.
  apply (sum_list_with_one _ _ i0).
  - apply NoDup_seq.
  - apply elem_of_seq. lia.
  - unfold in_range. rewrite Hid.
    rewrite (proj2 (in_window size minId maxId i0 x Hs Hx) eq_refl). reflexivity.
  - intros i _ Hne. unfold in_range. rewrite Hid.
    destruct ((window size minId maxId i).1 <=? x) eqn:E1; [|reflexivity].
    destruct (x <=? (window size minId maxId i).2) eqn:E2; [|reflexivity].
    exfalso. apply Hne. apply (in_window size minId maxId i x Hs Hx).
    rewrite E1, E2. reflexivity.
Qed.

Lemma pages_partition size minId maxId rows :
  1 <= size -> minId <= maxId -> ids_within minId maxId rows ->
  sum_list_with (page_size rows)
    (window size minId maxId <$> seq 0 (window_count size minId maxId))
  = length rows.
Proof.
  intros Hs Hmm Hall. unfold page_size.
  induction Hall as [|row rows (x & Hid & Hx) _ IH].
  - apply sum_list_with_zero. intros r _. reflexivity.
  - rewrite (sum_list_with_ext _
               (fun r => ((if in_range r.1 r.2 row then 1 else 0)
                          + length (filter (in_range r.1 r.2) rows))%nat))
      by (intros r _; apply length_filter_cons).
    rewrite sum_list_with_add, IH. cbn [length].
    rewrite (window_hits_once size minId maxId row x Hs Hmm Hid Hx). reflexivity.
Qed.

Lemma bind_filter_cons {A B} (P : B -> A -> bool) (x : A) (l : list A) (ws : list B) :
  ws ≫= (fun b => filter (P b) (x :: l))
  ≡ₚ replicate (sum_list_with (fun b => if P b x then 1%nat else 0%nat) ws) x
       ++ (ws ≫= (fun b => filter (P b) l)).
Proof.
  induction ws as [|b ws IH]; [reflexivity|].
  rewrite !bind_cons, IH. cbn [sum_list_with].
  destruct (P b x) eqn:E.
  - rewrite filter_cons_True by (rewrite E; exact I). cbn [Nat.add replicate app].
    apply perm_skip. rewrite !app_assoc. apply Permutation_app_tail.
    apply Permutation_app_comm.
  - rewrite filter_cons_False by (rewrite E; exact id). cbn [Nat.add].
    rewrite !app_assoc. apply Permutation_app_tail. apply Permutation_app_comm.
Qed.

Lemma pages_Permutation size minId maxId rows :
  1 <= size -> minId <= maxId -> ids_within minId maxId rows ->
  (window size minId maxId <$> seq 0 (window_count size minId maxId))
    ≫= (fun r => filter (in_range r.1 r.2) rows)
  ≡ₚ rows.
Proof.
  intros Hs Hmm Hall.
  induction Hall as [|row rows (x & Hid & Hx) _ IH].
  - induction (window size minId maxId <$> seq 0 (window_count size minId maxId))
      as [|r rs IHr]; [reflexivity|]. rewrite bind_cons, IHr. reflexivity.
  - rewrite (bind_filter_cons (fun r : Z * Z => in_range r.1 r.2)), IH.
    rewrite (window_hits_once size minId maxId row x Hs Hmm Hid Hx). reflexivity.
Qed.

End PartitionFacts.

Section WholeRunFacts.
Context `{Platform}.

(** *** A healthy run *)
Lemma foldr_min_le xs : forall x y, y ∈ x :: xs -> foldr Z.min x xs <= y.
Proof.
  induction xs as [|z xs IH]; intros x y Hy; cbn [foldr].
  - apply list_elem_of_singleton in Hy. lia.
  - apply elem_of_cons in Hy as [->|Hy].
    + specialize (IH x x ltac:(left)). lia.
    + apply elem_of_cons in Hy as [->|Hy]; [lia|].
      specialize (IH x y ltac:(right; exact Hy)). lia.
Qed.

Lemma foldr_max_ge xs : forall x y, y ∈ x :: xs -> y <= foldr Z.max x xs.
Proof.
  induction xs as [|z xs IH]; intros x y Hy; cbn [foldr].
  - apply list_elem_of_singleton in Hy. lia.
  - apply elem_of_cons in Hy as [->|Hy].
    + specialize (IH x x ltac:(left)). lia.
    + apply elem_of_cons in Hy as [->|Hy]; [lia|].
      specialize (IH x y ltac:(right; exact Hy)). lia.
Qed.

Lemma source_ids_within rows :
  rows <> [] -> Forall (fun row => is_Some (row_id row)) rows ->
  exists minId maxId,
    list_min (ids_of rows) = Some minId /\ list_max (ids_of rows) = Some maxId /\
    minId <= maxId /\ ids_within minId maxId rows.
Proof.
  intros Hne Hall.
  assert (Hin : forall row, row ∈ rows -> exists x, row_id row = Some x /\ x ∈ ids_of rows).
  { intros row Hrow. rewrite Forall_forall in Hall. destruct (Hall row Hrow) as [x Hx].
    exists x. split; [exact Hx|]. unfold ids_of. apply list_elem_of_omap. eauto. }
  destruct rows as [|row0 rows]; [congruence|].
  destruct (Hin row0 ltac:(left)) as (x0 & Hx0 & Hx0in).
  destruct (ids_of (row0 :: rows)) as [|i ids] eqn:Eids;
    [apply elem_of_nil in Hx0in; contradiction|].
  exists (foldr Z.min i ids), (foldr Z.max i ids). cbn [list_min list_max].
  split; [reflexivity|]. split; [reflexivity|].
  pose proof (foldr_min_le ids i) as Hmin. pose proof (foldr_max_ge ids i) as Hmax.
  split; [specialize (Hmin i ltac:(left)); specialize (Hmax i ltac:(left)); lia|].
  apply Forall_forall. intros row Hrow. destruct (Hin row Hrow) as (x & Hx & Hxin).
  exists x. split; [exact Hx|]. split; [apply Hmin|apply Hmax]; exact Hxin.
Qed.

Lemma err_map_total {A B} (f : A -> Err B) (l : list A) :
  Forall (fun x => exists y, f x = inl y) l -> exists l', err_map f l = inl l'.
Proof.
  induction 1 as [|x l [y Hy] _ [l' IH]]; [exists []; reflexivity|].
  exists (y :: l'). cbn [err_map]. rewrite Hy. cbn [err_bind]. rewrite IH. reflexivity.
Qed.

Lemma pages_transformable cfg checkpoint w :
  timestamps_valid cfg (w_pg_rows w) ->
  exists rows', processed_rows cfg (fetched_rows cfg checkpoint w) = inl rows'.
Proof.
  intros Hvalid. unfold processed_rows.
  destruct (String.eqb (TABLE_NAME cfg) "camera_locations") eqn:Ec; [|eauto].
  apply String.eqb_eq in Ec. specialize (Hvalid Ec).
  apply err_map_total. unfold fetched_rows. rewrite Forall_fmap.
  apply Forall_forall. intros row Hrow.
  rewrite merge_sort_Permutation in Hrow. apply list_elem_of_filter in Hrow as [_ Hrow].
  rewrite Forall_forall in Hvalid. exact (Hvalid row Hrow).
Qed.

Lemma length_fetched_rows cfg checkpoint w :
  length (fetched_rows cfg checkpoint w)
    = page_size (w_pg_rows w) (range_of_checkpoint checkpoint).
Proof.
  unfold fetched_rows, page_size, range_of_checkpoint. rewrite length_fmap.
  apply Permutation_length. apply merge_sort_Permutation.
Qed.

Lemma fetched_rows_source cfg checkpoint w w' :
  w_pg_rows w' = w_pg_rows w -> fetched_rows cfg checkpoint w' = fetched_rows cfg checkpoint w.
Proof. unfold fetched_rows. intros ->. reflexivity. Qed.

Lemma process_all_healthy cfg :
  1 <= BATCH_SIZE cfg ->
  forall todo acc w cps,
    healthy w -> w_pg_faults w = [] ->
    timestamps_valid cfg (w_pg_rows w) ->
    d1_checkpoints (w_d1 w) = Some cps ->
    table_ready cfg (w_d1 w) ->
    (sum_list_with (fun c => page_size (w_pg_rows w) (range_of_checkpoint c)) todo
       <= w_gas w)%nat ->
    exists w' cps' pages,
      process_all cfg todo acc w
        = (w', Ret (acc + Z.of_nat
                            (sum_list_with
                               (fun c => page_size (w_pg_rows w) (range_of_checkpoint c))
                               todo))) /\
      healthy w' /\ w_pg_faults w' = [] /\ w_pg_rows w' = w_pg_rows w /\
      d1_checkpoints (w_d1 w') = Some cps' /\
      Forall2 (fun c page => processed_rows cfg (fetched_rows cfg c w) = inl page)
        todo pages /\
      d1_tables (w_d1 w') = d1_tables (appended cfg (w_d1 w) (concat pages)) /\
      Forall2 (processed_row (cp_id <$> todo)) cps cps'.
Proof.
  intros Hb. induction todo as [|c todo IH]; intros acc w cps Hh Hpg Hvalid Hcps Hready Hgas.
  - exists w, cps, []. cbn [process_all sum_list_with concat]. unfold ret.
    rewrite Z.add_0_r, (appended_nil _ _ Hready). repeat split; try assumption.
    { constructor. }
    apply Forall2_same. intros r _. unfold processed_row. cbn [fmap list_fmap].
    repeat split; try reflexivity. intros Hin. apply elem_of_nil in Hin. contradiction.
  - cbn [process_all sum_list_with] in *.
    destruct (pages_transformable cfg c w Hvalid) as [rows' Hproc].
    pose proof (length_processed_rows _ _ _ Hproc) as Hlen.
    rewrite length_fetched_rows in Hlen.
    destruct (processCheckpoint_healthy cfg c w cps rows' Hb Hh Hpg Hcps Hready Hproc
                ltac:(lia))
      as (w1 & now2 & E1 & _ & Hh1 & Hpg1 & Hrows1 & Hgas1 & _ & _ & Ht1 & Hc1).
    rewrite (bind_ret_run _ _ _ _ _ E1).
    destruct (IH (acc + Z.of_nat (length rows')) w1 _
                Hh1 Hpg1 ltac:(rewrite Hrows1; exact Hvalid) Hc1
                (table_ready_tables _ _ _ Ht1 (table_ready_appended _ _ rows' Hready))
                ltac:(rewrite Hrows1; lia))
      as (w' & cps' & pages & E' & Hh' & Hpg' & Hrows' & Hc' & Hpages & Ht' & Hall').
    rewrite Hrows1 in *.
    exists w', cps', (rows' :: pages). split.
    { rewrite E'. do 2 f_equal. rewrite Hlen. lia. }
    split; [exact Hh'|]. split; [exact Hpg'|]. split; [congruence|].
    split; [exact Hc'|]. split.
    { constructor; [exact Hproc|]. eapply Forall2_impl; [exact Hpages|].
      intros c' page Hc'p. rewrite <- (fetched_rows_source cfg c' w w1 Hrows1). exact Hc'p. }
    split.
    { rewrite Ht', (appended_tables _ _ _ (concat pages) Ht1), appended_app. reflexivity. }
    refine (Forall2_trans
              (fun r r1 =>
                 r1 = if cp_id r =? cp_id c
                      then update_row completed (Z.of_nat (length rows')) None completed_at now2
                             (update_row in_progress 0 None started_at
                                (iso_string (w_clock w)) r)
                      else r) _ _ _ _ _ _ _ Hall');
      [|apply Forall2_update_rows2; intros r _; reflexivity].
    intros r r1 r' -> (Hid & Htab & Hdone & Hkeep).
    unfold processed_row. cbn [fmap list_fmap].
    destruct (cp_id r =? cp_id c) eqn:Ehit;
      [apply Z.eqb_eq in Ehit|apply Z.eqb_neq in Ehit];
      cbn [update_row cp_id cp_table_name cp_status] in Hid, Htab, Hdone, Hkeep.
    + split; [exact Hid|]. split; [exact Htab|]. split.
      * intros _. destruct (decide (cp_id r ∈ cp_id <$> todo)) as [Hin|Hni];
          [exact (Hdone Hin)|rewrite (Hkeep Hni); reflexivity].
      * intros Hni. exfalso. apply Hni. apply elem_of_cons. left. exact Ehit.
    + split; [exact Hid|]. split; [exact Htab|]. split.
      * intros Hin. apply elem_of_cons in Hin as [Heq|Hin]; [congruence|exact (Hdone Hin)].
      * intros Hni. apply Hkeep. intros Hin. apply Hni. right. exact Hin.
Qed.

Lemma err_map_app {A B} (f : A -> Err B) a b a' b' :
  err_map f a = inl a' -> err_map f b = inl b' -> err_map f (a ++ b) = inl (a' ++ b').
Proof.
  revert a'. induction a as [|x a IH]; intros a' Ha Hb; cbn [err_map app] in *.
  - injection Ha as <-. exact Hb.
  - destruct (f x) as [y|e]; cbn [err_bind] in *; [|discriminate].
    destruct (err_map f a) as [ys|e]; cbn [err_bind] in *; [|discriminate].
    injection Ha as <-. rewrite (IH ys eq_refl Hb). reflexivity.
Qed.

Lemma processed_rows_bind {A} cfg (f : A -> list (gmap string value)) l pages :
  Forall2 (fun c page => processed_rows cfg (f c) = inl page) l pages ->
  processed_rows cfg (l ≫= f) = inl (concat pages).
Proof.
  unfold processed_rows, transform_rows.
  destruct (String.eqb (TABLE_NAME cfg) "camera_locations").
  - induction 1 as [|c page l pages Hc _ IH]; [reflexivity|].
    rewrite bind_cons. cbn [concat]. apply err_map_app; assumption.
  - induction 1 as [|c page l pages Hc _ IH]; [reflexivity|].
    rewrite bind_cons. cbn [concat]. injection Hc as <-. injection IH as <-. reflexivity.
Qed.

Lemma fetched_pages cfg w ranges cps :
  Forall2 (fun r c => range_of_checkpoint c = r) ranges cps ->
  cps ≫= (fun c => fetched_rows cfg c w)
  ≡ₚ select_columns (fetch_columns cfg) <$>
       (ranges ≫= (fun r => filter (in_range r.1 r.2) (w_pg_rows w))).
Proof.
  induction 1 as [|r c ranges cps Hr _ IH]; [reflexivity|].
  rewrite !bind_cons, fmap_app, IH. apply Permutation_app_tail.
  unfold fetched_rows. rewrite merge_sort_Permutation. subst r. reflexivity.
Qed.

Lemma supported_not_checkpoints table :
  supported table = true -> String.eqb table checkpoints_name = false.
Proof.
  unfold supported. intros Hs. apply orb_true_iff in Hs as [Hs|Hs];
    apply String.eqb_eq in Hs; subst table; reflexivity.
Qed.

Lemma checkpoint_indexes_after_target d d' table :
  supported table = true ->
  checkpoint_indexes_consistent d ->
  d1_checkpoints d' = d1_checkpoints d ->
  d1_indexes d' = d1_indexes d \/ d1_indexes d' = rev (target_indexes table) ++ d1_indexes d ->
  checkpoint_indexes_consistent d'.
Proof.
  intros Hs Hix Hc [Hi|Hi] Hnone; rewrite Hc in Hnone; destruct (Hix Hnone) as [H1 H2];
    rewrite Hi; [split; assumption|].
  unfold supported, target_indexes in *.
  destruct (String.eqb table "coordinate_speed_new").
  - cbn. rewrite !not_elem_of_cons. repeat split; try discriminate; assumption.
  - cbn [orb] in Hs. rewrite Hs. cbn. rewrite !not_elem_of_cons.
    repeat split; try discriminate; assumption.
Qed.

Lemma sum_list_with_Forall2 {A B} (f : A -> nat) (g : B -> A) l k :
  Forall2 (fun a b => g b = a) l k ->
  sum_list_with (fun b => f (g b)) k = sum_list_with f l.
Proof. induction 1 as [|a b l k Hab _ IH]; cbn; [reflexivity|]. rewrite Hab, IH. reflexivity. Qed.

Lemma healthy_run cfg w :
  String.eqb (TABLE_NAME cfg) checkpoints_name = false ->
  1 <= BATCH_SIZE cfg -> 1 <= CHECKPOINT_SIZE cfg ->
  healthy w -> w_pg_faults w = [] ->
  w_pg_rows w <> [] -> Forall (fun row => is_Some (row_id row)) (w_pg_rows w) ->
  source_ids_safe cfg (w_pg_rows w) ->
  timestamps_valid cfg (w_pg_rows w) ->
  checkpoint_indexes_consistent (w_d1 w) ->
  target_indexes_consistent (w_d1 w) (TABLE_NAME cfg) ->
  RESUME_MODE cfg = false \/
    filter (for_table (TABLE_NAME cfg)) (default [] (d1_checkpoints (w_d1 w))) = [] ->
  (forall minId maxId,
     list_min (ids_of (w_pg_rows w)) = Some minId ->
     list_max (ids_of (w_pg_rows w)) = Some maxId ->
     (Z.to_nat (maxId - minId + 1) + length (w_pg_rows w) <= w_gas w)%nat) ->
  exists w' cps' fetched migrated,
    migrateData_try cfg w
      = (w', match d1_tables (w_d1 w') !! TABLE_NAME cfg with
             | Some dest =>
                 Ret (Migrated (Z.of_nat (length (w_pg_rows w)))
                        (Z.of_nat (length dest) =? Z.of_nat (length (w_pg_rows w))))
             | None =>
                 Throw (MkError ("D1 API Error: " +:+ no_such_table (TABLE_NAME cfg)))
             end) /\
    fetched ≡ₚ select_columns (fetch_columns cfg) <$> w_pg_rows w /\
    processed_rows cfg fetched = inl migrated /\
    d1_tables (w_d1 w')
      = (if supported (TABLE_NAME cfg)
         then <[TABLE_NAME cfg :=
                  default [] (d1_tables (w_d1 w) !! TABLE_NAME cfg)
                  ++ tuples_of (insert_columns (TABLE_NAME cfg)) migrated]>
                (d1_tables (w_d1 w))
         else d1_tables (w_d1 w)) /\
    d1_checkpoints (w_d1 w') = Some cps' /\
    (forall c, c ∈ cps' -> cp_table_name c = TABLE_NAME cfg -> cp_status c = completed).
Proof.
  intros HT Hb Hsize Hh Hpg Hne Hids Hsafe Hvalid Hcix Htix Hfresh Hgas.
  set (T := TABLE_NAME cfg) in *. set (rows := w_pg_rows w) in *.
  destruct (source_ids_within rows Hne Hids) as (minId & maxId & Hmin & Hmax & Hmm & Hwithin).
  specialize (Hgas minId maxId Hmin Hmax).
  destruct (Hsafe minId maxId Hmin Hmax) as [Hsmin Hsmax].
  assert (Hsmax' : safe_integer maxId).
  { unfold safe_integer in *. lia. }
  destruct (window_count_bounds (CHECKPOINT_SIZE cfg) minId maxId Hsize Hmm)
    as (Hn1 & _ & _ & Hnle).
  set (n := window_count (CHECKPOINT_SIZE cfg) minId maxId) in *.
  unfold migrateData_try. fold T.
  (* the destination table *)
  destruct (ensureTargetTableExists_run T w Hh Htix)
    as (w1 & E1 & Hh1 & (Hrows1 & Hpg1 & Hgas1) & Hc1 & _ & _ & _ & Hcase).
  rewrite (bind_ret_run _ _ _ _ _ E1).
  set (old := default [] (d1_tables (w_d1 w) !! T)).
  assert (Hold1 : d1_tables (w_d1 w1)
                  = (if supported T && negb (has_table (w_d1 w) T)
                     then <[T := []]> (d1_tables (w_d1 w)) else d1_tables (w_d1 w)) /\
                  table_ready cfg (w_d1 w1) /\
                  checkpoint_indexes_consistent (w_d1 w1)).
  { unfold table_ready. fold T.
    destruct (has_table (w_d1 w) T) eqn:Ehas.
    - destruct Hcase as [Hd _]. rewrite Hd, andb_false_r.
      split; [reflexivity|]. split; [|exact Hcix].
      intros _. unfold has_table, table_count in Ehas. rewrite HT in Ehas.
      destruct (d1_tables (w_d1 w) !! T); [eauto|discriminate].
    - destruct Hcase as [_ Hcase]. destruct (supported T) eqn:Hs; cbn [andb negb].
      + destruct Hcase as [Ht Hi]. split; [exact Ht|]. split.
        * intros _. rewrite Ht, lookup_insert_eq. eauto.
        * apply (checkpoint_indexes_after_target (w_d1 w) _ T Hs Hcix Hc1). right. exact Hi.
      + rewrite Hcase. split; [reflexivity|]. split; [discriminate|exact Hcix]. }
  destruct Hold1 as (Hold1 & Hready1 & Hcix1).
  (* the source *)
  assert (Hpg1' : w_pg_faults w1 = []) by (rewrite Hpg1; exact Hpg).
  destruct (pg_call_quiet w1 Hpg1' Hh1) as (w2 & E2 & Hr2).
  rewrite (bind_ret_run _ _ _ _ _ E2).
  pose proof Hr2 as (Hh2 & Hd2 & Hrows2 & Hpg2 & Hgas2 & _).
  assert (Hpg2' : w_pg_faults w2 = []) by (rewrite Hpg2; exact Hpg1').
  destruct (pg_call_quiet w2 Hpg2' Hh2) as (w3 & E3 & Hr3).
  pose proof Hr3 as (Hh3 & Hd3 & Hrows3 & Hpg3 & Hgas3 & _).
  unfold pg_query_stats. unfold bind at 1. unfold bind at 1. rewrite E3.
  assert (Hrows : w_pg_rows w3 = rows) by (unfold rows; congruence).
  rewrite Hrows, Hmin, Hmax. cbn [strict_equal].
  unfold parseInt. cbn [fmap option_fmap option_map].
  rewrite (double_exact minId) by (apply safe_integer_bounds; exact Hsmin).
  rewrite (double_exact maxId) by (apply safe_integer_bounds; exact Hsmax').
  (* planning *)
  destruct (planning_healthy cfg T (Z.of_nat (length rows)) minId maxId w3 Hsize Hmm
              Hsmin Hsmax Hh3)
    as (w4 & kept & news & E4 & Hh4 & Hc4 & Hkept & Hnews & Ht4 & Hrows4 & Hpg4 & Hgas4).
  { rewrite Hd3, Hd2. exact Hcix1. }
  { fold n. lia. }
  { rewrite Hd3, Hd2, Hc1. exact Hfresh. }
  fold n in Hnews, Hgas4.
  rewrite (bind_ret_run _ _ _ _ _ E4).
  (* the listing *)
  assert (Hplanned : Forall (fun c => cp_table_name c = T /\ cp_status c = pending) news).
  { clear -Hnews. induction Hnews as [|r c rs cs (Ht & _ & _ & Hst & _) _ IH];
      constructor; [split; assumption|exact IH]. }
  assert (Hlist : filter (fun c => for_table T c && is_eligible c) (kept ++ news) = news).
  { rewrite filter_app.
    replace (filter (fun c => for_table T c && is_eligible c) kept) with (@nil Checkpoint).
    - cbn [app]. clear -Hplanned. induction Hplanned as [|c cs [Ht Hst] _ IH]; [reflexivity|].
      rewrite filter_cons_True; [f_equal; exact IH|].
      unfold for_table, is_eligible. rewrite Ht, Hst, String.eqb_refl. exact I.
    - symmetry. apply filter_none. intros c Hc.
      destruct (for_table T c) eqn:Ef; [|reflexivity]. exfalso.
      assert (Hin : c ∈ filter (for_table T) kept).
      { apply list_elem_of_filter. split; [rewrite Ef; exact I|exact Hc]. }
      rewrite Hkept in Hin. apply elem_of_nil in Hin. exact Hin. }
  set (l := order_by_start_id news).
  assert (Hperm : l ≡ₚ news) by apply merge_sort_Permutation.
  destruct (healthy_read (SelectPendingCheckpoints T) w4 (RowCheckpoint <$> l) Hh4 eq_refl)
    as (w5 & E5 & Hr5).
  { cbn. rewrite Hc4, Hlist. reflexivity. }
  unfold getPendingCheckpoints. unfold bind at 1. rewrite (bind_ret_run _ _ _ _ _ E5).
  unfold results_of at 1. unfold bind at 1. unfold ret at 1 2.
  rewrite checkpoint_rows_fmap.
  pose proof Hr5 as (Hh5 & Hd5 & Hrows5 & Hpg5 & Hgas5 & _).
  unfold getLastCompletedCheckpoint. unfold bind at 1. unfold bind at 1.
  destruct (healthy_read (SelectLastCompleted T) w5
              (RowCheckpoint <$> take 1 (order_by_end_id_desc
                 (filter (fun c => for_table T c && is_completed c) (kept ++ news))))
              Hh5 eq_refl) as (w6 & E6 & Hr6).
  { cbn. rewrite Hd5, Hc4. reflexivity. }
  rewrite E6. unfold results_of at 1. unfold bind at 1. unfold ret at 1 2.
  pose proof Hr6 as (Hh6 & Hd6 & Hrows6 & Hpg6 & Hgas6 & _).
  assert (Hlen_l : length l = n).
  { rewrite (Permutation_length Hperm), <- (Forall2_length _ _ _ Hnews), length_fmap,
      length_seq. reflexivity. }
  destruct (length l =? 0)%nat eqn:El0; [apply Nat.eqb_eq in El0; lia|].
  (* the checkpoints *)
  assert (Hrows_6 : w_pg_rows w6 = rows) by (unfold rows; congruence).
  assert (Hranges : Forall2 (fun r c => range_of_checkpoint c = r)
                      (window (CHECKPOINT_SIZE cfg) minId maxId <$> seq 0 n) news).
  { eapply Forall2_impl; [exact Hnews|].
    intros r c (_ & Hst & He & _). unfold range_of_checkpoint. rewrite Hst, He.
    destruct r; reflexivity. }
  assert (Hsum : sum_list_with (fun c => page_size rows (range_of_checkpoint c)) l
                 = length rows).
  { rewrite Hperm.
    rewrite (sum_list_with_Forall2 (page_size rows) range_of_checkpoint
               (window (CHECKPOINT_SIZE cfg) minId maxId <$> seq 0 n) news Hranges).
    apply pages_partition; assumption. }
  destruct (process_all_healthy cfg Hb l 0 w6 (kept ++ news) Hh6)
    as (w7 & cps' & pages & E7 & Hh7 & Hpg7 & Hrows7 & Hc7 & Hpages & Ht7 & Hall7).
  { congruence. }
  { rewrite Hrows_6. exact Hvalid. }
  { rewrite Hd6, Hd5. exact Hc4. }
  { apply (table_ready_tables cfg (w_d1 w1)); [|exact Hready1].
    rewrite Hd6, Hd5, Ht4, Hd3, Hd2. reflexivity. }
  { rewrite Hrows_6, Hsum. lia. }
  rewrite Hrows_6, Hsum in E7. rewrite Z.add_0_l in E7.
  rewrite (bind_ret_run _ _ _ _ _ E7).
  assert (Htables : d1_tables (w_d1 w7)
                    = (if supported T
                       then <[T := old ++ tuples_of (insert_columns T) (concat pages)]>
                              (d1_tables (w_d1 w))
                       else d1_tables (w_d1 w))).
  { rewrite Ht7.
    rewrite (appended_tables cfg (w_d1 w1) (w_d1 w6) (concat pages))
      by (rewrite Hd6, Hd5, Ht4, Hd3, Hd2; reflexivity).
    unfold appended, with_appended. fold T. cbn [d1_tables].
    destruct (supported T) eqn:Hs; cbn [andb] in Hold1; [|exact Hold1].
    cbn [d1_tables]. rewrite Hold1. subst old.
    unfold has_table, table_count. rewrite HT.
    destruct (d1_tables (w_d1 w) !! T) as [cur|] eqn:Ecur;
      cbn [fmap option_fmap option_map negb default].
    - rewrite Ecur. reflexivity.
    - rewrite lookup_insert_eq, insert_insert_eq. reflexivity. }
  (* the verification *)
  assert (Hcount : table_count (w_d1 w7) T
                   = (fun dest => Z.of_nat (length dest)) <$> d1_tables (w_d1 w7) !! T).
  { unfold table_count. rewrite HT. reflexivity. }
  set (fetched := l ≫= (fun c => fetched_rows cfg c w6)).
  assert (Hfetched : fetched ≡ₚ select_columns (fetch_columns cfg) <$> rows).
  { subst fetched. rewrite Hperm, (fetched_pages cfg w6 _ news Hranges), Hrows_6.
    pose proof (pages_Permutation _ _ _ rows Hsize Hmm Hwithin) as Hpp. fold n in Hpp.
    rewrite Hpp. reflexivity. }
  assert (Hmigrated : processed_rows cfg fetched = inl (concat pages)).
  { apply processed_rows_bind. exact Hpages. }
  assert (Hdone : forall c, c ∈ cps' -> cp_table_name c = T -> cp_status c = completed).
  { intros c' Hc' Htab.
    apply list_elem_of_lookup_1 in Hc' as [i Hi].
    destruct (Forall2_lookup_r _ _ _ _ _ Hall7 Hi) as (r & Hri & (Hid & Htr & Hcompleted & _)).
    apply Hcompleted.
    assert (Hr : r ∈ news).
    { apply list_elem_of_lookup_2 in Hri. apply elem_of_app in Hri as [Hk|Hn']; [|exact Hn'].
      exfalso.
      assert (Hin : r ∈ filter (for_table T) kept).
      { apply list_elem_of_filter. split; [|exact Hk].
        unfold for_table. apply Is_true_true. apply String.eqb_eq. congruence. }
      rewrite Hkept in Hin. apply elem_of_nil in Hin. exact Hin. }
    rewrite Hperm. apply list_elem_of_fmap. exists r. split; [reflexivity|exact Hr]. }
  unfold verify_count. unfold bind at 1.
  destruct (d1_tables (w_d1 w7) !! T) as [dest|] eqn:Edest.
  - destruct (healthy_read (SelectCount T) w7 [RowCount (Z.of_nat (length dest))] Hh7 eq_refl)
      as (w8 & E8 & Hr8).
    { cbn [d1_exec]. rewrite Hcount. reflexivity. }
    rewrite (bind_ret_run _ _ _ _ _ E8).
    unfold first_count, results_of, bind, ret.
    pose proof Hr8 as (_ & Hd8 & _).
    exists w8, cps', fetched, (concat pages). rewrite Hd8, Edest.
    split; [reflexivity|]. split; [exact Hfetched|]. split; [exact Hmigrated|].
    split; [exact Htables|]. split; [exact Hc7|exact Hdone].
  - destruct (executeD1SQL_healthy_refused (SelectCount T) w7 (no_such_table T) Hh7)
      as (w8 & E8 & _ & Hd8 & _).
    { cbn [d1_exec]. rewrite Hcount. reflexivity. }
    rewrite (bind_throw_run _ _ _ _ _ E8).
    exists w8, cps', fetched, (concat pages). rewrite Hd8, Edest.
    split; [reflexivity|]. split; [exact Hfetched|]. split; [exact Hmigrated|].
    split; [exact Htables|]. split; [exact Hc7|exact Hdone].
Qed.

(** X10: a whole healthy run over a supported table, planned afresh, for
    source rows that respect the NOT NULL columns of the destination and
    whose ids the planner can count over in double arithmetic (the smallest
    id, and the largest id plus [CHECKPOINT_SIZE], are safe integers).  It
    ends normally with exit code 0 and reports every source row as
    processed; the destination table is its old content followed by the
    source rows, each exactly once (page by page, reduced to the inserted
    columns, timestamps printed); no other table changes; every checkpoint
    of the table is [completed]; and the final count check succeeds exactly
    when the destination table was empty or missing before the run. *)
Theorem healthy_run_migrates_every_row (cfg : Config) (w : World) :
  supported (TABLE_NAME cfg) = true -> 1 <= BATCH_SIZE cfg -> 1 <= CHECKPOINT_SIZE cfg ->
  healthy w -> w_pg_faults w = [] ->
  w_pg_rows w <> [] -> Forall (fun row => is_Some (row_id row)) (w_pg_rows w) ->
  source_ids_safe cfg (w_pg_rows w) ->
  rows_insertable (w_pg_rows w) ->
  timestamps_valid cfg (w_pg_rows w) ->
  checkpoint_indexes_consistent (w_d1 w) ->
  target_indexes_consistent (w_d1 w) (TABLE_NAME cfg) ->
  RESUME_MODE cfg = false \/
    filter (for_table (TABLE_NAME cfg)) (default [] (d1_checkpoints (w_d1 w))) = [] ->
  (forall minId maxId,
     list_min (ids_of (w_pg_rows w)) = Some minId ->
     list_max (ids_of (w_pg_rows w)) = Some maxId ->
     (Z.to_nat (maxId - minId + 1) + length (w_pg_rows w) <= w_gas w)%nat) ->
  let old := default [] (d1_tables (w_d1 w) !! TABLE_NAME cfg) in
  exists w' fetched migrated cps' verified,
    migrateData_try cfg w
      = (w', Ret (Migrated (Z.of_nat (length (w_pg_rows w))) verified)) /\
    migrateData cfg w = (w', Some 0) /\
    fetched ≡ₚ select_columns (fetch_columns cfg) <$> w_pg_rows w /\
    processed_rows cfg fetched = inl migrated /\
    d1_tables (w_d1 w') !! TABLE_NAME cfg
      = Some (old ++ tuples_of (insert_columns (TABLE_NAME cfg)) migrated) /\
    (forall table, table <> TABLE_NAME cfg ->
       d1_tables (w_d1 w') !! table = d1_tables (w_d1 w) !! table) /\
    (verified = true <-> old = []) /\
    d1_checkpoints (w_d1 w') = Some cps' /\
    (forall c, c ∈ cps' -> cp_table_name c = TABLE_NAME cfg -> cp_status c = completed).
Proof.
  intros Hs Hb Hsize Hh Hpg Hne Hids Hsafe _ Hvalid Hcix Htix Hfresh Hgas old.
  destruct (healthy_run cfg w (supported_not_checkpoints _ Hs) Hb Hsize Hh Hpg Hne Hids
              Hsafe Hvalid Hcix Htix Hfresh Hgas)
    as (w' & cps' & fetched & migrated & E & Hf & Hm & Ht & Hc & Hdone).
  rewrite Hs in Ht. fold old in Ht. rewrite Ht, lookup_insert_eq in E.
  exists w', fetched, migrated, cps'. eexists. split; [exact E|].
  split; [unfold migrateData; rewrite E; reflexivity|].
  split; [exact Hf|]. split; [exact Hm|].
  split; [rewrite Ht; apply lookup_insert_eq|].
  split; [intros table Hne'; rewrite Ht; apply lookup_insert_ne; congruence|].
  split; [|split; assumption].
  assert (Hlen : length migrated = length (w_pg_rows w)).
  { rewrite <- (length_fmap (select_columns (fetch_columns cfg)) (w_pg_rows w)).
    rewrite <- (Permutation_length Hf). apply (length_processed_rows _ _ _ Hm). }
  rewrite Z.eqb_eq, length_app. unfold tuples_of. rewrite length_fmap, Hlen.
  destruct old as [|x old']; cbn [length]; split; intros Hx;
    [reflexivity|lia|lia|discriminate].
Qed.

(** X13: a whole healthy run over a table the batch insert does not know,
    for source ids the planner can count over in double arithmetic (the
    smallest id, and the largest id plus [CHECKPOINT_SIZE], are safe
    integers).  Every checkpoint of the table ends [completed] while no data table
    changes.  If the destination table exists the run reports all source
    rows as processed and exits with code 0, the count check comparing the
    unchanged table with the source; if it does not exist the final count
    query fails and the run exits with code 1. *)
Theorem healthy_run_of_unknown_table (cfg : Config) (w : World) :
  supported (TABLE_NAME cfg) = false ->
  TABLE_NAME cfg <> checkpoints_name ->
  1 <= BATCH_SIZE cfg -> 1 <= CHECKPOINT_SIZE cfg ->
  healthy w -> w_pg_faults w = [] ->
  w_pg_rows w <> [] -> Forall (fun row => is_Some (row_id row)) (w_pg_rows w) ->
  source_ids_safe cfg (w_pg_rows w) ->
  checkpoint_indexes_consistent (w_d1 w) ->
  RESUME_MODE cfg = false \/
    filter (for_table (TABLE_NAME cfg)) (default [] (d1_checkpoints (w_d1 w))) = [] ->
  (forall minId maxId,
     list_min (ids_of (w_pg_rows w)) = Some minId ->
     list_max (ids_of (w_pg_rows w)) = Some maxId ->
     (Z.to_nat (maxId - minId + 1) + length (w_pg_rows w) <= w_gas w)%nat) ->
  exists w' cps',
    d1_tables (w_d1 w') = d1_tables (w_d1 w) /\
    d1_checkpoints (w_d1 w') = Some cps' /\
    (forall c, c ∈ cps' -> cp_table_name c = TABLE_NAME cfg -> cp_status c = completed) /\
    match d1_tables (w_d1 w) !! TABLE_NAME cfg with
    | Some dest =>
        migrateData_try cfg w
          = (w', Ret (Migrated (Z.of_nat (length (w_pg_rows w)))
                        (Z.of_nat (length dest) =? Z.of_nat (length (w_pg_rows w))))) /\
        migrateData cfg w = (w', Some 0)
    | None =>
        migrateData_try cfg w
          = (w', Throw (MkError ("D1 API Error: " +:+ no_such_table (TABLE_NAME cfg)))) /\
        migrateData cfg w = (w', Some 1)
    end.
Proof.
  intros Hs Hname Hb Hsize Hh Hpg Hne Hids Hsafe Hcix Hfresh Hgas.
  assert (HT : String.eqb (TABLE_NAME cfg) checkpoints_name = false)
    by (apply String.eqb_neq; exact Hname).
  assert (Hvalid : timestamps_valid cfg (w_pg_rows w)).
  { intros Hcam. rewrite Hcam in Hs. discriminate. }
  assert (Htix : target_indexes_consistent (w_d1 w) (TABLE_NAME cfg)).
  { intros _ name Hin. unfold target_indexes in Hin. unfold supported in Hs.
    apply orb_false_iff in Hs as [Hs1 Hs2]. rewrite Hs1, Hs2 in Hin.
    apply elem_of_nil in Hin. contradiction. }
  destruct (healthy_run cfg w HT Hb Hsize Hh Hpg Hne Hids Hsafe Hvalid Hcix Htix Hfresh Hgas)
    as (w' & cps' & fetched & migrated & E & _ & _ & Ht & Hc & Hdone).
  rewrite Hs in Ht. rewrite Ht in E.
  exists w', cps'. split; [exact Ht|]. split; [exact Hc|]. split; [exact Hdone|].
  destruct (d1_tables (w_d1 w) !! TABLE_NAME cfg);
    (split; [exact E|unfold migrateData; rewrite E; reflexivity]).
Qed.

End WholeRunFacts.

Lemma healthy_run_migrates_every_row_witness :
  supported (TABLE_NAME coordinate_cfg) = true /\ 1 <= BATCH_SIZE coordinate_cfg /\
  1 <= CHECKPOINT_SIZE coordinate_cfg /\ healthy fresh_world /\
  w_pg_faults fresh_world = [] /\ w_pg_rows fresh_world <> [] /\
  source_ids_safe coordinate_cfg (w_pg_rows fresh_world) /\
  rows_insertable (w_pg_rows fresh_world) /\
  exists w', @migrateData strict_platform coordinate_cfg fresh_world = (w', Some 0).
Proof.
  assert (H1 : supported (TABLE_NAME coordinate_cfg) = true) by reflexivity.
  assert (H2 : 1 <= BATCH_SIZE coordinate_cfg) by (vm_compute; discriminate).
  assert (H3 : 1 <= CHECKPOINT_SIZE coordinate_cfg) by (vm_compute; discriminate).
  assert (H4 : healthy fresh_world) by reflexivity.
  assert (H5 : w_pg_faults fresh_world = []) by reflexivity.
  assert (H6 : w_pg_rows fresh_world <> []).
  { intros Hc. apply (f_equal length) in Hc. vm_compute in Hc. discriminate. }
  assert (H7 : Forall (fun row => is_Some (row_id row)) (w_pg_rows fresh_world)).
  { apply Forall_forall. intros row Hin. cbn [w_pg_rows fresh_world] in Hin.
    apply list_elem_of_fmap in Hin as (i & -> & _). exists i.
    unfold row_id, coordinate_row. rewrite lookup_insert_eq. reflexivity. }
  assert (Hsafe : source_ids_safe coordinate_cfg (w_pg_rows fresh_world)).
  { intros a b Ha Hb. vm_compute in Ha, Hb. injection Ha as <-. injection Hb as <-.
    split; vm_compute; split; discriminate. }
  assert (H7' : rows_insertable (w_pg_rows fresh_world)).
  { apply Forall_forall. intros row Hin. cbn [w_pg_rows fresh_world] in Hin.
    apply list_elem_of_fmap in Hin as (i & -> & _).
    unfold not_null, coordinate_row.
    rewrite !(lookup_insert_ne _ "id") by discriminate.
    rewrite lookup_insert_eq, lookup_insert_ne by discriminate.
    rewrite lookup_insert_eq. split; exact I. }
  assert (H8 : @timestamps_valid strict_platform coordinate_cfg (w_pg_rows fresh_world)).
  { intros Hc. discriminate. }
  assert (H9 : checkpoint_indexes_consistent (w_d1 fresh_world)).
  { intros _. split; apply not_elem_of_nil. }
  assert (H10 : target_indexes_consistent (w_d1 fresh_world) (TABLE_NAME coordinate_cfg)).
  { intros _ name _. apply not_elem_of_nil. }
  assert (H11 : RESUME_MODE coordinate_cfg = false \/
                filter (for_table (TABLE_NAME coordinate_cfg))
                  (default [] (d1_checkpoints (w_d1 fresh_world))) = []).
  { right. reflexivity. }
  assert (H12 : forall minId maxId,
            list_min (ids_of (w_pg_rows fresh_world)) = Some minId ->
            list_max (ids_of (w_pg_rows fresh_world)) = Some maxId ->
            (Z.to_nat (maxId - minId + 1) + length (w_pg_rows fresh_world)
               <= w_gas fresh_world)%nat).
  { intros a b Ha Hb. vm_compute in Ha, Hb. injection Ha as <-. injection Hb as <-.
    vm_compute. lia. }
  split; [exact H1|]. split; [exact H2|]. split; [exact H3|]. split; [exact H4|].
  split; [exact H5|]. split; [exact H6|]. split; [exact Hsafe|]. split; [exact H7'|].
  destruct (@healthy_run_migrates_every_row strict_platform coordinate_cfg fresh_world
              H1 H2 H3 H4 H5 H6 H7 Hsafe H7' H8 H9 H10 H11 H12) as (w' & _ & _ & _ & _ & _ & E & _).
  exists w'. exact E.
Defined.

Lemma healthy_run_of_unknown_table_witness :
  supported (TABLE_NAME custom_cfg) = false /\ TABLE_NAME custom_cfg <> checkpoints_name /\
  1 <= BATCH_SIZE custom_cfg /\ 1 <= CHECKPOINT_SIZE custom_cfg /\
  healthy fresh_world /\ w_pg_faults fresh_world = [] /\ w_pg_rows fresh_world <> [] /\
  source_ids_safe custom_cfg (w_pg_rows fresh_world) /\
  exists w', @migrateData strict_platform custom_cfg fresh_world = (w', Some 1).
Proof.
  assert (H1 : supported (TABLE_NAME custom_cfg) = false) by reflexivity.
  assert (H1' : TABLE_NAME custom_cfg <> checkpoints_name) by discriminate.
  assert (H2 : 1 <= BATCH_SIZE custom_cfg) by (vm_compute; discriminate).
  assert (H3 : 1 <= CHECKPOINT_SIZE custom_cfg) by (vm_compute; discriminate).
  assert (H4 : healthy fresh_world) by reflexivity.
  assert (H5 : w_pg_faults fresh_world = []) by reflexivity.
  assert (H6 : w_pg_rows fresh_world <> []).
  { intros Hc. apply (f_equal length) in Hc. vm_compute in Hc. discriminate. }
  assert (H7 : Forall (fun row => is_Some (row_id row)) (w_pg_rows fresh_world)).
  { apply Forall_forall. intros row Hin. cbn [w_pg_rows fresh_world] in Hin.
    apply list_elem_of_fmap in Hin as (i & -> & _). exists i.
    unfold row_id, coordinate_row. rewrite lookup_insert_eq. reflexivity. }
  assert (Hsafe : source_ids_safe custom_cfg (w_pg_rows fresh_world)).
  { intros a b Ha Hb. vm_compute in Ha, Hb. injection Ha as <-. injection Hb as <-.
    split; vm_compute; split; discriminate. }
  assert (H9 : checkpoint_indexes_consistent (w_d1 fresh_world)).
  { intros _. split; apply not_elem_of_nil. }
  assert (H11 : RESUME_MODE custom_cfg = false \/
                filter (for_table (TABLE_NAME custom_cfg))
                  (default [] (d1_checkpoints (w_d1 fresh_world))) = []).
  { right. reflexivity. }
  assert (H12 : forall minId maxId,
            list_min (ids_of (w_pg_rows fresh_world)) = Some minId ->
            list_max (ids_of (w_pg_rows fresh_world)) = Some maxId ->
            (Z.to_nat (maxId - minId + 1) + length (w_pg_rows fresh_world)
               <= w_gas fresh_world)%nat).
  { intros a b Ha Hb. vm_compute in Ha, Hb. injection Ha as <-. injection Hb as <-.
    vm_compute. lia. }
  split; [exact H1|]. split; [exact H1'|]. split; [exact H2|]. split; [exact H3|].
  split; [exact H4|]. split; [exact H5|]. split; [exact H6|]. split; [exact Hsafe|].
  destruct (@healthy_run_of_unknown_table strict_platform custom_cfg fresh_world
              H1 H1' H2 H3 H4 H5 H6 H7 Hsafe H9 H11 H12) as (w' & _ & _ & _ & _ & Hm).
  assert (Hnone : d1_tables (w_d1 fresh_world) !! TABLE_NAME custom_cfg = None)
    by reflexivity.
  rewrite Hnone in Hm. exists w'. exact (proj2 Hm).
Defined.

Section UnknownTableFacts.
Context `{Platform}.

(** *** A table the batch insert does not know *)


End UnknownTableFacts.



Section EdgeFacts.
Context `{Platform}.

(** *** A timestamp that cannot be printed *)
Lemma timestamp_to_iso_error v e :
  timestamp_to_iso v = inr e -> e = MkError "Invalid time value".
Proof.
  unfold timestamp_to_iso. destruct (truthy v); [|discriminate].
  unfold toISOString. destruct (new_Date v); cbn; [discriminate|].
  intros E. injection E as <-. reflexivity.
Qed.

Lemma transform_error row e : transform row = inr e -> e = MkError "Invalid time value".
Proof.
  unfold transform.
  destruct (timestamp_to_iso (get row "created_at")) as [c|e1] eqn:Ec; cbn [err_bind].
  - destruct (timestamp_to_iso (get row "updated_at")) as [u|e2] eqn:Eu; cbn [err_bind].
    + discriminate.
    + intros E. injection E as <-. exact (timestamp_to_iso_error _ _ Eu).
  - intros E. injection E as <-. exact (timestamp_to_iso_error _ _ Ec).
Qed.

Lemma transform_rows_error rows : forall e,
  transform_rows rows = inr e -> e = MkError "Invalid time value" /\ rows <> [].
Proof.
  unfold transform_rows. induction rows as [|row rows IH]; intros e E; cbn [err_map] in E.
  - discriminate.
  - split; [|discriminate].
    destruct (transform row) as [row'|e1] eqn:Et; cbn [err_bind] in E.
    + destruct (err_map transform rows) as [rows'|e2] eqn:Er; cbn [err_bind] in E;
        [discriminate|].
      injection E as <-. exact (proj1 (IH e2 eq_refl)).
    + injection E as <-. exact (transform_error _ _ Et).
Qed.

Lemma Forall2_left_as id st n err field now st0 field0 now0 cps :
  Forall2 (left_as id st n err) cps
    (update_rows st n err field now id (update_rows st0 0 None field0 now0 id cps)).
Proof.
  apply Forall2_update_rows2. intros r _. unfold left_as.
  destruct (cp_id r =? id) eqn:Ehit; [apply Z.eqb_eq in Ehit|apply Z.eqb_neq in Ehit].
  - split; [congruence|]. intros _. cbn. repeat split.
  - split; [reflexivity|]. intros Hc. contradiction.
Qed.

(** X11: one timestamp that cannot be printed fails the whole
    [camera_locations] checkpoint before anything is inserted: the error
    [Invalid time value] is rethrown, no insert is sent, no data table
    changes, and the checkpoint's row is left [failed] with zero records and
    that message. *)
Theorem invalid_timestamp_fails_checkpoint (cfg : Config) (checkpoint : Checkpoint)
    (w : World) (cps : list Checkpoint) (e : JsError) :
  TABLE_NAME cfg = "camera_locations" ->
  healthy w -> w_pg_faults w = [] ->
  d1_checkpoints (w_d1 w) = Some cps ->
  transform_rows (fetched_rows cfg checkpoint w) = inr e ->
  exists w' cps',
    processCheckpoint cfg checkpoint w = (w', Throw e) /\
    message e = "Invalid time value" /\
    filter is_insert (w_requests w') = filter is_insert (w_requests w) /\
    d1_tables (w_d1 w') = d1_tables (w_d1 w) /\
    d1_checkpoints (w_d1 w') = Some cps' /\
    Forall2 (left_as (cp_id checkpoint) failed 0 (Some "Invalid time value")) cps cps'.
Proof.
  intros Hcam Hh Hpg Hcps Herr.
  destruct (transform_rows_error _ _ Herr) as [-> Hne].
  unfold processCheckpoint, try_catch. rewrite processCheckpoint_try_split.
  destruct (updateCheckpointStatus_healthy_run (cp_id checkpoint) in_progress 0 None w cps
              Hh Hcps) as (wa & Ea & Hha & (Hrows_a & Hpg_a & Hgas_a) & Hca & Hda).
  pose proof (tables_same_updateCheckpointStatus _ _ _ _ _ _ _ Ea) as [_ Hins_a].
  rewrite (bind_ret_run _ _ _ _ _ Ea).
  assert (Hfetch : exists wb, fetch_and_insert cfg checkpoint wa
                                = (wb, Throw (MkError "Invalid time value"))
                   /\ healthy wb /\ w_d1 wb = w_d1 wa /\ w_requests wb = w_requests wa).
  { unfold fetch_and_insert.
    unfold bind at 1. unfold try_catch, pg_call at 1. rewrite Hpg_a, Hpg. cbn [head tail].
    unfold bind at 1. unfold pg_query_range, bind at 1. unfold pg_call at 1.
    cbn [w_pg_faults head tail]. cbn [w_pg_rows]. rewrite Hrows_a.
    unfold fetched_rows in Herr, Hne.
    set (rows := select_columns (fetch_columns cfg) <$> merge_sort row_id_le
                   (filter (in_range (cp_start_id checkpoint) (cp_end_id checkpoint))
                      (w_pg_rows w))) in *.
    cbn [w_d1 w_faults w_requests w_clock w_sleeps w_gas w_pg_rows w_pg_faults].
    destruct (length rows =? 0)%nat eqn:E0.
    { apply Nat.eqb_eq in E0. destruct rows; [congruence|discriminate]. }
    rewrite Hcam, String.eqb_refl, Herr. unfold bind at 1. unfold lift, throw.
    eexists. split; [reflexivity|]. cbn. repeat split. exact Hha. }
  destruct Hfetch as (wb & Eb & Hhb & Hdb & Hrb).
  rewrite (bind_throw_run _ _ _ _ _ Eb). unfold processCheckpoint_catch. cbn [message].
  destruct (updateCheckpointStatus_healthy_run (cp_id checkpoint) failed 0
              (Some "Invalid time value") wb
              (update_rows in_progress 0 None started_at (iso_string (w_clock w))
                 (cp_id checkpoint) cps) Hhb)
    as (wc & Ec & Hhc & _ & _ & Hdc).
  { rewrite Hdb, Hda. reflexivity. }
  pose proof (tables_same_updateCheckpointStatus _ _ _ _ _ _ _ Ec) as [_ Hins_c].
  rewrite (bind_ret_run _ _ _ _ _ Ec). unfold throw.
  exists wc. eexists. split; [reflexivity|]. split; [reflexivity|].
  split; [rewrite Hins_c, Hrb; exact Hins_a|].
  rewrite Hdc, Hdb, Hda. cbn [d1_tables d1_checkpoints].
  split; [reflexivity|]. split; [reflexivity|]. apply Forall2_left_as.
Qed.

(** *** A batch size below zero *)
Lemma insert_batches_negative cfg rows w :
  BATCH_SIZE cfg < 0 -> insert_batches cfg rows w = (w, Ret 0).
Proof.
  intros Hneg. unfold insert_batches.
  pose proof (no_batches_negative (Z.of_nat (length rows)) (BATCH_SIZE cfg) 0
                ltac:(lia) Hneg ltac:(lia)) as Hno.
  destruct (w_gas w); cbn [batch_loop]; rewrite Hno; reflexivity.
Qed.

(** X12: with a negative batch size the insert loop never runs: the
    checkpoint is marked [completed] with zero records although its page
    may hold rows, no insert is sent and no data table changes. *)
Theorem negative_batch_size_completes_empty (cfg : Config) (checkpoint : Checkpoint)
    (w : World) (cps : list Checkpoint) (rows' : list (gmap string value)) :
  BATCH_SIZE cfg < 0 ->
  healthy w -> w_pg_faults w = [] ->
  d1_checkpoints (w_d1 w) = Some cps ->
  processed_rows cfg (fetched_rows cfg checkpoint w) = inl rows' ->
  exists w' cps',
    processCheckpoint cfg checkpoint w = (w', Ret 0) /\
    filter is_insert (w_requests w') = filter is_insert (w_requests w) /\
    d1_tables (w_d1 w') = d1_tables (w_d1 w) /\
    d1_checkpoints (w_d1 w') = Some cps' /\
    Forall2 (left_as (cp_id checkpoint) completed 0 None) cps cps'.
Proof.
  intros Hneg Hh Hpg Hcps Hproc.
  unfold processCheckpoint, try_catch. rewrite processCheckpoint_try_split.
  destruct (updateCheckpointStatus_healthy_run (cp_id checkpoint) in_progress 0 None w cps
              Hh Hcps) as (wa & Ea & Hha & (Hrows_a & Hpg_a & Hgas_a) & Hca & Hda).
  pose proof (tables_same_updateCheckpointStatus _ _ _ _ _ _ _ Ea) as [_ Hins_a].
  rewrite (bind_ret_run _ _ _ _ _ Ea).
  assert (Hfetch : exists wb empty, fetch_and_insert cfg checkpoint wa = (wb, Ret (0, empty))
                   /\ healthy wb /\ w_d1 wb = w_d1 wa /\ w_requests wb = w_requests wa).
  { unfold fetch_and_insert.
    unfold bind at 1. unfold try_catch, pg_call at 1. rewrite Hpg_a, Hpg. cbn [head tail].
    unfold bind at 1. unfold pg_query_range, bind at 1. unfold pg_call at 1.
    cbn [w_pg_faults head tail]. cbn [w_pg_rows]. rewrite Hrows_a.
    unfold fetched_rows, processed_rows in Hproc.
    set (rows := select_columns (fetch_columns cfg) <$> merge_sort row_id_le
                   (filter (in_range (cp_start_id checkpoint) (cp_end_id checkpoint))
                      (w_pg_rows w))) in *.
    cbn [w_d1 w_faults w_requests w_clock w_sleeps w_gas w_pg_rows w_pg_faults].
    destruct (length rows =? 0)%nat.
    { eexists _, _. split; [reflexivity|]. cbn. repeat split. exact Hha. }
    assert (Hstep : (if String.eqb (TABLE_NAME cfg) "camera_locations"
                     then lift (transform_rows rows) else ret rows)
                    = @ret (list (gmap string value)) rows').
    { destruct (String.eqb (TABLE_NAME cfg) "camera_locations");
        [rewrite Hproc; reflexivity|injection Hproc as Hr; rewrite Hr; reflexivity]. }
    rewrite Hstep. unfold bind at 1. unfold ret at 1. unfold bind at 1.
    rewrite (insert_batches_negative cfg rows' _ Hneg). unfold ret.
    eexists _, _. split; [reflexivity|]. cbn. repeat split. exact Hha. }
  destruct Hfetch as (wb & empty & Eb & Hhb & Hdb & Hrb).
  rewrite (bind_ret_run _ _ _ _ _ Eb). cbn [fst].
  destruct (updateCheckpointStatus_healthy_run (cp_id checkpoint) completed 0 None wb
              (update_rows in_progress 0 None started_at (iso_string (w_clock w))
                 (cp_id checkpoint) cps) Hhb)
    as (wc & Ec & Hhc & _ & _ & Hdc).
  { rewrite Hdb, Hda. reflexivity. }
  pose proof (tables_same_updateCheckpointStatus _ _ _ _ _ _ _ Ec) as [_ Hins_c].
  rewrite (bind_ret_run _ _ _ _ _ Ec). unfold ret.
  exists wc. eexists. split; [reflexivity|].
  split; [rewrite Hins_c, Hrb; exact Hins_a|].
  rewrite Hdc, Hdb, Hda. cbn [d1_tables d1_checkpoints].
  split; [reflexivity|]. split; [reflexivity|]. apply Forall2_left_as.
Qed.

End EdgeFacts.

Lemma invalid_timestamp_fails_checkpoint_witness :
  TABLE_NAME camera_cfg = "camera_locations" /\ healthy poisoned_world /\
  w_pg_faults poisoned_world = [] /\
  @transform_rows strict_platform (fetched_rows camera_cfg checkpoint_1_20 poisoned_world)
    = inr (MkError "Invalid time value") /\
  exists w',
    @processCheckpoint strict_platform camera_cfg checkpoint_1_20 poisoned_world
      = (w', Throw (MkError "Invalid time value")).
Proof.
  assert (H1 : TABLE_NAME camera_cfg = "camera_locations") by reflexivity.
  assert (H2 : healthy poisoned_world) by reflexivity.
  assert (H3 : w_pg_faults poisoned_world = []) by reflexivity.
  assert (H4 : d1_checkpoints (w_d1 poisoned_world) = Some [checkpoint_1_20]) by reflexivity.
  assert (H5 : @transform_rows strict_platform
                 (fetched_rows camera_cfg checkpoint_1_20 poisoned_world)
               = inr (MkError "Invalid time value")) by (vm_compute; reflexivity).
  split; [exact H1|]. split; [exact H2|]. split; [exact H3|]. split; [exact H5|].
  destruct (@invalid_timestamp_fails_checkpoint strict_platform camera_cfg checkpoint_1_20
              poisoned_world [checkpoint_1_20] _ H1 H2 H3 H4 H5) as (w' & cps' & E & _).
  exists w'. exact E.
Defined.

Lemma negative_batch_size_completes_empty_witness :
  BATCH_SIZE negative_cfg < 0 /\ healthy coordinate_world /\
  w_pg_faults coordinate_world = [] /\
  (0 < length (fetched_rows negative_cfg checkpoint_1_7 coordinate_world))%nat /\
  exists w',
    @processCheckpoint strict_platform negative_cfg checkpoint_1_7 coordinate_world
      = (w', Ret 0).
Proof.
  assert (H1 : BATCH_SIZE negative_cfg < 0) by (vm_compute; reflexivity).
  assert (H2 : healthy coordinate_world) by reflexivity.
  assert (H3 : w_pg_faults coordinate_world = []) by reflexivity.
  assert (H4 : d1_checkpoints (w_d1 coordinate_world) = Some [checkpoint_1_7])
    by reflexivity.
  assert (H5 : @processed_rows strict_platform negative_cfg
                 (fetched_rows negative_cfg checkpoint_1_7 coordinate_world)
               = inl (fetched_rows negative_cfg checkpoint_1_7 coordinate_world))
    by reflexivity.
  split; [exact H1|]. split; [exact H2|]. split; [exact H3|].
  split; [vm_compute; lia|].
  destruct (@negative_batch_size_completes_empty strict_platform negative_cfg checkpoint_1_7
              coordinate_world [checkpoint_1_7] _ H1 H2 H3 H4 H5) as (w' & cps' & E & _).
  exists w'. exact E.
Defined.

Section SetupFacts.
Import SetupD1Schema.

Lemma split_app sep a b :
  split sep (a ++ sep :: b) = split sep a ++ split sep b.
Proof.
  induction a as [|u a IH]; cbn [app split].
  - rewrite Z.eqb_refl. reflexivity.
  - destruct (u =? sep); [rewrite IH; reflexivity|].
    rewrite IH. destruct (split sep a) as [|piece pieces] eqn:E; [|reflexivity].
    destruct a; cbn in E; [discriminate|].
    destruct (z =? sep); [discriminate|]. destruct (split sep a); discriminate.
Qed.

Lemma split_none sep s : sep ∉ s -> split sep s = [s].
Proof.
  induction s as [|u s IH]; intros Hs; [reflexivity|].
  apply not_elem_of_cons in Hs as [Hne Hs]. cbn [split].
  destruct (u =? sep) eqn:E; [apply Z.eqb_eq in E; congruence|].
  rewrite (IH Hs). reflexivity.
Qed.

Lemma split_pieces sep s : Forall (fun piece => sep ∉ piece) (split sep s).
Proof.
  induction s as [|u s IH]; cbn [split].
  - constructor; [apply not_elem_of_nil|constructor].
  - destruct (u =? sep) eqn:E.
    + constructor; [apply not_elem_of_nil|exact IH].
    + apply Z.eqb_neq in E. destruct (split sep s) as [|piece pieces].
      * constructor; [|constructor]. apply not_elem_of_cons. split; [congruence|].
        apply not_elem_of_nil.
      * apply Forall_cons in IH as [Hp Hps]. constructor; [|exact Hps].
        apply not_elem_of_cons. split; [congruence|exact Hp].
Qed.

Lemma statements_app a b :
  statements (a ++ semicolon :: b) = statements a ++ statements b.
Proof. unfold statements. rewrite split_app, fmap_app, filter_app. reflexivity. Qed.

Lemma trimStart_blank blank s :
  Forall (fun u => is_space u = true) blank -> trimStart (blank ++ s) = trimStart s.
Proof. induction 1 as [|u blank Hu _ IH]; [reflexivity|]. cbn [app trimStart]. rewrite Hu. exact IH. Qed.

Lemma trimStart_suffix s : exists blank, s = blank ++ trimStart s.
Proof.
  induction s as [|u s [blank IH]]; [exists []; reflexivity|]. cbn [trimStart].
  destruct (is_space u); [|exists []; reflexivity].
  exists (u :: blank). cbn [app]. rewrite <- IH. reflexivity.
Qed.

Lemma trimStart_head s u rest : trimStart s = u :: rest -> is_space u = false.
Proof.
  induction s as [|v s IH]; cbn [trimStart]; [discriminate|].
  destruct (is_space v) eqn:E; [exact IH|]. intros [= <- _]. exact E.
Qed.

Lemma trimStart_head' s u : head (trimStart s) = Some u -> is_space u = false.
Proof.
  destruct (trimStart s) as [|v rest] eqn:E; [discriminate|].
  intros [= <-]. exact (trimStart_head s v rest E).
Qed.

Lemma trimStart_stable u rest : is_space u = false -> trimStart (u :: rest) = u :: rest.
Proof. intros E. cbn [trimStart]. rewrite E. reflexivity. Qed.

Lemma trimStart_snoc s u :
  is_space u = false -> trimStart (s ++ [u]) = trimStart s ++ [u].
Proof.
  intros E. induction s as [|v s IH]; cbn [app trimStart]; [rewrite E; reflexivity|].
  destruct (is_space v); [exact IH|reflexivity].
Qed.

(** Trimming the end keeps a first code unit that is no space. *)
Lemma trimEnd_keeps_head u rest :
  is_space u = false -> exists rest', trimEnd (u :: rest) = u :: rest'.
Proof.
  intros E. unfold trimEnd. cbn [rev].
  destruct (trimStart_suffix (rev rest ++ [u])) as [blank Hb].
  rewrite (trimStart_snoc _ _ E) in *.
  exists (rev (trimStart (rev rest))). rewrite rev_app_distr. reflexivity.
Qed.

Lemma trimEnd_sublist s : sublist (trimEnd s) s.
Proof.
  unfold trimEnd. destruct (trimStart_suffix (rev s)) as [blank Hb].
  rewrite <- (rev_involutive s) at 2. rewrite Hb at 2. rewrite rev_app_distr.
  apply sublist_inserts_r. reflexivity.
Qed.

Lemma trimStart_sublist s : sublist (trimStart s) s.
Proof.
  destruct (trimStart_suffix s) as [blank Hb]. rewrite Hb at 2.
  apply sublist_inserts_l. reflexivity.
Qed.

Lemma comment_chunk blank body :
  Forall (fun u => is_space u = true) blank ->
  is_statement (trim (blank ++ units "--" ++ body)) = false.
Proof.
  intros Hblank. unfold trim. rewrite (trimStart_blank _ _ Hblank).
  change (units "--" ++ body) with (45 :: 45 :: body).
  rewrite (trimStart_stable 45 (45 :: body) eq_refl).
  unfold is_statement.
  assert (Hstart : startsWith (trimEnd (45 :: 45 :: body)) (units "--") = true).
  { unfold trimEnd. cbn [rev]. rewrite <- app_assoc. cbn [app].
    rewrite <- (rev_involutive [45; 45]) at 1.
    change ([45] ++ [45]) with (rev [45; 45]).
    assert (Hkeep : forall s, trimStart (s ++ rev [45; 45]) = trimStart s ++ [45; 45]).
    { intros s. cbn [rev app]. change [45; 45] with ([45] ++ [45]).
      rewrite app_assoc, (trimStart_snoc _ 45 eq_refl), (trimStart_snoc _ 45 eq_refl).
      rewrite <- app_assoc. reflexivity. }
    rewrite Hkeep, rev_app_distr. change (rev [45; 45]) with [45; 45].
    change (units "--") with [45; 45]. cbn [app startsWith]. reflexivity. }
  rewrite Hstart, andb_false_r. reflexivity.
Qed.

Lemma is_space_semicolon blank :
  Forall (fun u => is_space u = true) blank -> semicolon ∉ blank.
Proof.
  intros Hblank Hin. rewrite Forall_forall in Hblank.
  specialize (Hblank _ Hin). discriminate.
Qed.

Lemma statements_comment_chunk blank body :
  Forall (fun u => is_space u = true) blank -> semicolon ∉ body ->
  statements (blank ++ units "--" ++ body) = [].
Proof.
  intros Hblank Hbody. unfold statements. rewrite split_none.
  - cbn [fmap list_fmap]. rewrite filter_cons_False, filter_nil; [reflexivity|].
    rewrite (comment_chunk blank body Hblank). exact id.
  - rewrite !not_elem_of_app. split; [exact (is_space_semicolon _ Hblank)|].
    split; [|exact Hbody]. change (units "--") with [45; 45].
    rewrite !not_elem_of_cons. repeat split; try discriminate. apply not_elem_of_nil.
Qed.

(** X14: a statement of [schema.sql] that follows a comment line is never
    sent.  The setup script cuts the file at every semicolon and drops each
    piece that, once trimmed, starts with [--]; so a piece made of blank
    space, a comment and then SQL up to the next semicolon disappears as a
    whole: the statements are those of the file without that piece. *)
Theorem statement_after_comment_is_skipped (before blank body after : SetupD1Schema.JsString) :
  Forall (fun u => is_space u = true) blank ->
  semicolon ∉ body ->
  let chunk := blank ++ units "--" ++ body in
  statements (before ++ semicolon :: chunk ++ semicolon :: after)
    = statements (before ++ semicolon :: after) /\
  statements (chunk ++ semicolon :: after) = statements after /\
  statements (before ++ semicolon :: chunk) = statements before.
Proof.
  intros Hblank Hbody chunk.
  pose proof (statements_comment_chunk blank body Hblank Hbody) as Hnone. fold chunk in Hnone.
  rewrite !statements_app, Hnone, app_nil_r. repeat split; reflexivity.
Qed.

Lemma last_rev_head {A} (l : list A) : last (rev l) = head l.
Proof. destruct l as [|x l]; [reflexivity|]. cbn [rev head]. apply last_snoc. Qed.

Lemma last_trimEnd s u : last (trimEnd s) = Some u -> is_space u = false.
Proof. unfold trimEnd. rewrite last_rev_head. apply trimStart_head'. Qed.

Lemma head_trim s u : head (trim s) = Some u -> is_space u = false.
Proof.
  unfold trim. destruct (trimStart s) as [|v rest] eqn:E.
  - cbn. discriminate.
  - pose proof (trimStart_head s v rest E) as Hv.
    destruct (trimEnd_keeps_head v rest Hv) as [rest' ->]. intros [= <-]. exact Hv.
Qed.

Lemma trim_sublist s : sublist (trim s) s.
Proof.
  unfold trim. etrans; [apply trimEnd_sublist|apply trimStart_sublist].
Qed.

(** X15: every statement the setup script sends is a trimmed piece of
    [schema.sql] between two semicolons: it is not empty, holds no
    semicolon, neither starts nor ends with white space and does not start
    with [--]. *)
Theorem statements_are_trimmed (schema : SetupD1Schema.JsString) :
  Forall (fun stmt =>
            stmt <> [] /\ (semicolon ∉ stmt) /\
            (forall u, head stmt = Some u -> is_space u = false) /\
            (forall u, last stmt = Some u -> is_space u = false) /\
            startsWith stmt (units "--") = false /\
            exists chunk, chunk ∈ split semicolon schema /\ stmt = trim chunk)
    (statements schema).
Proof.
  apply Forall_forall. intros stmt Hin. unfold statements in Hin.
  apply list_elem_of_filter in Hin as [Hst Hin].
  apply list_elem_of_fmap in Hin as (chunk & -> & Hchunk).
  unfold is_statement in Hst. apply Is_true_true in Hst.
  apply andb_true_iff in Hst as [Hlen Hstart].
  split; [intros Hnil; rewrite Hnil in Hlen; discriminate|].
  split.
  { intros Hsemi. pose proof (split_pieces semicolon schema) as Hp.
    rewrite Forall_forall in Hp. apply (Hp chunk Hchunk).
    exact (elem_of_sublist _ _ _ Hsemi (trim_sublist chunk)). }
  split; [apply head_trim|]. split; [apply last_trimEnd|].
  split; [apply negb_true_iff; exact Hstart|].
  exists chunk. split; [exact Hchunk|reflexivity].
Qed.

Lemma execute_all_run stmts : forall r,
  execute_all stmts r
    = match first_failure (length stmts) (failures r) with
      | None =>
          (MkRemote (drop (length stmts) (failures r)) (sent r ++ stmts), Ret tt)
      | Some k =>
          (MkRemote (drop (S k) (failures r)) (sent r ++ take (S k) stmts),
           Throw (MkError (default EmptyString (mjoin (failures r !! k)))))
      end.
Proof.
  induction stmts as [|stmt rest IH]; intros r.
  - cbn. rewrite app_nil_r. destruct r; reflexivity.
  - cbn [execute_all length first_failure]. unfold executeSQL.
    destruct (failures r) as [|[msg|] schedule] eqn:E; cbn [head tail].
    + rewrite IH. cbn [failures sent tail]. 
      destruct (first_failure (A:=string) (length rest) []) as [k|] eqn:Ek; cbn [fmap option_fmap option_map].
      * exfalso. clear -Ek. revert k Ek. induction (length rest) as [|n IHn]; intros k Ek;
          cbn in Ek; [discriminate|].
        destruct (first_failure (A:=string) n []) eqn:En; [|discriminate]. eapply IHn. reflexivity.
      * rewrite !drop_nil, <- app_assoc. reflexivity.
    + cbn [drop take lookup list_lookup mjoin option_join default]. reflexivity.
    + rewrite IH. cbn [failures sent].
      destruct (first_failure (length rest) schedule) as [k|];
        cbn [fmap option_fmap option_map drop take lookup list_lookup];
        rewrite <- app_assoc; reflexivity.
Qed.

(** X16: the setup script sends the statements in file order, each once
    and without a second attempt, and stops at the first one that fails:
    with no failure all are sent and the exit code is 0; with a first
    failure at position [k] exactly the first [k+1] are sent, the rest
    never, and the exit code is 1. *)
Theorem setupSchema_stops_at_first_failure (schema : SetupD1Schema.JsString)
    (r : SetupD1Schema.Remote) :
  let stmts := statements schema in
  match first_failure (length stmts) (failures r) with
  | None =>
      setupSchema (Some schema) r
        = (MkRemote (drop (length stmts) (failures r)) (sent r ++ stmts), 0)
  | Some k =>
      (k < length stmts)%nat /\
      setupSchema (Some schema) r
        = (MkRemote (drop (S k) (failures r)) (sent r ++ take (S k) stmts), 1)
  end.
Proof.
  intros stmts. unfold setupSchema. fold stmts. rewrite execute_all_run.
  destruct (first_failure (length stmts) (failures r)) as [k|] eqn:Ek; [|reflexivity].
  split; [|reflexivity].
  clear -Ek. revert k Ek. generalize (failures r).
  induction (length stmts) as [|n IHn]; intros schedule k Ek; cbn in Ek; [discriminate|].
  destruct schedule as [|[msg|] schedule]; cbn [tail] in Ek.
  - destruct (first_failure n []) eqn:En; [|discriminate]. injection Ek as <-.
    specialize (IHn _ _ En). lia.
  - injection Ek as <-. lia.
  - destruct (first_failure n schedule) eqn:En; [|discriminate]. injection Ek as <-.
    specialize (IHn _ _ En). lia.
Qed.

End SetupFacts.

Lemma statement_after_comment_is_skipped_witness :
  Forall (fun u => SetupD1Schema.is_space u = true)
    [SetupD1Schema.newline; SetupD1Schema.newline] /\
  (SetupD1Schema.semicolon ∉ schema_comment_and_index) /\
  SetupD1Schema.statements
    (schema_table ++ SetupD1Schema.semicolon ::
       ([SetupD1Schema.newline; SetupD1Schema.newline] ++ SetupD1Schema.units "--"
          ++ schema_comment_and_index) ++ SetupD1Schema.semicolon :: schema_rest)
  = SetupD1Schema.statements (schema_table ++ SetupD1Schema.semicolon :: schema_rest).
Proof.
  assert (H1 : Forall (fun u => SetupD1Schema.is_space u = true)
                 [SetupD1Schema.newline; SetupD1Schema.newline])
    by (repeat constructor).
  assert (H2 : SetupD1Schema.semicolon ∉ schema_comment_and_index)
    by (apply (bool_decide_unpack _); vm_compute; exact I).
  split; [exact H1|]. split; [exact H2|].
  exact (proj1 (statement_after_comment_is_skipped schema_table
                  [SetupD1Schema.newline; SetupD1Schema.newline]
                  schema_comment_and_index schema_rest H1 H2)).
Defined.

Section TraditionalFacts.
Context `{Platform}.
Import Traditional.

Lemma bind_ret_run' {A B} (m : Traditional.M A) (k : A -> Traditional.M B) w w' a :
  m w = (w', Ret a) -> Traditional.bind m k w = k a w'.
Proof. intros E. unfold Traditional.bind. rewrite E. reflexivity. Qed.

Lemma traditional_batch_fits s env :
  BATCH_SIZE s env * Z.of_nat (length (columns s)) <= 100.
Proof.
  destruct s; unfold BATCH_SIZE, Migrate.BATCH_SIZE, MigrateCameraLocations.BATCH_SIZE,
    Migrate.MAX_BATCH_SIZE, MigrateCameraLocations.MAX_BATCH_SIZE, maxBatchRows,
    Math_floor_div, Migrate.MAX_SQL_VARIABLES, MigrateCameraLocations.MAX_SQL_VARIABLES,
    Migrate.COLUMNS_COUNT, MigrateCameraLocations.COLUMNS_COUNT, columns.
  - change (99 / 5) with 19. cbn [length coordinate_columns]. lia.
  - change (99 / 6) with 16. cbn [length camera_columns]. lia.
Qed.

Lemma execute_insert d table columns rows cur :
  d1_tables d !! table = Some cur ->
  (1 <= length rows)%nat -> (length rows * length columns <= 100)%nat ->
  execute d (InsertInto table (length rows) (length columns) (flat_params columns rows))
    = (MkD1 (d1_checkpoints d) (d1_seq d)
         (<[table := cur ++ tuples_of columns rows]> (d1_tables d))
         (d1_indexes d) (d1_history d), inl []).
Proof.
  intros Hcur Hrows Hmax. cbn [execute d1_exec].
  destruct (length rows =? 0)%nat eqn:E0; [apply Nat.eqb_eq in E0; lia|].
  rewrite length_flat_params.
  destruct (D1_MAX_PARAMS <? length rows * length columns)%nat eqn:Em.
  { apply Nat.ltb_lt in Em. unfold D1_MAX_PARAMS in Em. lia. }
  rewrite Hcur, chunk_flat_params. reflexivity.
Qed.

Lemma first_failure_nil {A} n : first_failure (A:=A) n [] = None.
Proof. induction n as [|n IH]; [reflexivity|]. cbn. rewrite IH. reflexivity. Qed.

Lemma insert_loop_run s size rows' :
  1 <= size -> size * Z.of_nat (length (columns s)) <= 100 ->
  let len := Z.of_nat (length rows') in
  let bt := - ((- len) / size) in
  forall k fuel i w cur,
    0 <= i <= bt -> k = Z.to_nat (bt - i) -> (k <= fuel)%nat -> (k <= t_gas w)%nat ->
    d1_tables (t_d1 w) !! table s = Some cur ->
    exists w' o,
      insert_loop fuel s size rows' (Finite bt) i w = (w', o) /\
      t_pg_rows w' = t_pg_rows w /\
      d1_checkpoints (t_d1 w') = d1_checkpoints (t_d1 w) /\
      match first_failure k (t_failures w) with
      | None =>
          o = Ret tt /\
          d1_tables (t_d1 w')
            = <[table s := cur ++ tuples_of (columns s) (drop (Z.to_nat (i * size)) rows')]>
                (d1_tables (t_d1 w)) /\
          t_failures w' = drop k (t_failures w)
      | Some j =>
          (exists e, o = Throw e) /\
          d1_tables (t_d1 w')
            = <[table s := cur ++ tuples_of (columns s)
                                    (first_batches size (batches_held (t_failures w) j)
                                       (drop (Z.to_nat (i * size)) rows'))]>
                (d1_tables (t_d1 w)) /\
          t_failures w' = drop (S j) (t_failures w)
      end.
Proof.
  intros Hb Hfit len bt.
  destruct (ceil_div_bounds len size Hb ltac:(subst len; lia)) as (Hbt0 & Hbt & _).
  fold bt in Hbt0, Hbt.
  induction k as [|k IH]; intros fuel i w cur Hi Hk Hfuel Hgas Hcur.
  - assert (i = bt) by lia. subst i. exists w, (Ret tt). split.
    { destruct fuel; cbn [insert_loop lt_count]; rewrite Z.ltb_irrefl; reflexivity. }
    split; [reflexivity|]. split; [reflexivity|]. cbn [first_failure].
    split; [reflexivity|]. split; [|reflexivity].
    rewrite drop_ge by lia. unfold tuples_of. cbn [fmap list_fmap]. rewrite app_nil_r.
    symmetry. apply insert_id. exact Hcur.
  - assert (Hlt : i < bt) by lia.
    destruct fuel as [|fuel]; [lia|]. cbn [insert_loop lt_count].
    apply Z.ltb_lt in Hlt as Hltb. rewrite Hltb.
    unfold bind at 1. unfold tick at 1. destruct (t_gas w) as [|g] eqn:Eg; [lia|].
    assert (Hi1 : (i + 1) * size <= bt * size) by (apply Z.mul_le_mono_nonneg_r; lia).
    assert (Hi0 : 0 <= i * size) by (apply Z.mul_nonneg_nonneg; lia).
    assert (Hil : i * size <= (bt - 1) * size) by (apply Z.mul_le_mono_nonneg_r; lia).
    set (batch := slice rows' (i * size) (Z.min (i * size + size) (Z.of_nat (length rows')))).
    assert (Hbl : Z.of_nat (length batch) = Z.min (i * size + size) len - i * size).
    { subst batch. apply length_slice; lia. }
    assert (Hbatch : batch = take (Z.to_nat size) (drop (Z.to_nat (i * size)) rows')).
    { subst batch. rewrite slice_take_drop by lia.
      destruct (Z_le_gt_dec (i * size + size) len) as [Hle|Hgt].
      - f_equal. lia.
      - rewrite !take_ge; [reflexivity| |]; rewrite length_drop; lia. }
    unfold bind at 1. unfold executeBatchInsert at 1. unfold bind at 1.
    unfold executeD1SQL at 1.
    cbn [t_d1 t_failures t_requests t_pg_rows t_pg_faults t_sleeps t_gas].
    assert (Hexec := execute_insert (t_d1 w) (table s) (columns s) batch cur Hcur
                       ltac:(lia) ltac:(nia)).
    destruct (t_failures w) as [|[f|] fs] eqn:Efs; cbn [head tail first_failure].
    + (* the schedule is over: the batch goes through *)
      rewrite Hexec. unfold ret at 1.
      match goal with |- context [bind ?m ?k ?w0] => set (w1 := w0) end.
      assert (Hsleep : exists w2,
                (if lt_count i (count_pred (Finite bt)) then sleep 100 else ret tt) w1
                  = (w2, Ret tt) /\ t_gas w2 = g /\ t_failures w2 = [] /\
                t_d1 w2 = t_d1 w1 /\ t_pg_rows w2 = t_pg_rows w).
      { destruct (lt_count i (count_pred (Finite bt))); eexists; (split; [reflexivity|]);
          cbn; repeat split. }
      destruct Hsleep as (w2 & E2 & Hg2 & Hf2 & Hd2 & Hr2).
      unfold bind at 1. rewrite E2.
      destruct (IH fuel (i + 1) w2 (cur ++ tuples_of (columns s) batch))
        as (w' & o & E' & Hr' & Hc' & Hcase); try lia.
      { rewrite Hd2. subst w1. cbn [t_d1 d1_tables]. apply lookup_insert_eq. }
      exists w', o. split; [exact E'|]. split; [congruence|].
      split; [rewrite Hc', Hd2; reflexivity|].
      rewrite Hf2, first_failure_nil in Hcase. rewrite first_failure_nil.
      cbn [fmap option_fmap option_map].
      destruct Hcase as (-> & Ht' & Hf'). split; [reflexivity|]. split.
      * rewrite Ht', Hd2. subst w1. cbn [t_d1 d1_tables]. rewrite insert_insert_eq.
        f_equal. rewrite <- app_assoc, <- tuples_of_app. do 2 f_equal.
        rewrite Hbatch.
        replace (Z.to_nat ((i + 1) * size)) with (Z.to_nat (i * size) + Z.to_nat size)%nat
          by lia.
        rewrite <- drop_drop, take_drop. reflexivity.
      * rewrite Hf', !drop_nil. reflexivity.
    + (* the request fails *)
      rewrite Hexec. cbn [fst]. unfold bind. eexists _, _. split; [reflexivity|].
      cbn [t_d1 t_failures t_pg_rows]. split; [reflexivity|].
      split; [destruct (was_executed f); reflexivity|].
      split; [eauto|]. split; [|reflexivity].
      unfold batches_held, executed_at. cbn [lookup list_lookup].
      destruct (was_executed f); cbn [d1_tables]; unfold first_batches.
      * rewrite Hbatch. do 4 f_equal. lia.
      * cbn [Nat.mul take]. unfold tuples_of. cbn [fmap list_fmap].
        rewrite app_nil_r. symmetry. apply insert_id. exact Hcur.
    + (* the request goes through *)
      rewrite Hexec. unfold ret at 1.
      match goal with |- context [bind ?m ?k ?w0] => set (w1 := w0) end.
      assert (Hsleep : exists w2,
                (if lt_count i (count_pred (Finite bt)) then sleep 100 else ret tt) w1
                  = (w2, Ret tt) /\ t_gas w2 = g /\ t_failures w2 = fs /\
                t_d1 w2 = t_d1 w1 /\ t_pg_rows w2 = t_pg_rows w).
      { destruct (lt_count i (count_pred (Finite bt))); eexists; (split; [reflexivity|]);
          cbn; repeat split. }
      destruct Hsleep as (w2 & E2 & Hg2 & Hf2 & Hd2 & Hr2).
      unfold bind at 1. rewrite E2.
      destruct (IH fuel (i + 1) w2 (cur ++ tuples_of (columns s) batch))
        as (w' & o & E' & Hr' & Hc' & Hcase); try lia.
      { rewrite Hd2. subst w1. cbn [t_d1 d1_tables]. apply lookup_insert_eq. }
      exists w', o. split; [exact E'|]. split; [congruence|].
      split; [rewrite Hc', Hd2; reflexivity|].
      rewrite Hf2 in Hcase.
      destruct (first_failure k fs) as [j|]; cbn [fmap option_fmap option_map].
      * destruct Hcase as (He & Ht' & Hf'). split; [exact He|]. split; [|exact Hf'].
        rewrite Ht', Hd2. subst w1. cbn [t_d1 d1_tables]. rewrite insert_insert_eq.
        f_equal. rewrite <- app_assoc, <- tuples_of_app. do 2 f_equal.
        rewrite Hbatch. unfold first_batches, batches_held, executed_at.
        cbn [lookup list_lookup].
        replace (Z.to_nat ((i + 1) * size)) with (Z.to_nat (i * size) + Z.to_nat size)%nat
          by lia.
        rewrite <- drop_drop, take_take_drop.
        destruct (match fs !! j with Some (Some f) => was_executed f | _ => false end);
          f_equal; lia.
      * destruct Hcase as (-> & Ht' & Hf'). split; [reflexivity|]. split; [|exact Hf'].
        rewrite Ht', Hd2. subst w1. cbn [t_d1 d1_tables]. rewrite insert_insert_eq.
        f_equal. rewrite <- app_assoc, <- tuples_of_app. do 2 f_equal.
        rewrite Hbatch.
        replace (Z.to_nat ((i + 1) * size)) with (Z.to_nat (i * size) + Z.to_nat size)%nat
          by lia.
        rewrite <- drop_drop, take_drop. reflexivity.
Qed.

Lemma pg_call_ok w : t_pg_faults w = [] -> pg_call w = (w, Ret tt).
Proof. destruct w. cbn. intros ->. reflexivity. Qed.

Lemma delete_run s w old :
  d1_tables (t_d1 w) !! table s = Some old ->
  exists w1,
    try_catch (bind (executeD1SQL (DeleteAll (table s))) (fun _ => ret tt))
      (fun error => ret tt) w = (w1, Ret tt) /\
    t_failures w1 = tail (t_failures w) /\
    d1_tables (t_d1 w1)
      = <[table s := if next_is_executed (t_failures w) then [] else old]>
          (d1_tables (t_d1 w)) /\
    d1_checkpoints (t_d1 w1) = d1_checkpoints (t_d1 w) /\
    t_pg_rows w1 = t_pg_rows w /\ t_gas w1 = t_gas w.
Proof.
  intros Hold. unfold try_catch, bind, executeD1SQL, next_is_executed.
  cbn [execute]. rewrite Hold.
  destruct (t_failures w) as [|[f|] fs]; cbn [head tail];
    [| destruct (was_executed f) |];
    eexists; (split; [reflexivity|]); cbn; repeat split; try reflexivity;
    symmetry; apply insert_id; exact Hold.
Qed.

Lemma count_run s w dest :
  d1_tables (t_d1 w) !! table s = Some dest ->
  exists w1,
    t_d1 w1 = t_d1 w /\
    match head (t_failures w) with
    | Some (Some _) => exists e, executeD1SQL (CountAll (table s)) w = (w1, Throw e)
    | _ => executeD1SQL (CountAll (table s)) w
             = (w1, Ret [RowCount (Z.of_nat (length dest))])
    end.
Proof.
  intros Hdest. unfold executeD1SQL. cbn [execute d1_exec]. unfold table_count.
  replace (String.eqb (table s) checkpoints_name) with false by (destruct s; reflexivity).
  rewrite Hdest. cbn [fmap option_fmap option_map].
  destruct (t_failures w) as [|[f|] fs]; cbn [head tail];
    [| destruct (was_executed f) | ];
    eexists; (split; [|first [reflexivity | eexists; reflexivity]]); reflexivity.
Qed.

Lemma length_processed s rows rows' :
  processed s rows = inl rows' -> length rows' = length rows.
Proof.
  destruct s; cbn [processed]; [intros [= <-]; reflexivity|].
  unfold transform_rows. apply length_err_map.
Qed.

Lemma length_fetched s w : length (fetched s w) = length (t_pg_rows w).
Proof.
  unfold fetched. rewrite length_fmap. apply Permutation_length, merge_sort_Permutation.
Qed.

Lemma traditional_run s env w old rows' :
  1 <= BATCH_SIZE s env ->
  t_pg_faults w = [] -> t_pg_rows w <> [] ->
  processed s (fetched s w) = inl rows' ->
  d1_tables (t_d1 w) !! table s = Some old ->
  (length rows' <= t_gas w)%nat ->
  let size := BATCH_SIZE s env in
  let n := Z.to_nat (- (- Z.of_nat (length rows') / size)) in
  let base := if next_is_executed (t_failures w) then [] else old in
  exists w' o,
    migrateData_try s env w = (w', o) /\
    d1_checkpoints (t_d1 w') = d1_checkpoints (t_d1 w) /\
    match first_failure n (tail (t_failures w)) with
    | Some j =>
        (exists e, o = Throw e) /\
        d1_tables (t_d1 w')
          = <[table s := base ++ tuples_of (columns s)
                                   (first_batches size
                                      (batches_held (tail (t_failures w)) j) rows')]>
              (d1_tables (t_d1 w))
    | None =>
        d1_tables (t_d1 w')
          = <[table s := base ++ tuples_of (columns s) rows']> (d1_tables (t_d1 w)) /\
        match head (drop n (tail (t_failures w))) with
        | Some (Some _) => exists e, o = Throw e
        | _ => o = Ret (Finished (Z.of_nat (length base + length rows')
                                  =? Z.of_nat (length rows')))
        end
    end.
Proof.
  intros Hb Hpg Hne Hproc Hold Hgas size n base.
  pose proof (length_processed _ _ _ Hproc) as Hlen. rewrite length_fetched in Hlen.
  unfold migrateData_try.
  rewrite (bind_ret_run' _ _ _ _ _ (pg_call_ok w Hpg)).
  rewrite (bind_ret_run' _ _ _ _ _ (pg_call_ok w Hpg)).
  destruct (Z.of_nat (length (t_pg_rows w)) =? 0) eqn:Ez.
  { apply Z.eqb_eq in Ez. destruct (t_pg_rows w); [congruence|discriminate]. }
  rewrite (bind_ret_run' _ _ _ _ _ (pg_call_ok w Hpg)).
  rewrite Hproc. unfold lift. unfold bind at 1. unfold ret at 1.
  destruct (delete_run s w old Hold) as (w1 & E1 & Hf1 & Ht1 & Hc1 & Hr1 & Hg1).
  rewrite (bind_ret_run' _ _ _ _ _ E1). fold base in Ht1.
  unfold Math_ceil_div. fold size.
  destruct (size =? 0) eqn:Es0; [apply Z.eqb_eq in Es0; lia|].
  destruct (ceil_div_bounds (Z.of_nat (length rows')) size Hb ltac:(lia)) as (Hbt0 & _ & Hbtl).
  destruct (insert_loop_run s size rows' Hb (traditional_batch_fits s env) n (t_gas w1) 0 w1
              base) as (w2 & o2 & E2 & Hr2 & Hc2 & Hcase); try lia.
  { rewrite Ht1. apply lookup_insert_eq. }
  unfold bind at 1. rewrite E2. rewrite Hf1 in Hcase.
  change (Z.to_nat (0 * size)) with 0%nat in Hcase.
  destruct (first_failure n (tail (t_failures w))) as [j|].
  - destruct Hcase as ([e ->] & Ht2 & Hf2).
    rewrite Ht1, insert_insert_eq, drop_0 in Ht2. exists w2, (Throw e).
    split; [reflexivity|]. split; [congruence|]. split; [eauto|exact Ht2].
  - destruct Hcase as (-> & Ht2 & Hf2).
    rewrite Ht1, insert_insert_eq, drop_0 in Ht2.
    destruct (count_run s w2 (base ++ tuples_of (columns s) rows')) as (w3 & Hd3 & E3).
    { rewrite Ht2. apply lookup_insert_eq. }
    rewrite Hf2 in E3.
    destruct (head (drop n (tail (t_failures w)))) as [[f|]|].
    + destruct E3 as [e E3]. unfold bind at 1. rewrite E3. exists w3, (Throw e).
      split; [reflexivity|]. rewrite Hd3. split; [congruence|]. split; [exact Ht2|eauto].
    + unfold bind at 1. rewrite E3. unfold ret. eexists _, _. split; [reflexivity|].
      rewrite Hd3. split; [congruence|]. split; [exact Ht2|].
      rewrite length_app. unfold tuples_of. rewrite length_fmap, Hlen. reflexivity.
    + unfold bind at 1. rewrite E3. unfold ret. eexists _, _. split; [reflexivity|].
      rewrite Hd3. split; [congruence|]. split; [exact Ht2|].
      rewrite length_app. unfold tuples_of. rewrite length_fmap, Hlen. reflexivity.
Qed.

(** X17: what a traditional migration ([migrate.js],
    [migrate-camera-locations.js]) leaves behind, for any schedule of
    failed requests, each of which the database may or may not have
    executed before the failure.  The destination table exists, the source
    is not empty, its rows respect the NOT NULL columns and the batch size
    is at least 1.  A failed DELETE is swallowed: unless the database
    executed it, the old rows stay and the new ones are appended to them;
    otherwise the inserts start from an empty table.  If insert [j+1] is
    the first to fail, the run exits with code 1 and the table holds the
    first [j] batches, and batch [j+1] as well when the database had
    executed that insert; nothing is rolled back.  If all inserts pass, the
    table holds all source rows, and unless the final count request fails
    (exit code 1) the run ends with code 0, reporting a matching count
    exactly when the inserts started from an empty table. *)
Theorem traditional_run_outcome (s : Traditional.Script) (env : option Z)
    (w : Traditional.World) (old : list (list value)) (rows' : list (gmap string value)) :
  1 <= BATCH_SIZE s env ->
  t_pg_faults w = [] -> t_pg_rows w <> [] ->
  rows_insertable (t_pg_rows w) ->
  processed s (fetched s w) = inl rows' ->
  d1_tables (t_d1 w) !! table s = Some old ->
  (length rows' <= t_gas w)%nat ->
  let size := BATCH_SIZE s env in
  let n := Z.to_nat (- (- Z.of_nat (length rows') / size)) in
  let base := if next_is_executed (t_failures w) then [] else old in
  exists w',
    d1_checkpoints (t_d1 w') = d1_checkpoints (t_d1 w) /\
    match first_failure n (tail (t_failures w)) with
    | Some j =>
        migrateData s env w = (w', Some 1) /\
        d1_tables (t_d1 w')
          = <[table s := base ++ tuples_of (columns s)
                                   (first_batches size
                                      (batches_held (tail (t_failures w)) j) rows')]>
              (d1_tables (t_d1 w))
    | None =>
        d1_tables (t_d1 w')
          = <[table s := base ++ tuples_of (columns s) rows']> (d1_tables (t_d1 w)) /\
        match head (drop n (tail (t_failures w))) with
        | Some (Some _) => migrateData s env w = (w', Some 1)
        | _ =>
            exists verified,
              migrateData_try s env w = (w', Ret (Finished verified)) /\
              migrateData s env w = (w', Some 0) /\
              (verified = true <-> base = [])
        end
    end.
Proof.
  intros Hb Hpg Hne _ Hproc Hold Hgas size n base.
  destruct (traditional_run s env w old rows' Hb Hpg Hne Hproc Hold Hgas)
    as (w' & o & E & Hc & Hcase).
  fold size n base in Hcase. exists w'. split; [exact Hc|].
  unfold migrateData. rewrite E.
  destruct (first_failure n (tail (t_failures w))) as [j|].
  - destruct Hcase as ([e ->] & Ht). split; [reflexivity|exact Ht].
  - destruct Hcase as (Ht & Hv). split; [exact Ht|].
    destruct (head (drop n (tail (t_failures w)))) as [[f|]|].
    + destruct Hv as [e ->]. reflexivity.
    + subst o. eexists. split; [reflexivity|]. split; [reflexivity|].
      rewrite Z.eqb_eq. destruct base; cbn [length]; split; intros Hx;
        [reflexivity|lia|lia|discriminate].
    + subst o. eexists. split; [reflexivity|]. split; [reflexivity|].
      rewrite Z.eqb_eq. destruct base; cbn [length]; split; intros Hx;
        [reflexivity|lia|lia|discriminate].
Qed.

(** X18: a traditional migration without any failure replaces the
    content of the destination table: whatever the table held, it ends with
    exactly the source rows in id order (timestamps printed for
    [camera_locations]), the counts match and the exit code is 0; the
    checkpoint table is not touched.  Running it again gives the same
    table. *)
Theorem traditional_run_replaces_destination (s : Traditional.Script) (env : option Z)
    (w : Traditional.World) (old : list (list value)) (rows' : list (gmap string value)) :
  1 <= BATCH_SIZE s env ->
  t_pg_faults w = [] -> t_failures w = [] -> t_pg_rows w <> [] ->
  rows_insertable (t_pg_rows w) ->
  processed s (fetched s w) = inl rows' ->
  d1_tables (t_d1 w) !! table s = Some old ->
  (length rows' <= t_gas w)%nat ->
  exists w',
    migrateData_try s env w = (w', Ret (Finished true)) /\
    migrateData s env w = (w', Some 0) /\
    length rows' = length (t_pg_rows w) /\
    d1_tables (t_d1 w')
      = <[table s := tuples_of (columns s) rows']> (d1_tables (t_d1 w)) /\
    d1_checkpoints (t_d1 w') = d1_checkpoints (t_d1 w).
Proof.
  intros Hb Hpg Hfs Hne _ Hproc Hold Hgas.
  destruct (traditional_run s env w old rows' Hb Hpg Hne Hproc Hold Hgas)
    as (w' & o & E & Hc & Hcase).
  rewrite Hfs in Hcase. unfold next_is_executed in Hcase. cbn [head tail] in Hcase.
  rewrite first_failure_nil, drop_nil in Hcase. cbn [head app length Nat.add] in Hcase.
  destruct Hcase as (Ht & ->). rewrite Z.eqb_refl in E.
  exists w'. split; [exact E|]. split; [unfold migrateData; rewrite E; reflexivity|].
  split; [|split; assumption].
  rewrite (length_processed _ _ _ Hproc). apply length_fetched.
Qed.

(** X19: a traditional migration never creates the destination table.
    If the table is missing and the source is not empty, the run exits
    with code 1 and the database is unchanged, whatever the batch size,
    the timestamps and the failures of the remote or the source. *)
Theorem traditional_run_never_creates_the_table (s : Traditional.Script) (env : option Z)
    (w : Traditional.World) :
  d1_tables (t_d1 w) !! table s = None ->
  t_pg_rows w <> [] ->
  (1 <= t_gas w)%nat ->
  exists w', migrateData s env w = (w', Some 1) /\ t_d1 w' = t_d1 w.
Proof.
  intros Hnone Hne Hgas.
  assert (Hexec : forall q, q = DeleteAll (table s) \/ q = CountAll (table s) \/
                    (exists n a ps, q = InsertInto (table s) n a ps) ->
                  exists err, execute (t_d1 w) q = (t_d1 w, inr err)).
  { intros q [->|[->|(n & a & ps & ->)]]; cbn [execute d1_exec].
    - rewrite Hnone. eauto.
    - unfold table_count.
      replace (String.eqb (table s) checkpoints_name) with false by (destruct s; reflexivity).
      rewrite Hnone. eauto.
    - destruct (n =? 0)%nat; [eauto|]. destruct (D1_MAX_PARAMS <? length ps)%nat; [eauto|].
      rewrite Hnone. eauto. }
  assert (Hsend : forall q w0, t_d1 w0 = t_d1 w ->
            q = DeleteAll (table s) \/ q = CountAll (table s) \/
              (exists n a ps, q = InsertInto (table s) n a ps) ->
            exists w1 e, executeD1SQL q w0 = (w1, Throw e) /\ t_d1 w1 = t_d1 w /\
              t_gas w1 = t_gas w0).
  { intros q w0 Hd Hq. destruct (Hexec q Hq) as [err Herr]. unfold executeD1SQL.
    rewrite Hd, Herr.
    destruct (t_failures w0) as [|[f|] fs]; cbn [head tail fst];
      [| destruct (was_executed f) |];
      eexists _, _; (split; [reflexivity|]); cbn; split; reflexivity || exact Hd. }
  unfold migrateData, migrateData_try.
  unfold bind at 1. unfold pg_call at 1.
  destruct (head (t_pg_faults w)) as [[msg|]|]; [eexists; split; reflexivity| |].
  all: cbn [t_pg_faults].
  all: unfold bind at 1; unfold pg_call at 1;
    cbn [t_d1 t_failures t_requests t_pg_rows t_pg_faults t_sleeps t_gas].
  all: destruct (head (tail (t_pg_faults w))) as [[msg|]|]; [eexists; split; reflexivity| |].
  all: cbn [t_d1 t_failures t_requests t_pg_rows t_pg_faults t_sleeps t_gas].
  all: destruct (Z.of_nat (length (t_pg_rows w)) =? 0) eqn:Ez;
    [apply Z.eqb_eq in Ez; destruct (t_pg_rows w); [congruence|discriminate]|].
  all: unfold bind at 1; unfold pg_call at 1;
    cbn [t_d1 t_failures t_requests t_pg_rows t_pg_faults t_sleeps t_gas].
  all: destruct (head (tail (tail (t_pg_faults w)))) as [[msg|]|];
    [eexists; split; reflexivity| |].
  all: match goal with |- context [bind (lift ?m) ?k ?w0] =>
         set (w1 := w0); unfold bind at 1; destruct m as [rows'|e]; cbn [lift];
         [unfold ret at 1|eexists; split; reflexivity]
       end.
  all: assert (Hd1 : t_d1 w1 = t_d1 w) by reflexivity;
    assert (Hg1 : t_gas w1 = t_gas w) by reflexivity.
  all: assert (Hdel : exists w2,
         try_catch (bind (executeD1SQL (DeleteAll (table s))) (fun _ => ret tt))
           (fun error => ret tt) w1 = (w2, Ret tt) /\ t_d1 w2 = t_d1 w /\
         t_gas w2 = t_gas w)
    by (destruct (Hsend (DeleteAll (table s)) w1 Hd1 ltac:(left; reflexivity))
          as (w2 & e & E2 & Hd2 & Hg2);
        exists w2; unfold try_catch, bind; rewrite E2; unfold ret;
        split; [reflexivity|split; [exact Hd2|congruence]]).
  all: destruct Hdel as (w2 & E2 & Hd2 & Hg2); unfold bind at 1; rewrite E2.
  all: assert (Hloop : forall batches,
         (exists e w3, insert_loop (t_gas w2) s (BATCH_SIZE s env) rows' batches 0 w2
                         = (w3, Throw e) /\ t_d1 w3 = t_d1 w) \/
         insert_loop (t_gas w2) s (BATCH_SIZE s env) rows' batches 0 w2 = (w2, Ret tt)).
  all: try (intros batches; destruct (t_gas w2) as [|g] eqn:Eg; [lia|];
    cbn [insert_loop]; destruct (lt_count 0 batches); [left|right; reflexivity];
    unfold bind at 1; unfold tick at 1; rewrite Eg;
    unfold bind at 1; unfold executeBatchInsert at 1; unfold bind at 1;
    match goal with |- context [executeD1SQL ?q ?w0] =>
      destruct (Hsend q w0 Hd2 ltac:(right; right; eauto)) as (w3 & e & E3 & Hd3 & _)
    end;
    rewrite E3; eauto).
  all: unfold bind at 1;
    destruct (Hloop (Math_ceil_div (Z.of_nat (length rows')) (BATCH_SIZE s env)))
      as [(e & w3 & E3 & Hd3)|E3]; rewrite E3; [eexists; split; [reflexivity|exact Hd3]|].
  all: destruct (Hsend (CountAll (table s)) w2 Hd2 ltac:(right; left; reflexivity))
         as (w3 & e & E4 & Hd3 & _); unfold bind at 1; rewrite E4;
       eexists; split; [reflexivity|exact Hd3].
Qed.

(** X20: [migrate-camera-locations.js] prints every timestamp before it
    sends anything.  If one of them cannot be printed the run exits with
    code 1 with the error [Invalid time value], no request has been sent
    and the destination still holds its old rows; [migrate.js] has no such
    step and cannot fail there. *)
Theorem traditional_run_fails_before_writing (s : Traditional.Script) (env : option Z)
    (w : Traditional.World) (e : JsError) :
  t_pg_faults w = [] -> t_pg_rows w <> [] ->
  processed s (fetched s w) = inr e ->
  migrateData_try s env w = (w, Throw e) /\ migrateData s env w = (w, Some 1) /\
  s = migrate_camera_locations_js /\ message e = "Invalid time value".
Proof.
  intros Hpg Hne Hproc.
  assert (E : migrateData_try s env w = (w, Throw e)).
  { unfold migrateData_try.
    rewrite (bind_ret_run' _ _ _ _ _ (pg_call_ok w Hpg)).
    rewrite (bind_ret_run' _ _ _ _ _ (pg_call_ok w Hpg)).
    destruct (Z.of_nat (length (t_pg_rows w)) =? 0) eqn:Ez.
    { apply Z.eqb_eq in Ez. destruct (t_pg_rows w); [congruence|discriminate]. }
    rewrite (bind_ret_run' _ _ _ _ _ (pg_call_ok w Hpg)).
    rewrite Hproc. reflexivity. }
  split; [exact E|]. split; [unfold migrateData; rewrite E; reflexivity|].
  destruct s; cbn [processed] in Hproc; [discriminate|].
  split; [reflexivity|]. destruct (transform_rows_error _ _ Hproc) as [-> _]. reflexivity.
Qed.

End TraditionalFacts.

Lemma coordinate_rows_insertable n : rows_insertable (coordinate_row <$> seqZ 1 n).
Proof.
  apply Forall_forall. intros row Hin.
  apply list_elem_of_fmap in Hin as (i & -> & _).
  unfold not_null, coordinate_row.
  rewrite !(lookup_insert_ne _ "id") by discriminate.
  rewrite lookup_insert_eq, lookup_insert_ne by discriminate.
  rewrite lookup_insert_eq. split; exact I.
Qed.

Lemma traditional_run_outcome_witness :
  1 <= Traditional.BATCH_SIZE Traditional.migrate_js None /\
  Traditional.t_pg_faults interrupted_world = [] /\
  Traditional.t_pg_rows interrupted_world <> [] /\
  rows_insertable (Traditional.t_pg_rows interrupted_world) /\
  exists w',
    @Traditional.migrateData strict_platform Traditional.migrate_js None interrupted_world
      = (w', Some 1) /\
    d1_tables (Traditional.t_d1 w') !! "coordinate_speed_new" = Some [].
Proof.
  assert (H1 : 1 <= Traditional.BATCH_SIZE Traditional.migrate_js None)
    by (vm_compute; discriminate).
  assert (H2 : Traditional.t_pg_faults interrupted_world = []) by reflexivity.
  assert (H3 : Traditional.t_pg_rows interrupted_world <> []).
  { intros Hc. apply (f_equal length) in Hc. vm_compute in Hc. discriminate. }
  assert (H4 : rows_insertable (Traditional.t_pg_rows interrupted_world))
    by apply coordinate_rows_insertable.
  assert (H5 : @Traditional.processed strict_platform Traditional.migrate_js
                 (Traditional.fetched Traditional.migrate_js interrupted_world)
               = inl (Traditional.fetched Traditional.migrate_js interrupted_world))
    by reflexivity.
  assert (H6 : d1_tables (Traditional.t_d1 interrupted_world)
                 !! Traditional.table Traditional.migrate_js
               = Some [[VNum 0; VNum 0; VNull; VNull; VNull]])
    by (vm_compute; reflexivity).
  assert (H7 : (length (Traditional.fetched Traditional.migrate_js interrupted_world)
                <= Traditional.t_gas interrupted_world)%nat) by (vm_compute; lia).
  split; [exact H1|]. split; [exact H2|]. split; [exact H3|]. split; [exact H4|].
  destruct (@traditional_run_outcome strict_platform Traditional.migrate_js None
              interrupted_world _ _ H1 H2 H3 H4 H5 H6 H7) as (w' & _ & Hcase).
  set (ff := first_failure _ _) in Hcase.
  assert (Hff : ff = Some 0%nat) by (vm_compute; reflexivity).
  rewrite Hff in Hcase. destruct Hcase as [E Ht].
  exists w'. split; [exact E|]. rewrite Ht. apply lookup_insert_eq.
Defined.

Lemma traditional_run_replaces_destination_witness :
  1 <= Traditional.BATCH_SIZE Traditional.migrate_js None /\
  Traditional.t_pg_faults (traditional_world []) = [] /\
  Traditional.t_failures (traditional_world []) = [] /\
  Traditional.t_pg_rows (traditional_world []) <> [] /\
  rows_insertable (Traditional.t_pg_rows (traditional_world [])) /\
  exists w',
    @Traditional.migrateData strict_platform Traditional.migrate_js None
      (traditional_world []) = (w', Some 0).
Proof.
  assert (H1 : 1 <= Traditional.BATCH_SIZE Traditional.migrate_js None)
    by (vm_compute; discriminate).
  assert (H2 : Traditional.t_pg_faults (traditional_world []) = []) by reflexivity.
  assert (H2' : Traditional.t_failures (traditional_world []) = []) by reflexivity.
  assert (H3 : Traditional.t_pg_rows (traditional_world []) <> []).
  { intros Hc. apply (f_equal length) in Hc. vm_compute in Hc. discriminate. }
  assert (H4 : rows_insertable (Traditional.t_pg_rows (traditional_world [])))
    by apply coordinate_rows_insertable.
  assert (H5 : @Traditional.processed strict_platform Traditional.migrate_js
                 (Traditional.fetched Traditional.migrate_js (traditional_world []))
               = inl (Traditional.fetched Traditional.migrate_js (traditional_world [])))
    by reflexivity.
  assert (H6 : d1_tables (Traditional.t_d1 (traditional_world []))
                 !! Traditional.table Traditional.migrate_js
               = Some [[VNum 0; VNum 0; VNull; VNull; VNull]])
    by (vm_compute; reflexivity).
  assert (H7 : (length (Traditional.fetched Traditional.migrate_js (traditional_world []))
                <= Traditional.t_gas (traditional_world []))%nat) by (vm_compute; lia).
  split; [exact H1|]. split; [exact H2|]. split; [exact H2'|]. split; [exact H3|].
  split; [exact H4|].
  destruct (@traditional_run_replaces_destination strict_platform Traditional.migrate_js None
              (traditional_world []) _ _ H1 H2 H2' H3 H4 H5 H6 H7) as (w' & _ & E & _).
  exists w'. exact E.
Defined.

Lemma traditional_run_never_creates_the_table_witness :
  d1_tables (Traditional.t_d1 bare_world) !! Traditional.table Traditional.migrate_js = None /\
  Traditional.t_pg_rows bare_world <> [] /\
  (1 <= Traditional.t_gas bare_world)%nat /\
  exists w',
    @Traditional.migrateData strict_platform Traditional.migrate_js None bare_world
      = (w', Some 1) /\
    Traditional.t_d1 w' = Traditional.t_d1 bare_world.
Proof.
  assert (H1 : d1_tables (Traditional.t_d1 bare_world)
                 !! Traditional.table Traditional.migrate_js = None) by reflexivity.
  assert (H2 : Traditional.t_pg_rows bare_world <> []).
  { intros Hc. apply (f_equal length) in Hc. vm_compute in Hc. discriminate. }
  assert (H3 : (1 <= Traditional.t_gas bare_world)%nat) by (vm_compute; lia).
  split; [exact H1|]. split; [exact H2|]. split; [exact H3|].
  exact (@traditional_run_never_creates_the_table strict_platform Traditional.migrate_js None
           bare_world H1 H2 H3).
Defined.

Lemma traditional_run_fails_before_writing_witness :
  Traditional.t_pg_faults poisoned_source = [] /\
  Traditional.t_pg_rows poisoned_source <> [] /\
  @Traditional.migrateData strict_platform Traditional.migrate_camera_locations_js None
    poisoned_source = (poisoned_source, Some 1).
Proof.
  assert (H1 : Traditional.t_pg_faults poisoned_source = []) by reflexivity.
  assert (H2 : Traditional.t_pg_rows poisoned_source <> []) by discriminate.
  assert (H3 : @Traditional.processed strict_platform Traditional.migrate_camera_locations_js
                 (Traditional.fetched Traditional.migrate_camera_locations_js
                    poisoned_source)
               = inr (MkError "Invalid time value")) by (vm_compute; reflexivity).
  split; [exact H1|]. split; [exact H2|].
  exact (proj1 (proj2 (@traditional_run_fails_before_writing strict_platform
                         Traditional.migrate_camera_locations_js None poisoned_source _
                         H1 H2 H3))).
Defined.

Section CleanupFacts.
Import CleanupD1.

Lemma c_preserves_bind {A B} (R : World -> World -> Prop) (m : M A) (k : A -> M B) :
  (forall w1 w2 w3, R w1 w2 -> R w2 w3 -> R w1 w3) ->
  c_preserves R m -> (forall a, c_preserves R (k a)) -> c_preserves R (bind m k).
Proof.
  intros Htrans Hm Hk w w' o E. unfold bind in E.
  destruct (m w) as [w1 [a|e|]] eqn:Em.
  - exact (Htrans _ _ _ (Hm _ _ _ Em) (Hk a _ _ _ E)).
  - injection E as <- _. exact (Hm _ _ _ Em).
  - injection E as <- _. exact (Hm _ _ _ Em).
Qed.

Lemma c_preserves_try_catch {A} (R : World -> World -> Prop) (m : M A) h :
  (forall w1 w2 w3, R w1 w2 -> R w2 w3 -> R w1 w3) ->
  c_preserves R m -> (forall e, c_preserves R (h e)) -> c_preserves R (try_catch m h).
Proof.
  intros Htrans Hm Hh w w' o E. unfold try_catch in E.
  destruct (m w) as [w1 [a|e|]] eqn:Em.
  - injection E as <- _. exact (Hm _ _ _ Em).
  - exact (Htrans _ _ _ (Hm _ _ _ Em) (Hh e _ _ _ E)).
  - injection E as <- _. exact (Hm _ _ _ Em).
Qed.

Lemma untouched_refl table d : untouched_by_cleanup table d d.
Proof. unfold untouched_by_cleanup. repeat split; auto. Qed.

Lemma untouched_trans table d1 d2 d3 :
  untouched_by_cleanup table d1 d2 -> untouched_by_cleanup table d2 d3 ->
  untouched_by_cleanup table d1 d3.
Proof.
  intros (A1 & A2 & A3 & A4 & A5 & A6) (B1 & B2 & B3 & B4 & B5 & B6).
  unfold untouched_by_cleanup.
  split; [intros other Hne; rewrite (B1 other Hne); exact (A1 other Hne)|].
  split; [rewrite B2; exact A2|].
  split; [intros Hne; rewrite (B3 Hne); exact (A3 Hne)|].
  split; [rewrite B4; exact A4|]. split; congruence.
Qed.

Lemma filter_filter_same {A} (P : A -> bool) (l : list A) :
  filter P (filter P l) = filter P l.
Proof.
  induction l as [|x l IH]; [reflexivity|].
  destruct (P x) eqn:E.
  - rewrite filter_cons_True by (rewrite E; exact I).
    rewrite filter_cons_True by (rewrite E; exact I). f_equal. exact IH.
  - rewrite filter_cons_False by (rewrite E; exact id). exact IH.
Qed.

Lemma untouched_execute table d q :
  about table q -> untouched_by_cleanup table d (execute d q).1.
Proof.
  destruct q as [t|t|t|t|t]; cbn [about]; intros ->; cbn [execute d1_exec].
  - destruct (table_count d table); apply untouched_refl.
  - destruct (d1_checkpoints d); apply untouched_refl.
  - destruct (d1_checkpoints d); apply untouched_refl.
  - destruct (String.eqb table checkpoints_name) eqn:Ename.
    + destruct (d1_checkpoints d) as [cps|] eqn:Ec; [|apply untouched_refl].
      apply String.eqb_eq in Ename. unfold untouched_by_cleanup, set_checkpoints.
      cbn [fst d1_tables d1_checkpoints d1_seq d1_indexes].
      split; [reflexivity|]. split; [reflexivity|]. split; [congruence|].
      split; [rewrite Ec; split; eauto|]. split; reflexivity.
    + destruct (d1_tables d !! table) as [rows|] eqn:Et; [|apply untouched_refl].
      unfold untouched_by_cleanup. cbn [fst d1_tables d1_checkpoints d1_seq d1_indexes].
      split; [intros other Hne; apply lookup_insert_ne; congruence|].
      split; [rewrite lookup_insert_eq, Et; split; eauto|].
      repeat split; auto.
  - destruct (d1_checkpoints d) as [cps|] eqn:Ec; [|apply untouched_refl].
    unfold untouched_by_cleanup, set_checkpoints.
    cbn [fst d1_tables d1_checkpoints d1_seq d1_indexes].
    split; [reflexivity|]. split; [reflexivity|].
    split; [intros _; rewrite Ec; cbn; f_equal; apply filter_filter_same|].
    split; [rewrite Ec; split; eauto|]. split; reflexivity.
Qed.

Lemma c_untouched_trans table w1 w2 w3 :
  c_untouched table w1 w2 -> c_untouched table w2 w3 -> c_untouched table w1 w3.
Proof. apply untouched_trans. Qed.

Lemma untouched_d1_attempt table q :
  about table q -> c_preserves (c_untouched table) (d1_attempt q).
Proof.
  intros Hq w w' o E. unfold d1_attempt in E. unfold c_untouched.
  pose proof (untouched_execute table (c_d1 w) q Hq) as Hex.
  destruct (head (c_faults w)) as [[f|]|].
  - injection E as <- _. cbn [c_d1]. destruct (executed f); [exact Hex|apply untouched_refl].
  - destruct (execute (c_d1 w) q) as [d' [rows|err]]; injection E as <- _; exact Hex.
  - destruct (execute (c_d1 w) q) as [d' [rows|err]]; injection E as <- _; exact Hex.
Qed.

Lemma untouched_sleep table delay : c_preserves (c_untouched table) (sleep delay).
Proof. intros w w' o E. injection E as <- _. apply untouched_refl. Qed.

Lemma untouched_ret {A} table (a : A) : c_preserves (c_untouched table) (ret a).
Proof. intros w w' o E. injection E as <- _. apply untouched_refl. Qed.

Lemma untouched_throw {A} table e : c_preserves (c_untouched table) (@throw A e).
Proof. intros w w' o E. injection E as <- _. apply untouched_refl. Qed.

Lemma untouched_executeD1SQL_from table q retries :
  about table q ->
  forall n attempt, c_preserves (c_untouched table) (executeD1SQL_from n q retries attempt).
Proof.
  intros Hq. induction n as [|n IH]; intros attempt; cbn [executeD1SQL_from].
  - apply untouched_ret.
  - apply c_preserves_try_catch; [apply c_untouched_trans| |].
    + apply c_preserves_bind; [apply c_untouched_trans|apply untouched_d1_attempt; exact Hq|].
      intros a. apply untouched_ret.
    + intros e. destruct (attempt =? retries); [apply untouched_throw|].
      apply c_preserves_bind; [apply c_untouched_trans|apply untouched_sleep|].
      intros _. apply IH.
Qed.

Lemma untouched_count_of table r : c_preserves (c_untouched table) (count_of r).
Proof.
  intros w w' o E. unfold count_of in E.
  destruct r as [[|[n|n|c] rows]|]; injection E as <- _; apply untouched_refl.
Qed.

Ltac untouched_step :=
  first
    [ apply untouched_ret
    | apply untouched_throw
    | apply untouched_count_of
    | apply untouched_executeD1SQL_from; reflexivity
    | apply c_preserves_bind; [apply c_untouched_trans| |intros ?]
    | apply c_preserves_try_catch; [apply c_untouched_trans| |intros ?]
    | match goal with |- c_preserves _ (if ?b then _ else _) => destruct b end ].

(** X21: whatever the remote does, the cleanup script touches nothing
    but its own table: rows of other tables, checkpoints of other tables,
    the id counter and the indexes are as before, no table is created or
    dropped. *)
Theorem cleanup_touches_only_its_table (TABLE_NAME : string) (w : CleanupD1.World) :
  untouched_by_cleanup TABLE_NAME (c_d1 w) (c_d1 (cleanupD1 TABLE_NAME w).1).
Proof.
  assert (Hp : c_preserves (c_untouched TABLE_NAME) (cleanupD1_try TABLE_NAME)).
  { unfold cleanupD1_try, unless_missing, executeD1SQL. repeat untouched_step. }
  unfold cleanupD1. destruct (cleanupD1_try TABLE_NAME w) as [w' o] eqn:E.
  specialize (Hp _ _ _ E). destruct o; exact Hp.
Qed.

Lemma execute_error d q d' err :
  execute d q = (d', inr err) -> d' = d /\ exists t, err = no_such_table t.
Proof.
  destruct q as [t|t|t|t|t]; cbn [execute d1_exec]; intros E.
  - destruct (table_count d t); [discriminate|]. injection E as <- <-. eauto.
  - destruct (d1_checkpoints d); [discriminate|]. injection E as <- <-. eauto.
  - destruct (d1_checkpoints d); [discriminate|]. injection E as <- <-. eauto.
  - destruct (String.eqb t checkpoints_name).
    + destruct (d1_checkpoints d); [discriminate|]. injection E as <- <-. eauto.
    + destruct (d1_tables d !! t); [discriminate|]. injection E as <- <-. eauto.
  - destruct (d1_checkpoints d); [discriminate|]. injection E as <- <-. eauto.
Qed.

Lemma executeD1SQL_quiet q w :
  c_faults w = [] ->
  exists w',
    c_faults w' = [] /\ c_d1 w' = (execute (c_d1 w) q).1 /\
    match (execute (c_d1 w) q).2 with
    | inl rows => executeD1SQL q w = (w', Ret (Some rows))
    | inr err =>
        executeD1SQL q w = (w', Throw (MkError ("D1 API Error: " +:+ err))) /\
        exists t, err = no_such_table t
    end.
Proof.
  destruct w as [d fs rq sl]. cbn [c_faults c_d1]. intros ->.
  unfold executeD1SQL. cbn [executeD1SQL_from].
  unfold try_catch, bind, d1_attempt, sleep, ret, throw.
  cbn [head tail c_faults c_d1 c_requests c_sleeps].
  destruct (execute d q) as [d' [rows|err]] eqn:E; cbn [fst snd].
  - eexists. split; [|split; [|reflexivity]]; reflexivity.
  - destruct (execute_error _ _ _ _ E) as [-> Hmissing].
    change (1 =? 3) with false. cbn [head tail c_faults c_d1 c_requests c_sleeps].
    rewrite E. change (1 + 1 =? 3) with false.
    cbn [head tail c_faults c_d1 c_requests c_sleeps]. rewrite E.
    change (1 + 1 + 1 =? 3) with true. cbn iota.
    eexists. split; [|split; [|split; [reflexivity|exact Hmissing]]]; reflexivity.
Qed.

Lemma missing_included t :
  includes (message (MkError ("D1 API Error: " +:+ no_such_table t))) "no such table" = true.
Proof. vm_compute. reflexivity. Qed.

Lemma execute_count d q :
  (exists t, q = CountRows t \/ q = CountCheckpointsOf t \/ q = CountCompletedOf t) ->
  (exists n, execute d q = (d, inl [RowCount n])) \/
  (exists err, execute d q = (d, inr err)).
Proof.
  intros (t & [-> | [-> | ->]]); cbn [execute d1_exec].
  - destruct (table_count d t); eauto.
  - destruct (d1_checkpoints d); eauto.
  - destruct (d1_checkpoints d); eauto.
Qed.

Lemma quiet_count q :
  (exists t, q = CountRows t \/ q = CountCheckpointsOf t \/ q = CountCompletedOf t) ->
  quiet_block (bind (executeD1SQL q) (fun r => bind (count_of r) (fun _ => ret tt))) id.
Proof.
  intros Hq w Hf. destruct (executeD1SQL_quiet q w Hf) as (w' & Hf' & Hd' & Hrun).
  unfold unless_missing, try_catch, bind.
  destruct (execute_count (c_d1 w) q Hq) as [[n E]|[err E]]; rewrite E in Hrun, Hd';
    cbn [fst snd] in Hrun, Hd'.
  - rewrite Hrun. cbn [count_of]. unfold ret. exists w'. repeat split; assumption.
  - destruct Hrun as [Hrun [t ->]]. rewrite Hrun, missing_included. unfold ret.
    exists w'. repeat split; assumption.
Qed.

Lemma quiet_counts t :
  quiet_block
    (bind (executeD1SQL (CountCheckpointsOf t)) (fun r =>
     bind (count_of r) (fun _ =>
     bind (executeD1SQL (CountCompletedOf t)) (fun r2 =>
     bind (count_of r2) (fun _ => ret tt))))) id.
Proof.
  intros w Hf.
  destruct (executeD1SQL_quiet (CountCheckpointsOf t) w Hf) as (w1 & Hf1 & Hd1 & Hrun1).
  unfold unless_missing, try_catch. unfold bind at 1.
  destruct (execute_count (c_d1 w) (CountCheckpointsOf t) ltac:(eauto)) as [[n E]|[err E]];
    rewrite E in Hrun1, Hd1; cbn [fst snd] in Hrun1, Hd1.
  - rewrite Hrun1. cbn [count_of]. unfold bind at 1. unfold ret at 1.
    destruct (executeD1SQL_quiet (CountCompletedOf t) w1 Hf1) as (w2 & Hf2 & Hd2 & Hrun2).
    unfold bind at 1.
    destruct (execute_count (c_d1 w1) (CountCompletedOf t) ltac:(eauto))
      as [[n2 E2]|[err E2]]; rewrite E2 in Hrun2, Hd2; cbn [fst snd] in Hrun2, Hd2.
    + rewrite Hrun2. cbn [count_of]. unfold bind, ret. exists w2.
      split; [reflexivity|]. split; [exact Hf2|]. unfold id. congruence.
    + destruct Hrun2 as [Hrun2 [t2 ->]]. rewrite Hrun2, missing_included. unfold ret.
      exists w2. split; [reflexivity|]. split; [exact Hf2|]. unfold id. congruence.
  - destruct Hrun1 as [Hrun1 [t1 ->]]. rewrite Hrun1, missing_included. unfold ret.
    exists w1. repeat split; assumption.
Qed.

Lemma quiet_delete q :
  quiet_block (bind (executeD1SQL q) (fun _ => ret tt)) (fun d => (execute d q).1).
Proof.
  intros w Hf. destruct (executeD1SQL_quiet q w Hf) as (w' & Hf' & Hd' & Hrun).
  unfold unless_missing, try_catch, bind.
  destruct (execute (c_d1 w) q) as [d' [rows|err]] eqn:E; cbn [fst snd] in Hrun, Hd'.
  - rewrite Hrun. unfold ret. exists w'. repeat split; assumption.
  - destruct Hrun as [Hrun [t ->]]. rewrite Hrun, missing_included. unfold ret.
    exists w'. repeat split; assumption.
Qed.

Lemma cleaned_twice table d : cleaned table (cleaned table d) = cleaned table d.
Proof.
  unfold cleaned. cbn [execute d1_exec].
  destruct (String.eqb table checkpoints_name) eqn:Ename.
  - destruct (d1_checkpoints d) as [cps|] eqn:Ec; cbn [fst d1_checkpoints set_checkpoints].
    + reflexivity.
    + rewrite Ec. cbn [fst]. rewrite Ec. cbn [fst]. rewrite Ec. reflexivity.
  - destruct (d1_tables d !! table) as [rows|] eqn:Et;
      destruct (d1_checkpoints d) as [cps|] eqn:Ec;
      cbn [fst d1_checkpoints d1_tables set_checkpoints d1_seq d1_indexes d1_history];
      rewrite ?lookup_insert_eq, ?Et, ?Ec;
      cbn [fst d1_checkpoints d1_tables set_checkpoints d1_seq d1_indexes d1_history];
      rewrite ?Ec, ?Et, ?insert_insert_eq, ?filter_filter_same;
      cbn [fst d1_checkpoints d1_tables set_checkpoints d1_seq d1_indexes d1_history];
      rewrite ?Ec, ?Et; unfold set_checkpoints;
      cbn [fst d1_checkpoints d1_tables d1_seq d1_indexes d1_history];
      rewrite ?insert_insert_eq, ?filter_filter_same; reflexivity.
Qed.

Lemma cleaned_content table d :
  table <> checkpoints_name ->
  d1_tables (cleaned table d)
    = match d1_tables d !! table with
      | Some _ => <[table := []]> (d1_tables d)
      | None => d1_tables d
      end /\
  d1_checkpoints (cleaned table d)
    = filter (fun c => negb (for_table table c)) <$> d1_checkpoints d.
Proof.
  intros Hname. apply String.eqb_neq in Hname. unfold cleaned. cbn [execute d1_exec].
  rewrite Hname.
  destruct (d1_tables d !! table) as [rows|] eqn:Et;
    destruct (d1_checkpoints d) as [cps|] eqn:Ec;
    cbn [fst d1_checkpoints d1_tables set_checkpoints]; rewrite ?Et, ?Ec;
    cbn [fst d1_checkpoints d1_tables set_checkpoints]; rewrite ?Et, ?Ec;
    cbn [fst d1_checkpoints d1_tables set_checkpoints fmap option_fmap option_map];
    split; congruence.
Qed.

Lemma cleanup_quiet TABLE_NAME w :
  c_faults w = [] ->
  exists w', cleanupD1_try TABLE_NAME w = (w', Ret tt) /\ c_faults w' = [] /\
    c_d1 w' = cleaned TABLE_NAME (c_d1 w).
Proof.
  intros Hf. unfold cleanupD1_try.
  destruct (quiet_count (CountRows TABLE_NAME) ltac:(eauto) w Hf) as (w1 & E1 & Hf1 & Hd1).
  unfold bind at 1. rewrite E1.
  destruct (quiet_counts TABLE_NAME w1 Hf1) as (w2 & E2 & Hf2 & Hd2).
  unfold bind at 1. rewrite E2.
  destruct (quiet_delete (DeleteRows TABLE_NAME) w2 Hf2) as (w3 & E3 & Hf3 & Hd3).
  unfold bind at 1. rewrite E3.
  destruct (quiet_delete (DeleteCheckpointsOf TABLE_NAME) w3 Hf3) as (w4 & E4 & Hf4 & Hd4).
  unfold bind at 1. rewrite E4.
  destruct (quiet_count (CountRows TABLE_NAME) ltac:(eauto) w4 Hf4) as (w5 & E5 & Hf5 & Hd5).
  unfold bind at 1. rewrite E5.
  destruct (quiet_count (CountCheckpointsOf TABLE_NAME) ltac:(eauto) w5 Hf5)
    as (w6 & E6 & Hf6 & Hd6).
  rewrite E6. exists w6. split; [reflexivity|]. split; [exact Hf6|].
  unfold cleaned, id in *. congruence.
Qed.

(** X22: on a remote that answers, the cleanup ends with exit code 0,
    also when the destination table or the checkpoint table is missing;
    afterwards the destination table (if any) is empty and the checkpoints
    of the table are gone, those of other tables are kept; running the
    cleanup again succeeds and changes nothing. *)
Theorem cleanup_on_a_healthy_remote (TABLE_NAME : string) (w : CleanupD1.World) :
  c_faults w = [] ->
  exists w',
    cleanupD1 TABLE_NAME w = (w', 0) /\
    c_d1 w' = cleaned TABLE_NAME (c_d1 w) /\
    (TABLE_NAME <> checkpoints_name ->
       d1_tables (c_d1 w')
         = match d1_tables (c_d1 w) !! TABLE_NAME with
           | Some _ => <[TABLE_NAME := []]> (d1_tables (c_d1 w))
           | None => d1_tables (c_d1 w)
           end /\
       d1_checkpoints (c_d1 w')
         = filter (fun c => negb (for_table TABLE_NAME c)) <$> d1_checkpoints (c_d1 w)) /\
    exists w'', cleanupD1 TABLE_NAME w' = (w'', 0) /\ c_d1 w'' = c_d1 w'.
Proof.
  intros Hf. destruct (cleanup_quiet TABLE_NAME w Hf) as (w' & E & Hf' & Hd').
  exists w'. split; [unfold cleanupD1; rewrite E; reflexivity|]. split; [exact Hd'|].
  split; [intros Hname; rewrite Hd'; apply cleaned_content; exact Hname|].
  destruct (cleanup_quiet TABLE_NAME w' Hf') as (w'' & E' & _ & Hd'').
  exists w''. split; [unfold cleanupD1; rewrite E'; reflexivity|].
  rewrite Hd'', Hd'. apply cleaned_twice.
Qed.

Lemma execute_twice d q : (execute (execute d q).1 q).1 = (execute d q).1.
Proof.
  destruct q as [t|t|t|t|t]; cbn [execute d1_exec].
  - destruct (table_count d t) eqn:E; cbn [fst]; rewrite E; reflexivity.
  - destruct (d1_checkpoints d) eqn:E; cbn [fst]; rewrite E; reflexivity.
  - destruct (d1_checkpoints d) eqn:E; cbn [fst]; rewrite E; reflexivity.
  - destruct (String.eqb t checkpoints_name).
    + destruct (d1_checkpoints d) eqn:E; cbn [fst d1_checkpoints set_checkpoints];
        [reflexivity|rewrite E; reflexivity].
    + destruct (d1_tables d !! t) eqn:E; cbn [fst d1_tables];
        [|rewrite E; reflexivity].
      rewrite lookup_insert_eq. cbn [fst d1_checkpoints d1_seq d1_indexes d1_history].
      rewrite insert_insert_eq. reflexivity.
  - destruct (d1_checkpoints d) eqn:E; cbn [fst d1_checkpoints set_checkpoints];
      [|rewrite E; reflexivity].
    unfold set_checkpoints. cbn [fst d1_checkpoints d1_tables d1_seq d1_indexes d1_history].
    rewrite filter_filter_same. reflexivity.
Qed.

(** A statement the database refuses after it has executed it once was
    refused the first time too. *)
Lemma refused_after d q : refused (execute d q).1 q -> refused d q.
Proof.
  unfold refused. destruct q as [t|t|t|t|t]; cbn [execute d1_exec].
  - destruct (table_count d t) eqn:E; cbn [fst snd]; [rewrite E|]; eauto.
  - destruct (d1_checkpoints d) eqn:E; cbn [fst snd]; [rewrite E|]; eauto.
  - destruct (d1_checkpoints d) eqn:E; cbn [fst snd]; [rewrite E|]; eauto.
  - destruct (String.eqb t checkpoints_name).
    + destruct (d1_checkpoints d) eqn:E; cbn [fst snd d1_checkpoints set_checkpoints]; eauto.
    + destruct (d1_tables d !! t) eqn:E; cbn [fst snd d1_tables]; [|eauto].
      rewrite lookup_insert_eq. eauto.
  - destruct (d1_checkpoints d) eqn:E; cbn [fst snd d1_checkpoints set_checkpoints]; eauto.
Qed.

Lemma refused_keeps d q : refused d q -> (execute d q).1 = d.
Proof.
  intros [err Herr]. destruct (execute d q) as [d' r] eqn:E. cbn [snd] in Herr. subst r.
  destruct (execute_error _ _ _ _ E) as [-> _]. reflexivity.
Qed.

Lemma attempt_spec q w w' o :
  d1_attempt q w = (w', o) ->
  c_faults w' = tail (c_faults w) /\
  match o with
  | Ret _ => c_d1 w' = (execute (c_d1 w) q).1
  | Throw e =>
      (exists f, head (c_faults w) = Some (Some f) /\ e = fault_error (fault f) /\
         c_d1 w' = if executed f then (execute (c_d1 w) q).1 else c_d1 w) \/
      (c_d1 w' = c_d1 w /\ refused (c_d1 w) q /\
       exists t, e = MkError ("D1 API Error: " +:+ no_such_table t))
  | Diverge => False
  end.
Proof.
  unfold d1_attempt. intros E.
  destruct (head (c_faults w)) as [[f|]|] eqn:Eh.
  - injection E as <- <-. split; [reflexivity|]. left. exists f.
    split; [reflexivity|]. split; reflexivity.
  - destruct (execute (c_d1 w) q) as [d' [rows|err]] eqn:Ex; injection E as <- <-;
      (split; [reflexivity|]); cbn [fst c_d1]; [reflexivity|].
    destruct (execute_error _ _ _ _ Ex) as [-> [t ->]]. right. split; [reflexivity|].
    split; [|eauto]. exists (no_such_table t). rewrite Ex. reflexivity.
  - destruct (execute (c_d1 w) q) as [d' [rows|err]] eqn:Ex; injection E as <- <-;
      (split; [reflexivity|]); cbn [fst c_d1]; [reflexivity|].
    destruct (execute_error _ _ _ _ Ex) as [-> [t ->]]. right. split; [reflexivity|].
    split; [|eauto]. exists (no_such_table t). rewrite Ex. reflexivity.
Qed.

Lemma plain_faults_tail faults : plain_faults faults -> plain_faults (tail faults).
Proof.
  intros Hp f Hin. apply Hp. destruct faults as [|x faults]; [exact Hin|].
  right. exact Hin.
Qed.

(** The gateway on a statement of the cleanup.  Executing such a statement
    twice leaves what executing it once leaves, so attempts the database
    executed before their answer was lost do not show in the result. *)
Lemma gateway_spec q retries : forall n attempt w w' o,
  Z.of_nat n = retries - attempt + 1 -> (1 <= n)%nat ->
  plain_faults (c_faults w) ->
  executeD1SQL_from n q retries attempt w = (w', o) ->
  plain_faults (c_faults w') /\
  match o with
  | Ret (Some _) => c_d1 w' = (execute (c_d1 w) q).1
  | Ret None => False
  | Throw e =>
      (c_d1 w' = c_d1 w \/ c_d1 w' = (execute (c_d1 w) q).1) /\
      (includes (message e) "no such table" = true -> refused (c_d1 w) q)
  | Diverge => False
  end.
Proof.
  induction n as [|n IH]; intros attempt w w' o Hn Hn1 Hp E; [lia|].
  cbn [executeD1SQL_from] in E. unfold try_catch in E. unfold bind at 1 in E.
  destruct (d1_attempt q w) as [w1 o1] eqn:Ea.
  destruct (attempt_spec _ _ _ _ Ea) as [Hf1 Ho1].
  assert (Hp1 : plain_faults (c_faults w1)) by (rewrite Hf1; apply plain_faults_tail, Hp).
  destruct o1 as [rows|e|]; [| |contradiction].
  - unfold ret in E. injection E as <- <-. split; [exact Hp1|exact Ho1].
  - assert (Hd1 : c_d1 w1 = c_d1 w \/ c_d1 w1 = (execute (c_d1 w) q).1).
    { destruct Ho1 as [(f & _ & _ & Hd)|[Hd _]]; [|left; exact Hd].
      rewrite Hd. destruct (executed f); [right|left]; reflexivity. }
    assert (Hmiss : includes (message e) "no such table" = true -> refused (c_d1 w) q).
    { intros Hinc. destruct Ho1 as [(f & Hh & -> & _)|(_ & Hx & _)]; [|exact Hx].
      rewrite (Hp f) in Hinc; [discriminate|].
      destruct (c_faults w) as [|x fs]; [discriminate|]. injection Hh as ->. left. }
    destruct (attempt =? retries) eqn:Elast.
    + unfold throw in E. injection E as <- <-. split; [exact Hp1|]. split; assumption.
    + apply Z.eqb_neq in Elast. unfold bind at 1 in E. unfold sleep at 1 in E.
      match type of E with executeD1SQL_from _ _ _ _ ?w0 = _ => set (w2 := w0) in E end.
      destruct (IH (attempt + 1) w2 w' o ltac:(lia) ltac:(lia) Hp1 E) as [Hp' Ho'].
      split; [exact Hp'|]. subst w2. cbn [c_d1] in Ho'.
      destruct o as [[rows|]|e'|]; try assumption.
      * destruct Hd1 as [Hd1|Hd1]; rewrite Hd1 in Ho'; [exact Ho'|].
        rewrite execute_twice in Ho'. exact Ho'.
      * destruct Hd1 as [Hd1|Hd1]; rewrite Hd1 in Ho'; [exact Ho'|].
        rewrite execute_twice in Ho'. destruct Ho' as [Hor Hm].
        split; [right; destruct Hor; assumption|].
        intros Hinc. apply refused_after. exact (Hm Hinc).
Qed.

Lemma counts_keep d q :
  (exists t, q = CountRows t \/ q = CountCheckpointsOf t \/ q = CountCompletedOf t) ->
  (execute d q).1 = d.
Proof.
  intros Hq. destruct (execute_count d q Hq) as [[n E]|[err E]]; rewrite E; reflexivity.
Qed.

Lemma executeD1SQL_spec' q w w' o :
  plain_faults (c_faults w) ->
  executeD1SQL q w = (w', o) ->
  plain_faults (c_faults w') /\
  match o with
  | Ret (Some _) => c_d1 w' = (execute (c_d1 w) q).1
  | Ret None => False
  | Throw e =>
      (c_d1 w' = c_d1 w \/ c_d1 w' = (execute (c_d1 w) q).1) /\
      (includes (message e) "no such table" = true -> refused (c_d1 w) q)
  | Diverge => False
  end.
Proof. intros Hp E. exact (gateway_spec q 3 3 1 w w' o eq_refl ltac:(lia) Hp E). Qed.

Lemma count_block_keeps q w w' o :
  (exists t, q = CountRows t \/ q = CountCheckpointsOf t \/ q = CountCompletedOf t) ->
  plain_faults (c_faults w) ->
  bind (executeD1SQL q) (fun r => bind (count_of r) (fun _ => ret tt)) w = (w', o) ->
  plain_faults (c_faults w') /\ c_d1 w' = c_d1 w.
Proof.
  intros Hq Hp E. unfold bind at 1 in E.
  destruct (executeD1SQL q w) as [w1 o1] eqn:E1.
  destruct (executeD1SQL_spec' _ _ _ _ Hp E1) as [Hp1 Ho1].
  rewrite (counts_keep _ _ Hq) in Ho1.
  destruct o1 as [[rows|]|e|]; try contradiction.
  - unfold bind, count_of, ret, throw in E.
    destruct rows as [|[n|n|c] rows]; injection E as <- _; split; assumption.
  - injection E as <- _. split; [exact Hp1|]. destruct (proj1 Ho1); assumption.
Qed.

Lemma unless_missing_keeps (m : M unit) w w' o :
  (forall w1 o1, m w = (w1, o1) -> plain_faults (c_faults w1) /\ c_d1 w1 = c_d1 w) ->
  unless_missing m w = (w', o) ->
  plain_faults (c_faults w') /\ c_d1 w' = c_d1 w.
Proof.
  intros Hm E. unfold unless_missing, try_catch in E.
  destruct (m w) as [w1 o1] eqn:Em. specialize (Hm _ _ eq_refl).
  destruct o1 as [a|e|]; try (injection E as <- _; exact Hm).
  destruct (includes (message e) "no such table"); injection E as <- _; exact Hm.
Qed.

Lemma delete_block_spec q w w' :
  plain_faults (c_faults w) ->
  unless_missing (bind (executeD1SQL q) (fun _ => ret tt)) w = (w', Ret tt) ->
  plain_faults (c_faults w') /\ c_d1 w' = (execute (c_d1 w) q).1.
Proof.
  intros Hp E. unfold unless_missing, try_catch in E. unfold bind at 1 in E.
  destruct (executeD1SQL q w) as [w1 o1] eqn:E1.
  destruct (executeD1SQL_spec' _ _ _ _ Hp E1) as [Hp1 Ho1].
  destruct o1 as [[rows|]|e|]; try contradiction.
  - injection E as <-. split; assumption.
  - destruct Ho1 as [Hd1 Hmiss].
    destruct (includes (message e) "no such table") eqn:Einc; [|discriminate].
    injection E as <-. split; [exact Hp1|].
    rewrite (refused_keeps _ _ (Hmiss eq_refl)) in Hd1 |- *.
    destruct Hd1; assumption.
Qed.

(** X23: exit code 0 certifies the cleanup under failures too.  If no
    transport failure carries a message that mentions a missing table, a
    cleanup that exits with code 0 has emptied the destination table and
    deleted the checkpoints of the table, however many attempts had to be
    repeated and whether or not the database had executed the statements
    of the failed attempts. *)
Theorem cleanup_exit_code_0_means_cleaned (TABLE_NAME : string) (w w' : CleanupD1.World) :
  plain_faults (c_faults w) ->
  cleanupD1 TABLE_NAME w = (w', 0) ->
  c_d1 w' = cleaned TABLE_NAME (c_d1 w).
Proof.
  intros Hp E. unfold cleanupD1 in E.
  destruct (cleanupD1_try TABLE_NAME w) as [wf [[]|e|]] eqn:Et; try discriminate.
  injection E as ->. unfold cleanupD1_try in Et.
  unfold bind at 1 in Et.
  match type of Et with context [unless_missing ?m w] =>
    destruct (unless_missing m w) as [w1 o1] eqn:E1;
    destruct (unless_missing_keeps m w w1 o1
                (fun w0 o0 => count_block_keeps (CountRows TABLE_NAME) w w0 o0 ltac:(eauto) Hp) E1) as [Hp1 Hd1]
  end.
  destruct o1 as [[]|e|]; try discriminate.
  unfold bind at 1 in Et.
  match type of Et with context [unless_missing ?m w1] =>
    destruct (unless_missing m w1) as [w2 o2] eqn:E2;
    assert (H2 : plain_faults (c_faults w2) /\ c_d1 w2 = c_d1 w1)
  end.
  { eapply unless_missing_keeps; [|exact E2]. intros w0 o0 E0. unfold bind at 1 in E0.
    destruct (executeD1SQL (CountCheckpointsOf TABLE_NAME) w1) as [wa oa] eqn:Ea.
    destruct (executeD1SQL_spec' _ _ _ _ Hp1 Ea) as [Hpa Hoa].
    rewrite (counts_keep (c_d1 w1) (CountCheckpointsOf TABLE_NAME) ltac:(eauto)) in Hoa.
    destruct oa as [[rows|]|e|]; try contradiction.
    - unfold bind at 1 in E0.
      destruct (count_of (Some rows) wa) as [wb ob] eqn:Eb.
      assert (wb = wa) as ->.
      { unfold count_of, ret, throw in Eb.
        destruct rows as [|[n|n|c] rows]; injection Eb as <- _; reflexivity. }
      destruct ob as [n|e|].
      + destruct (count_block_keeps (CountCompletedOf TABLE_NAME) wa w0 o0 ltac:(eauto) Hpa E0)
          as [Hp0 Hd0].
        split; [exact Hp0|congruence].
      + injection E0 as <- _. split; assumption.
      + injection E0 as <- _. split; assumption.
    - injection E0 as <- _. split; [exact Hpa|]. destruct (proj1 Hoa); assumption. }
  destruct H2 as [Hp2 Hd2]. destruct o2 as [[]|e|]; try discriminate.
  unfold bind at 1 in Et.
  destruct (unless_missing (bind (executeD1SQL (DeleteRows TABLE_NAME)) (fun _ => ret tt)) w2)
    as [w3 o3] eqn:E3.
  destruct o3 as [[]|e|]; try discriminate.
  destruct (delete_block_spec _ _ _ Hp2 E3) as [Hp3 Hd3].
  unfold bind at 1 in Et.
  destruct (unless_missing (bind (executeD1SQL (DeleteCheckpointsOf TABLE_NAME))
                              (fun _ => ret tt)) w3) as [w4 o4] eqn:E4.
  destruct o4 as [[]|e|]; try discriminate.
  destruct (delete_block_spec _ _ _ Hp3 E4) as [Hp4 Hd4].
  unfold bind at 1 in Et.
  match type of Et with context [unless_missing ?m w4] =>
    destruct (unless_missing m w4) as [w5 o5] eqn:E5;
    destruct (unless_missing_keeps m w4 w5 o5
                (fun w0 o0 => count_block_keeps (CountRows TABLE_NAME) w4 w0 o0 ltac:(eauto) Hp4)
                E5) as [Hp5 Hd5]
  end.
  destruct o5 as [[]|e|]; try discriminate.
  destruct (unless_missing_keeps _ w5 w' (Ret tt)
              (fun w0 o0 => count_block_keeps (CountCheckpointsOf TABLE_NAME) w5 w0 o0
                               ltac:(eauto) Hp5) Et) as [_ Hd6].
  unfold cleaned. congruence.
Qed.

End CleanupFacts.

Lemma cleanup_on_a_healthy_remote_witness :
  CleanupD1.c_faults cleanup_world = [] /\
  exists w',
    CleanupD1.cleanupD1 "coordinate_speed_new" cleanup_world = (w', 0) /\
    d1_checkpoints (CleanupD1.c_d1 w')
      = Some [MkCheckpoint 2 "camera_locations" 1 20 0 pending None None None 0].
Proof.
  assert (H1 : CleanupD1.c_faults cleanup_world = []) by reflexivity.
  split; [exact H1|].
  destruct (cleanup_on_a_healthy_remote "coordinate_speed_new" cleanup_world H1)
    as (w' & E & _ & Hc & _).
  exists w'. split; [exact E|].
  rewrite (proj2 (Hc ltac:(discriminate))). reflexivity.
Defined.

Lemma cleanup_exit_code_0_means_cleaned_witness :
  plain_faults (CleanupD1.c_faults flaky_cleanup_world) /\
  (CleanupD1.cleanupD1 "coordinate_speed_new" flaky_cleanup_world).2 = 0 /\
  CleanupD1.c_d1 (CleanupD1.cleanupD1 "coordinate_speed_new" flaky_cleanup_world).1
    = cleaned "coordinate_speed_new" (CleanupD1.c_d1 flaky_cleanup_world).
Proof.
  assert (H1 : plain_faults (CleanupD1.c_faults flaky_cleanup_world)).
  { intros f Hin. cbn [CleanupD1.c_faults flaky_cleanup_world] in Hin.
    apply elem_of_cons in Hin as [[= ->]|Hin]; [vm_compute; reflexivity|].
    apply elem_of_cons in Hin as [[= ->]|Hin]; [vm_compute; reflexivity|].
    apply elem_of_nil in Hin. contradiction. }
  assert (H2 : CleanupD1.cleanupD1 "coordinate_speed_new" flaky_cleanup_world
               = ((CleanupD1.cleanupD1 "coordinate_speed_new" flaky_cleanup_world).1, 0))
    by (vm_compute; reflexivity).
  split; [exact H1|]. split; [rewrite H2; reflexivity|].
  exact (cleanup_exit_code_0_means_cleaned "coordinate_speed_new" flaky_cleanup_world _
           H1 H2).
Defined.

Section TableFacts.
Context `{Platform}.

(** *** Tables are created once and never repaired *)
Lemma executeD1SQL_rejected q w w' o :
  (forall now, exists err, d1_exec now (w_d1 w) q = (w_d1 w, inr err)) ->
  executeD1SQL q w = (w', o) ->
  w_d1 w' = w_d1 w /\ exists e, o = Throw e.
Proof.
  intros Hrej E. destruct (executeD1SQL_fixed _ _ _ _ E) as (_ & Hd & Ho).
  { intros now. destruct (Hrej now) as [err ->]. reflexivity. }
  split; [exact Hd|]. destruct o as [r|e|]; [|eauto|contradiction].
  destruct Ho as (rows & now & _ & Hex). destruct (Hrej now) as [err Herr].
  rewrite Herr in Hex. discriminate.
Qed.

Lemma create_existing_rejected table w w' o :
  has_table (w_d1 w) table = true ->
  executeD1SQL (CreateTargetTable table) w = (w', o) ->
  w_d1 w' = w_d1 w /\ exists e, o = Throw e.
Proof.
  intros Hhas. apply executeD1SQL_rejected. intros now. cbn [d1_exec]. rewrite Hhas. eauto.
Qed.

(** X25: whatever the remote does, a table that exists is never altered
    by the two functions that create tables: [ensureCheckpointsTableExists]
    and [ensureTargetTableExists] leave the whole database as it is.  So an
    index whose creation failed after its table had been created is never
    created by a later run. *)
Theorem existing_tables_are_never_altered (w : World) :
  (forall cps w' o,
     d1_checkpoints (w_d1 w) = Some cps ->
     ensureCheckpointsTableExists w = (w', o) -> w_d1 w' = w_d1 w) /\
  (forall tableName w' o,
     has_table (w_d1 w) tableName = true ->
     ensureTargetTableExists tableName w = (w', o) -> w_d1 w' = w_d1 w).
Proof.
  split.
  - intros cps w' o Hcps E.
    exact (proj1 (ensureCheckpointsTableExists_existing w w' o cps Hcps E)).
  - intros tableName w' o Hhas E. unfold ensureTargetTableExists, try_catch in E.
    unfold bind at 1 in E.
    destruct (executeD1SQL (SelectProbe tableName) w) as [w1 o1] eqn:E1.
    destruct (executeD1SQL_reads _ _ _ _ E1 eq_refl) as (_ & Hd1 & Ho1).
    destruct o1 as [r|e|]; [| |contradiction].
    + unfold ret in E. injection E as <- _. exact Hd1.
    + clear Ho1. pose proof Hd1 as Ho1.
      assert (Hhas1 : has_table (w_d1 w1) tableName = true) by (rewrite Ho1; exact Hhas).
      destruct (includes (message e) "no such table");
        [|injection E as <- _; exact Ho1].
      destruct (String.eqb tableName "coordinate_speed_new") eqn:Ec.
      { apply String.eqb_eq in Ec. subst tableName. unfold bind at 1 in E.
        destruct (executeD1SQL (CreateTargetTable "coordinate_speed_new") w1)
          as [w2 o2] eqn:E2.
        destruct (create_existing_rejected _ _ _ _ Hhas1 E2) as [Hd2 [e2 ->]].
        injection E as <- _. congruence. }
      destruct (String.eqb tableName "camera_locations") eqn:Em.
      { apply String.eqb_eq in Em. subst tableName. unfold bind at 1 in E.
        destruct (executeD1SQL (CreateTargetTable "camera_locations") w1)
          as [w2 o2] eqn:E2.
        destruct (create_existing_rejected _ _ _ _ Hhas1 E2) as [Hd2 [e2 ->]].
        injection E as <- _. congruence. }
      injection E as <- _. exact Ho1.
Qed.

(** X24: [ensureCheckpointsTableExists] against a healthy database.  It
    always returns, sends no insert and touches no destination table.  When
    [migration_checkpoints] exists nothing is changed; when it is missing,
    the failed probe has been retried (pauses of 1 s and 2 s) and the table
    is then created empty with its two indexes. *)
Theorem ensureCheckpointsTableExists_effect (w : World) :
  healthy w -> checkpoint_indexes_consistent (w_d1 w) ->
  exists w',
    ensureCheckpointsTableExists w = (w', Ret tt) /\
    d1_tables (w_d1 w') = d1_tables (w_d1 w) /\
    filter is_insert (w_requests w') = filter is_insert (w_requests w) /\
    match d1_checkpoints (w_d1 w) with
    | Some _ => w_d1 w' = w_d1 w /\ w_sleeps w' = w_sleeps w
    | None =>
        d1_checkpoints (w_d1 w') = Some [] /\
        d1_indexes (w_d1 w')
          = "idx_checkpoint_table_range" :: "idx_checkpoint_table_status"
              :: d1_indexes (w_d1 w) /\
        w_sleeps w' = w_sleeps w ++ [1000; 2000]
    end.
Proof.
  intros Hh Hix. unfold ensureCheckpointsTableExists, try_catch. unfold bind at 1.
  destruct (d1_checkpoints (w_d1 w)) as [cps|] eqn:Hcps.
  - destruct (executeD1SQL_healthy_answered (SelectProbe checkpoints_name) w (w_d1 w)
                [RowUnnamed (Z.of_nat (length cps))] Hh)
      as (w1 & E1 & Hh1 & Hd1 & _ & Hs1 & Hr1 & Hsl1).
    { cbn. rewrite Hcps. reflexivity. }
    rewrite E1. exists w1. unfold ret. split; [reflexivity|].
    rewrite Hd1, Hr1, filter_app. cbn. rewrite app_nil_r. repeat split. exact Hsl1.
  - destruct (Hix Hcps) as [Hi1 Hi2].
    destruct (executeD1SQL_healthy_refused (SelectProbe checkpoints_name) w
                (no_such_table checkpoints_name) Hh)
      as (w1 & E1 & Hh1 & Hd1 & Hs1 & _ & Hsl1 & Hr1).
    { cbn. rewrite Hcps. reflexivity. }
    rewrite E1.
    change (includes (message (MkError ("D1 API Error: " +:+ no_such_table checkpoints_name)))
              "no such table") with true. cbv iota.
    destruct (executeD1SQL_healthy_answered CreateCheckpointsTable w1
                (MkD1 (Some []) 0 (d1_tables (w_d1 w)) (d1_indexes (w_d1 w))
                   (d1_history (w_d1 w))) [] Hh1)
      as (w2 & E2 & Hh2 & Hd2 & _ & Hs2 & Hr2 & Hsl2).
    { cbn. rewrite Hd1, Hcps. reflexivity. }
    unfold bind at 1. rewrite E2.
    destruct (executeD1SQL_healthy_answered
                (CreateIndex "idx_checkpoint_table_status" checkpoints_name) w2
                (MkD1 (Some []) 0 (d1_tables (w_d1 w))
                   ("idx_checkpoint_table_status" :: d1_indexes (w_d1 w))
                   (d1_history (w_d1 w))) [] Hh2)
      as (w3 & E3 & Hh3 & Hd3 & _ & Hs3 & Hr3 & Hsl3).
    { rewrite Hd2. cbn. rewrite bool_decide_eq_false_2 by exact Hi1. reflexivity. }
    unfold bind at 1. rewrite E3.
    destruct (executeD1SQL_healthy_answered
                (CreateIndex "idx_checkpoint_table_range" checkpoints_name) w3
                (MkD1 (Some []) 0 (d1_tables (w_d1 w))
                   ("idx_checkpoint_table_range" :: "idx_checkpoint_table_status"
                      :: d1_indexes (w_d1 w))
                   (d1_history (w_d1 w))) [] Hh3)
      as (w4 & E4 & Hh4 & Hd4 & _ & Hs4 & Hr4 & Hsl4).
    { rewrite Hd3. cbn. rewrite bool_decide_eq_false_2; [reflexivity|].
      rewrite not_elem_of_cons. split; [discriminate|exact Hi2]. }
    unfold bind at 1. rewrite E4. exists w4. unfold ret. split; [reflexivity|].
    rewrite Hd4. cbn [d1_tables d1_checkpoints d1_indexes].
    split; [reflexivity|]. split.
    { rewrite Hr4, Hr3, Hr2, Hr1, !filter_app. cbn. rewrite !app_nil_r. reflexivity. }
    split; [reflexivity|]. split; [reflexivity|]. congruence.
Qed.

End TableFacts.

Lemma ensureCheckpointsTableExists_effect_witness :
  healthy fresh_world /\ checkpoint_indexes_consistent (w_d1 fresh_world) /\
  exists w',
    @ensureCheckpointsTableExists fresh_world = (w', Ret tt) /\
    d1_checkpoints (w_d1 w') = Some [].
Proof.
  assert (H1 : healthy fresh_world) by reflexivity.
  assert (H2 : checkpoint_indexes_consistent (w_d1 fresh_world)).
  { intros _. split; apply not_elem_of_nil. }
  split; [exact H1|]. split; [exact H2|].
  destruct (ensureCheckpointsTableExists_effect fresh_world H1 H2) as (w' & E & _ & _ & Hc).
  exists w'. split; [exact E|]. exact (proj1 Hc).
Defined.

Section RunInvariant.
Context `{Platform}.
Variable R : D1 -> D1 -> Prop.
Variable table : string.
Hypothesis R_refl : forall d, R d d.
Hypothesis R_trans : forall d1 d2 d3, R d1 d2 -> R d2 d3 -> R d1 d3.
Hypothesis R_exec : forall now d q, sendable table q -> R d (d1_exec now d q).1.

(** *** A relation on the database that every statement of a run keeps *)
Lemma kept_refl w : kept_by R w w.
Proof. apply R_refl. Qed.

Lemma kept_trans w1 w2 w3 : kept_by R w1 w2 -> kept_by R w2 w3 -> kept_by R w1 w3.
Proof. apply R_trans. Qed.

Lemma kept_now_iso : preserves (kept_by R) now_iso.
Proof. intros w w' o E. injection E as <- _. apply kept_refl. Qed.

Lemma kept_of_d1_same {A} (m : M A) : preserves d1_same m -> preserves (kept_by R) m.
Proof.
  apply preserves_weaken. intros w w' Hd. unfold d1_same in Hd. unfold kept_by.
  rewrite Hd. apply R_refl.
Qed.

Lemma kept_executeD1SQL q : sendable table q -> preserves (kept_by R) (executeD1SQL q).
Proof.
  intros Hq. unfold kept_by.
  apply (preserves_executeD1SQL R q R_refl R_trans). intros now x. apply R_exec. exact Hq.
Qed.

Ltac kept_step :=
  first
    [ apply preserves_ret; exact kept_refl
    | apply preserves_throw; exact kept_refl
    | exact kept_now_iso
    | apply kept_executeD1SQL; exact I
    | apply kept_of_d1_same; exact preserves_pg_call
    | apply kept_of_d1_same; exact preserves_tick
    | apply kept_of_d1_same; apply preserves_sleep
    | apply kept_of_d1_same; apply preserves_lift
    | apply kept_of_d1_same; apply preserves_pg_query_range
    | apply preserves_bind; [exact kept_trans| |intros ?]
    | apply preserves_try_catch; [exact kept_trans| |intros ?]
    | match goal with
      | |- preserves _ (if ?c then _ else _) => destruct c
      | |- preserves _ (match ?c with _ => _ end) => destruct c
      end ].

Lemma kept_batch_loop cfg rows batches : forall fuel i acc,
  preserves (kept_by R) (batch_loop fuel cfg rows batches i acc).
Proof.
  induction fuel as [|fuel IH]; intros i acc; cbn [batch_loop].
  - destruct (lt_count i batches); [|kept_step].
    intros w w' o E. injection E as <- _. apply kept_refl.
  - destruct (lt_count i batches); [|kept_step].
    unfold executeBatchInsert. repeat first [apply IH | kept_step].
Qed.

Lemma kept_insert_batches cfg rows : preserves (kept_by R) (insert_batches cfg rows).
Proof.
  intros w w' o E. unfold insert_batches in E.
  exact (kept_batch_loop cfg rows _ (w_gas w) 0 0 w w' o E).
Qed.

Lemma kept_fetch_and_insert cfg checkpoint :
  preserves (kept_by R) (fetch_and_insert cfg checkpoint).
Proof.
  unfold fetch_and_insert.
  apply preserves_bind; [exact kept_trans|repeat kept_step|].
  intros _. apply preserves_bind; [exact kept_trans|kept_step|].
  intros rows. destruct (length rows =? 0)%nat; [kept_step|].
  apply preserves_bind; [exact kept_trans| |].
  { destruct (String.eqb (TABLE_NAME cfg) "camera_locations"); kept_step. }
  intros processedRows.
  apply preserves_bind; [exact kept_trans|apply kept_insert_batches|].
  intros n. kept_step.
Qed.

Lemma kept_updateCheckpointStatus id st rp err :
  preserves (kept_by R) (updateCheckpointStatus id st rp err).
Proof.
  unfold updateCheckpointStatus. repeat kept_step.
Qed.

Lemma kept_processCheckpoint cfg checkpoint :
  preserves (kept_by R) (processCheckpoint cfg checkpoint).
Proof.
  unfold processCheckpoint. apply preserves_try_catch; [exact kept_trans| |].
  - intros w w' o E. rewrite processCheckpoint_try_split in E. revert E.
    apply preserves_bind; [exact kept_trans|apply kept_updateCheckpointStatus|].
    intros _. apply preserves_bind; [exact kept_trans|apply kept_fetch_and_insert|].
    intros r. apply preserves_bind; [exact kept_trans|apply kept_updateCheckpointStatus|].
    intros _. kept_step.
  - intros e. unfold processCheckpoint_catch.
    apply preserves_bind; [exact kept_trans|apply kept_updateCheckpointStatus|].
    intros _. kept_step.
Qed.

Lemma kept_for_each {A} (f : A -> M unit) l :
  (forall x, preserves (kept_by R) (f x)) -> preserves (kept_by R) (for_each f l).
Proof.
  intros Hf. induction l as [|x l IH]; cbn [for_each]; [kept_step|].
  apply preserves_bind; [exact kept_trans|apply Hf|intros _; exact IH].
Qed.

Lemma kept_plan_loop size maxId : forall fuel currentStart checkpoints,
  preserves (kept_by R) (plan_loop fuel size currentStart maxId checkpoints).
Proof.
  induction fuel as [|fuel IH]; intros currentStart checkpoints; cbn [plan_loop].
  - destruct (currentStart <=? maxId); [|kept_step].
    intros w w' o E. injection E as <- _. apply kept_refl.
  - destruct (currentStart <=? maxId); [|kept_step].
    apply preserves_bind; [exact kept_trans|kept_step|intros _; apply IH].
Qed.

Lemma kept_initializeCheckpoints cfg tableName totalRecords minId maxId :
  preserves (kept_by R) (initializeCheckpoints cfg tableName totalRecords minId maxId).
Proof.
  unfold initializeCheckpoints, ensureCheckpointsTableExists, first_count, results_of,
    createCheckpoint.
  repeat kept_step.
  all: try (apply kept_for_each; intros c; repeat kept_step).
  all: unfold plan_checkpoints; repeat kept_step.
  all: intros w w' o E; exact (kept_plan_loop _ _ _ _ _ w w' o E).
Qed.

Lemma kept_process_all cfg : forall l acc, preserves (kept_by R) (process_all cfg l acc).
Proof.
  induction l as [|c l IH]; intros acc; cbn [process_all]; [kept_step|].
  apply preserves_bind; [exact kept_trans|apply kept_processCheckpoint|].
  intros n. apply IH.
Qed.

Lemma kept_ensureTargetTableExists : preserves (kept_by R) (ensureTargetTableExists table).
Proof.
  unfold ensureTargetTableExists.
  apply preserves_try_catch; [exact kept_trans|repeat kept_step|].
  intros e. destruct (includes (message e) "no such table"); [|kept_step].
  destruct (String.eqb table "coordinate_speed_new") eqn:Ec.
  { apply String.eqb_eq in Ec.
    apply preserves_bind; [exact kept_trans| |intros ?; repeat kept_step].
    apply kept_executeD1SQL. cbn. rewrite Ec. split; reflexivity. }
  destruct (String.eqb table "camera_locations") eqn:Em; [|kept_step].
  apply String.eqb_eq in Em.
  apply preserves_bind; [exact kept_trans| |intros ?; repeat kept_step].
  apply kept_executeD1SQL. cbn. rewrite Em. split; reflexivity.
Qed.

Lemma kept_migrateData_try cfg :
  TABLE_NAME cfg = table -> preserves (kept_by R) (migrateData_try cfg).
Proof.
  intros HT. unfold migrateData_try. rewrite HT.
  apply preserves_bind; [exact kept_trans|apply kept_ensureTargetTableExists|]. intros _.
  unfold pg_query_stats, getPendingCheckpoints, getLastCompletedCheckpoint, verify_count,
    first_count, results_of.
  repeat first [apply kept_initializeCheckpoints | apply kept_process_all | kept_step].
  all: intros w w' o E; injection E as <- _; apply kept_refl.
Qed.

End RunInvariant.

Section GrowthFacts.
Context `{Platform}.

(** *** A run only adds to the destination *)
Lemma never_removes_refl table d : never_removes table d d.
Proof.
  unfold never_removes. split; [intros t rows Ht; exists []; rewrite app_nil_r; exact Ht|].
  split; [intros t Hn [x Hx]; congruence|]. split; [exists []; reflexivity|auto].
Qed.

Lemma never_removes_trans table d1 d2 d3 :
  never_removes table d1 d2 -> never_removes table d2 d3 -> never_removes table d1 d3.
Proof.
  intros (A1 & A2 & [n1 A3] & A4) (B1 & B2 & [n2 B3] & B4). unfold never_removes.
  split.
  { intros t rows Ht. destruct (A1 t rows Ht) as [m1 H1].
    destruct (B1 t _ H1) as [m2 H2]. exists (m1 ++ m2). rewrite H2, app_assoc. reflexivity. }
  split.
  { intros t Hn Hs. destruct (d1_tables d2 !! t) as [rows|] eqn:E2.
    - apply (A2 t Hn). rewrite E2. eauto.
    - exact (B2 t E2 Hs). }
  split; [|auto].
  exists (n2 ++ n1). rewrite B3, A3, app_assoc. reflexivity.
Qed.

Lemma never_removes_same table d d' :
  d1_tables d' = d1_tables d -> d1_indexes d' = d1_indexes d ->
  (is_Some (d1_checkpoints d) -> is_Some (d1_checkpoints d')) ->
  never_removes table d d'.
Proof.
  intros Ht Hi Hc. unfold never_removes. rewrite Ht, Hi.
  split; [intros t rows Hr; exists []; rewrite app_nil_r; exact Hr|].
  split; [intros t Hn [x Hx]; congruence|]. split; [exists []; reflexivity|exact Hc].
Qed.

Lemma never_removes_exec table now d q :
  sendable table q -> never_removes table d (d1_exec now d q).1.
Proof.
  intros Hq. destruct q; cbn [d1_exec sendable] in *.
  - destruct (table_count d table0); apply never_removes_refl.
  - destruct (d1_checkpoints d); [apply never_removes_refl|].
    apply never_removes_same; [reflexivity|reflexivity|]. intros _. cbn. eauto.
  - destruct Hq as [-> Hs]. destruct (has_table d table) eqn:Ehas;
      [apply never_removes_refl|].
    assert (Hnone : d1_tables d !! table = None).
    { unfold has_table, table_count in Ehas.
      rewrite (supported_not_checkpoints table Hs) in Ehas.
      destruct (d1_tables d !! table); [discriminate|reflexivity]. }
    unfold never_removes. cbn [fst d1_tables d1_indexes d1_checkpoints]. split.
    { intros t rows Ht. exists []. rewrite app_nil_r.
      rewrite lookup_insert_ne; [exact Ht|]. intros ->. congruence. }
    split; [|split; [exists []; reflexivity|auto]].
    intros t Hn Hsome. split; [|exact Hs].
    destruct (decide (t = table)) as [->|Hne]; [reflexivity|].
    rewrite lookup_insert_ne in Hsome by congruence. destruct Hsome. congruence.
  - destruct (negb (has_table d table0)); [apply never_removes_refl|].
    destruct (bool_decide (name ∈ d1_indexes d)); [apply never_removes_refl|].
    unfold never_removes. cbn [fst d1_tables d1_indexes d1_checkpoints].
    split; [intros t rows Ht; exists []; rewrite app_nil_r; exact Ht|].
    split; [intros t Hn [x Hx]; congruence|]. split; [exists [name]; reflexivity|auto].
  - destruct (d1_checkpoints d); apply never_removes_refl.
  - destruct (d1_checkpoints d); [|apply never_removes_refl].
    apply never_removes_same; [reflexivity|reflexivity|]. intros _. cbn. eauto.
  - destruct (d1_checkpoints d); [|apply never_removes_refl].
    apply never_removes_same; [reflexivity|reflexivity|]. intros _. cbn. eauto.
  - destruct (d1_checkpoints d); [|apply never_removes_refl].
    apply never_removes_same; [reflexivity|reflexivity|]. intros _. cbn. eauto.
  - destruct (d1_checkpoints d); apply never_removes_refl.
  - destruct (d1_checkpoints d); apply never_removes_refl.
  - destruct (tuples =? 0)%nat; [apply never_removes_refl|].
    destruct (D1_MAX_PARAMS <? length params)%nat; [apply never_removes_refl|].
    destruct (d1_tables d !! table0) as [old|] eqn:Eold; [|apply never_removes_refl].
    unfold never_removes. cbn [fst d1_tables d1_indexes d1_checkpoints]. split.
    { intros t rows Ht. destruct (decide (t = table0)) as [->|Hne].
      - rewrite lookup_insert_eq. exists (chunk tuples arity params). congruence.
      - exists []. rewrite app_nil_r, lookup_insert_ne by congruence. exact Ht. }
    split; [|split; [exists []; reflexivity|auto]].
    intros t Hn Hsome. destruct (decide (t = table0)) as [->|Hne]; [congruence|].
    rewrite lookup_insert_ne in Hsome by congruence. destruct Hsome. congruence.
  - destruct (table_count d table0); apply never_removes_refl.
Qed.

(** X26: a run of the resumable migration only adds to the data tables of
    the destination, whatever the configuration, the data and the failures
    (lost answers included): every data table keeps the rows it had, in
    order, as a prefix of its content; no table is dropped, the checkpoint
    table neither; the only data table that can appear is the configured
    one, and only under a name the script knows; no index is dropped.  The
    rows of [migration_checkpoints] are no part of this statement: a run
    updates them and, when it plans afresh, deletes them.  The same holds
    for the processing of a single checkpoint. *)
Theorem run_only_adds_to_the_destination (cfg : Config) (w : World) :
  never_removes (TABLE_NAME cfg) (w_d1 w) (w_d1 (migrateData cfg w).1) /\
  (forall checkpoint,
     never_removes (TABLE_NAME cfg) (w_d1 w) (w_d1 (processCheckpoint cfg checkpoint w).1)).
Proof.
  split.
  - pose proof (kept_migrateData_try (never_removes (TABLE_NAME cfg)) (TABLE_NAME cfg)
                  (never_removes_refl _) (never_removes_trans _)
                  (never_removes_exec _) cfg eq_refl) as Hp.
    unfold migrateData. destruct (migrateData_try cfg w) as [w' o] eqn:E.
    specialize (Hp _ _ _ E). destruct o; exact Hp.
  - intros checkpoint.
    pose proof (kept_processCheckpoint (never_removes (TABLE_NAME cfg)) (TABLE_NAME cfg)
                  (never_removes_refl _) (never_removes_trans _)
                  (never_removes_exec _) cfg checkpoint) as Hp.
    destruct (processCheckpoint cfg checkpoint w) as [w' o] eqn:E. exact (Hp _ _ _ E).
Qed.

End GrowthFacts.

Section ResumeRunFacts.
Context `{Platform}.

(** *** A healthy resumed run *)
Lemma length_pages cfg w todo pages :
  Forall2 (fun c page => processed_rows cfg (fetched_rows cfg c w) = inl page) todo pages ->
  length (concat pages)
    = sum_list_with (fun c => page_size (w_pg_rows w) (range_of_checkpoint c)) todo.
Proof.
  induction 1 as [|c page todo pages Hc _ IH]; [reflexivity|].
  cbn [concat sum_list_with]. rewrite length_app, IH.
  rewrite (length_processed_rows _ _ _ Hc), length_fetched_rows. reflexivity.
Qed.

(** X27: a healthy resumed run finishes what is left and nothing else.
    With checkpoints of the table on record, some of them [pending] or
    [failed], and source rows that respect the NOT NULL columns, the run
    plans nothing anew, processes exactly the pending and failed
    checkpoints in order of [start_id], appends the rows of their id ranges
    to the destination table behind what it held, marks each of them
    [completed] and leaves every other checkpoint row as it was; it reports
    the number of rows it copied and exits with code 0.  The final count
    check succeeds exactly when the old rows and the copied rows together
    are as many as the source rows: rows that a failed checkpoint had
    already inserted are inserted again. *)
Theorem healthy_resume_finishes_what_is_left (cfg : Config) (w : World)
    (cps : list Checkpoint) (old : list (list value)) :
  supported (TABLE_NAME cfg) = true -> 1 <= BATCH_SIZE cfg -> RESUME_MODE cfg = true ->
  healthy w -> w_pg_faults w = [] ->
  rows_insertable (w_pg_rows w) -> timestamps_valid cfg (w_pg_rows w) ->
  d1_checkpoints (w_d1 w) = Some cps ->
  d1_tables (w_d1 w) !! TABLE_NAME cfg = Some old ->
  left_to_do (TABLE_NAME cfg) cps <> [] ->
  (sum_list_with (fun c => page_size (w_pg_rows w) (range_of_checkpoint c))
     (left_to_do (TABLE_NAME cfg) cps) <= w_gas w)%nat ->
  exists w' cps' pages verified,
    migrateData_try cfg w
      = (w', Ret (Migrated (Z.of_nat (length (concat pages))) verified)) /\
    migrateData cfg w = (w', Some 0) /\
    Forall2 (fun c page => processed_rows cfg (fetched_rows cfg c w) = inl page)
      (left_to_do (TABLE_NAME cfg) cps) pages /\
    d1_tables (w_d1 w')
      = <[TABLE_NAME cfg := old ++ tuples_of (insert_columns (TABLE_NAME cfg)) (concat pages)]>
          (d1_tables (w_d1 w)) /\
    d1_checkpoints (w_d1 w') = Some cps' /\
    Forall2 (processed_row (cp_id <$> left_to_do (TABLE_NAME cfg) cps)) cps cps' /\
    (verified = true <->
     (length old + length (concat pages))%nat = length (w_pg_rows w)).
Proof.
  intros Hs Hb Hres Hh Hpg _ Hvalid Hcps Hold Htodo Hgas.
  set (T := TABLE_NAME cfg) in *. set (todo := left_to_do T cps) in *.
  pose proof (supported_not_checkpoints T Hs) as HT.
  assert (Hrun : exists w' cps' pages,
            migrateData_try cfg w
              = (w', Ret (Migrated (Z.of_nat (length (concat pages)))
                            (Z.of_nat (length (old ++ tuples_of (insert_columns T)
                                                        (concat pages)))
                             =? Z.of_nat (length (w_pg_rows w))))) /\
            Forall2 (fun c page => processed_rows cfg (fetched_rows cfg c w) = inl page)
              todo pages /\
            d1_tables (w_d1 w')
              = <[T := old ++ tuples_of (insert_columns T) (concat pages)]>
                  (d1_tables (w_d1 w)) /\
            d1_checkpoints (w_d1 w') = Some cps' /\
            Forall2 (processed_row (cp_id <$> todo)) cps cps').
  2: { destruct Hrun as (w' & cps' & pages & E & Hp & Ht & Hc & Hall).
       exists w', cps', pages. eexists. split; [exact E|].
       split; [unfold migrateData; rewrite E; reflexivity|].
       split; [exact Hp|]. split; [exact Ht|]. split; [exact Hc|]. split; [exact Hall|].
       rewrite Z.eqb_eq, length_app. unfold tuples_of. rewrite length_fmap. lia. }
  unfold migrateData_try. fold T.
  destruct (ensureTargetTableExists_existing T w Hh) as (w1 & E1 & Hr1).
  { unfold has_table, table_count. rewrite HT, Hold. reflexivity. }
  rewrite (bind_ret_run _ _ _ _ _ E1).
  pose proof Hr1 as (Hh1 & Hd1 & Hrows1 & Hpg1 & _).
  destruct (pg_call_quiet w1 ltac:(congruence) Hh1) as (w2 & E2 & Hr2).
  rewrite (bind_ret_run _ _ _ _ _ E2).
  pose proof (only_read_trans _ _ _ Hr1 Hr2) as Hr12.
  pose proof Hr12 as (Hh2 & Hd2 & Hrows2 & Hpg2 & _).
  destruct (pg_call_quiet w2 ltac:(congruence) Hh2) as (w3 & E3 & Hr3).
  pose proof (only_read_trans _ _ _ Hr12 Hr3) as Hr13.
  pose proof Hr13 as (Hh3 & Hd3 & Hrows3 & Hpg3 & _).
  unfold pg_query_stats. unfold bind at 1. unfold bind at 1. rewrite E3.
  rewrite Hrows3.
  cbn [strict_equal].
  assert (Hperm : todo ≡ₚ filter (fun c => for_table T c && is_eligible c) cps)
    by apply merge_sort_Permutation.
  assert (Hpos : (0 < length (filter (for_table T) cps))%nat).
  { destruct todo as [|c0 rest] eqn:Etodo; [congruence|].
    assert (Hin : c0 ∈ filter (fun c => for_table T c && is_eligible c) cps)
      by (rewrite <- Hperm; left).
    apply list_elem_of_filter in Hin as [Hc0 Hin0].
    assert (Hin' : c0 ∈ filter (for_table T) cps).
    { apply list_elem_of_filter. split; [|exact Hin0].
      apply Is_true_true. apply Is_true_true in Hc0.
      apply andb_true_iff in Hc0 as [Hc0 _]. exact Hc0. }
    destruct (filter (for_table T) cps);
      [apply elem_of_nil in Hin'; contradiction|cbn; lia]. }
  destruct (initializeCheckpoints_resume_healthy cfg T
              (Z.of_nat (length (w_pg_rows w))) (parseInt (list_min (ids_of (w_pg_rows w))))
              (parseInt (list_max (ids_of (w_pg_rows w)))) w3 cps Hres Hh3
              ltac:(congruence) Hpos)
    as (w4 & E4 & Hr4).
  rewrite (bind_ret_run _ _ _ _ _ E4).
  pose proof (only_read_trans _ _ _ Hr13 Hr4) as Hr14.
  pose proof Hr14 as (Hh4 & Hd4 & _).
  destruct (healthy_read (SelectPendingCheckpoints T) w4 (RowCheckpoint <$> todo) Hh4 eq_refl)
    as (w5 & E5 & Hr5).
  { cbn. rewrite Hd4, Hcps. reflexivity. }
  unfold getPendingCheckpoints. unfold bind at 1. rewrite (bind_ret_run _ _ _ _ _ E5).
  unfold results_of at 1. unfold bind at 1. unfold ret at 1 2.
  rewrite checkpoint_rows_fmap.
  pose proof (only_read_trans _ _ _ Hr14 Hr5) as Hr15.
  pose proof Hr15 as (Hh5 & Hd5 & _).
  unfold getLastCompletedCheckpoint. unfold bind at 1. unfold bind at 1.
  destruct (healthy_read (SelectLastCompleted T) w5
              (RowCheckpoint <$> take 1 (order_by_end_id_desc
                 (filter (fun c => for_table T c && is_completed c) cps))) Hh5 eq_refl)
    as (w6 & E6 & Hr6).
  { cbn. rewrite Hd5, Hcps. reflexivity. }
  rewrite E6.
  unfold results_of at 1. unfold bind at 1. unfold ret at 1 2.
  pose proof (only_read_trans _ _ _ Hr15 Hr6) as Hr16.
  pose proof Hr16 as (Hh6 & Hd6 & Hrows6 & Hpg6 & Hgas6 & _).
  destruct (length todo =? 0)%nat eqn:El0.
  { apply Nat.eqb_eq in El0. destruct todo; [congruence|discriminate]. }
  destruct (process_all_healthy cfg Hb todo 0 w6 cps Hh6)
    as (w7 & cps' & pages & E7 & Hh7 & Hpg7 & Hrows7 & Hc7 & Hpages & Ht7 & Hall7).
  { congruence. }
  { rewrite Hrows6. exact Hvalid. }
  { rewrite Hd6. exact Hcps. }
  { intros _. rewrite Hd6. fold T. rewrite Hold. eauto. }
  { rewrite Hrows6, Hgas6. exact Hgas. }
  assert (Hpages' : Forall2 (fun c page => processed_rows cfg (fetched_rows cfg c w) = inl page)
                      todo pages).
  { eapply Forall2_impl; [exact Hpages|]. intros c page Hc.
    rewrite <- (fetched_rows_source cfg c w w6 Hrows6). exact Hc. }
  rewrite Hrows6, <- (length_pages cfg w todo pages Hpages'), Z.add_0_l in E7.
  rewrite (bind_ret_run _ _ _ _ _ E7).
  assert (Htables : d1_tables (w_d1 w7)
                    = <[T := old ++ tuples_of (insert_columns T) (concat pages)]>
                        (d1_tables (w_d1 w))).
  { rewrite Ht7, Hd6. unfold appended, with_appended. fold T. rewrite Hs.
    cbn [d1_tables]. rewrite Hold. reflexivity. }
  destruct (healthy_read (SelectCount T) w7
              [RowCount (Z.of_nat (length (old ++ tuples_of (insert_columns T)
                                                  (concat pages))))] Hh7 eq_refl)
    as (w8 & E8 & Hr8).
  { cbn [d1_exec]. unfold table_count. rewrite HT, Htables, lookup_insert_eq. reflexivity. }
  unfold verify_count. unfold bind at 1. rewrite (bind_ret_run _ _ _ _ _ E8).
  unfold first_count, results_of, bind, ret.
  pose proof Hr8 as (_ & Hd8 & _).
  exists w8, cps', pages. split; [reflexivity|]. split; [exact Hpages'|].
  rewrite Hd8. split; [exact Htables|]. split; [exact Hc7|exact Hall7].
Qed.

End ResumeRunFacts.

Lemma healthy_resume_finishes_what_is_left_witness :
  supported (TABLE_NAME coordinate_cfg) = true /\ 1 <= BATCH_SIZE coordinate_cfg /\
  RESUME_MODE coordinate_cfg = true /\ healthy half_done_world /\
  w_pg_faults half_done_world = [] /\
  rows_insertable (w_pg_rows half_done_world) /\
  exists w', @migrateData strict_platform coordinate_cfg half_done_world = (w', Some 0).
Proof.
  assert (H1 : supported (TABLE_NAME coordinate_cfg) = true) by reflexivity.
  assert (H2 : 1 <= BATCH_SIZE coordinate_cfg) by (vm_compute; discriminate).
  assert (H3 : RESUME_MODE coordinate_cfg = true) by reflexivity.
  assert (H4 : healthy half_done_world) by reflexivity.
  assert (H5 : w_pg_faults half_done_world = []) by reflexivity.
  assert (H7 : rows_insertable (w_pg_rows half_done_world))
    by apply coordinate_rows_insertable.
  assert (H8 : @timestamps_valid strict_platform coordinate_cfg (w_pg_rows half_done_world)).
  { intros Hc. discriminate. }
  assert (H9 : d1_checkpoints (w_d1 half_done_world)
               = Some [MkCheckpoint 1 "coordinate_speed_new" 1 4 4 completed None None None 0;
                       MkCheckpoint 2 "coordinate_speed_new" 5 7 0 failed
                         (Some "fetch failed") None None 0]) by reflexivity.
  assert (H10 : d1_tables (w_d1 half_done_world) !! TABLE_NAME coordinate_cfg
                = Some (tuples_of coordinate_columns (coordinate_row <$> seqZ 1 4))).
  { cbn [half_done_world w_d1 d1_tables]. apply lookup_singleton_eq. }
  assert (H11 : left_to_do (TABLE_NAME coordinate_cfg)
                  [MkCheckpoint 1 "coordinate_speed_new" 1 4 4 completed None None None 0;
                   MkCheckpoint 2 "coordinate_speed_new" 5 7 0 failed
                     (Some "fetch failed") None None 0] <> []).
  { intros Hc. apply (f_equal length) in Hc. vm_compute in Hc. discriminate. }
  assert (H12 : (sum_list_with
                   (fun c => page_size (w_pg_rows half_done_world) (range_of_checkpoint c))
                   (left_to_do (TABLE_NAME coordinate_cfg)
                      [MkCheckpoint 1 "coordinate_speed_new" 1 4 4 completed None None None 0;
                       MkCheckpoint 2 "coordinate_speed_new" 5 7 0 failed
                         (Some "fetch failed") None None 0])
                 <= w_gas half_done_world)%nat) by (vm_compute; lia).
  split; [exact H1|]. split; [exact H2|]. split; [exact H3|]. split; [exact H4|].
  split; [exact H5|]. split; [exact H7|].
  destruct (@healthy_resume_finishes_what_is_left strict_platform coordinate_cfg
              half_done_world _ _ H1 H2 H3 H4 H5 H7 H8 H9 H10 H11 H12)
    as (w' & _ & _ & _ & _ & E & _).
  exists w'. exact E.
Defined.

Section SizeFacts.
Context `{Platform}.

(** *** A batch size of zero *)
Lemma slice_nothing {A} (l : list A) : slice l 0 (Z.min (0 + 0) (Z.of_nat (length l))) = [].
Proof.
  replace (Z.min (0 + 0) (Z.of_nat (length l))) with 0 by lia.
  unfold slice. cbv zeta. change (0 <? 0) with false. cbv iota.
  rewrite Z.min_l by lia. reflexivity.
Qed.

Lemma empty_insert_refused table arity w :
  healthy w ->
  exists w' e,
    executeD1SQL (InsertRows table 0 arity []) w = (w', Throw e) /\
    healthy w' /\ w_d1 w' = w_d1 w /\ same_source w w'.
Proof.
  intros Hh.
  destruct (executeD1SQL_healthy_refused (InsertRows table 0 arity []) w
              "incomplete input: SQLITE_ERROR" Hh eq_refl)
    as (w' & E & Hh' & Hd' & Hs' & _).
  exists w'. eexists. split; [exact E|]. repeat split; try assumption; apply Hs'.
Qed.

(** X28: a batch size of zero ([BATCH_SIZE=0] in the environment) fails
    every checkpoint that has rows.  [Math.ceil(length / 0)] is [Infinity],
    so the loop starts, its first batch is empty, and the database refuses
    the INSERT without a row on each of the three attempts: the checkpoint
    is left [failed] with zero records and the message of that error, the
    error is rethrown, and no data table has changed. *)
Theorem zero_batch_size_fails_checkpoint (cfg : Config) (checkpoint : Checkpoint)
    (w : World) (cps : list Checkpoint) (rows' : list (gmap string value)) :
  supported (TABLE_NAME cfg) = true -> BATCH_SIZE cfg = 0 ->
  healthy w -> w_pg_faults w = [] ->
  d1_checkpoints (w_d1 w) = Some cps ->
  processed_rows cfg (fetched_rows cfg checkpoint w) = inl rows' -> rows' <> [] ->
  (1 <= w_gas w)%nat ->
  exists w' cps' e,
    processCheckpoint cfg checkpoint w = (w', Throw e) /\
    d1_tables (w_d1 w') = d1_tables (w_d1 w) /\
    d1_checkpoints (w_d1 w') = Some cps' /\
    Forall2 (left_as (cp_id checkpoint) failed 0 (Some (message e))) cps cps'.
Proof.
  intros Hs Hzero Hh Hpg Hcps Hproc Hne Hgas.
  unfold processCheckpoint, try_catch. rewrite processCheckpoint_try_split.
  destruct (updateCheckpointStatus_healthy_run (cp_id checkpoint) in_progress 0 None w cps
              Hh Hcps) as (wa & Ea & Hha & (Hrows_a & Hpg_a & Hgas_a) & Hca & Hda).
  rewrite (bind_ret_run _ _ _ _ _ Ea).
  assert (Hfetch : exists wb e, fetch_and_insert cfg checkpoint wa = (wb, Throw e)
                   /\ healthy wb /\ w_d1 wb = w_d1 wa).
  { unfold fetch_and_insert.
    unfold bind at 1. unfold try_catch, pg_call at 1. rewrite Hpg_a, Hpg. cbn [head tail].
    unfold bind at 1. unfold pg_query_range, bind at 1. unfold pg_call at 1.
    cbn [w_pg_faults head tail]. cbn [w_pg_rows]. rewrite Hrows_a.
    pose proof (length_processed_rows _ _ _ Hproc) as Hlen.
    unfold fetched_rows, processed_rows in Hproc, Hlen.
    set (rows := select_columns (fetch_columns cfg) <$> merge_sort row_id_le
                   (filter (in_range (cp_start_id checkpoint) (cp_end_id checkpoint))
                      (w_pg_rows w))) in *.
    cbn [w_d1 w_faults w_requests w_clock w_sleeps w_gas w_pg_rows w_pg_faults].
    destruct (length rows =? 0)%nat eqn:E0.
    { apply Nat.eqb_eq in E0. rewrite E0 in Hlen. destruct rows'; [congruence|discriminate]. }
    assert (Hstep : (if String.eqb (TABLE_NAME cfg) "camera_locations"
                     then lift (transform_rows rows) else ret rows)
                    = @ret (list (gmap string value)) rows').
    { destruct (String.eqb (TABLE_NAME cfg) "camera_locations");
        [rewrite Hproc; reflexivity|injection Hproc as Hr; rewrite Hr; reflexivity]. }
    rewrite Hstep. unfold bind at 1. unfold ret at 1. unfold bind at 1.
    unfold insert_batches, Math_ceil_div. rewrite Hzero. cbn [Z.eqb].
    cbn [w_gas]. rewrite Hgas_a. destruct (w_gas w) as [|g] eqn:Eg; [lia|].
    cbn [batch_loop lt_count]. unfold bind at 1. unfold tick at 1. cbn [w_gas].
    rewrite Hzero. change (0 * 0) with 0. rewrite slice_nothing.
    unfold bind at 1. unfold executeBatchInsert.
    unfold supported in Hs.
    destruct (String.eqb (TABLE_NAME cfg) "coordinate_speed_new") eqn:Ec.
    - unfold bind at 1.
      match goal with |- context [executeD1SQL _ ?w0] =>
        destruct (empty_insert_refused "coordinate_speed_new" 5 w0 Hha)
          as (wb & e & Eb & Hhb & Hdb & _)
      end.
      cbn [length flat_params mbind list_bind] in *. rewrite Eb.
      exists wb, e. split; [reflexivity|]. split; [exact Hhb|exact Hdb].
    - cbn [orb] in Hs. rewrite Hs. unfold bind at 1.
      match goal with |- context [executeD1SQL _ ?w0] =>
        destruct (empty_insert_refused "camera_locations" 6 w0 Hha)
          as (wb & e & Eb & Hhb & Hdb & _)
      end.
      cbn [length flat_params mbind list_bind] in *. rewrite Eb.
      exists wb, e. split; [reflexivity|]. split; [exact Hhb|exact Hdb]. }
  destruct Hfetch as (wb & e & Eb & Hhb & Hdb).
  rewrite (bind_throw_run _ _ _ _ _ Eb). unfold processCheckpoint_catch.
  destruct (updateCheckpointStatus_healthy_run (cp_id checkpoint) failed 0
              (Some (message e)) wb
              (update_rows in_progress 0 None started_at (iso_string (w_clock w))
                 (cp_id checkpoint) cps) Hhb)
    as (wc & Ec & Hhc & _ & _ & Hdc).
  { rewrite Hdb, Hda. reflexivity. }
  rewrite (bind_ret_run _ _ _ _ _ Ec). unfold throw.
  exists wc. eexists. exists e. split; [reflexivity|].
  rewrite Hdc, Hdb, Hda. cbn [d1_tables d1_checkpoints].
  split; [reflexivity|]. split; [reflexivity|]. apply Forall2_left_as.
Qed.

(** X29: a traditional migration with a batch size of zero or less empties
    the destination and copies nothing.  On a remote that answers, the
    DELETE goes through and then: with a negative batch size no batch is
    formed, only the count is read, and the run still ends with exit code
    0; with a batch size of zero the first INSERT carries no row, is
    refused, and the run ends with exit code 1.  In both cases the table is
    left empty and exactly the two requests named here were sent. *)
Theorem traditional_run_without_batches (s : Traditional.Script) (env : option Z)
    (w : Traditional.World) (old : list (list value)) (rows' : list (gmap string value)) :
  Traditional.BATCH_SIZE s env <= 0 ->
  Traditional.t_pg_faults w = [] -> Traditional.t_failures w = [] ->
  Traditional.t_pg_rows w <> [] ->
  Traditional.processed s (Traditional.fetched s w) = inl rows' ->
  d1_tables (Traditional.t_d1 w) !! Traditional.table s = Some old ->
  (1 <= Traditional.t_gas w)%nat ->
  exists w',
    Traditional.migrateData s env w
      = (w', Some (if Traditional.BATCH_SIZE s env <? 0 then 0 else 1)) /\
    d1_tables (Traditional.t_d1 w')
      = <[Traditional.table s := []]> (d1_tables (Traditional.t_d1 w)) /\
    Traditional.t_requests w'
      = Traditional.t_requests w ++
        [Traditional.DeleteAll (Traditional.table s);
         if Traditional.BATCH_SIZE s env <? 0
         then Traditional.CountAll (Traditional.table s)
         else Traditional.InsertInto (Traditional.table s) 0
                (length (Traditional.columns s)) []].
Proof.
  intros Hb Hpg Hfs Hne Hproc Hold Hgas.
  unfold Traditional.migrateData, Traditional.migrateData_try.
  rewrite (bind_ret_run' _ _ _ _ _ (pg_call_ok w Hpg)).
  rewrite (bind_ret_run' _ _ _ _ _ (pg_call_ok w Hpg)).
  destruct (Z.of_nat (length (Traditional.t_pg_rows w)) =? 0) eqn:Ez.
  { apply Z.eqb_eq in Ez. destruct (Traditional.t_pg_rows w); [congruence|discriminate]. }
  rewrite (bind_ret_run' _ _ _ _ _ (pg_call_ok w Hpg)).
  rewrite Hproc. unfold Traditional.lift. unfold Traditional.bind at 1.
  unfold Traditional.ret at 1.
  unfold Traditional.bind at 1. unfold Traditional.try_catch.
  unfold Traditional.bind at 1. unfold Traditional.executeD1SQL at 1.
  rewrite Hfs. cbn [head tail Traditional.execute]. rewrite Hold.
  unfold Traditional.ret at 1.
  cbn [Traditional.t_d1 Traditional.t_failures Traditional.t_requests Traditional.t_pg_rows
       Traditional.t_pg_faults Traditional.t_sleeps Traditional.t_gas].
  unfold Traditional.bind at 1.
  cbn [Traditional.t_d1 Traditional.t_failures Traditional.t_requests Traditional.t_pg_rows
       Traditional.t_pg_faults Traditional.t_sleeps Traditional.t_gas].
  destruct (Traditional.t_gas w) as [|g] eqn:Eg; [lia|].
  destruct (Traditional.BATCH_SIZE s env <? 0) eqn:Eneg.
  - apply Z.ltb_lt in Eneg.
    pose proof (no_batches_negative (Z.of_nat (length rows')) (Traditional.BATCH_SIZE s env) 0
                  ltac:(lia) Eneg ltac:(lia)) as Hno.
    cbn [Traditional.insert_loop]. rewrite Hno. unfold Traditional.ret at 1.
    unfold Traditional.bind at 1. unfold Traditional.executeD1SQL at 1.
    cbn [Traditional.t_d1 Traditional.t_failures Traditional.t_requests head tail
         Traditional.execute d1_exec].
    unfold table_count.
    replace (String.eqb (Traditional.table s) checkpoints_name) with false
      by (destruct s; reflexivity).
    cbn [d1_tables]. rewrite lookup_insert_eq. cbn [fmap option_fmap option_map length].
    unfold Traditional.ret. eexists. split; [reflexivity|].
    cbn [Traditional.t_d1 Traditional.t_requests d1_tables].
    split; [reflexivity|]. rewrite <- app_assoc. reflexivity.
  - apply Z.ltb_ge in Eneg. assert (Hzero : Traditional.BATCH_SIZE s env = 0) by lia.
    rewrite Hzero. unfold Math_ceil_div. cbn [Z.eqb].
    cbn [Traditional.insert_loop lt_count]. unfold Traditional.bind at 1.
    unfold Traditional.tick at 1. cbn [Traditional.t_gas].
    change (0 * 0) with 0. rewrite slice_nothing.
    unfold Traditional.bind at 1. unfold Traditional.executeBatchInsert.
    unfold Traditional.bind at 1. unfold Traditional.executeD1SQL at 1.
    cbn [Traditional.t_d1 Traditional.t_failures Traditional.t_requests head tail
         Traditional.execute d1_exec length flat_params mbind list_bind Nat.eqb].
    eexists. split; [reflexivity|].
    cbn [Traditional.t_d1 Traditional.t_requests d1_tables].
    split; [reflexivity|]. rewrite <- app_assoc. reflexivity.
Qed.

End SizeFacts.

Lemma zero_batch_size_fails_checkpoint_witness :
  supported (TABLE_NAME zero_cfg) = true /\ BATCH_SIZE zero_cfg = 0 /\
  healthy coordinate_world /\ w_pg_faults coordinate_world = [] /\
  fetched_rows zero_cfg checkpoint_1_7 coordinate_world <> [] /\
  (1 <= w_gas coordinate_world)%nat /\
  exists w' e,
    @processCheckpoint strict_platform zero_cfg checkpoint_1_7 coordinate_world
      = (w', Throw e).
Proof.
  assert (H1 : supported (TABLE_NAME zero_cfg) = true) by reflexivity.
  assert (H2 : BATCH_SIZE zero_cfg = 0) by reflexivity.
  assert (H3 : healthy coordinate_world) by reflexivity.
  assert (H4 : w_pg_faults coordinate_world = []) by reflexivity.
  assert (H5 : d1_checkpoints (w_d1 coordinate_world) = Some [checkpoint_1_7])
    by reflexivity.
  assert (H6 : @processed_rows strict_platform zero_cfg
                 (fetched_rows zero_cfg checkpoint_1_7 coordinate_world)
               = inl (fetched_rows zero_cfg checkpoint_1_7 coordinate_world))
    by reflexivity.
  assert (H7 : fetched_rows zero_cfg checkpoint_1_7 coordinate_world <> []).
  { intros Hc. apply (f_equal length) in Hc. vm_compute in Hc. discriminate. }
  assert (H8 : (1 <= w_gas coordinate_world)%nat) by (vm_compute; lia).
  split; [exact H1|]. split; [exact H2|]. split; [exact H3|]. split; [exact H4|].
  split; [exact H7|]. split; [exact H8|].
  destruct (@zero_batch_size_fails_checkpoint strict_platform zero_cfg checkpoint_1_7
              coordinate_world [checkpoint_1_7] _ H1 H2 H3 H4 H5 H6 H7 H8)
    as (w' & cps' & e & E & _).
  exists w', e. exact E.
Defined.

Lemma traditional_run_without_batches_witness :
  Traditional.BATCH_SIZE Traditional.migrate_js (Some (-5)) <= 0 /\
  Traditional.t_pg_faults (traditional_world []) = [] /\
  Traditional.t_failures (traditional_world []) = [] /\
  Traditional.t_pg_rows (traditional_world []) <> [] /\
  (1 <= Traditional.t_gas (traditional_world []))%nat /\
  exists w',
    @Traditional.migrateData strict_platform Traditional.migrate_js (Some (-5))
      (traditional_world []) = (w', Some 0) /\
    d1_tables (Traditional.t_d1 w') !! "coordinate_speed_new" = Some [].
Proof.
  assert (H1 : Traditional.BATCH_SIZE Traditional.migrate_js (Some (-5)) <= 0)
    by (vm_compute; discriminate).
  assert (H2 : Traditional.t_pg_faults (traditional_world []) = []) by reflexivity.
  assert (H3 : Traditional.t_failures (traditional_world []) = []) by reflexivity.
  assert (H4 : Traditional.t_pg_rows (traditional_world []) <> []).
  { intros Hc. apply (f_equal length) in Hc. vm_compute in Hc. discriminate. }
  assert (H5 : @Traditional.processed strict_platform Traditional.migrate_js
                 (Traditional.fetched Traditional.migrate_js (traditional_world []))
               = inl (Traditional.fetched Traditional.migrate_js (traditional_world [])))
    by reflexivity.
  assert (H6 : d1_tables (Traditional.t_d1 (traditional_world []))
                 !! Traditional.table Traditional.migrate_js
               = Some [[VNum 0; VNum 0; VNull; VNull; VNull]])
    by (vm_compute; reflexivity).
  assert (H7 : (1 <= Traditional.t_gas (traditional_world []))%nat) by (vm_compute; lia).
  split; [exact H1|]. split; [exact H2|]. split; [exact H3|]. split; [exact H4|].
  split; [exact H7|].
  destruct (@traditional_run_without_batches strict_platform Traditional.migrate_js
              (Some (-5)) (traditional_world []) _ _ H1 H2 H3 H4 H5 H6 H7)
    as (w' & E & Ht & _).
  exists w'. split; [exact E|]. rewrite Ht. apply lookup_insert_eq.
Defined.

Section PlannerLimits.
Context `{Platform}.

(** *** The planner beyond the safe integers *)
Lemma double_2_53_plus_1 : js_add (2 ^ 53) 1 = 2 ^ 53.
Proof. vm_compute. reflexivity. Qed.

Lemma first_window_from_2_53 maxId :
  2 ^ 53 <= maxId ->
  Z.min (js_sub (js_add (2 ^ 53) 1) 1) maxId = 2 ^ 53 - 1 /\
  js_add (Z.min (js_sub (js_add (2 ^ 53) 1) 1) maxId) 1 = 2 ^ 53.
Proof.
  intros Hmax. rewrite double_2_53_plus_1.
  assert (Hsub : js_sub (2 ^ 53) 1 = 2 ^ 53 - 1) by (vm_compute; reflexivity).
  rewrite Hsub, Z.min_l by lia. split; [reflexivity|]. vm_compute. reflexivity.
Qed.

Lemma plan_loop_stalls maxId :
  2 ^ 53 <= maxId ->
  forall fuel checkpoints w,
    (plan_loop fuel 1 (2 ^ 53) maxId checkpoints w).2 = Diverge.
Proof.
  intros Hmax. destruct (first_window_from_2_53 maxId Hmax) as [_ Hnext].
  assert (Hle : (2 ^ 53 <=? maxId) = true) by (apply Z.leb_le; exact Hmax).
  induction fuel as [|fuel IH]; intros checkpoints w; cbn [plan_loop]; rewrite Hle.
  - reflexivity.
  - unfold bind at 1. unfold tick at 1. destruct (w_gas w) as [|g]; [reflexivity|].
    rewrite Hnext. apply IH.
Qed.

(** X30: from ids of 2^53 on the planner's double arithmetic is no longer
    exact, and the bound on the ids is needed for planning to end.  With a
    checkpoint size of 1 and a smallest id of 2^53, [currentStart + 1] is
    [currentStart] again, the first window is the empty range from 2^53 to
    2^53 - 1, and [currentEnd + 1] gives back the same [currentStart]: the
    loop repeats this window for ever, whatever the largest id, and
    planning never returns. *)
Theorem planner_never_returns_from_2_53 (maxId : Z) (w : World) :
  2 ^ 53 <= maxId ->
  js_add (2 ^ 53) 1 = 2 ^ 53 /\
  Z.min (js_sub (js_add (2 ^ 53) 1) 1) maxId = 2 ^ 53 - 1 /\
  js_add (Z.min (js_sub (js_add (2 ^ 53) 1) 1) maxId) 1 = 2 ^ 53 /\
  (forall fuel checkpoints,
     (plan_loop fuel 1 (2 ^ 53) maxId checkpoints w).2 = Diverge) /\
  (plan_checkpoints 1 (Some (2 ^ 53)) (Some maxId) w).2 = Diverge.
Proof.
  intros Hmax. destruct (first_window_from_2_53 maxId Hmax) as [Hend Hnext].
  split; [exact double_2_53_plus_1|]. split; [exact Hend|]. split; [exact Hnext|].
  split; [intros fuel checkpoints; apply plan_loop_stalls; exact Hmax|].
  unfold plan_checkpoints. apply plan_loop_stalls. exact Hmax.
Qed.

End PlannerLimits.

Lemma planner_never_returns_from_2_53_witness :
  2 ^ 53 <= 2 ^ 53 + 10 /\
  (@plan_checkpoints 1 (Some (2 ^ 53)) (Some (2 ^ 53 + 10)) scenario_world).2 = Diverge.
Proof.
  assert (H1 : 2 ^ 53 <= 2 ^ 53 + 10) by lia.
  split; [exact H1|].
  exact (proj2 (proj2 (proj2 (proj2
           (planner_never_returns_from_2_53 (2 ^ 53 + 10) scenario_world H1))))).
Defined.

(** *** Lost answers, on concrete runs *)

(** The first batch of 16 rows is executed, its answer is lost, and the
    retry inserts it again: the checkpoint is completed with 20 records
    while the destination has gained 36 rows. *)
Lemma lost_answer_inserts_a_batch_twice :
  (@processCheckpoint strict_platform camera_cfg checkpoint_1_20 lost_insert_world).2
    = Ret 20 /\
  dest_rows "camera_locations"
    (@processCheckpoint strict_platform camera_cfg checkpoint_1_20 lost_insert_world).1
    = dest_rows "camera_locations" lost_insert_world + 36 /\
  (cp_status <$> default []
     (d1_checkpoints (w_d1 (@processCheckpoint strict_platform camera_cfg checkpoint_1_20
                              lost_insert_world).1)),
   cp_records_processed <$> default []
     (d1_checkpoints (w_d1 (@processCheckpoint strict_platform camera_cfg checkpoint_1_20
                              lost_insert_world).1)))
    = ([completed], [20]).
Proof. vm_compute. repeat split. Qed.

(** The completing write is executed on each of its three attempts, no
    answer arrives, and the [catch] block then marks the completed
    checkpoint failed: the 20 rows are in the destination, the row says
    failed with 0 records, and the next run copies them again. *)
Lemma lost_answer_fails_a_completed_checkpoint :
  d1_history (w_d1 (@processCheckpoint strict_platform camera_cfg checkpoint_1_20
                      lost_completion_world).1)
    = [(1, pending, in_progress); (1, in_progress, completed); (1, completed, completed);
       (1, completed, completed); (1, completed, failed)] /\
  dest_rows "camera_locations"
    (@processCheckpoint strict_platform camera_cfg checkpoint_1_20 lost_completion_world).1
    = dest_rows "camera_locations" lost_completion_world + 20 /\
  (cp_status <$> default []
     (d1_checkpoints (w_d1 (@processCheckpoint strict_platform camera_cfg checkpoint_1_20
                              lost_completion_world).1)),
   cp_records_processed <$> default []
     (d1_checkpoints (w_d1 (@processCheckpoint strict_platform camera_cfg checkpoint_1_20
                              lost_completion_world).1)))
    = ([failed], [0]).
Proof. vm_compute. repeat split. Qed.
